(* ===== verification/_CoqProject ===== *)
-Q . S2P
Prelude.v
RustStr.v
Float64.v
Crates.v
Async.v
Pool.v
Merkle.v
MerkleSpec.v
MerkleProofs.v
MerkleConsistency.v
HashTree.v
MerkleTheorems.v
Sth.v
Store.v
Tlog.v
PgStore.v
Json.v
Serde.v
Token.v
CircuitBreaker.v
Client.v
Middleware.v
Revoke.v
Auth.v
TlogClient.v
Routing.v
PolicyIpc.v
Allowlist.v
KernelAuthorize.v
Policy.v
PolicyRoutes.v
KernelRevoke.v
Executor.v
NonceStore.v
Adapters.v
Reaper.v
EndToEnd.v
RevokeClients.v
KernelHttp.v
RevokeHttp.v
EpisodicChain.v
McpAudit.v
WaveContext.v
Wave.v
WaveSession.v
WaveRoutes.v
WaveTheorems.v
SideTable.v
WaveReboot.v
AuditRoutes.v
LogHttp.v
LogService.v
Reconciler.v
AuthorizeHttp.v
KernelService.v
Constraints.v
Settings.v
Boot.v
LogRestart.v
Tls.v
ReaperBoot.v
