(* ===== verification/Prelude.v ===== *)
(** * The Unfireable Safety Kernel: a verification development

    The repository is a Rust workspace, [src/crates], around one idea: an agent must
    not be able to grant itself an action, nor to keep itself alive once its operator
    wants it stopped.  A {i kernel} answers authorisation questions with signed,
    expiring tokens and issues signed kill and restore decisions; a {i transparency
    log} keeps every decision in an append-only Merkle ledger; a {i reaper}, on its
    own host, polls the kernel for kills and stops the agent's machine; a {i client
    SDK} with a circuit breaker and a {i middleware} put the kernel in front of an
    application; a {i reconciler} compares running images with a signed release
    manifest; and the {i wave} domain types carry the ceremony by which code changes
    are approved and recorded.  This library models that code, component by component,
    and proves what makes each correct and what holds of their compositions.

    ** How the code is read

    Pure functions are Rocq functions.  A function returning [Result] lands in [res]
    below, with [Panic] for what else Rust code can do.  A type of the code is a record
    or an inductive with the code's names, prefixed where two types share a field
    name.  Integers are [N] or [Z] with their width written out where it can be
    reached: [u64::try_from] and [checked_add] fail as they do, and an arithmetic
    overflow is a [Panic], as in a build with overflow checks.  [f64] is the standard
    library's executable binary64 (Float64).  A [&str] is a [string] of its UTF-8 bytes,
    and [RustStr] has the standard library's string routines the code uses.  A [HashMap]
    is a [gmap], or a [gset] with an arbitrary iteration order where the code iterates;
    a [BTreeMap] or a [serde_json::Map] is a list kept sorted by key.

    An [async] handler is a [prog] (Async): a tree of atomic steps on the shared
    world, one per await, and one per lock where the runtime is multi-threaded.
    [exec] runs it among other tasks, whose steps between two of its own are a
    relation given with each theorem; [run] is the run at rest.  A running service is a
    pool of handlers (Pool): a list of requests in flight, of which any one takes its next
    step ([turn]), the lock of a mutex admitting one at a time; a handler that keeps its
    side of the relation ([keeps]) ran, once answered, as [exec] says
    ([served_alone_among_others]), so the theorems on single handlers hold of the
    service.  Recursion that is not
    structural takes fuel: the Merkle recursions take the length of the list they
    halve, which [MerkleSpec] shows is enough below [2^63] leaves ([max_leaves], a
    bound no [Vec] reaches), [while] loops over a number are recursion on its binary
    digits, and the poll loops are folds over the answers of their polls.  No theorem
    says only what happens if a definition returns: where one has fuel, the result is
    shown to be produced.

    What is not in the repository is a class of operations, and a second class with
    the part of its documented behaviour that a theorem needs (Crates and the files
    that use them): SHA-256, Ed25519, HMAC, hex, base64, the printer and the parser of
    [serde_json], the HTTP stacks, the regex engine, the LRU cache, SQLite, Postgres, the
    OCI registry, the policy sidecar behind its socket, the secret manager and the
    metadata server, the TLS library, the clock, the random source and the UUIDs.  Each
    hypothesis class has an instance, and each property a witness at it.  Collision
    resistance is never assumed: a soundness theorem gives what it claims or a
    collision.  Nor is unforgeability: what an accepted token or manifest says was
    signed by the holder of the key, or that very token or manifest is a forgery.

    ** The files

    - Foundations: [Prelude] (outcomes, arrays of bytes, list lemmas, the [wire] and
      [bytes] hint databases, the [step] tactic), [RustStr], [Float64], [Crates], [Async],
      [Pool] (requests in flight), [Routing] (route tables), [Json]
      ([token/canonical.rs]), [Serde] (what the derived serialisers do).
    - The ledger: [Merkle], [HashTree] ([domain/src/transparency/merkle.rs]), their
      reference definitions and proofs in [MerkleSpec], [MerkleProofs],
      [MerkleConsistency], their theorems in [MerkleTheorems]; [Sth] ([sth.rs]); [Store]
      ([adapters/transparency_store/src/lib.rs] and [memory.rs]) with the interface
      [StoreLaws] every route theorem is proved against; [PgStore] ([postgres.rs] and
      its migration).
    - The log service, [services/transparency-log/src]: [Tlog] (append, verify, sth,
      consistency), [WaveRoutes] and [WaveTheorems] (wave sessions, per-skill keys, the
      reconstruction at boot), [SideTable] (the SQLite detail table), [WaveReboot] (boot,
      table and verify route together), [AuditRoutes] (MCP audit and drift
      records), [TlogClient] (the kernel's client of it and the reaper's kill recorder),
      [LogHttp] ([router.rs], [dto.rs]: its route table, layers and wire forms),
      [LogService] (any requests to it in flight).
    - Tokens and decisions: [Token] ([domain/src/safety/claims.rs], [token/],
      the pinned verifier of the SDK), [Allowlist], [Constraints], [Policy],
      [Revoke] ([domain/src/safety/]).
    - The kernel, [services/safety-kernel/src]: [Auth], [PolicyIpc]
      ([adapters/src/policy_engine_client.rs]), [KernelAuthorize] (authorize,
      approvals), [PolicyRoutes], [KernelRevoke], their HTTP face in [KernelHttp],
      [RevokeHttp], [AuthorizeHttp], and the router of [main.rs] with any requests in
      flight in [KernelService].
    - Its clients: [CircuitBreaker], [Client], [RevokeClients]
      ([adapters/safety_kernel_client/src]), [Middleware]
      ([adapters/safety_kernel_middleware/src]), the dispatcher's client
      ([AuthorizeHttp]).
    - The reaper, [services/safety-kernel-reaper/src]: [Executor], [NonceStore],
      [Reaper], and with the kernel in [EndToEnd].
    - The reconciler and the recorded domains: [Reconciler]
      ([services/safety-kernel-reconciler/src]), [WaveContext], [Wave], [WaveSession]
      ([domain/src/wave]), [EpisodicChain], [McpAudit].
    - Processes: [Adapters] (clock, nonce source), [Tls] (what the listeners and the
      clients make of their PEM files), [Settings], [Boot], [LogRestart], [ReaperBoot].

    ** What the theorems show

    - The ledger's proofs are complete and sound against [compute_root], the cached
      tree answers as the recomputed one ([MerkleTheorems]); the memory store is the
      abstract ledger of [Store.ledger_append]; and the four routes serve only proofs
      that verify, among any other requests ([Tlog]).  The tree-head route reads the
      size and the root in two steps, and [Tlog.Demo.sth_race] shows the signed head
      that comes of it.
    - A running log, its ten routes behind its layers, with any requests in flight in any
      interleaving ([LogService]): its consistency answers are true, an acknowledged
      entry is served ever after, nothing changes without the key, and every request is
      answered.
    - A running kernel ([KernelService]): whatever is in flight on its fourteen routes, its
      queue holds decisions in order, and a request does nothing on a route that its key's
      role may not use.
    - The Postgres store is that ledger too, but its indices are drawn from a sequence
      and are no positions ([PgStore]).  It has no instance of [StoreLaws], and what
      becomes of the routes on it is proved there: the theorems of [Tlog], [WaveTheorems]
      and [AuditRoutes] that name an index are about the memory store; what a reboot
      serves is about both ([WaveReboot]).
    - A token verifies exactly as signed, within its times and for its audience, and
      what verifies was issued ([Token]); the kernel signs only what its policy engine
      and its log agreed to ([KernelAuthorize]), module verdicts are bound to the event
      they judge ([PolicyRoutes]), and an answer of the sidecar to another question is
      not taken ([PolicyIpc]).
    - The breaker and the SDK are fail-closed ([CircuitBreaker], [Client]), the
      middleware forwards nothing unvouched ([Middleware]), and over HTTP the SDK's
      report is the handler's decision, for authorisations and for revocations
      ([AuthorizeHttp], [RevokeHttp]).
    - The pending queue holds only issued decisions and a restore fences the kills
      before it ([KernelRevoke]); the reaper acts on nothing else, never twice, retries
      what failed, and stops the machine when the kernel goes dark ([Reaper]); minted
      kills are executed ([EndToEnd]); and whatever it meets, a booted reaper touches
      nothing but its operator's scratch instance ([ReaperBoot]).
    - A wave cannot skip a stage ([Wave]), a recorded session was signed under the right
      key ([WaveTheorems]), the detail table keeps what was first put under a hash, but
      its integrity check is not made by the route that serves it ([SideTable]), and a
      restart serves every recorded session, as its row or as its leaf ([WaveReboot],
      [LogRestart]), a drift verdict is the signed manifest's ([Reconciler]).
    - Accepted settings are within bounds ([Settings]); a production kernel that listens
      has its managed key, its operator key, its certificate and its log ([Boot]), and
      its TLS listener is one ([Tls]).

    Properties are the theorems marked C1 to C40 in their comments; a theorem without a
    mark supports them.  The modules named [Demo] hold their witnesses, and examples of
    behaviour that surprised us.

    ** Not modelled

    The construction of HTTP clients (timeouts, connection pools), the tracing layer of
    the routers, log lines, signal handling, and the texts in which [anyhow] and the
    framework wrap errors.  Of the framework, the matching of a path, its decoding, the
    rejections and the answer of the body limit are parameters ([Routing]); headers of
    answers and a client that closes its connection, which drops its handler between two
    awaits, are left out.
    Typed reads of JSON go through [Value]: two differences between the direct and the
    indirect reading in [serde_json], duplicate members and numbers beyond 64 bits, are
    left to the parser parameter.  Benchmarks, examples and tests are not part of the
    program; the scripts and other languages of the repository are not modelled. *)

From Stdlib Require Export Strings.Byte.
From stdpp Require Export base numbers list gmap strings.

(** ** Scopes *)

Declare Scope usk_scope.
Delimit Scope usk_scope with usk.
Open Scope usk_scope.

(** ** Outcomes of Rust code

    A Rust function that returns [Result<A, E>] is a function into [res E A].
    [Panic] stands for the third thing Rust code can do: an arithmetic
    overflow check, an out-of-range index, a [debug_assert!], or a recursion
    that never comes back.  Theorems about totality say "not [Panic]". *)

Inductive res (E A : Type) : Type :=
| Ok (a : A)
| Err (e : E)
| Panic.
Arguments Ok {E A} _.
Arguments Err {E A} _.
Arguments Panic {E A}.

(** The [?] operator. *)
Definition res_bind {E A B} (r : res E A) (f : A -> res E B) : res E B :=
  match r with
  | Ok a => f a
  | Err e => Err e
  | Panic => Panic
  end.

Notation "'let?' x ':=' c 'in' k" := (res_bind c (fun x => k))
  (at level 10, x pattern, c at level 100, k at level 200)
  : usk_scope.

(** [Result::map_err]. *)
Definition map_err {E F A} (f : E -> F) (r : res E A) : res F A :=
  match r with
  | Ok a => Ok a
  | Err e => Err (f e)
  | Panic => Panic
  end.

(** [Option::ok_or]. *)
Definition ok_or {E A} (e : E) (o : option A) : res E A :=
  match o with Some a => Ok a | None => Err e end.

(** Slice indexing [v[i]]: out of range panics. *)
Definition index_panic {E A} (o : option A) : res E A :=
  match o with Some a => Ok a | None => Panic end.

Definition is_ok {E A} (r : res E A) : bool :=
  match r with Ok _ => true | _ => false end.

Lemma res_bind_Ok {E A B} (r : res E A) (f : A -> res E B) b :
  res_bind r f = Ok b <-> exists a, r = Ok a /\ f a = Ok b.
Proof.
  destruct r as [a|e|]; simpl; split.
  - by exists a.
  - intros (? & [= ->] & ?). done.
  - done.
  - by intros (? & ? & ?).
  - done.
  - by intros (? & ? & ?).
Qed.

Lemma map_err_Ok {E F A} (f : E -> F) (r : res E A) a : map_err f r = Ok a <-> r = Ok a.
Proof. destruct r; simpl; naive_solver. Qed.

(** ** Totality

    [auto with total] shows that a chain of fallible steps does not panic. *)
Create HintDb total.

Lemma res_bind_total {E A B} (r : res E A) (f : A -> res E B) :
  r <> Panic -> (forall a, f a <> Panic) -> res_bind r f <> Panic.
Proof. intros Hr Hf. destruct r; [apply Hf|done..]. Qed.

Lemma map_err_total {E F A} (f : E -> F) (r : res E A) : r <> Panic -> map_err f r <> Panic.
Proof. by destruct r. Qed.

Lemma ok_or_total {E A} (e : E) (o : option A) : ok_or e o <> Panic.
Proof. by destruct o. Qed.

Lemma Ok_total {E A} (a : A) : @Ok E A a <> Panic.
Proof. done. Qed.

Lemma Err_total {E A} (e : E) : @Err E A e <> Panic.
Proof. done. Qed.

#[export] Hint Resolve res_bind_total map_err_total ok_or_total Ok_total Err_total : total.

(** One step through a chain of [?]s that ended well. *)
Tactic Notation "step" hyp(H) "as" simple_intropattern(p) := apply res_bind_Ok in H as p.

Lemma res_bind_assoc {E A B C} (r : res E A) (f : A -> res E B) (g : B -> res E C) :
  res_bind (res_bind r f) g = res_bind r (fun a => res_bind (f a) g).
Proof. by destruct r. Qed.

(** ** Automation

    [wire] proves that a JSON value is well-formed and reads back what was written:
    the components add the lemmas of their own types.  [bytes] normalises the lengths
    of byte encodings. *)
Create HintDb wire.
Create Rewrite HintDb wire.
Create HintDb bytes.
Create Rewrite HintDb bytes.

(** ** Machine integers

    [u64], [usize] (64-bit targets) and [u32] values are elements of [N]; the
    operations that can leave the range are written out. *)

Definition u64_max : N := 18446744073709551615%N.
Definition u32_max : N := 4294967295%N.
Definition u64_ok (n : N) : Prop := (n <= u64_max)%N.

Definition checked_add64 (a b : N) : option N :=
  let s := (a + b)%N in if (s <=? u64_max)%N then Some s else None.

Definition saturating_add64 (a b : N) : N := N.min (a + b) u64_max.
Definition saturating_add32 (a b : N) : N := N.min (a + b) u32_max.

(** [u64::is_power_of_two]: exactly one bit set, so [0] is not one. *)
Definition is_power_of_two (n : N) : bool :=
  (negb (n =? 0) && (n =? 2 ^ N.log2 n))%N.

(** [u64::next_power_of_two]: the smallest power of two [>= n]; [None] is the
    overflow panic for [n > 2^63]. *)
Definition next_power_of_two (n : N) : option N :=
  let p := (2 ^ N.log2_up n)%N in
  if (p <=? u64_max)%N then Some p else None.

(** [u64::trailing_zeros] on a non-zero argument. *)
Fixpoint pos_trailing_zeros (p : positive) : N :=
  match p with
  | xO q => N.succ (pos_trailing_zeros q)
  | _ => 0%N
  end.
Definition trailing_zeros (n : N) : N :=
  match n with N0 => 64%N | Npos p => pos_trailing_zeros p end.

(** ** Bytes and fixed-size byte arrays *)

#[global] Instance byte_eq_dec : EqDecision byte := Byte.byte_eq_dec.

#[global] Program Instance byte_countable : Countable byte :=
  inj_countable Byte.to_N Byte.of_N _.
Next Obligation. intros b. apply Byte.of_to_N. Qed.

(** [[u8; n]]. *)
Record array (n : nat) := Array {
  arr_bytes : list byte;
  arr_len : (length arr_bytes =? n)%nat = true
}.
Arguments Array {n} _ _.
Arguments arr_bytes {n} _.
Arguments arr_len {n} _.

Lemma array_length {n} (a : array n) : length (arr_bytes a) = n.
Proof. apply Nat.eqb_eq, arr_len. Qed.

Lemma array_eq {n} (a b : array n) : arr_bytes a = arr_bytes b -> a = b.
Proof.
  destruct a as [x p], b as [y q]; simpl; intros ->.
  f_equal. apply (proof_irrel p q).
Qed.

#[global] Instance array_eq_dec n : EqDecision (array n).
Proof.
  refine (fun a b => cast_if (decide (arr_bytes a = arr_bytes b))).
  - by apply array_eq.
  - congruence.
Defined.

(** Copy the first [n] bytes of a slice into an array, zero-filling. *)
Lemma resize_len n (l : list byte) : (length (resize n x00 l) =? n)%nat = true.
Proof. apply Nat.eqb_eq, length_resize. Qed.

Definition array_of (n : nat) (l : list byte) : array n :=
  Array (resize n x00 l) (resize_len n l).

Lemma array_of_bytes n l : length l = n -> arr_bytes (array_of n l) = l.
Proof. intros <-. simpl. apply resize_all. Qed.

Lemma array_of_id {n} (a : array n) : array_of n (arr_bytes a) = a.
Proof. apply array_eq, array_of_bytes, array_length. Qed.

#[global] Program Instance array_countable n : Countable (array n) :=
  inj_countable arr_bytes (fun l => Some (array_of n l)) _.
Next Obligation. intros n a; simpl. by rewrite array_of_id. Qed.

(** Two concatenations of arrays of the same sizes agree only componentwise. *)
Lemma array_app_inj {n m} (a c : array n) (b d : array m) :
  arr_bytes a ++ arr_bytes b = arr_bytes c ++ arr_bytes d -> a = c /\ b = d.
Proof.
  intros H. apply app_inj_1 in H as [H1 H2]; [|by rewrite !array_length].
  split; by apply array_eq.
Qed.

Definition byte_of_N (n : N) : byte :=
  match Byte.of_N (n mod 256) with Some b => b | None => x00 end.

(** [to_be_bytes] / [to_le_bytes] of a [w]-byte unsigned integer. *)
Fixpoint to_le_bytes (w : nat) (n : N) : list byte :=
  match w with
  | O => []
  | S w => byte_of_N n :: to_le_bytes w (n / 256)%N
  end.
Definition to_be_bytes (w : nat) (n : N) : list byte := rev (to_le_bytes w n).

Lemma length_to_le_bytes w n : length (to_le_bytes w n) = w.
Proof. revert n. induction w as [|w IH]; intros n; simpl; [done|]. by rewrite IH. Qed.

Lemma length_to_be_bytes w n : length (to_be_bytes w n) = w.
Proof. unfold to_be_bytes. by rewrite length_rev, length_to_le_bytes. Qed.

Lemma byte_of_N_inj a b :
  (a < 256)%N -> (b < 256)%N -> byte_of_N a = byte_of_N b -> a = b.
Proof.
  intros Ha Hb. unfold byte_of_N. rewrite !N.mod_small by done.
  destruct (Byte.of_N a) as [x|] eqn:Ex; last first.
  { apply Byte.of_N_None_iff in Ex. lia. }
  destruct (Byte.of_N b) as [y|] eqn:Ey; last first.
  { apply Byte.of_N_None_iff in Ey. lia. }
  apply Byte.to_of_N in Ex, Ey. congruence.
Qed.

Lemma byte_of_N_mod a : byte_of_N (a mod 256) = byte_of_N a.
Proof. unfold byte_of_N. by rewrite N.Div0.mod_mod. Qed.

Lemma to_le_bytes_inj w a b :
  (a < 256 ^ N.of_nat w)%N -> (b < 256 ^ N.of_nat w)%N ->
  to_le_bytes w a = to_le_bytes w b -> a = b.
Proof.
  revert a b. induction w as [|w IH]; intros a b Ha Hb; simpl.
  - simpl in *. lia.
  - rewrite Nat2N.inj_succ, N.pow_succ_r' in Ha, Hb.
    intros H. injection H as H1 H2.
    rewrite <-(byte_of_N_mod a), <-(byte_of_N_mod b) in H1.
    apply byte_of_N_inj in H1; [| by apply N.mod_lt..].
    apply IH in H2; [| apply N.Div0.div_lt_upper_bound; lia ..].
    rewrite (N.div_mod a 256), (N.div_mod b 256) by done. congruence.
Qed.

Lemma to_be_bytes_inj w a b :
  (a < 256 ^ N.of_nat w)%N -> (b < 256 ^ N.of_nat w)%N ->
  to_be_bytes w a = to_be_bytes w b -> a = b.
Proof.
  intros Ha Hb H. unfold to_be_bytes in H.
  apply (f_equal (@rev byte)) in H. rewrite !rev_involutive in H.
  eauto using to_le_bytes_inj.
Qed.

#[export] Hint Rewrite @array_length @length_to_le_bytes @length_to_be_bytes : bytes.
#[export] Hint Resolve array_length length_to_be_bytes : bytes.

(** [from_be_bytes]. *)
Definition from_be_bytes (l : list byte) : N :=
  foldl (fun acc b => (acc * 256 + Byte.to_N b)%N) 0%N l.

Lemma byte_to_N_bound b : (Byte.to_N b < 256)%N.
Proof. destruct b; vm_compute; reflexivity. Qed.

Lemma byte_to_of_N n : Byte.to_N (byte_of_N n) = (n mod 256)%N.
Proof.
  unfold byte_of_N. destruct (Byte.of_N (n mod 256)) as [b|] eqn:E.
  - by apply Byte.to_of_N in E.
  - apply Byte.of_N_None_iff in E. pose proof (N.mod_lt n 256). lia.
Qed.

Lemma byte_of_to_N b : byte_of_N (Byte.to_N b) = b.
Proof. unfold byte_of_N. by rewrite N.mod_small, Byte.of_to_N by apply byte_to_N_bound. Qed.

(** Little end first: the value of a byte is added below what follows. *)
Lemma from_be_bytes_snoc l b : from_be_bytes (l ++ [b]) = (from_be_bytes l * 256 + Byte.to_N b)%N.
Proof. unfold from_be_bytes. by rewrite foldl_app. Qed.

Lemma from_to_be_bytes w n : (n < 256 ^ N.of_nat w)%N -> from_be_bytes (to_be_bytes w n) = n.
Proof.
  unfold to_be_bytes. revert n. induction w as [|w IH]; intros n Hn; simpl.
  - simpl in Hn. by assert (n = 0%N) as -> by lia.
  - rewrite Nat2N.inj_succ, N.pow_succ_r' in Hn.
    rewrite from_be_bytes_snoc, IH, byte_to_of_N by (apply N.Div0.div_lt_upper_bound; lia).
    pose proof (N.div_mod n 256 ltac:(done)). lia.
Qed.

Lemma from_be_bytes_bound l : (from_be_bytes l < 256 ^ N.of_nat (length l))%N.
Proof.
  induction l as [|b l IH] using rev_ind; [done|].
  rewrite from_be_bytes_snoc, length_app, Nat.add_1_r, Nat2N.inj_succ, N.pow_succ_r'.
  pose proof (byte_to_N_bound b). lia.
Qed.

Lemma to_from_be_bytes l : to_be_bytes (length l) (from_be_bytes l) = l.
Proof.
  unfold to_be_bytes. induction l as [|b l IH] using rev_ind; [done|].
  rewrite length_app, Nat.add_1_r, from_be_bytes_snoc. cbn [to_le_bytes rev].
  pose proof (byte_to_N_bound b).
  rewrite N.div_add_l, N.div_small, N.add_0_r, IH by done.
  by rewrite <-byte_of_N_mod, N.add_comm, N.Div0.mod_add, byte_of_N_mod, byte_of_to_N.
Qed.

(** ** Rust strings are UTF-8 byte strings *)

Definition as_bytes (s : string) : list byte := String.list_byte_of_string s.

Lemma as_bytes_inj s t : as_bytes s = as_bytes t -> s = t.
Proof.
  intros H. apply (f_equal String.string_of_list_byte) in H.
  by rewrite !String.string_of_list_byte_of_string in H.
Qed.
