(* ===== verification/RustStr.v ===== *)
(** * Rust's [str]: the string routines the services use

    A [&str] is a [string] read as its UTF-8 bytes.  What the sources use of the
    standard library is written out here: [trim] (Unicode [White_Space]),
    [to_ascii_lowercase], [trim_end_matches], [starts_with], [split] on a
    character, [u64::from_str], [u64::to_string], and UTF-8 validity. *)

From S2P Require Import Prelude.
From Stdlib Require Export Ascii.
From stdpp Require Import pretty.

Local Open Scope string_scope.

Definition code (c : ascii) : N := Ascii.N_of_ascii c.

(** The [White_Space] code points, by the length of their UTF-8 encoding. *)
Definition ws1 (a : ascii) : bool :=
  let n := code a in ((9 <=? n) && (n <=? 13))%N || (n =? 32)%N.
Definition ws2 (a b : ascii) : bool :=
  (code a =? 194)%N && ((code b =? 133)%N || (code b =? 160)%N).
Definition ws3 (a b c : ascii) : bool :=
  let x := code a in let y := code b in let z := code c in
  (((x =? 225) && (y =? 154) && (z =? 128))
   || ((x =? 226) && (y =? 128)
       && (((128 <=? z) && (z <=? 138)) || (z =? 168) || (z =? 169) || (z =? 175)))
   || ((x =? 226) && (y =? 129) && (z =? 159))
   || ((x =? 227) && (y =? 128) && (z =? 128)))%N.

(** Drops leading white space; [w2] and [w3] test the bytes in reading order. *)
Fixpoint trim_with (w2 : ascii -> ascii -> bool) (w3 : ascii -> ascii -> ascii -> bool)
    (s : string) : string :=
  match s with
  | "" => ""
  | String a s1 =>
    if ws1 a then trim_with w2 w3 s1 else
    match s1 with
    | "" => s
    | String b s2 =>
      if w2 a b then trim_with w2 w3 s2 else
      match s2 with
      | "" => s
      | String c s3 => if w3 a b c then trim_with w2 w3 s3 else s
      end
    end
  end.

Fixpoint string_rev_app (s acc : string) : string :=
  match s with "" => acc | String a s => string_rev_app s (String a acc) end.
Definition string_rev (s : string) : string := string_rev_app s "".

Definition trim_start (s : string) : string := trim_with ws2 ws3 s.
Definition trim_end (s : string) : string :=
  string_rev (trim_with (fun b a => ws2 a b) (fun c b a => ws3 a b c) (string_rev s)).
(** [str::trim]. *)
Definition trim (s : string) : string := trim_end (trim_start s).

Definition is_empty (s : string) : bool := match s with "" => true | _ => false end.

(** [str::to_ascii_lowercase]. *)
Definition ascii_lower (a : ascii) : ascii :=
  if ((65 <=? code a) && (code a <=? 90))%N then Ascii.ascii_of_N (code a + 32) else a.
Fixpoint to_ascii_lowercase (s : string) : string :=
  match s with "" => "" | String a s => String (ascii_lower a) (to_ascii_lowercase s) end.

(** [str::trim_end_matches(c)] for a [char] [c]. *)
Fixpoint drop_while_eq (c : ascii) (s : string) : string :=
  match s with
  | "" => ""
  | String a s' => if Ascii.eqb a c then drop_while_eq c s' else s
  end.
Definition trim_end_matches (c : ascii) (s : string) : string :=
  string_rev (drop_while_eq c (string_rev s)).

(** [str::starts_with(&str)]. *)
Definition starts_with (p s : string) : bool := String.prefix p s.

(** [str::split(c)]: the pieces between the occurrences of [c], at least one. *)
Fixpoint split_on (c : ascii) (s : string) : list string :=
  match s with
  | "" => [""]
  | String a s =>
    if Ascii.eqb a c then "" :: split_on c s
    else match split_on c s with
         | p :: ps => String a p :: ps
         | [] => [String a ""]
         end
  end.

(** UTF-8 validity, the invariant of every Rust string. *)
Definition within (lo hi : N) (a : ascii) : bool := (lo <=? code a)%N && (code a <=? hi)%N.
Definition cont (a : ascii) : bool := within 128 191 a.
Fixpoint utf8 (s : string) : bool :=
  match s with
  | "" => true
  | String a s1 =>
    if within 0 127 a then utf8 s1 else
    match s1 with
    | "" => false
    | String b s2 =>
      if within 194 223 a then cont b && utf8 s2 else
      match s2 with
      | "" => false
      | String c s3 =>
        if within 224 239 a then
          (if (code a =? 224)%N then within 160 191 b
           else if (code a =? 237)%N then within 128 159 b else cont b)
          && cont c && utf8 s3
        else
        match s3 with
        | "" => false
        | String d s4 =>
          within 240 244 a &&
          (if (code a =? 240)%N then within 144 191 b
           else if (code a =? 244)%N then within 128 143 b else cont b)
          && cont c && cont d && utf8 s4
        end
      end
    end
  end.

(** [s.chars().take(n).collect::<String>()]: a continuation byte belongs to the
    character before it. *)
Fixpoint take_chars (n : nat) (s : string) : string :=
  match s with
  | "" => ""
  | String a s =>
    if cont a then String a (take_chars n s) else
    match n with O => "" | S n => String a (take_chars n s) end
  end.

(** [<u64 as FromStr>::from_str]: an optional [+], then digits, at least one,
    with the overflow check of [checked_mul] and [checked_add] at each digit. *)
Definition digit_value (a : ascii) : option N :=
  if ((48 <=? code a) && (code a <=? 57))%N then Some (code a - 48)%N else None.
Fixpoint parse_digits (acc : N) (s : string) : option N :=
  match s with
  | "" => Some acc
  | String a s =>
    match digit_value a with
    | None => None
    | Some d =>
      let acc := (acc * 10 + d)%N in
      if (acc <=? u64_max)%N then parse_digits acc s else None
    end
  end.
Definition parse_u64 (s : string) : option N :=
  match s with
  | "" => None
  | String a s' =>
    if Ascii.eqb a "+"%char then (if is_empty s' then None else parse_digits 0 s')
    else parse_digits 0 s
  end.

(** [<i64 as FromStr>::from_str]. *)
Definition parse_i64 (s : string) : option Z :=
  match s with
  | "" => None
  | String a s' =>
    if Ascii.eqb a "-"%char then
      if is_empty s' then None else
      n ← parse_digits 0 s'; if (n <=? 9223372036854775808)%N then Some (- Z.of_N n)%Z else None
    else
      n ← parse_u64 s; if (n <=? 9223372036854775807)%N then Some (Z.of_N n) else None
  end.

(** [u64::to_string]. *)
Definition u64_to_string (n : N) : string := pretty n.

(** ** Lemmas *)

#[local] Arguments String.append !_ _ / : simpl nomatch.

Lemma string_app_nil s : s +:+ "" = s.
Proof. induction s as [|a s IH]; simpl; [done|by rewrite IH]. Qed.

Lemma string_app_assoc (s t u : string) : (s +:+ t) +:+ u = s +:+ (t +:+ u).
Proof. induction s as [|a s IH]; simpl; [done|by rewrite IH]. Qed.

Lemma string_rev_app_spec s acc : string_rev_app s acc = string_rev s +:+ acc.
Proof.
  unfold string_rev. revert acc. induction s as [|a s IH]; intros acc; simpl; [done|].
  by rewrite IH, (IH (String a "")), string_app_assoc.
Qed.

Lemma string_rev_cons a s : string_rev (String a s) = string_rev s +:+ String a "".
Proof. unfold string_rev at 1. simpl. apply string_rev_app_spec. Qed.

Lemma string_rev_snoc s a : string_rev (s +:+ String a "") = String a (string_rev s).
Proof.
  induction s as [|b s IH]; simpl; [done|].
  by rewrite !string_rev_cons, IH.
Qed.

Lemma string_rev_involutive s : string_rev (string_rev s) = s.
Proof.
  induction s as [|a s IH]; [done|]. by rewrite string_rev_cons, string_rev_snoc, IH.
Qed.

Lemma to_ascii_lowercase_idem s : to_ascii_lowercase (to_ascii_lowercase s) = to_ascii_lowercase s.
Proof.
  induction s as [|a s IH]; simpl; [done|]. f_equal; [|done].
  by destruct a as [[] [] [] [] [] [] [] []].
Qed.

(** Bytes in which no white-space sequence can start or end. *)
Definition plain (a : ascii) : bool := (33 <=? code a)%N && (code a <? 127)%N.
Fixpoint all_plain (s : string) : bool :=
  match s with "" => true | String a s => plain a && all_plain s end.

Lemma plain_ws a : plain a = true -> ws1 a = false /\ forall b c, ws2 a b = false /\
  ws2 b a = false /\ ws3 a b c = false /\ ws3 c b a = false.
Proof.
  unfold plain, ws1, ws2, ws3. rewrite andb_true_iff, N.leb_le, N.ltb_lt. intros [H1 H2]. split.
  - destruct (N.eqb_spec (code a) 32); [lia|].
    destruct (N.leb_spec (code a) 13); [lia|]. by rewrite andb_false_r.
  - intros b c.
    repeat match goal with |- context [(code a =? ?k)%N] =>
      destruct (N.eqb_spec (code a) k); [lia|] end.
    destruct (N.leb_spec 128 (code a)); [lia|].
    rewrite ?andb_false_r. done.
Qed.

Lemma trim_with_plain w2 w3 s :
  (forall a, plain a = true -> forall b c, w2 a b = false /\ w3 a b c = false) ->
  all_plain s = true -> trim_with w2 w3 s = s.
Proof.
  intros Hw. destruct s as [|a s]; simpl; [done|]. rewrite andb_true_iff. intros [Ha _].
  destruct (plain_ws a Ha) as [-> _]. destruct s as [|b s]; [done|].
  destruct (Hw a Ha b b) as [-> _]. destruct s as [|c s]; [done|].
  by destruct (Hw a Ha b c) as [_ ->].
Qed.

Lemma all_plain_app s t : all_plain (s +:+ t) = all_plain s && all_plain t.
Proof. induction s as [|a s IH]; simpl; [done|]. by rewrite IH, andb_assoc. Qed.

Lemma all_plain_rev s : all_plain (string_rev s) = all_plain s.
Proof.
  induction s as [|a s IH]; [done|]. rewrite string_rev_cons, all_plain_app, IH. simpl.
  by rewrite andb_true_r, andb_comm.
Qed.

(** [trim] leaves printable ASCII alone. *)
Lemma trim_plain s : all_plain s = true -> trim s = s.
Proof.
  intros Hs. unfold trim, trim_end, trim_start.
  rewrite (trim_with_plain ws2 ws3 s); 
    [|intros a Ha b c; destruct (plain_ws a Ha) as [_ H]; by destruct (H b c) as (?&?&?&?)|done].
  rewrite trim_with_plain; [by rewrite string_rev_involutive| |by rewrite all_plain_rev].
  intros a Ha b c. destruct (plain_ws a Ha) as [_ H]. by destruct (H b c) as (?&?&?&?).
Qed.

(** What starts plainly loses nothing at its start. *)
Lemma trim_with_first w2 w3 s t :
  (forall a, plain a = true -> forall b c, w2 a b = false /\ w3 a b c = false) ->
  s <> "" -> all_plain s = true -> trim_with w2 w3 (s +:+ t) = s +:+ t.
Proof.
  intros Hw Hne Hs. destruct s as [|a s]; [done|]. simpl in *.
  apply andb_true_iff in Hs as [Ha _]. destruct (plain_ws a Ha) as [-> _].
  destruct (s +:+ t) as [|b u]; [done|]. destruct (Hw a Ha b b) as [-> _].
  destruct u as [|c u]; [done|]. by destruct (Hw a Ha b c) as [_ ->].
Qed.

Lemma string_rev_concat s t : string_rev (s +:+ t) = string_rev t +:+ string_rev s.
Proof.
  induction s as [|a s IH]; [by rewrite string_app_nil|].
  change (String a s +:+ t) with (String a (s +:+ t)).
  by rewrite !string_rev_cons, IH, string_app_assoc.
Qed.

Lemma string_rev_nonempty s : s <> "" -> string_rev s <> "".
Proof. intros Hs E. apply Hs. by rewrite <-(string_rev_involutive s), E. Qed.

(** A line read with its end is the line. *)
Lemma trim_line s : all_plain s = true -> trim (s +:+ String "010"%char "") = s.
Proof.
  intros Hs. destruct s as [|a s]; [done|]. unfold trim, trim_start, trim_end.
  rewrite trim_with_first; [|intros b Hb c d; destruct (plain_ws b Hb) as [_ Hw];
    by destruct (Hw c d) as (? & ? & ? & ?)|done..].
  rewrite string_rev_concat.
  change (string_rev (String "010"%char "") +:+ ?r) with (String "010"%char r).
  change (trim_with ?f ?g (String "010"%char ?r)) with (trim_with f g r).
  rewrite trim_with_plain; [by rewrite string_rev_involutive| |by rewrite all_plain_rev].
  intros b Hb c d. destruct (plain_ws b Hb) as [_ Hw]. by destruct (Hw c d) as (? & ? & ? & ?).
Qed.

(** Every byte of [s] satisfies [p]. *)
Lemma plain_utf8 s : all_plain s = true -> utf8 s = true.
Proof.
  induction s as [|a s IH]; [done|]. cbn [all_plain utf8]. rewrite andb_true_iff. intros [Ha Hs].
  assert (within 0 127 a = true) as ->; [|by apply IH].
  unfold plain in Ha. unfold within. rewrite !andb_true_iff, !N.leb_le in *.
  rewrite N.ltb_lt in Ha. lia.
Qed.

Fixpoint string_forall (p : ascii -> bool) (s : string) : bool :=
  match s with "" => true | String a s => p a && string_forall p s end.

Lemma string_forall_plain p s :
  (forall a, p a = true -> plain a = true) -> string_forall p s = true -> all_plain s = true.
Proof.
  intros Hp. induction s as [|a s IH]; simpl; [done|]. rewrite !andb_true_iff. naive_solver.
Qed.

Lemma string_forall_app p s t : string_forall p (s +:+ t) = string_forall p s && string_forall p t.
Proof. induction s as [|a s IH]; simpl; [done|]. by rewrite IH, andb_assoc. Qed.

Lemma string_forall_rev p s : string_forall p (string_rev s) = string_forall p s.
Proof.
  induction s as [|a s IH]; [done|]. rewrite string_rev_cons, string_forall_app, IH. simpl.
  by rewrite andb_true_r, andb_comm.
Qed.

(** A character no byte of the string equals. *)
Lemma trim_end_matches_absent c p s :
  p c = false -> string_forall p s = true -> trim_end_matches c s = s.
Proof.
  intros Hc Hs. unfold trim_end_matches. rewrite <-(string_forall_rev p) in Hs.
  assert (drop_while_eq c (string_rev s) = string_rev s) as ->; [|apply string_rev_involutive].
  destruct (string_rev s) as [|a t]; simpl in *; [done|].
  destruct (Ascii.eqb_spec a c) as [->|]; [by rewrite Hc in Hs|done].
Qed.

Lemma split_on_cons c s : exists p ps, split_on c s = p :: ps.
Proof.
  induction s as [|a s (p & ps & E)]; simpl; [eauto|]. rewrite E. destruct (Ascii.eqb a c); eauto.
Qed.

Lemma split_on_absent c p s : p c = false -> string_forall p s = true -> split_on c s = [s].
Proof.
  intros Hc. induction s as [|a s IH]; simpl; [done|]. rewrite andb_true_iff. intros [Ha Hs].
  rewrite IH by done. destruct (Ascii.eqb_spec a c) as [->|]; [congruence|done].
Qed.

Lemma split_on_two c p s t :
  p c = false -> string_forall p s = true -> string_forall p t = true ->
  split_on c (s +:+ String c t) = [s; t].
Proof.
  intros Hc Hs Ht. induction s as [|a s IH]; simpl in *.
  - rewrite Ascii.eqb_refl. by rewrite (split_on_absent c p).
  - apply andb_true_iff in Hs as [Ha Hs]. rewrite IH by done.
    destruct (Ascii.eqb_spec a c) as [->|]; [congruence|done].
Qed.

(** *** Decimal round trip *)

Lemma parse_digits_app acc s t :
  parse_digits acc (s +:+ t) = match parse_digits acc s with
                               | Some acc' => parse_digits acc' t | None => None end.
Proof.
  revert acc. induction s as [|a s IH]; intros acc; simpl; [done|].
  destruct (digit_value a); [|done]. case_match; auto.
Qed.

Lemma digit_value_pretty d : (d < 10)%N -> digit_value (pretty_N_char d) = Some d.
Proof.
  intros Hd. assert (d = 0 \/ d = 1 \/ d = 2 \/ d = 3 \/ d = 4 \/ d = 5 \/ d = 6 \/ d = 7
    \/ d = 8 \/ d = 9)%N as H by lia.
  by repeat (destruct H as [->|H]; [done|]); subst.
Qed.

Lemma pretty_N_digits x t :
  (x <= u64_max)%N -> exists s, pretty_N_go x t = s +:+ t /\ parse_digits 0 s = Some x.
Proof.
  revert t. induction (N.lt_wf_0 x) as [x _ IH]; intros t Hx.
  destruct (decide (0 < x)%N) as [Hp|Hp].
  - rewrite pretty_N_go_step by done.
    assert (x / 10 < x)%N as Hlt by (apply N.div_lt; lia).
    destruct (IH (x / 10)%N Hlt (String (pretty_N_char (x `mod` 10)) t)) as (s & -> & Hs); [lia|].
    exists (s +:+ String (pretty_N_char (x `mod` 10)) "").
    rewrite string_app_assoc. split; [done|].
    rewrite parse_digits_app, Hs. simpl.
    rewrite digit_value_pretty by (apply N.mod_lt; lia).
    replace (x / 10 * 10 + x `mod` 10)%N with x by (rewrite (N.div_mod x 10) at 1; lia).
    by destruct (N.leb_spec x u64_max); [|lia].
  - exists "". by assert (x = 0)%N as -> by lia.
Qed.

Lemma digit_plain a d : digit_value a = Some d -> plain a = true /\ Ascii.eqb a "+"%char = false.
Proof.
  unfold digit_value, plain. destruct ((48 <=? code a) && (code a <=? 57))%N eqn:E; [|done].
  apply andb_true_iff in E as [?%N.leb_le ?%N.leb_le]. intros _. split.
  - apply andb_true_iff. rewrite N.leb_le, N.ltb_lt. lia.
  - apply Ascii.eqb_neq. intros ->. by vm_compute in H.
Qed.

(** What [u64::to_string] prints, [u64::from_str] reads back. *)
Lemma parse_digits_plain acc s x : parse_digits acc s = Some x -> all_plain s = true.
Proof.
  revert acc. induction s as [|a s IH]; intros acc; simpl; [done|].
  destruct (digit_value a) as [d|] eqn:E; [|done]. apply digit_plain in E as [-> _]. simpl.
  repeat case_match; try done; eauto.
Qed.

Lemma u64_to_string_plain n : (n <= u64_max)%N -> all_plain (u64_to_string n) = true.
Proof.
  intros Hn. unfold u64_to_string, pretty, pretty_N. case_decide; [by subst|].
  destruct (pretty_N_digits n "" Hn) as (s & Hs & Hp). rewrite Hs, string_app_nil.
  by eapply parse_digits_plain.
Qed.

Lemma parse_u64_to_string n : (n <= u64_max)%N -> parse_u64 (u64_to_string n) = Some n.
Proof.
  intros Hn. unfold u64_to_string, pretty, pretty_N. case_decide as H0; [by subst|].
  destruct (pretty_N_digits n "" Hn) as (s & Hs & Hp). rewrite Hs, string_app_nil.
  destruct s as [|a s]; [by injection Hp as <-|].
  simpl in *. destruct (digit_value a) as [d|] eqn:E; [|done].
  destruct (digit_plain a d E) as [_ ->]. done.
Qed.

(** ** Strings as bytes *)

Lemma as_bytes_cons a s : as_bytes (String a s) = byte_of_ascii a :: as_bytes s.
Proof. reflexivity. Qed.

#[local] Arguments String.append !_ _ / : simpl nomatch.

Lemma as_bytes_append s t : as_bytes (s +:+ t) = (as_bytes s ++ as_bytes t)%list.
Proof. induction s as [|a s IH]; [done|]. simpl. by rewrite !as_bytes_cons, IH. Qed.

Lemma as_bytes_length s : List.length (as_bytes s) = String.length s.
Proof. induction s as [|a s IH]; [done|]. by rewrite as_bytes_cons; simpl; rewrite IH. Qed.
