(* ===== verification/Float64.v ===== *)
(** * Rust's [f64]: IEEE-754 binary64

    Times and deadlines in the kernel are [f64] seconds.  They are the standard
    library's executable [spec_float] at 53 bits of precision and maximal
    exponent 1024, so rounding, infinities and NaN are the hardware's. *)

From S2P Require Import Prelude RustStr.
From Stdlib Require Import SpecFloat.

Definition f64 := spec_float.

#[global] Instance f64_eq_dec : EqDecision f64.
Proof. intros x y. unfold Decision. repeat decide equality. Defined.

Definition f64_add : f64 -> f64 -> f64 := SFadd 53 1024.
Definition f64_sub : f64 -> f64 -> f64 := SFsub 53 1024.
Definition f64_mul : f64 -> f64 -> f64 := SFmul 53 1024.
Definition f64_lt : f64 -> f64 -> bool := SFltb.
Definition f64_le : f64 -> f64 -> bool := SFleb.
Definition f64_ge (x y : f64) : bool := SFleb y x.
Definition f64_gt (x y : f64) : bool := SFltb y x.

(** [n as f64] for an integer: round to nearest even. *)
Definition f64_of_Z (z : Z) : f64 := binary_normalize 53 1024 z 0 false.

Definition f64_is_nan (x : f64) : bool := match x with S754_nan => true | _ => false end.

(** [f64::max]: a NaN operand is ignored. *)
Definition f64_max (x y : f64) : f64 :=
  if f64_is_nan x then y else if f64_is_nan y then x else if f64_lt x y then y else x.

Definition f64_is_finite (x : f64) : bool :=
  match x with S754_zero _ | S754_finite _ _ _ => true | _ => false end.

(** [x as u64]: truncates, saturates, and sends NaN to [0]. *)
Definition f64_as_u64 (x : f64) : N :=
  match x with
  | S754_zero _ | S754_nan | S754_infinity true | S754_finite true _ _ => 0%N
  | S754_infinity false => u64_max
  | S754_finite false m e =>
    N.min u64_max (match e with
                   | Z0 => Npos m
                   | Zpos p => N.shiftl (Npos m) (Npos p)
                   | Zneg p => N.shiftr (Npos m) (Npos p)
                   end)
  end.

(** [format!("{:.1}", x)]: one decimal, the exact value rounded half to even. *)
Definition round_half_even (num den : N) : N :=
  let q := (num / den)%N in
  let r := (2 * (num mod den))%N in
  if (r <? den)%N then q else if (den <? r)%N then (q + 1)%N
  else if N.even q then q else (q + 1)%N.

Definition fmt_tenths (negative : bool) (tenths : N) : string :=
  ((if negative then "-" else "") +:+ u64_to_string (tenths / 10) +:+ "."
     +:+ u64_to_string (tenths mod 10))%string.

Definition f64_fmt1 (x : f64) : string :=
  match x with
  | S754_nan => "NaN"
  | S754_infinity s => if s then "-inf" else "inf"
  | S754_zero s => fmt_tenths s 0
  | S754_finite s m e =>
    fmt_tenths s (match e with
                  | Zneg p => round_half_even (10 * Npos m) (2 ^ Npos p)
                  | _ => 10 * Npos m * 2 ^ Z.to_N e
                  end)%N
  end.

Example f64_fmt1_ex : f64_fmt1 (SFdiv 53 1024 (f64_of_Z (-49)) (f64_of_Z 4)) = "-12.2"%string.
Proof. reflexivity. Qed.

Example f64_as_u64_ex : f64_as_u64 (f64_add (f64_of_Z 7) (SFdiv 53 1024 (f64_of_Z 1) (f64_of_Z 2))) = 7%N.
Proof. reflexivity. Qed.

Lemma f64_as_u64_bounded x : (f64_as_u64 x <= u64_max)%N.
Proof. destruct x as [[]|[]| |[] m e]; simpl; unfold u64_max; lia. Qed.

(** Comparisons with NaN are false, so [a >= b] and [!(a < b)] differ there. *)
Lemma f64_lt_nan_l x : f64_lt S754_nan x = false.
Proof. done. Qed.
Lemma f64_lt_nan_r x : f64_lt x S754_nan = false.
Proof. by destruct x. Qed.
Lemma f64_le_nan_r x : f64_le x S754_nan = false.
Proof. by destruct x. Qed.

(** [a < b] excludes [a >= b]. *)
Lemma f64_lt_not_ge a b : f64_lt a b = true -> f64_ge a b = false.
Proof.
  unfold f64_lt, f64_ge, SFltb, SFleb.
  destruct a as [[]|[]| |[] ma ea], b as [[]|[]| |[] mb eb]; simpl; try done;
    rewrite (Z.compare_antisym ea eb); destruct (ea ?= eb)%Z; simpl; try done;
    rewrite <-?(Pos.compare_antisym), ?(Pcompare_antisym);
    change (Pos.compare_cont Eq) with Pos.compare in *;
    rewrite (Pos.compare_antisym ma mb); by destruct (Pos.compare ma mb).
Qed.

(** ** [<f64 as FromStr>::from_str]

    A sign, then [inf], [infinity] or [nan] in any case, or digits with at most one
    point among them and an optional exponent.  The value is rounded once, to
    nearest even. *)

(** The digits at the front: their value after [acc], their number after [n], the rest. *)
Fixpoint digits_at (acc n : N) (s : string) : N * N * string :=
  match s with
  | String a s' =>
    match digit_value a with
    | Some d => digits_at (10 * acc + d) (n + 1) s'
    | None => (acc, n, s)
    end
  | EmptyString => (acc, n, s)
  end.

(** [num / den], rounded: the quotient to 64 more bits than the denominator has,
    with the remainder as a sticky bit. *)
Definition f64_of_ratio (negative : bool) (num den : N) : f64 :=
  if (num =? 0)%N then S754_zero negative else
  let k := (N.size den + 64)%N in
  let q := (N.shiftl num k / den)%N in
  let sticky := if (N.shiftl num k mod den =? 0)%N then 0%N else 1%N in
  let m := Z.of_N (2 * q + sticky) in
  binary_normalize 53 1024 (if negative then - m else m) (- Z.of_N (k + 1)) negative.

Definition scaled (negative : bool) (mantissa : N) (exponent : Z) : f64 :=
  if (exponent <? 0)%Z then f64_of_ratio negative mantissa (10 ^ Z.to_N (- exponent))
  else f64_of_ratio negative (mantissa * 10 ^ Z.to_N exponent) 1.

Definition signed_tail (s : string) : bool * string :=
  match s with
  | String a s' =>
    if Ascii.eqb a "-"%char then (true, s') else if Ascii.eqb a "+"%char then (false, s') else (false, s)
  | EmptyString => (false, s)
  end.

Definition parse_f64 (s : string) : option f64 :=
  let (negative, s) := signed_tail s in
  let word := to_ascii_lowercase s in
  if String.eqb word "inf" || String.eqb word "infinity" then Some (S754_infinity negative) else
  if String.eqb word "nan" then Some S754_nan else
  let '(whole, nw, s) := digits_at 0 0 s in
  let '(mantissa, nf, s) :=
    match s with
    | String a s' => if Ascii.eqb a "."%char then digits_at whole 0 s' else (whole, 0%N, s)
    | EmptyString => (whole, 0%N, s)
    end in
  if (nw + nf =? 0)%N then None else
  match s with
  | EmptyString => Some (scaled negative mantissa (- Z.of_N nf))
  | String a s' =>
    if Ascii.eqb a "e"%char || Ascii.eqb a "E"%char then
      let (neg_exp, s') := signed_tail s' in
      let '(e, ne, rest) := digits_at 0 0 s' in
      if (ne =? 0)%N || negb (is_empty rest) then None
      else Some (scaled negative mantissa ((if neg_exp then - Z.of_N e else Z.of_N e) - Z.of_N nf))
    else None
  end.

Example parse_f64_ex :
  parse_f64 "2.5" = Some (SFdiv 53 1024 (f64_of_Z 5) (f64_of_Z 2)) /\
  parse_f64 "-1e3" = Some (f64_of_Z (-1000)) /\
  parse_f64 "0.1" = Some (SFdiv 53 1024 (f64_of_Z 1) (f64_of_Z 10)) /\
  parse_f64 "1e400" = Some (S754_infinity false) /\
  parse_f64 ".5" = parse_f64 "5e-1" /\ parse_f64 "." = None /\ parse_f64 "1e" = None /\ parse_f64 " 1" = None.
Proof. vm_compute. repeat split. Qed.
