(* ===== verification/Crates.v ===== *)
(** * The third-party crates the services call

    Each crate is a class of operations whose implementation is not in the
    repository, and a second class with the part of its documented behaviour a
    theorem relies on.  [demo_*] instances show that the laws can hold. *)

From S2P Require Import Prelude RustStr.

(** ** [ed25519_dalek] *)

Class Ed25519 := {
  SigningKey : Type;
  VerifyingKey : Type;
  verifying_key : SigningKey -> VerifyingKey;
  (** [VerifyingKey::from_bytes]; a refusal carries the error's [Display] text *)
  verifying_key_from_bytes : array 32 -> string + VerifyingKey;
  sign : SigningKey -> list byte -> array 64;
  (** [VerifyingKey::verify(msg, sig).is_ok()] *)
  ed_verify : VerifyingKey -> list byte -> array 64 -> bool;
  (** the [Display] text of the crate's opaque error *)
  signature_error_display : string
}.

(** A signature made with a key verifies under that key's public half. *)
Class Ed25519Correct `{Ed25519} : Prop :=
  sign_verifies : forall sk msg, ed_verify (verifying_key sk) msg (sign sk msg) = true.

(** ** [hex] *)

(** A failed decode carries the [Display] text of the crate's error. *)
Class Hex := {
  hex_encode : list byte -> string;
  hex_decode : string -> string + list byte
}.

(** Encoding yields only the digits [0-9a-f], and decoding inverts it. *)
Class HexCorrect `{Hex} : Prop := {
  hex_roundtrip : forall b, hex_decode (hex_encode b) = inr b;
  hex_plain : forall b, all_plain (hex_encode b) = true;
  hex_lower : forall b, to_ascii_lowercase (hex_encode b) = hex_encode b;
  hex_nil : hex_encode [] = EmptyString
}.

(** ** [base64], the [URL_SAFE_NO_PAD] engine *)

Class B64Url := {
  b64url_encode : list byte -> string;
  b64url_engine_decode : string -> string + list byte
}.

(** The unpadded URL-safe alphabet. *)
Definition url_safe (a : ascii) : bool :=
  let n := code a in
  ((65 <=? n) && (n <=? 90) || (97 <=? n) && (n <=? 122) || (48 <=? n) && (n <=? 57)
   || (n =? 45) || (n =? 95))%N.

(** Decoding inverts encoding, encoding stays within the alphabet, and no bytes
    encode to no characters. *)
Class B64UrlCorrect `{B64Url} : Prop := {
  b64url_roundtrip : forall b, b64url_engine_decode (b64url_encode b) = inr b;
  b64url_alphabet : forall b, string_forall url_safe (b64url_encode b) = true;
  b64url_nil : b64url_encode [] = EmptyString
}.

Lemma url_safe_plain a : url_safe a = true -> plain a = true.
Proof.
  unfold url_safe, plain. rewrite !orb_true_iff, !andb_true_iff, !N.leb_le, !N.eqb_eq, N.ltb_lt. lia.
Qed.

(** The [STANDARD] engine, which the services only decode with. *)
Class B64Std := b64std_decode : string -> string + list byte.

Section B64.
Context `{B64UrlCorrect}.

Lemma b64url_plain b : all_plain (b64url_encode b) = true.
Proof. eapply string_forall_plain; [apply url_safe_plain|apply b64url_alphabet]. Qed.

Lemma b64url_no_pad b : trim_end_matches "="%char (b64url_encode b) = b64url_encode b.
Proof. by apply (trim_end_matches_absent _ url_safe); [|apply b64url_alphabet]. Qed.

Lemma b64url_nonempty b : b <> [] -> b64url_encode b <> EmptyString.
Proof.
  intros Hb Hn. apply Hb. pose proof (b64url_roundtrip b) as Hr. rewrite Hn in Hr.
  rewrite <-b64url_nil, b64url_roundtrip in Hr. by injection Hr as <-.
Qed.

End B64.

(** ** Toy instances *)

(** A "signature" is a checksum of the key and the message. *)
Definition demo_ed25519 : Ed25519 := {|
  SigningKey := list byte;
  VerifyingKey := list byte;
  verifying_key := fun sk => sk;
  verifying_key_from_bytes := fun b => inr (arr_bytes b);
  sign := fun sk msg => array_of 64 (sk ++ msg);
  ed_verify := fun vk msg s => bool_decide (s = array_of 64 (vk ++ msg));
  signature_error_display := "signature error"
|}.

#[global] Instance demo_ed25519_correct : @Ed25519Correct demo_ed25519.
Proof. intros sk msg. simpl. by apply bool_decide_true. Qed.

(** Lower-case hexadecimal, two digits a byte; decoding accepts both cases. *)
Definition hex_digit (n : N) : ascii :=
  ascii_of_N (if (n <? 10)%N then 48 + n else 87 + n).
Definition hex_value (a : ascii) : option N :=
  let n := N_of_ascii a in
  if ((48 <=? n) && (n <=? 57))%N then Some (n - 48)%N
  else if ((97 <=? n) && (n <=? 102))%N then Some (n - 87)%N
  else if ((65 <=? n) && (n <=? 70))%N then Some (n - 55)%N else None.
Fixpoint demo_hex_encode (l : list byte) : string :=
  match l with
  | [] => EmptyString
  | b :: l => String (hex_digit (Byte.to_N b / 16))
                (String (hex_digit (Byte.to_N b mod 16)) (demo_hex_encode l))
  end.
Fixpoint demo_hex_decode (s : string) : string + list byte :=
  match s with
  | EmptyString => inr []
  | String a (String b s) =>
    match hex_value a, hex_value b, demo_hex_decode s with
    | Some x, Some y, inr l => inr (byte_of_N (16 * x + y) :: l)
    | _, _, inl e => inl e
    | _, _, _ => inl "Invalid character"
    end
  | _ => inl "Odd number of digits"
  end.
Definition demo_hex : Hex := {| hex_encode := demo_hex_encode; hex_decode := demo_hex_decode |}.

#[global] Instance demo_hex_correct : @HexCorrect demo_hex.
Proof.
  split; [| | |done]; intros l; induction l as [|b l IH]; try done; simpl in *; rewrite IH; by destruct b.
Qed.

(** Hexadecimal also satisfies what is asked of the base64url engine. *)
Definition demo_b64 : B64Url :=
  {| b64url_encode := demo_hex_encode; b64url_engine_decode := demo_hex_decode |}.

#[global] Instance demo_b64_correct : @B64UrlCorrect demo_b64.
Proof.
  destruct demo_hex_correct as [H1 H2 _ _]. split; [done| |done].
  intros l. induction l as [|b l IH]; [done|]. simpl in *. rewrite IH. by destruct b.
Qed.
