(* ===== verification/Async.v ===== *)
(** * Asynchronous handlers and their interleavings

    An [async fn] runs without interruption between two [.await] points; at an
    await other tasks may run.  A handler is a [prog]: a tree of atomic steps on
    the shared world.  [exec] is its execution among other tasks, whose effect
    between two steps is the relation [env]; [run] is its execution alone.

    [held] marks the steps taken while the handler owns a mutex, so that [env]
    can forbid the others the data it protects. *)

From S2P Require Import Prelude.

Section Async.
Context {W E : Type}.

Inductive prog (A : Type) : Type :=
| Done (r : res E A)
| Await (held : bool) (B : Type) (op : W -> B * W) (k : B -> prog A).
Arguments Done {A} r.
Arguments Await {A} held {B} op k.

(** [op.await?]: an error ends the handler. *)
Definition await_q {A B} (held : bool) (op : W -> res E B * W) (k : B -> prog A) : prog A :=
  Await held op (fun r => match r with Ok b => k b | Err e => Done (Err e) | Panic => Done Panic end).

(** A read of the world, which it does not change. *)
Definition reading {B} (f : W -> B) : W -> B * W := fun w => (f w, w).

Fixpoint run {A} (p : prog A) (w : W) : res E A * W :=
  match p with
  | Done r => (r, w)
  | Await _ op k => let (b, w') := op w in run (k b) w'
  end.

Inductive exec (env : bool -> W -> W -> Prop) {A} : prog A -> W -> res E A -> W -> Prop :=
| exec_done r w : exec env (Done r) w r w
| exec_await held B (op : W -> B * W) k w w1 r w2 :
    env held w w1 ->
    exec env (k (fst (op w1))) (snd (op w1)) r w2 ->
    exec env (Await held op k) w r w2.

Lemma exec_done_inv env A (r r' : res E A) w w' :
  exec env (Done r) w r' w' -> r' = r /\ w' = w.
Proof. inversion 1; by subst. Qed.

Lemma exec_await_inv env A B held (op : W -> B * W) (k : B -> prog A) w r w2 :
  exec env (Await held op k) w r w2 ->
  exists w1, env held w w1 /\ exec env (k (fst (op w1))) (snd (op w1)) r w2.
Proof.
  intros Hx.
  refine (match Hx in exec _ p w r w2 return
    match p with
    | Done _ => True
    | Await held op k =>
      exists w1, env held w w1 /\ exec env (k (fst (op w1))) (snd (op w1)) r w2
    end with
    | exec_done _ _ _ => I
    | exec_await _ _ _ _ _ _ w1 _ _ He Hx => ex_intro _ w1 (conj He Hx)
    end).
Qed.

Lemma exec_await_q_inv env A B held (op : W -> res E B * W) (k : B -> prog A) w r w2 :
  exec env (await_q held op k) w r w2 ->
  exists w1, env held w w1 /\
    match fst (op w1) with
    | Ok b => exec env (k b) (snd (op w1)) r w2
    | Err e => r = Err e /\ w2 = snd (op w1)
    | Panic => r = Panic /\ w2 = snd (op w1)
    end.
Proof.
  intros (w1 & He & Hx)%exec_await_inv. exists w1. split; [done|].
  destruct (fst (op w1)); [done|by apply exec_done_inv in Hx..].
Qed.

(** A handler whose result is wrapped. *)
Definition res_map {E' A B} (f : A -> B) (r : res E' A) : res E' B := let? a := r in Ok (f a).

Fixpoint prog_map {A B} (f : A -> B) (p : prog A) : prog B :=
  match p with
  | Done r => Done (res_map f r)
  | Await held op k => Await held op (fun b => prog_map f (k b))
  end.

Lemma exec_map_inv env A B (f : A -> B) (p : prog A) w r w' :
  exec env (prog_map f p) w r w' -> exists r0, exec env p w r0 w' /\ r = res_map f r0.
Proof.
  revert w. induction p as [r0|held C op k IH]; intros w; simpl.
  - intros [-> ->]%exec_done_inv. exists r0. split; [constructor|done].
  - intros (w1 & He & (r0 & Hx & ->)%IH)%exec_await_inv. exists r0. split; [by econstructor|done].
Qed.

(** Handlers always finish: among idle others, an execution is a [run]. *)
Lemma exec_run env (Hrefl : forall held w, env held w w) {A} (p : prog A) w :
  exec env p w (fst (run p w)) (snd (run p w)).
Proof.
  revert w. induction p as [r|held B op k IH]; intros w; simpl; [constructor|].
  destruct (op w) as [b w'] eqn:Eop. econstructor; [apply Hrefl|].
  rewrite Eop. simpl. apply IH.
Qed.

End Async.
Arguments prog W E A : clear implicits.
Arguments Done {W E A} r.
Arguments Await {W E A} held {B} op k.
