(* ===== verification/Pool.v ===== *)
(** * Requests served together

    A service runs one task per request in flight; the runtime picks, at each turn, a
    task and runs it to its next await.  [turn] is that choice over the [prog]s of
    Async and their shared world, with the one mutex a service has: a step that would
    take it waits while another task holds it.  [served_alone_among_others] turns a run
    of the whole pool into an [exec] of each of its requests among the others, if every
    request keeps to the relations the others count on ([keeps]); [pool_progress] and
    [turn_terminates] say that the requests of a pool are all answered. *)

From stdpp Require Import relations.
From S2P Require Import Prelude Async.

(** ** Handlers over a part of the world, and their answers *)

Lemma exec_mono {W E A} (env1 env2 : bool -> W -> W -> Prop) (p : prog W E A) w r w' :
  (forall held w w', env1 held w w' -> env2 held w w') -> exec env1 p w r w' -> exec env2 p w r w'.
Proof. intros Henv. induction 1; econstructor; eauto. Qed.

Section Zoom.
Context {V W E : Type} (get : W -> V) (put : V -> W -> W).

(** A handler of a part of the state, run on the whole. *)
Fixpoint prog_zoom {A} (p : prog V E A) : prog W E A :=
  match p with
  | Done r => Done r
  | Await held op k =>
    Await held (fun w => let (b, v) := op (get w) in (b, put v w)) (fun b => prog_zoom (k b))
  end.

(** What the others do to that part. *)
Definition zoom_env (env : bool -> W -> W -> Prop) (held : bool) (v v' : V) : Prop :=
  exists w w', get w = v /\ get w' = v' /\ env held w w'.

Hypothesis get_put : forall v w, get (put v w) = v.

Lemma exec_zoom_inv env A (p : prog V E A) w r w' :
  exec env (prog_zoom p) w r w' -> exec (zoom_env env) p (get w) r (get w').
Proof.
  revert w. induction p as [r0|held B op k IH]; intros w; simpl.
  - intros [-> ->]%exec_done_inv. constructor.
  - intros (w1 & He & Hx)%exec_await_inv. econstructor; [by exists w, w1|].
    destruct (op (get w1)) as [b v] eqn:E1. simpl in *. apply IH in Hx. by rewrite get_put in Hx.
Qed.

Lemma run_zoom {A} (p : prog V E A) w :
  (forall w v v', put v' (put v w) = put v' w) ->
  run (prog_zoom p) (put (get w) w) = (fst (run p (get w)), put (snd (run p (get w))) w).
Proof.
  intros Hput. generalize (get w) as v. induction p as [r|held C op k IH]; intros v; simpl; [done|].
  rewrite get_put. destruct (op v) as [c v']. rewrite Hput. apply IH.
Qed.

End Zoom.

Section Then.
Context {W E E' A B : Type} (f : res E A -> res E' B).

(** A handler's outcome made an answer. *)
Fixpoint prog_then (p : prog W E A) : prog W E' B :=
  match p with
  | Done r => Done (f r)
  | Await held op k => Await held op (fun b => prog_then (k b))
  end.

Lemma exec_then_inv env p w r w' :
  exec env (prog_then p) w r w' -> exists r0, exec env p w r0 w' /\ r = f r0.
Proof.
  revert w. induction p as [r0|held C op k IH]; intros w; simpl.
  - intros [-> ->]%exec_done_inv. exists r0. split; [constructor|done].
  - intros (w1 & He & (r0 & Hx & ->)%IH)%exec_await_inv. exists r0. split; [by econstructor|done].
Qed.

Lemma run_then p w : run (prog_then p) w = (f (fst (run p w)), snd (run p w)).
Proof.
  revert w. induction p as [r|held C op k IH]; intros w; simpl; [done|]. destruct (op w). apply IH.
Qed.

End Then.

(** What each step of a handler does to the world, whatever came before it. *)
Fixpoint each_step {W E A} (P : W -> W -> Prop) (p : prog W E A) : Prop :=
  match p with
  | Done _ => True
  | Await _ op k => (forall w, P w (snd (op w))) /\ forall b, each_step P (k b)
  end.

Lemma each_step_zoom {V W E A} (get : W -> V) (put : V -> W -> W) (P : V -> V -> Prop) (Q : W -> W -> Prop)
    (p : prog V E A) :
  (forall w v, P (get w) v -> Q w (put v w)) -> each_step P p -> each_step Q (prog_zoom get put p).
Proof.
  intros HPQ. induction p as [|held B op k IH]; simpl; [done|]. intros [Hop Hk]. split; [|auto].
  intros w. specialize (Hop (get w)). destruct (op (get w)). by apply HPQ.
Qed.

Lemma each_step_then {W E E' A B} (f : res E A -> res E' B) P (p : prog W E A) :
  each_step P p -> each_step P (prog_then f p).
Proof. induction p as [|held C op k IH]; simpl; [done|]. intros [Hop Hk]. auto. Qed.

Lemma each_step_impl {W E A} (P Q : W -> W -> Prop) (p : prog W E A) :
  (forall w w', P w w' -> Q w w') -> each_step P p -> each_step Q p.
Proof. intros HPQ. induction p as [|held C op k IH]; simpl; [done|]. intros [Hop Hk]. auto. Qed.

Lemma each_step_await_q {W E A B} (P : W -> W -> Prop) held (op : W -> res E B * W) (k : B -> prog W E A) :
  (forall w, P w (snd (op w))) -> (forall b, each_step P (k b)) -> each_step P (await_q held op k).
Proof. intros Hop Hk. split; [done|]. by intros []. Qed.

(** ** The pool *)

Section Pool.
Context {W E A : Type}.
Abbreviation task := (prog W E A).

(** The task is at a step it makes under the mutex. *)
Definition holding (p : task) : bool := match p with Await held _ _ => held | Done _ => false end.
Definition finished (p : task) : Prop := match p with Done _ => True | Await _ _ _ => False end.

Definition mutex_free (i : nat) (ps : list task) : Prop :=
  forall j q, ps !! j = Some q -> j <> i -> holding q = false.

(** Task [i] runs to its next await.  [fits] is what the state must allow. *)
Inductive turn (fits : W -> Prop) : list task * W -> list task * W -> Prop :=
| turn_step ps w i held B (op : W -> B * W) k :
    ps !! i = Some (Await held op k) -> fits w ->
    (holding (k (fst (op w))) = true -> mutex_free i ps) ->
    turn fits (ps, w) (<[i := k (fst (op w))]> ps, snd (op w)).

(** At most one task holds the mutex. *)
Definition exclusive (ps : list task) : Prop :=
  forall i p, ps !! i = Some p -> holding p = true -> mutex_free i ps.

(** [R held] is what the others may do meanwhile to a task that does or does not hold
    the mutex. *)
Context (fits : W -> Prop) (R : bool -> W -> W -> Prop).

(** The task, from a world changed by the others, changes it as they count on. *)
Fixpoint keeps (p : task) (w : W) : Prop :=
  match p with
  | Done _ => True
  | Await held op k =>
    forall w1, R held w w1 -> fits w1 ->
      R false w1 (snd (op w1)) /\ (held = false -> R true w1 (snd (op w1))) /\
      keeps (k (fst (op w1))) (snd (op w1))
  end.

Definition pool_ok (ps : list task) (w : W) : Prop :=
  exclusive ps /\ forall i p, ps !! i = Some p -> keeps p w.

Context `{HR : forall held, PreOrder (R held)}.

Lemma keeps_others p w w1 : keeps p w -> R (holding p) w w1 -> keeps p w1.
Proof.
  destruct p as [|held B op k]; simpl; [done|]. intros Hk H1 w2 H2. apply Hk. by etrans.
Qed.

(** Where the task goes on, the state allows it. *)
Definition counted_on (held : bool) (w w1 : W) : Prop := R held w w1 /\ fits w1.

Lemma exec_others p w w1 r w' :
  exec counted_on p w1 r w' -> R (holding p) w w1 -> R false w w1 -> R false w1 w' ->
  exists w0, exec counted_on p w r w0 /\ R false w w0 /\ R false w0 w'.
Proof.
  destruct p as [r0|held B op k]; simpl.
  - intros [-> ->]%exec_done_inv Hw HF HF'. exists w. split; [constructor|done].
  - intros (w2 & [H2 Hf2] & Hx)%exec_await_inv Hw HF HF'. exists w'. split; [|split; [by etrans|done]].
    econstructor; [|exact Hx]. split; [by etrans|done].
Qed.

Lemma turn_ok ps w ps' w' : turn fits (ps, w) (ps', w') -> pool_ok ps w ->
  pool_ok ps' w' /\ R false w w' /\
  forall i p, ps !! i = Some p ->
    (ps' !! i = Some p /\ R (holding p) w w') \/
    exists held B (op : W -> B * W) k,
      p = Await held op k /\ ps' !! i = Some (k (fst (op w))) /\ w' = snd (op w).
Proof.
  inversion_clear 1 as [? ? i held B op k Hi Hfits Hfree]. intros [Hex Hks].
  pose proof (Hks _ _ Hi) as Hk. simpl in Hk.
  destruct (Hk w) as (HF & HT & Hk'); [done|done|]. clear Hk.
  pose proof (lookup_lt_Some _ _ _ Hi) as Hlt.
  assert (forall j q, ps !! j = Some q -> j <> i -> R (holding q) w (snd (op w))) as Hothers.
  { intros j q Hj Hne. destruct (holding q) eqn:Eq; [|done]. apply HT.
    apply (Hex _ _ Hj Eq _ _ Hi). done. }
  split_and!; [|done|].
  - split.
    + intros a p Ha Hp b q Hb Hba. rewrite list_lookup_insert in Ha. rewrite list_lookup_insert in Hb.
      repeat case_decide; simplify_eq; [lia|..].
      * apply not_true_iff_false. intros E1. rewrite (Hfree E1 _ _ Ha) in Hp; [done|naive_solver].
      * apply (Hfree Hp _ _ Hb). naive_solver.
      * by apply (Hex _ _ Ha Hp _ _ Hb).
    + intros j p Hj. rewrite list_lookup_insert in Hj. case_decide as Hd.
      * by simplify_eq.
      * apply (keeps_others p w); [by apply (Hks j)|]. apply (Hothers j); [done|]. intros ->. by apply Hd.
  - intros j p Hj. destruct (decide (j = i)) as [->|Hne].
    + right. rewrite Hi in Hj. injection Hj as <-. do 4 eexists. split; [done|].
      by rewrite list_lookup_insert_eq.
    + left. rewrite list_lookup_insert_ne by done. split; [done|]. by apply (Hothers j).
Qed.

Lemma pool_ok_run ps w ps' w' : rtc (turn fits) (ps, w) (ps', w') -> pool_ok ps w ->
  pool_ok ps' w' /\ R false w w'.
Proof.
  intros Hrun. remember (ps, w) as x eqn:Ex. remember (ps', w') as y eqn:Ey. revert ps w Ex ps' w' Ey.
  induction Hrun as [x|x [ps1 w1] z Ht _ IH]; intros ps w Ex ps' w' Ey Hok; subst.
  - injection Ey as -> ->. by split.
  - destruct (turn_ok _ _ _ _ Ht Hok) as (Hok1 & HR1 & _).
    destruct (IH _ _ eq_refl _ _ eq_refl Hok1) as [? ?]. split; [done|]. by etrans.
Qed.

(** A request answered in a pool ran among steps of the others that it can count on,
    and from first to last did nothing the others could not. *)
Theorem served_alone_among_others ps w ps' w' i p r :
  pool_ok ps w -> rtc (turn fits) (ps, w) (ps', w') ->
  ps !! i = Some p -> ps' !! i = Some (Done r) ->
  exists w0, exec counted_on p w r w0 /\ R false w w0 /\ R false w0 w'.
Proof.
  intros Hok Hrun. remember (ps, w) as x eqn:Ex. remember (ps', w') as y eqn:Ey.
  revert ps w Ex ps' w' Ey p Hok.
  induction Hrun as [x|x [ps1 w1] z Ht _ IH]; intros ps w Ex ps' w' Ey p Hok Hi Hi'; subst.
  - injection Ey as -> ->. rewrite Hi in Hi'. injection Hi' as ->. exists w'. split; [constructor|done].
  - assert (fits w) as Hfits by (by inversion Ht).
    destruct (turn_ok _ _ _ _ Ht Hok) as (Hok1 & HF & Hstep).
    destruct (Hstep _ _ Hi) as [[Hi1 HR1]|(held & B & op & k & -> & Hi1 & ->)].
    + destruct (IH _ _ eq_refl _ _ eq_refl _ Hok1 Hi1 Hi') as (w0 & Hx & H0 & H0').
      destruct (exec_others _ _ _ _ _ Hx HR1 HF H0) as (w00 & Hx' & H00 & H00').
      exists w00. split; [done|]. split; [done|by etrans].
    + destruct (IH _ _ eq_refl _ _ eq_refl _ Hok1 Hi1 Hi') as (w0 & Hx & H0 & H0').
      exists w0. split; [by econstructor; [split|]|]. split; [by etrans|done].
Qed.

(** Requests that arrive later. *)
Lemma pool_ok_app ps qs w :
  pool_ok ps w -> (forall q, q ∈ qs -> holding q = false /\ keeps q w) -> pool_ok (ps ++ qs) w.
Proof.
  intros [Hex Hk] Hqs. split.
  - intros i p Hi Hp j q Hj Hne. apply lookup_app_Some in Hi as [Hi|[_ Hi]].
    + apply lookup_app_Some in Hj as [Hj|[_ Hj]]; [by apply (Hex _ _ Hi Hp _ _ Hj)|].
      by apply Hqs, list_elem_of_lookup_2 with (j - length ps)%nat.
    + apply list_elem_of_lookup_2 in Hi. by rewrite (proj1 (Hqs _ Hi)) in Hp.
  - intros i p [Hi|[_ Hi]]%lookup_app_Some; [by apply (Hk i)|].
    by apply Hqs, list_elem_of_lookup_2 with (i - length ps)%nat.
Qed.

Lemma pool_ok_nil w : pool_ok [] w.
Proof. by split. Qed.

End Pool.

(** *** Keeping to the relations *)

Lemma keeps_then {W E E' A B} (fits : W -> Prop) R (f : res E A -> res E' B) (p : prog W E A) w :
  keeps fits R p w -> keeps fits R (prog_then f p) w.
Proof.
  revert w. induction p as [|held C op k IH]; intros w; simpl; [done|]. intros Hk w1 H1 Hf.
  destruct (Hk w1 H1 Hf) as (? & ? & ?). auto.
Qed.

Lemma holding_then {W E E' A B} (f : res E A -> res E' B) (p : prog W E A) :
  holding (prog_then f p) = holding p.
Proof. by destruct p. Qed.

Lemma holding_zoom {V W E A} (get : W -> V) (put : V -> W -> W) (p : prog V E A) :
  holding (prog_zoom get put p) = holding p.
Proof. by destruct p. Qed.

Lemma keeps_zoom {V W E A} (get : W -> V) (put : V -> W -> W) (fits : W -> Prop) (fits' : V -> Prop)
    (R : bool -> W -> W -> Prop) (R' : bool -> V -> V -> Prop) (p : prog V E A) w :
  (forall v w, get (put v w) = v) -> (forall w, fits w -> fits' (get w)) ->
  (forall held w w1, R held w w1 -> R' held (get w) (get w1)) ->
  (forall held w v, R' held (get w) v -> R held w (put v w)) ->
  keeps fits' R' p (get w) -> keeps fits R (prog_zoom get put p) w.
Proof.
  intros Hgp Hfits Hto Hfrom. revert w. induction p as [|held B op k IH]; intros w; simpl; [done|].
  intros Hk w1 H1 Hf. destruct (Hk (get w1)) as (HF & HT & Hk1); [by apply Hto|by apply Hfits|].
  destruct (op (get w1)) as [b v]. simpl in *. split_and!; [by apply Hfrom|by intros; apply Hfrom, HT|].
  apply IH. by rewrite Hgp.
Qed.

Lemma each_step_keeps {W E A} (fits : W -> Prop) (R : bool -> W -> W -> Prop) (p : prog W E A) w :
  each_step (fun w w' => fits w -> forall held, R held w w') p -> keeps fits R p w.
Proof. revert w. induction p as [|held B op k IH]; intros w; simpl; [done|]. intros [Hop Hk] w1 H1 Hf.
  split_and!; [by apply Hop|by intros; apply Hop|by apply IH].
Qed.

Lemma pool_length {W E A} (fits : W -> Prop) (ps : list (prog W E A)) w ps' w' :
  rtc (turn fits) (ps, w) (ps', w') -> length ps' = length ps.
Proof.
  intros Hrun. remember (ps, w) as x eqn:Ex. remember (ps', w') as y eqn:Ey. revert ps w Ex ps' w' Ey.
  induction Hrun as [x|x [ps1 w1] z Ht _ IH]; intros ps w Ex ps' w' Ey; subst.
  - by injection Ey as -> ->.
  - rewrite (IH _ _ eq_refl _ _ eq_refl). inversion Ht; subst. apply length_insert.
Qed.

(** What every step does, the run does. *)
Lemma pool_steps {W E A} (fits : W -> Prop) (P : W -> W -> Prop) (ps : list (prog W E A)) w ps' w' :
  Forall (each_step P) ps -> rtc (turn fits) (ps, w) (ps', w') -> rtc P w w'.
Proof.
  intros Hps Hrun. remember (ps, w) as x eqn:Ex. remember (ps', w') as y eqn:Ey. revert ps w Hps Ex ps' w' Ey.
  induction Hrun as [x|x [ps1 w1] z Ht _ IH]; intros ps w Hps Ex ps' w' Ey; subst.
  - injection Ey as -> ->. done.
  - inversion Ht as [? ? i held B op k Hi Hf Hfree]; subst.
    pose proof (Forall_lookup_1 _ _ _ _ Hps Hi) as [Hop Hk].
    eapply rtc_l; [apply Hop|]. eapply IH; [|done|done]. by apply Forall_insert.
Qed.

(** ** Every request is answered *)

Section Answered.
Context {W E A : Type}.

(** With the mutex held by at most one task, some unfinished task can run: there is no
    deadlock. *)
Lemma pool_progress (fits : W -> Prop) (ps : list (prog W E A)) w :
  exclusive ps -> fits w -> Exists (fun p => ~ finished p) ps -> exists x, turn fits (ps, w) x.
Proof.
  intros Hex Hfits Hne.
  assert (forall i p, ps !! i = Some p -> ~ finished p ->
    (holding p = true \/ forall j q, ps !! j = Some q -> holding q = false) -> exists x, turn fits (ps, w) x) as Hgo.
  { intros i [r|held B op k] Hi Hf Hh; [by destruct Hf|]. eexists. econstructor; [done..|]. intros _.
    destruct Hh as [Hh|Hh]; [by apply (Hex _ _ Hi)|]. intros j q Hj _. by apply (Hh j). }
  destruct (decide (Exists (fun p => holding p = true) ps)) as [Hh|Hh].
  - apply Exists_exists in Hh as (p & (i & Hi)%list_elem_of_lookup & Hp).
    apply (Hgo i p); [done|destruct p; simpl in *; [done|tauto]|by left].
  - apply Exists_exists in Hne as (p & (i & Hi)%list_elem_of_lookup & Hp).
    apply (Hgo i p); [done..|]. right. intros j q Hj. apply not_true_iff_false. intros Hq. apply Hh.
    apply Exists_exists. exists q. split; [by eapply list_elem_of_lookup_2|done].
Qed.

(** The rest of a task after one of its steps. *)
Inductive rest_of : prog W E A -> prog W E A -> Prop :=
| rest_step held B (op : W -> B * W) k b : rest_of (k b) (Await held op k).

Lemma rest_of_wf p : Acc rest_of p.
Proof.
  induction p as [r|held B op k IH]; constructor; intros q Hq.
  - inversion Hq.
  - refine (match Hq in rest_of q p return
      match p with Await held op k => (forall b, Acc rest_of (k b)) -> Acc rest_of q | Done _ => True end
      with rest_step _ _ _ k b => fun H => H b end IH).
Qed.

Inductive one_step : list (prog W E A) -> list (prog W E A) -> Prop :=
| one_here p q ps : rest_of q p -> one_step (q :: ps) (p :: ps)
| one_later p ps qs : one_step qs ps -> one_step (p :: qs) (p :: ps).

Lemma one_step_wf ps : Acc one_step ps.
Proof.
  induction ps as [|p ps IHps]; [constructor; intros ? H; inversion H|].
  revert p. induction IHps as [ps _ IHps]. intros p.
  induction (rest_of_wf p) as [p _ IHp].
  constructor. intros qs Hqs. inversion Hqs; subst; [by apply IHp|by apply IHps].
Qed.

Lemma insert_one_step ps i p q : ps !! i = Some p -> rest_of q p -> one_step (<[i := q]> ps) ps.
Proof.
  revert i. induction ps as [|p0 ps IH]; intros [|i] Hi Hq; simplify_eq/=; constructor; [done|]. by apply IH.
Qed.

(** No run of a pool goes on for ever. *)
Theorem turn_terminates (fits : W -> Prop) (ps : list (prog W E A)) w : Acc (flip (turn fits)) (ps, w).
Proof.
  revert w. induction (one_step_wf ps) as [ps _ IH]. intros w. constructor. intros [ps' w'] Ht.
  inversion Ht as [? ? i held B op k Hi Hf Hfree]; subst. apply IH. eapply insert_one_step; [done|constructor].
Qed.

End Answered.

(** ** Running a pool by a given schedule *)

Section Play.
Context {W E A : Type} (fits : W -> Prop) (has_room : W -> bool).
Hypothesis has_room_fits : forall w, has_room w = true -> fits w.

Definition may_step (i : nat) (p : prog W E A) (ps : list (prog W E A)) : bool :=
  negb (holding p) || forallb (fun jq => (fst jq =? i)%nat || negb (holding (snd jq))) (imap pair ps).

Fixpoint play (schedule : list nat) (x : list (prog W E A) * W) : option (list (prog W E A) * W) :=
  match schedule with
  | [] => Some x
  | i :: schedule =>
    let (ps, w) := x in
    match ps !! i with
    | Some (Await held op k) =>
      let p := k (fst (op w)) in
      if has_room w && may_step i p ps then play schedule (<[i := p]> ps, snd (op w)) else None
    | _ => None
    end
  end.

Lemma play_turns schedule x y : play schedule x = Some y -> rtc (turn fits) x y.
Proof.
  revert x. induction schedule as [|i schedule IH]; intros [ps w]; simpl; [by intros [= <-]|].
  destruct (ps !! i) as [[r|held B op k]|] eqn:Hi; try done.
  destruct (has_room w) eqn:Hr; [|done]. destruct (may_step _ _ _) eqn:Hm; [|done].
  intros Hy%IH. eapply rtc_l; [|exact Hy]. constructor 1 with (held := held); [done|by apply has_room_fits|].
  intros Hh j q Hj Hne. unfold may_step in Hm. rewrite Hh in Hm. simpl in Hm.
  rewrite forallb_forall in Hm. specialize (Hm (j, q)). simpl in Hm.
  destruct (Nat.eqb_spec j i); [done|]. simpl in Hm. apply negb_true_iff, Hm.
  apply list_elem_of_In, list_elem_of_lookup. exists j. by rewrite list_lookup_imap, Hj.
Qed.

End Play.

(** The answer of a request, when it has one. *)
Definition answer_of {W A} (p : prog W Empty_set A) : option A :=
  match p with Done (Ok a) => Some a | _ => None end.

(** A schedule that [play] follows until request [i] is answered is a run. *)
Lemma played {W A} (fits : W -> Prop) (has_room : W -> bool) (Hfits : forall w, has_room w = true -> fits w)
    schedule (ps : list (prog W Empty_set A)) w i (Q : list (prog W Empty_set A) -> W -> bool) :
  match play has_room schedule (ps, w) with
  | Some (ps', w') =>
    Q ps' w' && match ps' !! i with Some p => bool_decide (is_Some (answer_of p)) | None => false end
  | None => false
  end = true ->
  exists ps' w' a, rtc (turn fits) (ps, w) (ps', w') /\ ps' !! i = Some (Done (Ok a)) /\ Q ps' w' = true.
Proof.
  destruct (play has_room schedule (ps, w)) as [[ps' w']|] eqn:E; [|done]. intros [HQ H]%andb_true_iff.
  apply (play_turns fits has_room Hfits) in E. exists ps', w'.
  destruct (ps' !! i) as [[[a|e|]|]|] eqn:Hi; try done. by exists a.
Qed.
