(* ===== verification/Merkle.v ===== *)
(** * RFC-6962 Merkle ledger: data, hashing, proof construction and verification

    Models [crates/domain/src/transparency/merkle.rs], everything outside its
    [HashTree] (see [HashTree.v]).  SHA-256 is the parameter [sha256] (the
    [sha2] crate).  [u64] and [usize] are [N]; a [while x > 0 { ..; x /= 2 }]
    loop is a structural recursion on the binary digits of [x]. *)

From S2P Require Import Prelude.

(** SHA-256 of the [sha2] crate: any function from byte strings to 32 bytes. *)
Class Sha256 := sha256 : list byte -> array 32.

Abbreviation digest := (array 32).

(** Two different inputs with one hash: what the binding theorems offer instead of
    their conclusion. *)
Definition sha_collision `{Sha256} (x y : list byte) : Prop := x <> y /\ sha256 x = sha256 y.

Lemma sha256_inj `{Sha256} x y : sha256 x = sha256 y -> x = y \/ sha_collision x y.
Proof. intros E. destruct (decide (x = y)); [by left|by right]. Qed.

(** ** Data *)

Record MerkleLeaf := {
  hash : digest;
  ml_leaf_index : N;
  occurred_at_epoch_seconds : N
}.

Record InclusionProof := {
  ip_leaf_hash : digest;
  ip_leaf_index : N;
  path : list digest;
  ip_tree_size : N
}.

Record ConsistencyProof := {
  from_size : N;
  proof : list digest;
  to_size : N
}.

Inductive VerificationError :=
| LeafIndexOutOfBounds
| ProofPathLengthMismatch
| RootMismatch
| InvalidConsistencyRange
| EmptyTree
| SignatureInvalid.

#[global] Instance VerificationError_eq_dec : EqDecision VerificationError.
Proof. solve_decision. Defined.

(** Slices: [v.len()] as a [u64], [v[..k]] and [v[k..]]. *)
Definition nlen {A} (l : list A) : N := N.of_nat (length l).
Definition ntake {A} (k : N) (l : list A) : list A := take (N.to_nat k) l.
Definition ndrop {A} (k : N) (l : list A) : list A := drop (N.to_nat k) l.

Abbreviation vres := (res VerificationError).

Section Merkle.
Context `{Sha256}.

(** ** Hashing primitives *)

Definition leaf_hash (payload : list byte) : digest := sha256 (x00 :: payload).

(** The byte string [node_hash] feeds to SHA-256. *)
Definition node_input (l r : digest) : list byte :=
  x01 :: arr_bytes l ++ arr_bytes r.

Definition node_hash (l r : digest) : digest := sha256 (node_input l r).

(** ** Tree root and inclusion proofs *)

(** [debug_assert!(n >= 2)] and the overflow of [next_power_of_two] panic. *)
Definition largest_power_of_two_strictly_less_than (n : N) : vres N :=
  if (n <? 2)%N then Panic
  else if is_power_of_two n then Ok (n / 2)%N
  else match next_power_of_two n with
       | Some p => Ok (p / 2)%N
       | None => Panic
       end.

Definition largest_power_of_two_strictly_less_than_u64 (n : N) : vres N :=
  if (n <? 2)%N then Panic
  else if is_power_of_two n then Ok (n / 2)%N
  else match next_power_of_two n with
       | Some p => Ok (p / 2)%N
       | None => Panic
       end.

(** The recursion halves the slice; [length hashes] bounds its depth
    ([root_of_hashes_spec] shows the bound is enough). *)
Fixpoint root_of_hashes_fuel (fuel : nat) (hashes : list digest) : vres digest :=
  match fuel with
  | O => Panic
  | S fuel =>
      match hashes with
      | [] => Panic
      | [h] => Ok h
      | _ =>
          let? k := largest_power_of_two_strictly_less_than (nlen hashes) in
          let? lh := root_of_hashes_fuel fuel (ntake k hashes) in
          let? rh := root_of_hashes_fuel fuel (ndrop k hashes) in
          Ok (node_hash lh rh)
      end
  end.

Definition root_of_hashes (hashes : list digest) : vres digest :=
  root_of_hashes_fuel (length hashes) hashes.

Definition compute_root (leaves : list MerkleLeaf) : vres digest :=
  match leaves with
  | [] => Err EmptyTree
  | _ => root_of_hashes (hash <$> leaves)
  end.

(** [out.push] after the recursive call: the path is built bottom-up. *)
Fixpoint inclusion_path_fuel (fuel : nat) (hashes : list digest) (index : N)
    : vres (list digest) :=
  match fuel with
  | O => Panic
  | S fuel =>
      match hashes with
      | [] => Panic
      | [_] => if (index =? 0)%N then Ok [] else Panic
      | _ =>
          let? k := largest_power_of_two_strictly_less_than (nlen hashes) in
          if (index <? k)%N then
            let? out := inclusion_path_fuel fuel (ntake k hashes) index in
            let? r := root_of_hashes (ndrop k hashes) in
            Ok (out ++ [r])
          else
            let? out := inclusion_path_fuel fuel (ndrop k hashes) (index - k)%N in
            let? r := root_of_hashes (ntake k hashes) in
            Ok (out ++ [r])
      end
  end.

Definition inclusion_path (hashes : list digest) (index : N) : vres (list digest) :=
  inclusion_path_fuel (length hashes) hashes index.

Definition build_inclusion_proof (leaves : list MerkleLeaf) (leaf_index : N)
    : vres InclusionProof :=
  match leaves with
  | [] => Err EmptyTree
  | _ =>
      let tree_size := nlen leaves in
      if (tree_size <=? leaf_index)%N then Err LeafIndexOutOfBounds
      else
        let hashes := hash <$> leaves in
        let? path := inclusion_path hashes leaf_index in
        let? h := index_panic (hashes !! N.to_nat leaf_index) in
        Ok {| ip_leaf_hash := h; ip_leaf_index := leaf_index;
              path := path; ip_tree_size := tree_size |}
  end.

(** The verification loop [while last_node > 0]: returns the hash reached and
    what is left of the path. *)
Fixpoint inclusion_loop (index : N) (last_node : positive) (h : digest)
    (path : list digest) : vres (digest * list digest) :=
  let? (h, path) :=
    if N.odd index then
      match path with
      | sibling :: path => Ok (node_hash sibling h, path)
      | [] => Err ProofPathLengthMismatch
      end
    else if (index <? Npos last_node)%N then
      match path with
      | sibling :: path => Ok (node_hash h sibling, path)
      | [] => Err ProofPathLengthMismatch
      end
    else Ok (h, path) in
  match last_node with
  | xH => Ok (h, path)
  | xO last_node | xI last_node => inclusion_loop (N.div2 index) last_node h path
  end.

Definition verify_inclusion_proof (p : InclusionProof) (expected_root : digest)
    : vres unit :=
  if (ip_tree_size p =? 0)%N then Err EmptyTree
  else if (ip_tree_size p <=? ip_leaf_index p)%N then Err LeafIndexOutOfBounds
  else
    let? (h, rest) :=
      match (ip_tree_size p - 1)%N with
      | N0 => Ok (ip_leaf_hash p, path p)
      | Npos last_node =>
          inclusion_loop (ip_leaf_index p) last_node (ip_leaf_hash p) (path p)
      end in
    match rest with
    | _ :: _ => Err ProofPathLengthMismatch
    | [] => if decide (h = expected_root) then Ok tt else Err RootMismatch
    end.

(** ** Consistency proofs *)

(** [SUBPROOF] over leaf ranges, sourcing subtree roots from a closure.  [fuel]
    bounds the recursion depth ([n] halves at each call). *)
Fixpoint subproof_with_fuel (fuel : nat) (subtree_root : N -> N -> vres digest)
    (m start n : N) (start_on_path : bool) : vres (list digest) :=
  match fuel with
  | O => Panic
  | S fuel =>
      if (m =? n)%N then
        if start_on_path then Ok []
        else let? r := subtree_root start n in Ok [r]
      else if (n <=? m)%N then Panic
      else
        let? k := largest_power_of_two_strictly_less_than_u64 n in
        if (m <=? k)%N then
          let? out := subproof_with_fuel fuel subtree_root m start k start_on_path in
          let? r := subtree_root (start + k)%N (n - k)%N in
          Ok (out ++ [r])
        else
          let? out := subproof_with_fuel fuel subtree_root (m - k)%N (start + k)%N
                        (n - k)%N false in
          let? r := subtree_root start k in
          Ok (out ++ [r])
  end.

Definition subproof_with (subtree_root : N -> N -> vres digest) (m start n : N)
    (start_on_path : bool) : vres (list digest) :=
  subproof_with_fuel (S (N.to_nat (N.size n))) subtree_root m start n start_on_path.

Definition build_consistency_proof_with (from to : N)
    (subtree_root : N -> N -> vres digest) : vres ConsistencyProof :=
  if ((from =? 0) || (to <? from))%N then Err InvalidConsistencyRange
  else
    let? out := subproof_with subtree_root from 0 to true in
    Ok {| from_size := from; proof := out; to_size := to |}.

(** The closure of [build_consistency_proof]: the root of [hashes[s..s+l]]. *)
Definition slice_root (hashes : list digest) (start len : N) : vres digest :=
  match checked_add64 start len with
  | Some e =>
      if (e <=? nlen hashes)%N then root_of_hashes (ntake len (ndrop start hashes))
      else Err LeafIndexOutOfBounds
  | None => Err LeafIndexOutOfBounds
  end.

Definition build_consistency_proof (leaves : list MerkleLeaf) (from to : N)
    : vres ConsistencyProof :=
  if ((from =? 0) || (to <? from))%N then Err InvalidConsistencyRange
  else if (nlen leaves <? to)%N then Err LeafIndexOutOfBounds
  else
    let hashes := hash <$> ntake to leaves in
    build_consistency_proof_with from to (slice_root hashes).

(** [while node % 2 == 1 { node /= 2; last /= 2; }] *)
Fixpoint skip_complete_pos (node : positive) (last : N) : N * N :=
  match node with
  | xI node => skip_complete_pos node (N.div2 last)
  | xH => (0%N, N.div2 last)
  | xO _ => (Npos node, last)
  end.
Definition skip_complete (node last : N) : N * N :=
  match node with N0 => (0%N, last) | Npos p => skip_complete_pos p last end.

(** [while node > 0 { .. }]: yields [last], [fr], [tr] and the rest of the proof. *)
Fixpoint consistency_loop_pos (node : positive) (last : N) (fr tr : digest)
    (path : list digest) : vres (N * digest * digest * list digest) :=
  let? (fr, tr, path) :=
    if N.odd (Npos node) then
      match path with
      | sibling :: path => Ok (node_hash sibling fr, node_hash sibling tr, path)
      | [] => Err ProofPathLengthMismatch
      end
    else if (Npos node <? last)%N then
      match path with
      | sibling :: path => Ok (fr, node_hash tr sibling, path)
      | [] => Err ProofPathLengthMismatch
      end
    else Ok (fr, tr, path) in
  match node with
  | xH => Ok (N.div2 last, fr, tr, path)
  | xO node | xI node => consistency_loop_pos node (N.div2 last) fr tr path
  end.
Definition consistency_loop (node last : N) (fr tr : digest) (path : list digest)
    : vres (N * digest * digest * list digest) :=
  match node with
  | N0 => Ok (last, fr, tr, path)
  | Npos node => consistency_loop_pos node last fr tr path
  end.

(** [while last > 0 { .. }]: the right-spine siblings of the later tree. *)
Fixpoint drain_loop_pos (last : positive) (tr : digest) (path : list digest)
    : vres (digest * list digest) :=
  match path with
  | [] => Err ProofPathLengthMismatch
  | sibling :: path =>
      let tr := node_hash tr sibling in
      match last with
      | xH => Ok (tr, path)
      | xO last | xI last => drain_loop_pos last tr path
      end
  end.
Definition drain_loop (last : N) (tr : digest) (path : list digest)
    : vres (digest * list digest) :=
  match last with N0 => Ok (tr, path) | Npos last => drain_loop_pos last tr path end.

Definition verify_consistency_proof (p : ConsistencyProof) (from_root to_root : digest)
    : vres unit :=
  if ((from_size p =? 0) || (to_size p <? from_size p))%N
  then Err InvalidConsistencyRange
  else if (from_size p =? to_size p)%N then
    match proof p with
    | _ :: _ => Err ProofPathLengthMismatch
    | [] => if decide (from_root = to_root) then Ok tt else Err RootMismatch
    end
  else
    let '(node, last) := skip_complete (from_size p - 1) (to_size p - 1) in
    let? (seed, rest) :=
      if (0 <? node)%N then
        match proof p with
        | seed :: rest => Ok (seed, rest)
        | [] => Err ProofPathLengthMismatch
        end
      else Ok (from_root, proof p) in
    let? (last, fr, tr, rest) := consistency_loop node last seed seed rest in
    let? (tr, rest) := drain_loop last tr rest in
    match rest with
    | _ :: _ => Err ProofPathLengthMismatch
    | [] =>
        if decide (fr = from_root /\ tr = to_root) then Ok tt else Err RootMismatch
    end.

End Merkle.
