(* ===== verification/MerkleSpec.v ===== *)
(** * The reference Merkle tree hash and the refinement of tree roots

    [mth] is RFC 6962's [MTH] as a total function; [tree_ind] is the induction
    principle of its left-complete split.  The section shows that the code's
    split point and root computation refine them. *)

From S2P Require Import Prelude Merkle.

Local Open Scope N_scope.

(** A slice of 32-byte hashes that fits in memory is far shorter than this. *)
Definition max_leaves : N := 2 ^ 63.

(** The largest power of two strictly below [n] (for [n >= 2]). *)
Definition split_point (n : N) : N := 2 ^ N.log2 (n - 1).

Section Spec.
Context `{Sha256}.

(** Fold over the left-complete binary tree of a non-empty list; [none] is the
    (unused) value of the empty list. *)
Fixpoint tree_fold_fuel {A X} (leaf : A -> X) (node : X -> X -> X) (none : X)
    (fuel : nat) (hs : list A) : X :=
  match fuel with
  | O => none
  | S fuel =>
      match hs with
      | [] => none
      | [h] => leaf h
      | _ =>
          let k := split_point (nlen hs) in
          node (tree_fold_fuel leaf node none fuel (ntake k hs))
               (tree_fold_fuel leaf node none fuel (ndrop k hs))
      end
  end.

Definition tree_fold {A X} (leaf : A -> X) (node : X -> X -> X) (none : X)
    (hs : list A) : X := tree_fold_fuel leaf node none (length hs) hs.

(** RFC 6962 section 2.1, [MTH(D[n])] over leaf hashes. *)
Definition mth : list digest -> digest :=
  tree_fold (fun h => h) node_hash (array_of 32 []).

(** Every byte string hashed while computing [mth]. *)
Definition mth_inputs (hs : list digest) : list (list byte) :=
  (tree_fold (fun h => (h, []))
     (fun a b => (node_hash a.1 b.1, node_input a.1 b.1 :: a.2 ++ b.2))
     (array_of 32 [], []) hs).2.

End Spec.

(** ** Arithmetic of the split *)

Lemma split_point_spec n :
  2 <= n ->
  exists t, split_point n = 2 ^ t /\ 2 ^ t < n /\ n <= 2 * 2 ^ t.
Proof.
  intros Hn. exists (N.log2 (n - 1)). split; [done|].
  pose proof (N.log2_spec (n - 1)) as Hs. rewrite N.pow_succ_r' in Hs. lia.
Qed.

Lemma split_point_unique n t :
  2 ^ t < n -> n <= 2 * 2 ^ t -> split_point n = 2 ^ t.
Proof.
  intros H1 H2. unfold split_point. f_equal. apply N.log2_unique; [lia|].
  rewrite N.pow_succ_r'. lia.
Qed.

Lemma pow2_pos t : 0 < 2 ^ t.
Proof. apply N.neq_0_lt_0, N.pow_nonzero. lia. Qed.
#[local] Hint Resolve pow2_pos : core.

Lemma is_power_of_two_spec n :
  is_power_of_two n = true <-> exists t, n = 2 ^ t.
Proof.
  unfold is_power_of_two. rewrite andb_true_iff, negb_true_iff, N.eqb_neq, N.eqb_eq.
  split.
  - intros [_ ->]. eauto.
  - intros [t ->]. rewrite N.log2_pow2 by lia. pose proof (pow2_pos t). lia.
Qed.

(** The code's split point is the reference one on every slice that fits. *)
Lemma largest_power_of_two_spec n :
  2 <= n <= max_leaves ->
  largest_power_of_two_strictly_less_than n = Ok (split_point n).
Proof.
  intros [H2 Hmax]. unfold largest_power_of_two_strictly_less_than.
  destruct (N.ltb_spec n 2) as [|_]; [lia|].
  destruct (is_power_of_two n) eqn:Hp.
  - apply is_power_of_two_spec in Hp as [t ->]. f_equal.
    destruct (N.eq_dec t 0) as [->|Ht]; [simpl in H2; lia|].
    replace t with (N.succ (t - 1)) by lia. rewrite N.pow_succ_r'.
    pose proof (pow2_pos (t - 1)).
    rewrite (split_point_unique _ (t - 1)) by lia.
    rewrite N.mul_comm, N.div_mul by done. done.
  - unfold next_power_of_two.
    rewrite (N.log2_up_eqn n) by lia. rewrite N.pow_succ_r'.
    assert (N.log2 (N.pred n) < 63) as Hlog.
    { apply N.log2_lt_pow2; unfold max_leaves in *; lia. }
    assert (2 ^ N.log2 (N.pred n) <= 2 ^ 62) as Hle by (apply N.pow_le_mono_r; lia).
    destruct (N.leb_spec (2 * 2 ^ N.log2 (N.pred n)) u64_max) as [_|Hgt].
    + rewrite N.mul_comm, N.div_mul by done. unfold split_point.
      by replace (N.pred n) with (n - 1) by lia.
    + change (2 ^ 62) with 4611686018427387904 in Hle. unfold u64_max in Hgt. lia.
Qed.

Lemma largest_power_of_two_u64_spec n :
  2 <= n <= max_leaves ->
  largest_power_of_two_strictly_less_than_u64 n = Ok (split_point n).
Proof. apply largest_power_of_two_spec. Qed.

(** Whatever the argument, a returned split point is strictly inside. *)
Lemma largest_power_of_two_u64_inside n k :
  largest_power_of_two_strictly_less_than_u64 n = Ok k -> 0 < k < n.
Proof.
  unfold largest_power_of_two_strictly_less_than_u64.
  destruct (N.ltb_spec n 2) as [|H2]; [done|].
  destruct (is_power_of_two n) eqn:Hp.
  - intros [= <-]. split; [apply N.div_str_pos; lia|apply N.div_lt; lia].
  - unfold next_power_of_two. rewrite (N.log2_up_eqn n), N.pow_succ_r' by lia.
    destruct (_ <=? _); [|done]. intros [= <-]. rewrite N.mul_comm, N.div_mul by done.
    pose proof (N.log2_spec (N.pred n)). pose proof (pow2_pos (N.log2 (N.pred n))). lia.
Qed.

(** ** Slices *)

Section Slices.
Context {A : Type}.
Implicit Types l r : list A.

Lemma nlen_app l r : nlen (l ++ r) = nlen l + nlen r.
Proof. unfold nlen. rewrite length_app. lia. Qed.

Lemma nlen_nil_inv l : nlen l = 0 -> l = [].
Proof. destruct l; [done|]. unfold nlen. simpl. lia. Qed.

Lemma nlen_pos l : l <> [] <-> 0 < nlen l.
Proof. destruct l; unfold nlen; simpl; split; intros; try done; lia. Qed.

Lemma nlen_ntake k l : k <= nlen l -> nlen (ntake k l) = k.
Proof. unfold nlen, ntake. rewrite length_take. lia. Qed.

Lemma nlen_ndrop k l : nlen (ndrop k l) = nlen l - k.
Proof. unfold nlen, ndrop. rewrite length_drop. lia. Qed.

Lemma ntake_ndrop k l : ntake k l ++ ndrop k l = l.
Proof. apply take_drop. Qed.

Lemma ntake_app_eq k l r : k = nlen l -> ntake k (l ++ r) = l.
Proof. intros ->. unfold ntake, nlen. rewrite Nat2N.id. apply take_app_length. Qed.

Lemma ndrop_app_eq k l r : k = nlen l -> ndrop k (l ++ r) = r.
Proof. intros ->. unfold ndrop, nlen. rewrite Nat2N.id. apply drop_app_length. Qed.

Lemma ntake_all k l : nlen l <= k -> ntake k l = l.
Proof. intros Hk. unfold ntake, nlen in *. apply take_ge. lia. Qed.

Lemma ntake_app_le k l r : k <= nlen l -> ntake k (l ++ r) = ntake k l.
Proof. intros Hk. unfold ntake, nlen in *. apply take_app_le. lia. Qed.

Lemma ntake_app_ge k l r :
  nlen l <= k -> ntake k (l ++ r) = l ++ ntake (k - nlen l) r.
Proof.
  intros Hk. unfold ntake, nlen in *. rewrite take_app_ge by lia.
  do 2 f_equal. lia.
Qed.

Lemma ntake_ntake j k l : ntake j (ntake k l) = ntake (N.min j k) l.
Proof. unfold ntake. rewrite take_take. f_equal. lia. Qed.

Lemma nlen_fmap {B} (f : A -> B) l : nlen (f <$> l) = nlen l.
Proof. unfold nlen. by rewrite length_fmap. Qed.

Lemma fmap_ntake {B} (f : A -> B) k l : f <$> ntake k l = ntake k (f <$> l).
Proof. apply fmap_take. Qed.

End Slices.

(** ** The left-complete split as an induction principle *)

Lemma split_list {A} (l : list A) :
  2 <= nlen l ->
  exists t l1 l2, l = l1 ++ l2 /\ nlen l1 = 2 ^ t /\ 0 < nlen l2 /\ nlen l2 <= 2 ^ t /\ split_point (nlen l) = 2 ^ t.
Proof.
  intros Hl. destruct (split_point_spec (nlen l) Hl) as (t & Hs & H1 & H2).
  exists t, (ntake (2 ^ t) l), (ndrop (2 ^ t) l).
  rewrite ntake_ndrop, nlen_ntake, nlen_ndrop by lia.
  repeat split; [lia..|done].
Qed.

Lemma tree_ind {A} (P : list A -> Prop) :
  (forall h, P [h]) ->
  (forall t l r, nlen l = 2 ^ t -> 0 < nlen r -> nlen r <= 2 ^ t ->
     P l -> P r -> P (l ++ r)) ->
  forall l, l <> [] -> P l.
Proof.
  intros Hleaf Hnode.
  assert (forall n l, nlen l <= n -> l <> [] -> P l) as Hall.
  { induction n as [|n IH] using N.peano_ind; intros l Hn Hne;
      apply nlen_pos in Hne as Hpos; [lia|].
    destruct (decide (nlen l = 1)) as [H1|H1].
    - destruct l as [|h [|]]; unfold nlen in *; simpl in *; [done|done|lia].
    - destruct (split_list l) as (t & l1 & l2 & -> & Ht & Hr & Hr' & _); [lia|].
      rewrite nlen_app in *. pose proof (pow2_pos t).
      apply (Hnode t); [done..| |]; apply IH; rewrite ?nlen_pos; lia. }
  intros l. eapply Hall. done.
Qed.

(** ** The reference tree hash *)

Section TreeFold.
Context {A X : Type} (leaf : A -> X) (node : X -> X -> X) (none : X).

Lemma tree_fold_fuel_enough f1 f2 hs :
  (length hs <= f1)%nat -> (length hs <= f2)%nat ->
  tree_fold_fuel leaf node none f1 hs = tree_fold_fuel leaf node none f2 hs.
Proof.
  revert f2 hs. induction f1 as [|f1 IH]; intros f2 hs H1 H2.
  { destruct hs; [|simpl in H1; lia]. by destruct f2. }
  destruct f2 as [|f2]; [destruct hs; [done|simpl in H2; lia]|].
  destruct hs as [|h [|h' hs]]; [done..|]. cbn [tree_fold_fuel].
  set (l := h :: h' :: hs) in *.
  assert (2 <= nlen l) as Hl by (unfold nlen, l; simpl; lia).
  destruct (split_list l Hl) as (t & l1 & l2 & -> & Ht & Hr1 & Hr2 & ->).
  pose proof (pow2_pos t). rewrite ntake_app_eq, ndrop_app_eq by done.
  rewrite length_app in *. unfold nlen in *. f_equal; apply IH; lia.
Qed.

Lemma tree_fold_node t l r :
  nlen l = 2 ^ t -> 0 < nlen r -> nlen r <= 2 ^ t ->
  tree_fold leaf node none (l ++ r)
  = node (tree_fold leaf node none l) (tree_fold leaf node none r).
Proof.
  intros Hl Hr1 Hr2. pose proof (pow2_pos t) as Hp.
  assert (split_point (nlen (l ++ r)) = nlen l) as Hs.
  { rewrite Hl. apply split_point_unique; rewrite nlen_app; lia. }
  unfold tree_fold at 1. destruct (length (l ++ r)) as [|f] eqn:Hf.
  { rewrite length_app in Hf. unfold nlen in *. lia. }
  cbn [tree_fold_fuel]. destruct (l ++ r) as [|h [|h' hs]] eqn:E.
  - done.
  - apply (f_equal nlen) in E. rewrite nlen_app in E. unfold nlen at 3 in E. simpl in E. lia.
  - rewrite <-E in *. rewrite Hs, ntake_app_eq, ndrop_app_eq by done.
    rewrite length_app in Hf. unfold nlen in *.
    f_equal; apply tree_fold_fuel_enough; lia.
Qed.

End TreeFold.

Section SpecLemmas.
Context `{Sha256}.

Lemma mth_singleton h : mth [h] = h.
Proof. done. Qed.

Lemma mth_node t l r :
  nlen l = 2 ^ t -> 0 < nlen r -> nlen r <= 2 ^ t ->
  mth (l ++ r) = node_hash (mth l) (mth r).
Proof. apply tree_fold_node. Qed.

Lemma mth_inputs_node t l r :
  nlen l = 2 ^ t -> 0 < nlen r -> nlen r <= 2 ^ t ->
  mth_inputs (l ++ r) = node_input (mth l) (mth r) :: mth_inputs l ++ mth_inputs r.
Proof.
  assert (forall l, l <> [] ->
    (tree_fold (fun h => (h, []))
       (fun a b => (node_hash a.1 b.1, node_input a.1 b.1 :: a.2 ++ b.2))
       (array_of 32 [], []) l).1 = mth l) as Hfst.
  { apply tree_ind; [done|]. intros t' l' r' Hl Hr Hr' IHl IHr.
    rewrite (tree_fold_node _ _ _ t') by done.
    by rewrite (mth_node t'), <-IHl, <-IHr by done. }
  intros Hl Hr Hr'. unfold mth_inputs. rewrite (tree_fold_node _ _ _ t) by done.
  pose proof (pow2_pos t). simpl. by rewrite !Hfst by (apply nlen_pos; lia).
Qed.

(** ** Refinement: the code's recursive root is [mth] *)

Lemma root_of_hashes_fuel_spec fuel hs :
  hs <> [] -> nlen hs <= max_leaves -> (length hs <= fuel)%nat ->
  root_of_hashes_fuel fuel hs = Ok (mth hs).
Proof.
  revert hs. induction fuel as [|fuel IH]; intros hs Hne Hmax Hf.
  { destruct hs; [done|simpl in Hf; lia]. }
  destruct hs as [|h [|h' hs]]; [done|done|]. cbn [root_of_hashes_fuel].
  set (l := h :: h' :: hs) in *.
  assert (2 <= nlen l) as Hl by (unfold nlen, l; simpl; lia).
  rewrite largest_power_of_two_spec by done. cbn [res_bind].
  destruct (split_list l Hl) as (t & l1 & l2 & -> & Ht & Hr1 & Hr2 & ->).
  pose proof (pow2_pos t). rewrite ntake_app_eq, ndrop_app_eq by done.
  rewrite nlen_app in *. rewrite length_app in Hf.
  rewrite !IH; [|rewrite ?nlen_pos; unfold nlen in *; lia..].
  cbn [res_bind]. by rewrite (mth_node t).
Qed.

Lemma root_of_hashes_spec hs :
  hs <> [] -> nlen hs <= max_leaves -> root_of_hashes hs = Ok (mth hs).
Proof. intros. by apply root_of_hashes_fuel_spec. Qed.

Lemma compute_root_spec leaves :
  leaves <> [] -> nlen leaves <= max_leaves ->
  compute_root leaves = Ok (mth (hash <$> leaves)).
Proof.
  intros Hne Hmax. unfold compute_root. destruct leaves; [done|].
  apply root_of_hashes_spec; [done|]. by rewrite nlen_fmap.
Qed.

End SpecLemmas.
