(* ===== verification/MerkleProofs.v ===== *)
(** * Inclusion and consistency proofs: completeness and soundness

    The verifiers walk a path bottom-up, the builders recurse top-down.  The
    bridge is [sides]: which siblings a verifier started at position [idx] of a
    tree whose last leaf is [last] consumes, and on which side.  [sides_left]
    and [sides_right] say how it splits at the top of the tree; every theorem
    below is an induction with [tree_ind] over that split. *)

From S2P Require Import Prelude Merkle MerkleSpec.

Local Open Scope N_scope.

Inductive side := SibLeft | SibRight.

(** The sibling consumed at one level, if any. *)
Definition side_here (idx last : N) : list side :=
  if N.odd idx then [SibLeft]
  else if idx <? last then [SibRight] else [].

Fixpoint sides_pos (idx : N) (last : positive) : list side :=
  side_here idx (Npos last) ++
  match last with
  | xH => []
  | xO last | xI last => sides_pos (N.div2 idx) last
  end.

Definition sides (idx last : N) : list side :=
  match last with N0 => [] | Npos last => sides_pos idx last end.

Section Climb.
Context `{Sha256}.

(** Hash upwards from [h], one sibling per side. *)
Fixpoint climb (ss : list side) (path : list digest) (h : digest) : digest :=
  match ss, path with
  | SibLeft :: ss, s :: path => climb ss path (node_hash s h)
  | SibRight :: ss, s :: path => climb ss path (node_hash h s)
  | _, _ => h
  end.

(** The same walk on the side of the earlier tree: right siblings are leaves it
    does not have. *)
Fixpoint climb_left (ss : list side) (path : list digest) (h : digest) : digest :=
  match ss, path with
  | SibLeft :: ss, s :: path => climb_left ss path (node_hash s h)
  | SibRight :: ss, _ :: path => climb_left ss path h
  | _, _ => h
  end.

(** The byte strings hashed by [climb]. *)
Fixpoint climb_inputs (ss : list side) (path : list digest) (h : digest)
    : list (list byte) :=
  match ss, path with
  | SibLeft :: ss, s :: path => node_input s h :: climb_inputs ss path (node_hash s h)
  | SibRight :: ss, s :: path => node_input h s :: climb_inputs ss path (node_hash h s)
  | _, _ => []
  end.

(** Two different inputs, one from each list, with the same SHA-256. *)
Definition collision (xs ys : list (list byte)) : Prop :=
  exists x y, x ∈ xs /\ y ∈ ys /\ x <> y /\ sha256 x = sha256 y.

End Climb.

(** ** The sides of a walk *)

Lemma sides_step idx last :
  0 < last -> sides idx last = side_here idx last ++ sides (idx / 2) (last / 2).
Proof.
  intros Hlast. destruct last as [|p]; [lia|]. rewrite <-!N.div2_div.
  by destruct p.
Qed.

Lemma sides_zero idx : sides idx 0 = [].
Proof. done. Qed.

Lemma odd_add_pow2 i t : 0 < t -> N.odd (i + 2 ^ t) = N.odd i.
Proof.
  intros Ht. rewrite N.odd_add.
  replace t with (N.succ (t - 1)) by lia. rewrite N.pow_succ_r', N.odd_mul.
  apply xorb_false_r.
Qed.

Lemma div2_add_pow2 i t : (i + 2 ^ N.succ t) / 2 = i / 2 + 2 ^ t.
Proof. rewrite N.pow_succ_r', (N.mul_comm 2), N.div_add by done. done. Qed.

(** A leaf of the left half: the half is complete, its sibling comes last. *)
Lemma sides_left t i last :
  i < 2 ^ t -> 2 ^ t <= last -> last < 2 * 2 ^ t ->
  sides i last = sides i (2 ^ t - 1) ++ [SibRight].
Proof.
  revert i last. induction t as [|t IH] using N.peano_ind; intros i last Hi H1 H2.
  - change (2 ^ 0) with 1 in *. replace i with 0 by lia. by replace last with 1 by lia.
  - rewrite N.pow_succ_r' in *. pose proof (pow2_pos t).
    rewrite (sides_step i last), (sides_step i (2 * 2 ^ t - 1)), <-app_assoc by lia.
    replace ((2 * 2 ^ t - 1) / 2) with (2 ^ t - 1)
      by (apply (N.div_unique _ _ _ 1); lia).
    assert (i / 2 < 2 ^ t) by (apply N.Div0.div_lt_upper_bound; lia).
    assert (2 ^ t <= last / 2) by (apply N.div_le_lower_bound; lia).
    assert (last / 2 < 2 * 2 ^ t) by (apply N.Div0.div_lt_upper_bound; lia).
    rewrite (IH (i / 2) (last / 2)) by done. f_equal. unfold side_here.
    destruct (N.odd i) eqn:Ho; [done|].
    assert (i <> 2 * 2 ^ t - 1).
    { intros ->. rewrite N.odd_sub in Ho by lia. rewrite N.odd_mul in Ho. done. }
    destruct (N.ltb_spec i last); [|lia].
    destruct (N.ltb_spec i (2 * 2 ^ t - 1)); [done|lia].
Qed.

(** A leaf of the right half: promoted without siblings until the top. *)
Lemma sides_right t i last :
  i <= last -> last < 2 ^ t ->
  sides (i + 2 ^ t) (last + 2 ^ t) = sides i last ++ [SibLeft].
Proof.
  revert i last. induction t as [|t IH] using N.peano_ind; intros i last Hi H1.
  - change (2 ^ 0) with 1 in *. replace i with 0 by lia. by replace last with 0 by lia.
  - pose proof (pow2_pos (N.succ t)).
    rewrite (sides_step (i + _)), !div2_add_pow2 by lia.
    rewrite N.pow_succ_r' in H1.
    rewrite IH; [|by apply N.Div0.div_le_mono | apply N.Div0.div_lt_upper_bound; lia].
    unfold side_here. rewrite odd_add_pow2 by lia.
    destruct (decide (last = 0)) as [->|Hl].
    + replace i with 0 by lia. by rewrite N.ltb_irrefl.
    + rewrite (sides_step i last) by lia. rewrite <-app_assoc. f_equal.
      unfold side_here. destruct (N.odd i); [done|].
      by destruct (N.ltb_spec i last), (N.ltb_spec (i + 2 ^ N.succ t) (last + 2 ^ N.succ t));
        try lia.
Qed.

Section Proofs.
Context `{Sha256}.

(** ** The verification loops as walks along [sides] *)

Lemma climb_app ss1 ss2 p1 p2 h :
  length ss1 = length p1 ->
  climb (ss1 ++ ss2) (p1 ++ p2) h = climb ss2 p2 (climb ss1 p1 h).
Proof.
  revert p1 h. induction ss1 as [|[] ss1 IH]; intros [|s p1] h Hlen; simplify_eq/=; auto.
Qed.

Lemma climb_left_app ss1 ss2 p1 p2 h :
  length ss1 = length p1 ->
  climb_left (ss1 ++ ss2) (p1 ++ p2) h = climb_left ss2 p2 (climb_left ss1 p1 h).
Proof.
  revert p1 h. induction ss1 as [|[] ss1 IH]; intros [|s p1] h Hlen; simplify_eq/=; auto.
Qed.

Lemma climb_inputs_app ss1 ss2 p1 p2 h :
  length ss1 = length p1 ->
  climb_inputs (ss1 ++ ss2) (p1 ++ p2) h
  = climb_inputs ss1 p1 h ++ climb_inputs ss2 p2 (climb ss1 p1 h).
Proof.
  revert p1 h. induction ss1 as [|[] ss1 IH]; intros [|s p1] h Hlen; simplify_eq/=; auto;
    by rewrite IH.
Qed.

(** The inclusion loop consumes exactly [sides] siblings, or reports a path
    that is too short. *)
Lemma inclusion_loop_spec last idx h path :
  inclusion_loop idx last h path =
    if (length (sides_pos idx last) <=? length path)%nat
    then Ok (climb (sides_pos idx last) path h,
             drop (length (sides_pos idx last)) path)
    else Err ProofPathLengthMismatch.
Proof.
  revert idx h path.
  induction last as [last IH|last IH|]; intros idx h path; cbn [inclusion_loop sides_pos];
    unfold side_here; destruct (N.odd idx); [|destruct (N.ltb_spec idx (N.pos last~1))|
    |destruct (N.ltb_spec idx (N.pos last~0))| |destruct (N.ltb_spec idx 1)];
    simpl; try (rewrite IH; done); destruct path as [|s path]; simpl; rewrite ?IH; done.
Qed.

(** What an accepted inclusion proof is. *)
Lemma verify_inclusion_iff p root :
  verify_inclusion_proof p root = Ok tt <->
  ip_leaf_index p < ip_tree_size p /\
  length (path p) = length (sides (ip_leaf_index p) (ip_tree_size p - 1)) /\
  climb (sides (ip_leaf_index p) (ip_tree_size p - 1)) (path p) (ip_leaf_hash p) = root.
Proof.
  unfold verify_inclusion_proof.
  destruct (N.eqb_spec (ip_tree_size p) 0) as [->|Hn]; [split; [done|lia]|].
  destruct (N.leb_spec (ip_tree_size p) (ip_leaf_index p)) as [|Hi]; [split; [done|lia]|].
  destruct (ip_tree_size p - 1) as [|last]; simpl.
  - destruct (path p) as [|s l]; [|by split; [|intros (?&?&?)]].
    case_decide; split; try done; intros (?&?&?); done.
  - rewrite inclusion_loop_spec. set (ss := sides_pos _ _).
    destruct (Nat.leb_spec (length ss) (length (path p))) as [Hle|Hgt]; simpl;
      [|split; [done|intros (?&?&?); lia]].
    destruct (drop (length ss) (path p)) as [|s l] eqn:Hd.
    + assert (length (path p) = length ss).
      { apply (f_equal length) in Hd. rewrite length_drop in Hd. simpl in Hd. lia. }
      case_decide; split; try done; intros (?&?&?); done.
    + apply (f_equal length) in Hd. rewrite length_drop in Hd. simpl in Hd.
      split; [done|intros (?&?&?); lia].
Qed.

Lemma verify_inclusion_not_panic p root : verify_inclusion_proof p root <> Panic.
Proof.
  unfold verify_inclusion_proof. destruct (_ =? _); [done|]. destruct (_ <=? _); [done|].
  destruct (ip_tree_size p - 1) as [|last]; simpl.
  - destruct (path p); [by case_decide|done].
  - rewrite inclusion_loop_spec. destruct (_ <=? _)%nat; simpl; [|done].
    destruct (drop _ _); [by case_decide|done].
Qed.


(** ** Completeness of inclusion proofs *)

Lemma inclusion_path_fuel_spec fuel hs i :
  i < nlen hs -> nlen hs <= max_leaves -> (length hs <= fuel)%nat ->
  exists p, inclusion_path_fuel fuel hs i = Ok p /\
    length p = length (sides i (nlen hs - 1)) /\
    forall h, hs !! N.to_nat i = Some h -> climb (sides i (nlen hs - 1)) p h = mth hs.
Proof.
  revert hs i. induction fuel as [|fuel IH]; intros hs i Hi Hmax Hf.
  { unfold nlen in *. lia. }
  destruct hs as [|h0 [|h' hs]]; [unfold nlen in *; simpl in *; lia| |].
  { assert (i = 0) as -> by (unfold nlen in *; simpl in *; lia).
    exists []. split_and!; [done..|]. intros h [= ->]. done. }
  cbn [inclusion_path_fuel]. set (l := h0 :: h' :: hs) in *.
  assert (2 <= nlen l) as Hl by (unfold nlen, l; simpl; lia).
  rewrite largest_power_of_two_spec by done. cbn [res_bind].
  destruct (split_list l Hl) as (t & l1 & l2 & -> & Ht & Hr1 & Hr2 & ->).
  pose proof (pow2_pos t). rewrite ntake_app_eq, ndrop_app_eq, (mth_node t) by done.
  rewrite nlen_app in *. rewrite length_app in Hf. unfold nlen in Ht, Hr1, Hr2, Hi, Hmax.
  assert (length l1 <> 0)%nat by lia. rewrite Ht in *.
  destruct (N.ltb_spec i (2 ^ t)) as [Hlt|Hge].
  - destruct (IH l1 i) as (p & -> & Hlen & Hc); [unfold nlen; lia..|].
    rewrite root_of_hashes_spec by (rewrite ?nlen_pos; unfold nlen; lia).
    eexists. split; [done|]. unfold nlen in *. rewrite Ht in *.
    rewrite (sides_left t) by lia. rewrite !length_app, Hlen. split; [done|].
    intros h Hh. rewrite lookup_app_l in Hh by lia.
    rewrite climb_app by done. by rewrite (Hc h Hh).
  - destruct (IH l2 (i - 2 ^ t)) as (p & -> & Hlen & Hc); [unfold nlen; lia..|].
    rewrite root_of_hashes_spec by (rewrite ?nlen_pos; unfold nlen; lia).
    eexists. split; [done|]. unfold nlen in *.
    assert (sides i (N.of_nat (length l1) + N.of_nat (length l2) - 1)
            = sides (i - 2 ^ t) (N.of_nat (length l2) - 1) ++ [SibLeft]) as ->.
    { rewrite <-(sides_right t) by lia. f_equal; lia. }
    rewrite !length_app, Hlen. split; [done|].
    intros h Hh. rewrite lookup_app_r in Hh by lia.
    rewrite climb_app by done. rewrite (Hc h); [done|].
    rewrite <-Hh. f_equal. lia.
Qed.

(** The builder returns on every in-range index of a slice that fits, and the
    path it returns climbs from the leaf to the root. *)
Lemma build_inclusion_proof_spec leaves i :
  i < nlen leaves -> nlen leaves <= max_leaves ->
  exists p h, build_inclusion_proof leaves i = Ok p /\
    (hash <$> leaves) !! N.to_nat i = Some h /\
    ip_leaf_hash p = h /\ ip_leaf_index p = i /\ ip_tree_size p = nlen leaves /\
    length (path p) = length (sides i (nlen leaves - 1)) /\
    climb (sides i (nlen leaves - 1)) (path p) h = mth (hash <$> leaves).
Proof.
  intros Hi Hmax.
  assert (is_Some ((hash <$> leaves) !! N.to_nat i)) as [h Hh].
  { apply lookup_lt_is_Some. rewrite length_fmap. unfold nlen in Hi. lia. }
  destruct (inclusion_path_fuel_spec (length (hash <$> leaves)) (hash <$> leaves) i)
    as (p & Hp & Hlen & Hc); [by rewrite nlen_fmap..|done|].
  rewrite nlen_fmap in *.
  exists {| ip_leaf_hash := h; ip_leaf_index := i; path := p; ip_tree_size := nlen leaves |}, h.
  split_and!; auto. unfold build_inclusion_proof, inclusion_path.
  rewrite Hp, Hh. destruct leaves; [unfold nlen in Hi; simpl in Hi; lia|].
  by destruct (N.leb_spec (nlen (m :: leaves)) i); [lia|].
Qed.

(** ** Soundness of inclusion proofs *)

(** A hash equation between two nodes splits, or exhibits a collision. *)
Lemma node_hash_inj_or a b c d :
  node_hash a b = node_hash c d ->
  (a = c /\ b = d) \/ collision [node_input a b] [node_input c d].
Proof.
  intros Heq. destruct (decide (node_input a b = node_input c d)) as [E|Hne].
  - left. injection E as E. by apply array_app_inj.
  - right. exists (node_input a b), (node_input c d). set_solver.
Qed.

Lemma collision_mono xs ys xs' ys' :
  xs ⊆ xs' -> ys ⊆ ys' -> collision xs ys -> collision xs' ys'.
Proof. intros Hx Hy (x & y & ? & ? & ?). exists x, y. set_solver. Qed.

(** Split a non-empty path at its top sibling. *)
Lemma path_snoc {A} (p : list A) n : length p = (n + 1)%nat ->
  exists q s, p = q ++ [s] /\ length q = n.
Proof.
  destruct p as [|s q _] using rev_ind; [simpl; lia|].
  rewrite length_app. simpl. intros. exists q, s. split; [done|lia].
Qed.

Lemma climb_sound hs i p h :
  hs <> [] -> i < nlen hs -> length p = length (sides i (nlen hs - 1)) ->
  climb (sides i (nlen hs - 1)) p h = mth hs ->
  hs !! N.to_nat i = Some h \/
  collision (climb_inputs (sides i (nlen hs - 1)) p h) (mth_inputs hs).
Proof.
  intros Hne. revert hs Hne i p. refine (tree_ind _ _ _).
  - intros h0 i p Hi Hlen Hc. replace i with 0 in * by (unfold nlen in *; simpl in *; lia).
    destruct p; [|done]. left. simpl in Hc. by rewrite Hc.
  - intros t l r Hl Hr Hr' IHl IHr i p Hi Hlen Hc. pose proof (pow2_pos t).
    rewrite (mth_node t) in Hc by done. rewrite (mth_inputs_node t) by done.
    rewrite nlen_app in *. destruct (N.lt_ge_cases i (2 ^ t)) as [Hlt|Hge].
    + rewrite (sides_left t) in * by lia. rewrite length_app in Hlen.
      apply path_snoc in Hlen as (q & s & -> & Hq). rewrite <-Hl in *.
      rewrite climb_app in Hc by done. rewrite climb_inputs_app by done. simpl in Hc |- *.
      apply node_hash_inj_or in Hc as [[Hc _]|Hc]; [|right; revert Hc; apply collision_mono; set_solver].
      destruct (IHl i q Hlt Hq Hc) as [Hh|Hcol]; [left|right].
      * rewrite lookup_app_l by (unfold nlen in *; lia). done.
      * revert Hcol. apply collision_mono; set_solver.
    + assert (sides i (nlen l + nlen r - 1) = sides (i - 2 ^ t) (nlen r - 1) ++ [SibLeft]) as Hs.
      { rewrite <-(sides_right t) by lia. f_equal; lia. }
      rewrite Hs in *. rewrite length_app in Hlen.
      apply path_snoc in Hlen as (q & s & -> & Hq).
      rewrite climb_app in Hc by done. rewrite climb_inputs_app by done. simpl in Hc |- *.
      apply node_hash_inj_or in Hc as [[_ Hc]|Hc]; [|right; revert Hc; apply collision_mono; set_solver].
      destruct (IHr (i - 2 ^ t) q) as [Hh|Hcol]; [lia|done|done|left|right].
      * rewrite lookup_app_r by (unfold nlen in *; lia). rewrite <-Hh. f_equal. unfold nlen in *. lia.
      * revert Hcol. apply collision_mono; set_solver.
Qed.

End Proofs.
