(* ===== verification/MerkleConsistency.v ===== *)
(** * Consistency proofs: the builder and the verifier agree, and the verifier is sound

    A tree of size [m = q * 2^s] with [q] odd ends in a complete block of [2^s]
    leaves; the verifier starts at that block, at position [q - 1] of the
    block-level tree.  [block_sides] are the sides of that walk; they split at
    the top of the tree as [sides] does. *)

From S2P Require Import Prelude Merkle MerkleSpec MerkleProofs.

Local Open Scope N_scope.

Definition block_sides (s m n : N) : list side :=
  sides (m / 2 ^ s - 1) ((n - 1) / 2 ^ s).

(** [m = q * 2^s] with [q] odd. *)
Definition odd_part (m q s : N) : Prop := m = q * 2 ^ s /\ N.odd q = true.

(** ** Arithmetic of blocks *)

Lemma pow2_sub t s : s <= t -> 2 ^ t = 2 ^ (t - s) * 2 ^ s.
Proof. intros. rewrite <-N.pow_add_r. f_equal. lia. Qed.

Lemma pow2_odd_one t : N.odd (2 ^ t) = true -> t = 0.
Proof.
  intros Ho. destruct (N.eq_dec t 0) as [|Ht]; [done|exfalso].
  replace t with (N.succ (t - 1)) in Ho by lia.
  by rewrite N.pow_succ_r', N.odd_mul in Ho.
Qed.

Lemma pow2_lt_inv a b : 2 ^ a < 2 ^ b -> a < b.
Proof. apply N.pow_lt_mono_r_iff. lia. Qed.

Lemma pow2_le_inv a b : 2 ^ a <= 2 ^ b -> a <= b.
Proof. apply N.pow_le_mono_r_iff. lia. Qed.

Lemma odd_pos q : N.odd q = true -> 1 <= q.
Proof. destruct q; [done|lia]. Qed.

Lemma odd_part_le m q s : odd_part m q s -> 2 ^ s <= m.
Proof. intros [-> Ho]. apply odd_pos in Ho. pose proof (pow2_pos s). nia. Qed.

(** A power of two is its own block. *)
Lemma odd_part_pow2 t q s : odd_part (2 ^ t) q s -> q = 1 /\ s = t.
Proof.
  intros Hm. pose proof (odd_part_le _ _ _ Hm) as Hle. destruct Hm as [Hm Ho].
  apply pow2_le_inv in Hle. rewrite (pow2_sub t s) in Hm by done.
  pose proof (pow2_pos s). apply N.mul_cancel_r in Hm; [|lia].
  rewrite <-Hm in Ho. apply pow2_odd_one in Ho as Ht. split; [by rewrite <-Hm, Ht|lia].
Qed.

(** Dropping a larger power of two keeps the block size and the odd part odd. *)
Lemma odd_part_sub m q s t :
  odd_part m q s -> 2 ^ t < m -> m < 2 * 2 ^ t ->
  s < t /\ odd_part (m - 2 ^ t) (q - 2 ^ (t - s)) s /\ 2 ^ (t - s) < q.
Proof.
  intros Hm H1 H2. pose proof (odd_part_le _ _ _ Hm) as Hle. destruct Hm as [-> Ho].
  assert (s < t) as Hst.
  { assert (2 ^ s < 2 ^ (N.succ t)) as Hlt by (rewrite N.pow_succ_r'; lia).
    apply pow2_lt_inv in Hlt. destruct (N.eq_dec s t) as [->|]; [exfalso|lia].
    generalize dependent (2 ^ t). intros x. destruct (N.le_gt_cases q 1); nia. }
  rewrite (pow2_sub t s) in * by lia. pose proof (pow2_pos s).
  assert (2 ^ (t - s) < q) by (apply (N.mul_lt_mono_pos_r (2 ^ s)); lia).
  split_and!; [done| |done].
  split; [by rewrite N.mul_sub_distr_r|]. rewrite N.odd_sub, Ho by lia.
  replace (t - s) with (N.succ (t - s - 1)) by lia.
  by rewrite N.pow_succ_r', N.odd_mul.
Qed.

Lemma odd_part_unique m q s q' s' :
  odd_part m q s -> odd_part m q' s' -> q' = q /\ s' = s.
Proof.
  assert (forall m q s q' s', odd_part m q s -> odd_part m q' s' -> s <= s' ->
    q' = q /\ s' = s) as Hle.
  { clear. intros m q s q' s' [-> Ho] [Heq Ho'] Hs.
    rewrite (pow2_sub s' s), N.mul_assoc in Heq by done.
    pose proof (pow2_pos s). apply N.mul_cancel_r in Heq; [|lia].
    rewrite Heq, N.odd_mul in Ho. apply andb_true_iff in Ho as [_ Ho].
    apply pow2_odd_one in Ho. rewrite Ho, N.mul_1_r in Heq. split; [done|lia]. }
  intros H1 H2. destruct (N.le_ge_cases s s') as [Hs|Hs]; [eauto|].
  destruct (Hle m q' s' q s) as [-> ->]; auto.
Qed.

Lemma block_pos m q s : odd_part m q s -> m / 2 ^ s = q.
Proof. intros [-> _]. apply N.div_mul. pose proof (pow2_pos s). lia. Qed.

Lemma block_sides_base t q s : odd_part (2 ^ t) q s -> block_sides s (2 ^ t) (2 ^ t) = [].
Proof.
  intros Hm. apply odd_part_pow2 in Hm as [_ ->]. unfold block_sides.
  pose proof (pow2_pos t). rewrite N.div_same, (N.div_small (2 ^ t - 1)) by lia. done.
Qed.

Lemma block_sides_left s t m n q :
  odd_part m q s -> m <= 2 ^ t -> 2 ^ t < n -> n <= 2 * 2 ^ t ->
  block_sides s m n = block_sides s m (2 ^ t) ++ [SibRight].
Proof.
  intros Hm H1 H2 H3. pose proof (odd_part_le _ _ _ Hm) as Hle. unfold block_sides.
  rewrite (block_pos _ _ _ Hm). destruct Hm as [-> Ho]. apply odd_pos in Ho.
  assert (s <= t) as Hst by (apply pow2_le_inv; lia).
  pose proof (pow2_pos s). pose proof (pow2_pos (t - s)).
  rewrite (pow2_sub t s) in * by done.
  replace ((2 ^ (t - s) * 2 ^ s - 1) / 2 ^ s) with (2 ^ (t - s) - 1).
  2:{ apply (N.div_unique _ _ _ (2 ^ s - 1)); nia. }
  apply sides_left.
  - nia.
  - apply N.div_le_lower_bound; [lia|nia].
  - apply N.Div0.div_lt_upper_bound. nia.
Qed.

Lemma block_sides_right s t m n q :
  odd_part m q s -> 2 ^ t < m -> m < n -> n <= 2 * 2 ^ t ->
  block_sides s m n = block_sides s (m - 2 ^ t) (n - 2 ^ t) ++ [SibLeft].
Proof.
  intros Hm H1 H2 H3. destruct (odd_part_sub m q s t Hm) as (Hst & Hm' & Hq); [lia..|].
  unfold block_sides. rewrite (block_pos _ _ _ Hm), (block_pos _ _ _ Hm').
  pose proof (pow2_pos s). pose proof (pow2_pos (t - s)). destruct Hm as [Hm _].
  assert ((n - 1) / 2 ^ s = (n - 2 ^ t - 1) / 2 ^ s + 2 ^ (t - s)) as ->.
  { rewrite <-N.div_add by lia. f_equal. rewrite <-pow2_sub by lia. lia. }
  rewrite (pow2_sub t s) in * by lia.
  rewrite <-(sides_right (t - s)).
  - f_equal. lia.
  - apply N.div_le_lower_bound; [lia|nia].
  - apply N.Div0.div_lt_upper_bound. nia.
Qed.

(** ** The two verifier loops are one walk *)

Lemma skip_complete_spec m last :
  0 < m -> exists q s, odd_part m q s /\ skip_complete (m - 1) last = (q - 1, last / 2 ^ s).
Proof.
  intros Hm. destruct (m - 1) as [|p] eqn:E.
  { exists 1, 0. split; [split; [simpl; lia|done]|]. simpl. by rewrite N.div_1_r. }
  replace m with (Npos p + 1) by lia. clear E m Hm. simpl. revert last.
  induction p as [p IH|p IH|]; intros last.
  - destruct (IH (N.div2 last)) as (q & s & [Hq Ho] & Hs). exists q, (N.succ s).
    rewrite N.div2_div, N.Div0.div_div, <-N.pow_succ_r' in Hs. split; [split; [|done]|].
    + rewrite N.pow_succ_r'. lia.
    + simpl. by rewrite N.div2_div.
  - exists (Npos p~0 + 1), 0. split; [split; [simpl; lia|]|].
    + by rewrite N.odd_add.
    + simpl. by rewrite N.div_1_r.
  - exists 1, 1. split; [split; [simpl; lia|done]|]. simpl. by rewrite N.div2_div.
Qed.

Section Loops.
Context `{Sha256}.

Lemma sides_zero_right last : Forall (eq SibRight) (sides 0 last).
Proof.
  destruct last as [|p]; [constructor|]. simpl.
  induction p as [p IH|p IH|]; simpl; constructor; auto.
Qed.

Lemma climb_left_right_only ss p h : Forall (eq SibRight) ss -> climb_left ss p h = h.
Proof.
  intros Hss. revert p h. induction Hss as [|x ss <- _ IH]; intros [|d p] h; simpl; auto.
Qed.

Lemma drain_loop_spec last tr p :
  drain_loop last tr p =
    if (length (sides 0 last) <=? length p)%nat
    then Ok (climb (sides 0 last) p tr, drop (length (sides 0 last)) p)
    else Err ProofPathLengthMismatch.
Proof.
  destruct last as [|last]; simpl; [done|]. revert tr p.
  induction last as [last IH|last IH|]; intros tr [|d p]; simpl; rewrite ?IH; done.
Qed.

(** Both loops, run one after the other. *)
Definition consistency_walk (node last : N) (fr tr : digest) (p : list digest)
    : vres (digest * digest * list digest) :=
  let? (last, fr, tr, rest) := consistency_loop node last fr tr p in
  let? (tr, rest) := drain_loop last tr rest in
  Ok (fr, tr, rest).

Lemma consistency_walk_zero last fr tr p :
  consistency_walk 0 last fr tr p =
    if (length (sides 0 last) <=? length p)%nat
    then Ok (climb_left (sides 0 last) p fr, climb (sides 0 last) p tr,
             drop (length (sides 0 last)) p)
    else Err ProofPathLengthMismatch.
Proof.
  unfold consistency_walk. simpl. rewrite drain_loop_spec.
  rewrite climb_left_right_only by apply sides_zero_right.
  by destruct (_ <=? _)%nat.
Qed.

Lemma consistency_walk_step p last fr tr path :
  consistency_walk (Npos p) last fr tr path =
    let? (fr, tr, path) :=
      if N.odd (Npos p) then
        match path with
        | s :: path => Ok (node_hash s fr, node_hash s tr, path)
        | [] => Err ProofPathLengthMismatch
        end
      else if Npos p <? last then
        match path with
        | s :: path => Ok (fr, node_hash tr s, path)
        | [] => Err ProofPathLengthMismatch
        end
      else Ok (fr, tr, path) in
    consistency_walk (N.div2 (Npos p)) (N.div2 last) fr tr path.
Proof.
  unfold consistency_walk, consistency_loop.
  by destruct p as [p|p|]; cbn [consistency_loop_pos]; rewrite res_bind_assoc;
    match goal with |- res_bind ?x _ = res_bind ?x _ => destruct x as [[[??]?]| |] end.
Qed.

Lemma consistency_walk_spec node last fr tr p :
  node <= last ->
  consistency_walk node last fr tr p =
    if (length (sides node last) <=? length p)%nat
    then Ok (climb_left (sides node last) p fr, climb (sides node last) p tr,
             drop (length (sides node last)) p)
    else Err ProofPathLengthMismatch.
Proof.
  destruct node as [|node]; [intros _; apply consistency_walk_zero|].
  revert last fr tr p.
  induction node as [node IH|node IH|]; intros last fr tr p Hle;
    rewrite consistency_walk_step, (sides_step _ last) by lia; unfold side_here;
    rewrite <-!N.div2_div.
  - assert (Npos node <= N.div2 last) by (destruct last as [|[]]; simpl in *; lia).
    destruct p as [|d p]; simpl; [done|]. by rewrite IH.
  - assert (Npos node <= N.div2 last) by (destruct last as [|[]]; simpl in *; lia).
    cbn [N.odd]. destruct (N.ltb_spec (Npos node~0) last); [|simpl; by rewrite IH].
    destruct p as [|d p]; simpl; [done|]. by rewrite IH.
  - destruct p as [|d p]; simpl; [done|]. by rewrite consistency_walk_zero.
Qed.

(** A walk from [pos] below [last] with both seeds equal accepts exactly when the hashes
    are as many as the sides and climb to the two roots. *)
Lemma walk_accepts pos last from_root to_root seed rest :
  pos <= last ->
  (let? (last, fr, tr, rest) := consistency_loop pos last seed seed rest in
   let? (tr, rest) := drain_loop last tr rest in
   match rest with
   | [] => if decide (fr = from_root /\ tr = to_root) then Ok tt else Err RootMismatch
   | _ :: _ => Err ProofPathLengthMismatch
   end) = Ok tt <->
  length rest = length (sides pos last) /\ climb_left (sides pos last) rest seed = from_root /\
  climb (sides pos last) rest seed = to_root.
Proof.
  intros Hle. set (ss := sides pos last).
  pose proof (consistency_walk_spec pos last seed seed rest Hle) as Hw.
  unfold consistency_walk in Hw. fold ss in Hw.
  destruct (consistency_loop _ _ _ _ _) as [[[[last' fr] tr] rest']|e|]; simpl in *;
    [destruct (drain_loop _ _ _) as [[tr' rest'']|e|]; simpl in *|..];
    destruct (Nat.leb_spec (length ss) (length rest)); simplify_eq;
    try (split; [done|intros (?&?&?); lia]).
  destruct (drop (length ss) rest) as [|x l] eqn:Hd;
    apply (f_equal length) in Hd; rewrite length_drop in Hd; simpl in Hd.
  - case_decide as Hdec; (split; [intros ?|intros (_ & ? & ?)]); try done.
    + destruct Hdec. split_and!; [lia|done|done].
    + exfalso. by apply Hdec.
  - split; [done|intros (?&?&?); lia].
Qed.

(** What an accepted consistency proof between different sizes is. *)
Lemma verify_consistency_iff p from_root to_root :
  0 < from_size p -> from_size p < to_size p ->
  exists q s, odd_part (from_size p) q s /\
    (verify_consistency_proof p from_root to_root = Ok tt <->
     exists seed rest,
       (if q =? 1 then seed = from_root /\ proof p = rest else proof p = seed :: rest) /\
       length rest = length (block_sides s (from_size p) (to_size p)) /\
       climb_left (block_sides s (from_size p) (to_size p)) rest seed = from_root /\
       climb (block_sides s (from_size p) (to_size p)) rest seed = to_root).
Proof.
  intros Hm Hn.
  destruct (skip_complete_spec (from_size p) (to_size p - 1) Hm) as (q & s & Hq & Hskip).
  exists q, s. split; [done|]. unfold verify_consistency_proof.
  destruct (N.eqb_spec (from_size p) 0) as [|_]; [lia|].
  destruct (N.ltb_spec (to_size p) (from_size p)) as [|_]; [lia|].
  destruct (N.eqb_spec (from_size p) (to_size p)) as [|_]; [lia|]. simpl.
  rewrite Hskip. unfold block_sides. rewrite (block_pos _ _ _ Hq).
  assert (q - 1 <= (to_size p - 1) / 2 ^ s) as Hle.
  { destruct Hq as [Hq Ho]. apply N.div_le_lower_bound; [pose proof (pow2_pos s); lia|].
    apply odd_pos in Ho. pose proof (pow2_pos s). nia. }
  pose proof (fun seed rest => walk_accepts _ _ from_root to_root seed rest Hle) as Hwalk.
  destruct Hq as [_ Ho]. apply odd_pos in Ho.
  destruct (N.ltb_spec 0 (q - 1)) as [Hq1|Hq1], (N.eqb_spec q 1) as [Hq2|Hq2]; try lia.
  - destruct (proof p) as [|seed rest]; simpl.
    + split; [done|by intros (?&?&?&?)].
    + rewrite Hwalk. split; [eauto 8|intros (?&?&[= -> ->]&?); done].
  - simpl. rewrite Hwalk. split; [intros; exists from_root, (proof p); tauto|].
    intros (?&?&[-> ->]&?). done.
Qed.

(** ** Soundness *)

(** Whatever hashes were supplied: if the walk reaches the later tree's root,
    its left part reaches the root of the later tree's own prefix. *)
Lemma climb_left_sound hs :
  hs <> [] -> forall m q s rest seed,
  odd_part m q s -> m <= nlen hs -> (m = nlen hs -> q = 1) ->
  length rest = length (block_sides s m (nlen hs)) ->
  climb (block_sides s m (nlen hs)) rest seed = mth hs ->
  climb_left (block_sides s m (nlen hs)) rest seed = mth (ntake m hs) \/
  collision (climb_inputs (block_sides s m (nlen hs)) rest seed) (mth_inputs hs).
Proof.
  revert hs.
  assert (forall hs m q s rest seed, odd_part m q s -> m = nlen hs -> q = 1 ->
    length rest = length (block_sides s m (nlen hs)) ->
    climb (block_sides s m (nlen hs)) rest seed = mth hs ->
    climb_left (block_sides s m (nlen hs)) rest seed = mth (ntake m hs)) as Hbase.
  { intros hs m q s rest seed Hm -> -> Hlen. rewrite ntake_all by done.
    pose proof Hm as [Heq _]. rewrite N.mul_1_l in Heq. rewrite Heq in *.
    rewrite (block_sides_base s 1 s) in * by done. by destruct rest. }
  refine (tree_ind _ _ _).
  - intros h m q s rest seed Hm Hle Hfull Hlen Hc. left.
    pose proof (odd_part_le _ _ _ Hm). pose proof (pow2_pos s).
    assert (m = nlen [h]) by (unfold nlen in *; simpl in *; lia). eauto.
  - intros t l r Hl Hr Hr' IHl IHr m q s rest seed Hm Hle Hfull Hlen Hc.
    pose proof (pow2_pos t).
    destruct (N.eq_dec m (nlen (l ++ r))) as [He|Hne]; [left; eauto|].
    rewrite (mth_node t) in Hc by done. rewrite (mth_inputs_node t) by done.
    rewrite nlen_app in *. destruct (N.le_gt_cases m (2 ^ t)) as [Hmt|Hmt].
    + rewrite (block_sides_left s t m _ q) in * by (done || lia). rewrite length_app in Hlen.
      apply path_snoc in Hlen as (w & x & -> & Hw). rewrite <-Hl in *.
      rewrite climb_app in Hc by done. rewrite climb_inputs_app, climb_left_app by done.
      simpl in Hc |- *.
      apply node_hash_inj_or in Hc as [[Hc _]|Hc]; [|right; revert Hc; apply collision_mono; set_solver].
      rewrite ntake_app_le by done.
      destruct (IHl m q s w seed) as [?|Hcol]; auto.
      * intros ->. rewrite Hl in Hm. by apply odd_part_pow2 in Hm as [-> _].
      * right. revert Hcol. apply collision_mono; set_solver.
    + destruct (odd_part_sub m q s t Hm) as (_ & Hm' & _); [lia..|].
      rewrite (block_sides_right s t m _ q) in * by (done || lia). rewrite length_app in Hlen.
      apply path_snoc in Hlen as (w & x & -> & Hw). rewrite <-Hl in *.
      replace (nlen l + nlen r - nlen l) with (nlen r) in * by lia.
      rewrite climb_app in Hc by done. rewrite climb_inputs_app, climb_left_app by done.
      simpl in Hc |- *.
      apply node_hash_inj_or in Hc as [[-> Hc]|Hc]; [|right; revert Hc; apply collision_mono; set_solver].
      rewrite ntake_app_ge by lia.
      destruct (IHr (m - nlen l) (q - 2 ^ (t - s)) s w seed) as [->|Hcol]; auto; try lia.
      * left. symmetry. apply (mth_node t); rewrite ?nlen_ntake; lia.
      * right. revert Hcol. apply collision_mono; set_solver.
Qed.

(** ** Completeness *)

(** The contract [build_consistency_proof_with] asks of its closure: the root of
    every non-empty range of the leaf hashes [D]. *)
Definition sources_roots (f : N -> N -> vres digest) (D : list digest) : Prop :=
  forall pre l post, D = pre ++ l ++ post -> l <> [] -> f (nlen pre) (nlen l) = Ok (mth l).

(** What [SUBPROOF] returns on the range [l] of [D]: a seed for the last block of
    the earlier tree and the rest of the walk; on the path of the earlier root,
    the seed is omitted when the earlier tree is that block. *)
Definition subproof_ok (l : list digest) (m q s : N) (off on : list digest) : Prop :=
  exists seed rest, off = seed :: rest /\
    (on = if q =? 1 then rest else seed :: rest) /\
    (q = 1 -> seed = mth (ntake m l)) /\
    length rest = length (block_sides s m (nlen l)) /\
    climb_left (block_sides s m (nlen l)) rest seed = mth (ntake m l) /\
    climb (block_sides s m (nlen l)) rest seed = mth l.

Lemma subproof_ok_full l q s : odd_part (nlen l) q s -> q = 1 ->
  subproof_ok l (nlen l) q s [mth l] [].
Proof.
  intros Hm ->. exists (mth l), []. rewrite ntake_all by done.
  pose proof Hm as [Heq _]. rewrite N.mul_1_l in Heq. rewrite Heq in *.
  by rewrite (block_sides_base s 1 s) by done.
Qed.

Lemma subproof_ok_left t l r m q s off on :
  nlen l = 2 ^ t -> 0 < nlen r -> nlen r <= 2 ^ t -> odd_part m q s -> m <= 2 ^ t ->
  subproof_ok l m q s off on ->
  subproof_ok (l ++ r) m q s (off ++ [mth r]) (on ++ [mth r]).
Proof.
  intros Hl Hr Hr' Hm Hmt (seed & rest & -> & -> & Hseed & Hlen & Hcl & Hc).
  exists seed, (rest ++ [mth r]).
  rewrite nlen_app, (block_sides_left s t m _ q), ntake_app_le by (done || lia).
  rewrite <-Hl, !length_app, Hlen, climb_app, climb_left_app, (mth_node t) by done.
  rewrite Hcl, Hc. split_and!; try done. by destruct (q =? 1).
Qed.

Lemma subproof_ok_right t l r m q s off on :
  nlen l = 2 ^ t -> 0 < nlen r -> nlen r <= 2 ^ t -> odd_part m q s ->
  2 ^ t < m -> m < 2 ^ t + nlen r ->
  subproof_ok r (m - 2 ^ t) (q - 2 ^ (t - s)) s off on ->
  subproof_ok (l ++ r) m q s (off ++ [mth l]) (off ++ [mth l]).
Proof.
  intros Hl Hr Hr' Hm Hmt Hmr (seed & rest & -> & _ & _ & Hlen & Hcl & Hc).
  destruct (odd_part_sub m q s t Hm) as (Hst & _ & Hq); [lia..|].
  assert (q <> 1) as Hq1 by (pose proof (pow2_pos (t - s)); lia).
  exists seed, (rest ++ [mth l]). destruct (N.eqb_spec q 1) as [|_]; [done|].
  rewrite nlen_app, (block_sides_right s t m _ q), ntake_app_ge by (done || lia).
  rewrite Hl. replace (2 ^ t + nlen r - 2 ^ t) with (nlen r) by lia.
  rewrite !length_app, Hlen, climb_app, climb_left_app, (mth_node t l r) by done.
  rewrite Hcl, Hc. split_and!; try done. simpl. symmetry.
  apply (mth_node t); rewrite ?nlen_ntake; lia.
Qed.

Lemma subproof_with_fuel_spec f D fuel pre l post m q s :
  sources_roots f D -> D = pre ++ l ++ post -> l <> [] -> nlen l <= max_leaves ->
  nlen l <= 2 ^ N.of_nat fuel -> odd_part m q s -> m <= nlen l -> (m = nlen l -> q = 1) ->
  exists off on,
    subproof_with_fuel (S fuel) f m (nlen pre) (nlen l) false = Ok off /\
    subproof_with_fuel (S fuel) f m (nlen pre) (nlen l) true = Ok on /\
    subproof_ok l m q s off on.
Proof.
  intros Hf. revert pre l post m q.
  induction fuel as [|fuel IH]; intros pre l post m q HD Hne Hmax Hfuel Hm Hle Hfull;
    pose proof (odd_part_le _ _ _ Hm) as Hlow; pose proof (pow2_pos s) as Hps;
    cbn [subproof_with_fuel]; destruct (N.eqb_spec m (nlen l)) as [->|Hneq].
  1,3: exists [mth l], []; rewrite (Hf pre l post) by done;
    split_and!; [done..|]; eauto using subproof_ok_full.
  { simpl in Hfuel. lia. }
  destruct (N.leb_spec (nlen l) m) as [|Hlt]; [lia|].
  rewrite largest_power_of_two_u64_spec by lia. cbn [res_bind].
  destruct (split_list l) as (t & l1 & l2 & -> & Hl1 & Hl2 & Hl2' & ->); [lia|].
  pose proof (pow2_pos t). rewrite nlen_app in *.
  rewrite Nat2N.inj_succ, N.pow_succ_r' in Hfuel.
  assert (2 ^ t <= 2 ^ N.of_nat fuel) as Htf.
  { apply N.pow_le_mono_r; [done|]. apply N.lt_succ_r, pow2_lt_inv.
    rewrite N.pow_succ_r'. lia. }
  rewrite <-Hl1 in *. replace (nlen l1 + nlen l2 - nlen l1) with (nlen l2) by lia.
  assert (l1 <> []) by (apply nlen_pos; lia). assert (l2 <> []) by (apply nlen_pos; lia).
  assert (f (nlen pre) (nlen l1) = Ok (mth l1)) as Hf1.
  { apply (Hf pre l1 (l2 ++ post)); [|done]. by rewrite HD, <-!app_assoc. }
  assert (f (nlen pre + nlen l1) (nlen l2) = Ok (mth l2)) as Hf2.
  { rewrite <-nlen_app. apply (Hf (pre ++ l1) l2 post); [|done]. by rewrite HD, <-!app_assoc. }
  destruct (N.leb_spec m (nlen l1)) as [Hmt|Hmt].
  - destruct (IH pre l1 (l2 ++ post) m q) as (off & on & Hoff & Hon & Hok);
      [by rewrite HD, <-!app_assoc|done|lia|lia|done|done| |].
    { intros ->. rewrite Hl1 in Hm. by apply odd_part_pow2 in Hm as [-> _]. }
    exists (off ++ [mth l2]), (on ++ [mth l2]). cbn [subproof_with_fuel] in Hoff, Hon.
    rewrite Hoff, Hon, Hf2. split_and!; [done..|].
    apply (subproof_ok_left t); (done || lia).
  - destruct (odd_part_sub m q s t Hm) as (_ & Hm' & _); [lia..|].
    rewrite <-Hl1 in Hm'.
    destruct (IH (pre ++ l1) l2 post (m - nlen l1) (q - 2 ^ (t - s))) as (off & on & Hoff & Hon & Hok);
      [by rewrite HD, <-!app_assoc|done|lia|lia|done|lia|lia|].
    exists (off ++ [mth l1]), (off ++ [mth l1]). rewrite nlen_app in Hoff.
    cbn [subproof_with_fuel] in Hoff. rewrite Hoff, Hf1. split_and!; [done..|].
    rewrite Hl1 in Hok. apply (subproof_ok_right t _ _ _ _ _ _ on); (done || lia).
Qed.

Lemma size_pow2 n : n <= 2 ^ N.of_nat (N.to_nat (N.size n)).
Proof. rewrite N2Nat.id. pose proof (N.size_gt n). lia. Qed.

(** From any source that answers the tree's own range queries, the builder
    returns a proof that the verifier accepts for the two tree heads. *)
Lemma build_consistency_proof_with_spec f D from :
  sources_roots f D -> 0 < from -> from <= nlen D -> nlen D <= max_leaves ->
  exists p, build_consistency_proof_with from (nlen D) f = Ok p /\
    from_size p = from /\ to_size p = nlen D /\
    verify_consistency_proof p (mth (ntake from D)) (mth D) = Ok tt.
Proof.
  intros Hf Hpos Hle Hmax. unfold build_consistency_proof_with.
  destruct (N.eqb_spec from 0) as [|_]; [lia|].
  destruct (N.ltb_spec (nlen D) from) as [|_]; [lia|]. simpl orb. cbn iota.
  destruct (N.eq_dec from (nlen D)) as [->|Hne].
  - eexists. unfold subproof_with. cbn [subproof_with_fuel]. rewrite N.eqb_refl.
    split_and!; [done..|]. rewrite ntake_all by done.
    unfold verify_consistency_proof. simpl.
    rewrite N.eqb_refl, N.ltb_irrefl. destruct (N.eqb_spec (nlen D) 0); [lia|]. simpl.
    by rewrite decide_True.
  - destruct (skip_complete_spec from 0 Hpos) as (q & s & Hm & _).
    destruct (subproof_with_fuel_spec f D (N.to_nat (N.size (nlen D))) [] D [] from q s)
      as (off & on & _ & Hon & seed & rest & -> & -> & Hseed & Hlen & Hcl & Hc);
      rewrite ?app_nil_r; auto using size_pow2; [apply nlen_pos; lia|done|].
    unfold subproof_with. change (nlen []) with 0 in Hon. rewrite Hon. cbn [res_bind].
    eexists. split_and!; [done..|].
    set (p := {| from_size := from; proof := _; to_size := nlen D |}).
    destruct (verify_consistency_iff p (mth (ntake from D)) (mth D)) as (q' & s' & Hm' & ->);
      simpl; [lia..|].
    assert (q' = q /\ s' = s) as [-> ->] by eauto using odd_part_unique.
    exists seed, rest. split_and!; try done.
    destruct (N.eqb_spec q 1); auto.
Qed.

Lemma sources_roots_prefix f D k : sources_roots f D -> sources_roots f (ntake k D).
Proof.
  intros Hf pre l post HD Hne. apply (Hf pre l (post ++ ndrop k D)); [|done].
  rewrite <-(ntake_ndrop k D) at 1. by rewrite HD, <-!app_assoc.
Qed.

(** The closure of [build_consistency_proof] answers the range queries. *)
Lemma slice_root_sources hs : nlen hs <= max_leaves -> sources_roots (slice_root hs) hs.
Proof.
  intros Hmax pre l post -> Hne. unfold slice_root, checked_add64.
  rewrite !nlen_app in *. unfold max_leaves in Hmax.
  change (2 ^ 63) with 9223372036854775808 in Hmax.
  destruct (N.leb_spec (nlen pre + nlen l) u64_max) as [_|Hgt]; [|unfold u64_max in Hgt; lia].
  destruct (N.leb_spec (nlen pre + nlen l) (nlen pre + (nlen l + nlen post))) as [_|]; [|lia].
  rewrite ndrop_app_eq, ntake_app_eq by done.
  apply root_of_hashes_spec; [done|]. unfold max_leaves.
  change (2 ^ 63) with 9223372036854775808. lia.
Qed.

(** Two sources that agree on the ranges of a tree build the same proof. *)
Lemma subproof_with_fuel_ext f g fuel start n m b N0 :
  (forall a len, 0 < len -> a + len <= N0 -> f a len = g a len) ->
  0 < m -> start + n <= N0 ->
  subproof_with_fuel fuel f m start n b = subproof_with_fuel fuel g m start n b.
Proof.
  intros Hfg. revert start n m b. induction fuel as [|fuel IH]; intros start n m b Hm Hn; [done|].
  cbn [subproof_with_fuel].
  destruct (N.eqb_spec m n) as [->|]; [rewrite Hfg by lia; done|].
  destruct (N.leb_spec n m) as [|Hlt]; [done|].
  destruct (largest_power_of_two_strictly_less_than_u64 n) as [k| |] eqn:Hk; [|done..].
  apply largest_power_of_two_u64_inside in Hk as Hkn. cbn [res_bind].
  destruct (N.leb_spec m k) as [Hmk|Hmk].
  - rewrite (IH start k m b) by lia. by rewrite (Hfg (start + k) (n - k)) by lia.
  - rewrite (IH (start + k) (n - k) (m - k) false) by lia. by rewrite (Hfg start k) by lia.
Qed.

End Loops.
