(* ===== verification/HashTree.v ===== *)
(** * The incremental hash tree

    Models [HashTree] of [crates/domain/src/transparency/merkle.rs]: the cached
    internal nodes behind [GET /v1/consistency].  [levels] is the vector of
    levels; [row] is the reference content of each level. *)

From S2P Require Import Prelude Merkle MerkleSpec MerkleProofs MerkleConsistency.

Record HashTree := { levels : list (list digest) }.

Section HashTree.
Context `{Sha256}.

(** [HashTree::new] / [default]. *)
Definition ht_new : HashTree := {| levels := [] |}.

Definition ht_len (t : HashTree) : N :=
  match levels t with [] => 0%N | l :: _ => nlen l end.

Definition ht_is_empty (t : HashTree) : bool := (ht_len t =? 0)%N.

(** The loop of [push], entered with the new hash already at [level]. *)
Fixpoint push_loop (fuel level : nat) (ls : list (list digest))
    : vres (list (list digest)) :=
  match fuel with
  | O => Panic
  | S fuel =>
      let? row := index_panic (ls !! level) in
      let len := length row in
      if Nat.odd len then Ok ls
      else
        let? a := index_panic (row !! (len - 2)%nat) in
        let? b := index_panic (row !! (len - 1)%nat) in
        let parent := node_hash a b in
        let ls := if (length ls =? level + 1)%nat then ls ++ [[]] else ls in
        push_loop fuel (S level) (alter (fun r => r ++ [parent]) (S level) ls)
  end.

Definition ht_push (t : HashTree) (h : digest) : vres HashTree :=
  let ls := match levels t with [] => [[]] | ls => ls end in
  let ls := alter (fun r => r ++ [h]) 0%nat ls in
  let? ls := push_loop (S (N.to_nat (ht_len t))) 0 ls in
  Ok {| levels := ls |}.

Definition ht_push_leaf (t : HashTree) (leaf : MerkleLeaf) : vres HashTree :=
  ht_push t (hash leaf).

Fixpoint subtree_root_fuel (fuel : nat) (t : HashTree) (start len : N) : vres digest :=
  match fuel with
  | O => Panic
  | S fuel =>
      if (len =? 0)%N then Err EmptyTree
      else
        match checked_add64 start len with
        | None => Err LeafIndexOutOfBounds
        | Some e =>
            if negb (e <=? ht_len t)%N then Err LeafIndexOutOfBounds
            else if is_power_of_two len && (start mod len =? 0)%N then
              ok_or LeafIndexOutOfBounds
                (levels t !! N.to_nat (trailing_zeros len) ≫= fun l =>
                   l !! N.to_nat (start / len))
            else
              let? k := largest_power_of_two_strictly_less_than_u64 len in
              let? lh := subtree_root_fuel fuel t start k in
              let? rh := subtree_root_fuel fuel t (start + k) (len - k) in
              Ok (node_hash lh rh)
        end
  end.

Definition subtree_root (t : HashTree) (start len : N) : vres digest :=
  subtree_root_fuel (S (N.to_nat (N.size len))) t start len.

Definition root_at (t : HashTree) (size : N) : vres digest := subtree_root t 0 size.

Definition consistency_proof (t : HashTree) (from to : N) : vres ConsistencyProof :=
  if ((from =? 0) || (to <? from))%N then Err InvalidConsistencyRange
  else if (ht_len t <? to)%N then Err LeafIndexOutOfBounds
  else build_consistency_proof_with from to (subtree_root t).

(** ** The reference rows *)

Fixpoint pair_up (l : list digest) : list digest :=
  match l with
  | a :: b :: l => node_hash a b :: pair_up l
  | _ => []
  end.

Fixpoint row (j : nat) (hs : list digest) : list digest :=
  match j with O => hs | S j => pair_up (row j hs) end.

(** Level [j] is present exactly when its row is not empty. *)
Definition row_opt (j : nat) (hs : list digest) : option (list digest) :=
  match row j hs with [] => None | r => Some r end.

(** The tree caches exactly the rows of [hs]. *)
Definition caches (t : HashTree) (hs : list digest) : Prop :=
  forall j, levels t !! j = row_opt j hs.

Lemma pair_ind (P : list digest -> Prop) :
  P [] -> (forall a, P [a]) -> (forall a b l, P l -> P (a :: b :: l)) -> forall l, P l.
Proof.
  intros H0 H1 H2 l. enough (P l /\ forall a, P (a :: l)) by tauto.
  induction l as [|x l [IH1 IH2]]; auto.
Qed.

Lemma pair_up_even l y : Nat.even (length l) = true -> pair_up (l ++ [y]) = pair_up l.
Proof. induction l as [|a|a b l IH] using pair_ind; simpl; intros; [done..|]. by rewrite IH. Qed.

Lemma pair_up_odd l x y :
  Nat.even (length l) = true -> pair_up (l ++ [x; y]) = pair_up l ++ [node_hash x y].
Proof. induction l as [|a|a b l IH] using pair_ind; simpl; intros; [done..|]. by rewrite IH. Qed.

Lemma length_pair_up l : length (pair_up l) = (length l / 2)%nat.
Proof.
  induction l as [|a|a b l IH] using pair_ind; [done..|]. cbn [pair_up length]. rewrite IH.
  replace (S (S (length l))) with (length l + 1 * 2)%nat by lia.
  rewrite Nat.div_add by done. lia.
Qed.

Lemma pair_up_lookup l i a b :
  l !! (2 * i)%nat = Some a -> l !! (2 * i + 1)%nat = Some b ->
  pair_up l !! i = Some (node_hash a b).
Proof.
  revert i. induction l as [|x|x y l IH] using pair_ind; intros i Ha Hb.
  - done.
  - apply lookup_lt_Some in Hb. simpl in Hb. lia.
  - destruct i as [|i]; [simpl in *; congruence|]. simpl. apply IH; rewrite <-?Ha, <-?Hb.
    + replace (2 * S i)%nat with (S (S (2 * i))) by lia. done.
    + replace (2 * S i + 1)%nat with (S (S (2 * i + 1))) by lia. done.
Qed.

(** ** [push] keeps the rows *)

Lemma row_same_above j k a b : (j <= k)%nat -> row j a = row j b -> row k a = row k b.
Proof. induction 1; simpl; [done|]. intros. f_equal. auto. Qed.

Lemma row_opt_Some j hs : row j hs <> [] -> row_opt j hs = Some (row j hs).
Proof. unfold row_opt. by destruct (row j hs). Qed.

Lemma row_opt_snoc j hs h y : row j (hs ++ [h]) = row j hs ++ [y] ->
  row_opt j (hs ++ [h]) = Some (row j hs ++ [y]).
Proof. intros Hr. unfold row_opt. rewrite Hr. by destruct (row j hs). Qed.

(** Pushing a complete pair's parent one level up. *)
Lemma grow_level ls level parent hs :
  (level < length ls)%nat -> ls !! S level = row_opt (S level) hs ->
  forall j,
  alter (fun r => r ++ [parent]) (S level)
    (if (length ls =? level + 1)%nat then ls ++ [[]] else ls) !! j =
  if decide (j = S level) then Some (row (S level) hs ++ [parent]) else ls !! j.
Proof.
  intros Hlen Hrow j. case_decide as Hj; subst.
  - rewrite list_lookup_alter_eq. unfold row_opt in Hrow. destruct (Nat.eqb_spec (length ls) (level + 1)).
    + rewrite lookup_ge_None_2 in Hrow by lia. rewrite lookup_app_r by lia.
      replace (S level - length ls)%nat with 0%nat by lia. by destruct (row (S level) hs).
    + destruct (row (S level) hs) eqn:E; rewrite Hrow; [|done].
      apply lookup_ge_None_1 in Hrow. lia.
  - rewrite list_lookup_alter_ne by done.
    destruct (Nat.eqb_spec (length ls) (level + 1)); [|done].
    destruct (decide (j < length ls)%nat); [by rewrite lookup_app_l|].
    rewrite (lookup_ge_None_2 ls) by lia. apply lookup_ge_None_2.
    rewrite length_app. simpl. lia.
Qed.

Lemma push_loop_spec hs h fuel level ls y :
  (length (row level hs) < fuel)%nat ->
  (forall j, (j <= level)%nat -> ls !! j = row_opt j (hs ++ [h])) ->
  (forall j, (level < j)%nat -> ls !! j = row_opt j hs) ->
  row level (hs ++ [h]) = row level hs ++ [y] ->
  exists ls', push_loop fuel level ls = Ok ls' /\ forall j, ls' !! j = row_opt j (hs ++ [h]).
Proof.
  revert level ls y. induction fuel as [|fuel IH]; intros level ls y Hf Hlow Hhigh Hy; [lia|].
  cbn [push_loop]. rewrite Hlow, (row_opt_snoc _ _ _ y) by done. cbn [index_panic res_bind].
  destruct (row level hs) as [|x r' _] eqn:Er using rev_ind.
  { exists ls. split; [done|]. intros j. destruct (decide (j <= level)%nat); [auto|].
    rewrite Hhigh by lia. unfold row_opt.
    rewrite (row_same_above (S level) j hs (hs ++ [h])); [done|lia|].
    cbn [row]. by rewrite Er, Hy. }
  rewrite <-app_assoc in *. cbn [app] in *. rewrite length_app. cbn [length].
  rewrite Nat.odd_add, xorb_comm. cbn [Nat.odd xorb].
  destruct (Nat.odd (length r')) eqn:Ho.
  - (* the level now has an odd length: nothing above changes *)
    simpl. exists ls. split; [done|]. intros j. destruct (decide (j <= level)%nat); [auto|].
    rewrite Hhigh by lia. unfold row_opt.
    rewrite (row_same_above (S level) j hs (hs ++ [h])); [done|lia|].
    cbn [row]. rewrite Er, Hy. symmetry.
    change [x; y] with ([x] ++ [y]). rewrite app_assoc. apply pair_up_even.
    rewrite length_app, Nat.even_add, <-Nat.negb_odd, Ho. done.
  - simpl negb. cbn iota.
    replace (length r' + 2 - 2)%nat with (length r' + 0)%nat by lia.
    replace (length r' + 2 - 1)%nat with (length r' + 1)%nat by lia.
    rewrite !lookup_app_r, !Nat.add_sub' by lia. simpl index_panic. cbn [res_bind].
    assert (Nat.even (length r') = true) as He by by rewrite <-Nat.negb_odd, Ho.
    assert (row (S level) hs = pair_up r') as Hrow.
    { cbn [row]. rewrite Er. by apply pair_up_even. }
    assert (row (S level) (hs ++ [h]) = row (S level) hs ++ [node_hash x y]) as Hnew.
    { rewrite Hrow. cbn [row]. rewrite Hy. by apply pair_up_odd. }
    assert (level < length ls)%nat.
    { apply lookup_lt_is_Some. rewrite Hlow, (row_opt_snoc _ _ _ y); by rewrite ?Er, <-?app_assoc. }
    apply (IH _ _ (node_hash x y)); [| | |done].
    + rewrite Hrow, length_pair_up. rewrite length_app in Hf. simpl in Hf.
      apply Nat.Div0.div_lt_upper_bound. lia.
    + intros j Hj. rewrite (grow_level _ _ _ hs) by auto. case_decide as Hj'; subst.
      * symmetry. by apply row_opt_snoc.
      * apply Hlow. lia.
    + intros j Hj. rewrite (grow_level _ _ _ hs) by auto.
      rewrite decide_False by lia. apply Hhigh. lia.
Qed.

Lemma caches_new : caches ht_new [].
Proof.
  intros j. unfold row_opt. assert (row j [] = []) as ->; [|done].
  induction j as [|j IH]; simpl; by rewrite ?IH.
Qed.

Lemma caches_len t hs : caches t hs -> ht_len t = nlen hs.
Proof.
  intros Hc. specialize (Hc 0%nat). unfold ht_len. unfold row_opt in Hc. simpl in Hc.
  by destruct (levels t) as [|l ls], hs as [|x hs]; simplify_eq/=.
Qed.

Lemma ht_push_spec t hs h :
  caches t hs -> exists t', ht_push t h = Ok t' /\ caches t' (hs ++ [h]).
Proof.
  intros Hc. pose proof (caches_len _ _ Hc) as Hlen. unfold ht_push.
  set (ls := alter _ _ _).
  assert (forall j, ls !! j = if decide (j = 0%nat) then Some (hs ++ [h]) else levels t !! j) as Hls.
  { intros j. pose proof (Hc 0%nat) as H0. unfold row_opt in H0. simpl in H0. unfold ls.
    destruct (levels t) as [|l0 ls0], j as [|j], hs; simplify_eq/=; done. }
  destruct (push_loop_spec hs h (S (N.to_nat (ht_len t))) 0 ls h) as (ls' & -> & Hls').
  - rewrite Hlen. simpl. unfold nlen. lia.
  - intros j Hj. assert (j = 0%nat) as -> by lia. rewrite Hls, decide_True by done.
    unfold row_opt. simpl. by destruct hs.
  - intros j Hj. rewrite Hls, decide_False by lia. apply Hc.
  - done.
  - eexists. split; [done|]. done.
Qed.

(** ** Aligned blocks are single lookups *)

Local Open Scope N_scope.

Lemma ndrop_ntake_block {A} (l : list A) a k :
  ntake (2 * k) (ndrop a l) = ntake k (ndrop a l) ++ ntake k (ndrop (a + k) l).
Proof.
  unfold ntake, ndrop.
  replace (drop (N.to_nat (a + k)) l) with (drop (N.to_nat k) (drop (N.to_nat a) l))
    by (rewrite drop_drop; f_equal; lia).
  replace (N.to_nat (2 * k)) with (N.to_nat k + N.to_nat k)%nat by lia.
  symmetry. apply take_take_drop.
Qed.

Lemma row_lookup j hs i :
  (i + 1) * 2 ^ N.of_nat j <= nlen hs ->
  row j hs !! N.to_nat i
  = Some (mth (ntake (2 ^ N.of_nat j) (ndrop (i * 2 ^ N.of_nat j) hs))).
Proof.
  revert i. induction j as [|j IH]; intros i Hi.
  - simpl in *. rewrite !N.mul_1_r in *.
    destruct (hs !! N.to_nat i) as [h|] eqn:E.
    + unfold ntake, ndrop. change (N.to_nat 1) with 1%nat.
      by rewrite (drop_S _ _ _ E).
    + apply lookup_ge_None_1 in E. unfold nlen in Hi. lia.
  - cbn [row]. rewrite Nat2N.inj_succ, N.pow_succ_r' in *. pose proof (pow2_pos (N.of_nat j)).
    erewrite (pair_up_lookup _ _ (mth _) (mth _)).
    2:{ replace (2 * N.to_nat i)%nat with (N.to_nat (2 * i)) by lia. apply IH. nia. }
    2:{ replace (2 * N.to_nat i + 1)%nat with (N.to_nat (2 * i + 1)) by lia. apply IH. nia. }
    f_equal. set (k := 2 ^ N.of_nat j) in *.
    rewrite ndrop_ntake_block. symmetry.
    replace (2 * i * k) with (i * (2 * k)) by lia.
    replace ((2 * i + 1) * k) with (i * (2 * k) + k) by lia.
    apply (mth_node (N.of_nat j)); rewrite nlen_ntake; rewrite ?nlen_ndrop; fold k; nia.
Qed.

Lemma trailing_zeros_pow2 t : trailing_zeros (2 ^ t) = t.
Proof.
  induction t as [|t IH] using N.peano_ind; [done|].
  rewrite N.pow_succ_r'. destruct (2 ^ t) as [|p] eqn:E; [by pose proof (pow2_pos t); lia|].
  change (2 * Npos p) with (Npos p~0). change (pos_trailing_zeros p = t) in IH.
  change (N.succ (pos_trailing_zeros p) = N.succ t). by rewrite IH.
Qed.

Lemma ntake_split {A} (l : list A) a k n : k <= n ->
  ntake n (ndrop a l) = ntake k (ndrop a l) ++ ntake (n - k) (ndrop (a + k) l).
Proof.
  intros Hk. unfold ntake, ndrop.
  replace (drop (N.to_nat (a + k)) l) with (drop (N.to_nat k) (drop (N.to_nat a) l))
    by (rewrite drop_drop; f_equal; lia).
  rewrite take_take_drop. f_equal. lia.
Qed.

Lemma subtree_root_aligned t hs j i :
  caches t hs -> (i + 1) * 2 ^ j <= nlen hs ->
  levels t !! N.to_nat j ≫= (fun l => l !! N.to_nat i)
  = Some (mth (ntake (2 ^ j) (ndrop (i * 2 ^ j) hs))).
Proof.
  intros Hc Hi. pose proof (row_lookup (N.to_nat j) hs i) as Hrow.
  rewrite N2Nat.id in Hrow. specialize (Hrow Hi). rewrite Hc, row_opt_Some; [done|].
  intros E. by rewrite E in Hrow.
Qed.

Lemma subtree_root_fuel_spec t hs fuel start len :
  caches t hs -> nlen hs <= max_leaves -> 0 < len -> start + len <= nlen hs ->
  2 * len <= 2 ^ N.of_nat fuel ->
  subtree_root_fuel fuel t start len = Ok (mth (ntake len (ndrop start hs))).
Proof.
  intros Hc Hmax. revert start len.
  induction fuel as [|fuel IH]; intros start len Hlen Hend Hfuel; [simpl in Hfuel; lia|].
  cbn [subtree_root_fuel]. rewrite (caches_len _ _ Hc). unfold checked_add64.
  destruct (N.eqb_spec len 0) as [|_]; [lia|].
  destruct (N.leb_spec (start + len) u64_max) as [_|Hov]; [|unfold u64_max, max_leaves in *; lia].
  destruct (N.leb_spec (start + len) (nlen hs)) as [_|]; [|lia]. simpl negb. cbn iota.
  destruct (is_power_of_two len && (start mod len =? 0)) eqn:Hal.
  - apply andb_true_iff in Hal as [[j ->]%is_power_of_two_spec Hmod%N.eqb_eq].
    apply N.Div0.div_exact in Hmod as Hs. rewrite trailing_zeros_pow2.
    rewrite (subtree_root_aligned t hs) by (done || nia).
    by rewrite (N.mul_comm _ (2 ^ j)), <-Hs.
  - assert (2 <= len) as Hlen2.
    { destruct (N.eq_dec len 1) as [->|]; [|lia]. by rewrite N.mod_1_r in Hal. }
    rewrite largest_power_of_two_u64_spec by lia.
    destruct (split_point_spec len Hlen2) as (u & -> & Hu1 & Hu2). cbn [res_bind].
    pose proof (pow2_pos u). rewrite Nat2N.inj_succ, N.pow_succ_r' in Hfuel.
    assert (2 ^ N.succ u <= 2 ^ N.of_nat fuel) as Hu.
    { apply N.pow_le_mono_r; [done|]. apply N.le_succ_l, pow2_lt_inv. lia. }
    rewrite N.pow_succ_r' in Hu. rewrite !IH by lia. cbn [res_bind]. f_equal.
    rewrite (ntake_split _ _ (2 ^ u) len) by lia. symmetry.
    apply (mth_node u); rewrite nlen_ntake; rewrite ?nlen_ndrop; lia.
Qed.

Lemma subtree_root_spec t hs start len :
  caches t hs -> nlen hs <= max_leaves -> 0 < len -> start + len <= nlen hs ->
  subtree_root t start len = Ok (mth (ntake len (ndrop start hs))).
Proof.
  intros. apply subtree_root_fuel_spec; auto.
  pose proof (size_pow2 len). rewrite Nat2N.inj_succ, N.pow_succ_r'. lia.
Qed.

Lemma subtree_root_sources t hs :
  caches t hs -> nlen hs <= max_leaves -> sources_roots (subtree_root t) hs.
Proof.
  intros Hc Hmax pre l post -> Hne. apply nlen_pos in Hne. rewrite !nlen_app in *.
  rewrite (subtree_root_spec _ (pre ++ l ++ post)); rewrite ?nlen_app; [|done|lia..].
  by rewrite ndrop_app_eq, ntake_app_eq.
Qed.

(** Every error path of [subtree_root]. *)
Lemma subtree_root_errors t hs start len :
  caches t hs -> nlen hs <= max_leaves ->
  (len = 0 -> subtree_root t start len = Err EmptyTree) /\
  (0 < len -> nlen hs < start + len -> subtree_root t start len = Err LeafIndexOutOfBounds).
Proof.
  intros Hc Hmax. unfold subtree_root. split; [by intros ->|]. intros Hpos Hend.
  cbn [subtree_root_fuel]. rewrite (caches_len _ _ Hc). destruct (N.eqb_spec len 0); [lia|].
  unfold checked_add64. destruct (start + len <=? u64_max); [|done].
  by destruct (N.leb_spec (start + len) (nlen hs)); [lia|].
Qed.

(** A consistency proof read off the cache verifies against the prefix roots. *)
Lemma cached_consistency_proof t hs from to :
  caches t hs -> nlen hs <= max_leaves -> 0 < from -> from <= to -> to <= nlen hs ->
  exists p, consistency_proof t from to = Ok p /\ from_size p = from /\ to_size p = to /\
    verify_consistency_proof p (mth (ntake from hs)) (mth (ntake to hs)) = Ok tt.
Proof.
  intros Hc Hmax H1 H2 H3. assert (nlen (ntake to hs) = to) as Hto by (rewrite nlen_ntake; lia).
  destruct (build_consistency_proof_with_spec (subtree_root t) (ntake to hs) from)
    as (p & Hp & Hf & Ht & Hv); [|lia..|].
  { by apply sources_roots_prefix, subtree_root_sources. }
  rewrite Hto in *. rewrite ntake_ntake in Hv. replace (N.min from to) with from in Hv by lia.
  exists p. split_and!; [|done..]. unfold consistency_proof. rewrite (caches_len _ _ Hc), Hp.
  destruct (N.eqb_spec from 0); [lia|]. destruct (N.ltb_spec to from); [lia|].
  by destruct (N.ltb_spec (nlen hs) to); [lia|].
Qed.

End HashTree.
