(* ===== verification/MerkleTheorems.v ===== *)
(** * What the Merkle ledger promises

    The claims about [crates/domain/src/transparency/merkle.rs], each with a
    witness on a concrete five-leaf ledger under a concrete hash function. *)

From S2P Require Import Prelude Merkle MerkleSpec MerkleProofs MerkleConsistency HashTree.

Local Open Scope N_scope.

(** ** A concrete ledger for the witnesses *)

(** Not SHA-256: a polynomial checksum modulo [2^256], enough to evaluate on. *)
Definition demo_sha : Sha256 := fun l =>
  array_of 32 (to_be_bytes 32
    (fold_left (fun acc b => (acc * 259 + Byte.to_N b + 7) mod 2 ^ 256) l 1)).

Definition demo_leaf `{Sha256} (i : N) : MerkleLeaf :=
  {| hash := leaf_hash [byte_of_N i]; ml_leaf_index := i; occurred_at_epoch_seconds := 0 |}.

Definition demo_leaves : list MerkleLeaf := @demo_leaf demo_sha <$> [0; 1; 2; 3; 4].

Definition ok_default {E A} (d : A) (r : res E A) : A :=
  match r with Ok a => a | _ => d end.

Definition demo_root : digest :=
  ok_default (array_of 32 []) (@compute_root demo_sha demo_leaves).
Definition demo_root3 : digest :=
  ok_default (array_of 32 []) (@compute_root demo_sha (ntake 3 demo_leaves)).
Definition demo_inclusion : InclusionProof :=
  ok_default {| ip_leaf_hash := array_of 32 []; ip_leaf_index := 0; path := []; ip_tree_size := 0 |}
    (@build_inclusion_proof demo_sha demo_leaves 2).
Definition demo_consistency : ConsistencyProof :=
  ok_default {| from_size := 0; proof := []; to_size := 0 |}
    (@build_consistency_proof demo_sha demo_leaves 3 5).

Section Theorems.
Context `{Sha256}.

(** The byte strings the inclusion verifier hashes on [p]. *)
Definition inclusion_inputs (p : InclusionProof) : list (list byte) :=
  climb_inputs (sides (ip_leaf_index p) (ip_tree_size p - 1)) (path p) (ip_leaf_hash p).

(** The byte strings the consistency verifier hashes for its later-tree side,
    when it is started from the earlier root or from the first proof element. *)
Definition consistency_inputs (p : ConsistencyProof) (from_root : digest) : list (list byte) :=
  let s := trailing_zeros (from_size p) in
  let ss := block_sides s (from_size p) (to_size p) in
  climb_inputs ss (proof p) from_root ++
  match proof p with seed :: rest => climb_inputs ss rest seed | [] => [] end.

(** ** Inclusion *)

(** C1.  Completeness of inclusion proofs: for every ledger that fits in memory
    and every index in range, the builder returns a proof (no panic, no error)
    that names the leaf's own hash, index and tree size, and the verifier accepts
    it against the ledger's root. *)
Theorem inclusion_complete leaves i leaf :
  leaves !! N.to_nat i = Some leaf -> nlen leaves <= max_leaves ->
  exists p root,
    build_inclusion_proof leaves i = Ok p /\ compute_root leaves = Ok root /\
    ip_leaf_hash p = hash leaf /\ ip_leaf_index p = i /\ ip_tree_size p = nlen leaves /\
    verify_inclusion_proof p root = Ok tt.
Proof.
  intros Hleaf Hmax. apply lookup_lt_Some in Hleaf as Hlt.
  destruct (build_inclusion_proof_spec leaves i) as (p & h & Hp & Hh & Hph & Hpi & Hps & Hlen & Hc);
    [unfold nlen; lia|done|].
  rewrite list_lookup_fmap, Hleaf in Hh. injection Hh as <-.
  exists p, (mth (hash <$> leaves)). rewrite compute_root_spec; [|by destruct leaves|done].
  split_and!; auto. apply verify_inclusion_iff. rewrite Hpi, Hps, Hph.
  split_and!; [unfold nlen; lia|done..].
Qed.

(** C2.  Soundness of inclusion proofs: whatever path a prover supplies, if the
    verifier accepts it against the root of a ledger of the claimed size, then the
    claimed leaf hash is the ledger's leaf at the claimed index, or the byte
    strings hashed by the verifier and by the tree contain an explicit SHA-256
    collision. *)
Theorem inclusion_sound leaves p root :
  compute_root leaves = Ok root -> nlen leaves <= max_leaves ->
  ip_tree_size p = nlen leaves ->
  verify_inclusion_proof p root = Ok tt ->
  (exists leaf, leaves !! N.to_nat (ip_leaf_index p) = Some leaf /\ hash leaf = ip_leaf_hash p) \/
  collision (inclusion_inputs p) (mth_inputs (hash <$> leaves)).
Proof.
  intros Hroot Hmax Hsize (Hi & Hlen & Hc)%verify_inclusion_iff.
  destruct (decide (leaves = [])) as [->|Hne]; [done|].
  rewrite compute_root_spec in Hroot by done. injection Hroot as <-.
  unfold inclusion_inputs. rewrite Hsize in *. rewrite <-(nlen_fmap hash) in *.
  destruct (climb_sound (hash <$> leaves) (ip_leaf_index p) (path p) (ip_leaf_hash p)) as [Hh|];
    auto; [by destruct leaves|left].
  rewrite list_lookup_fmap in Hh. apply fmap_Some in Hh as (leaf & ? & ->). eauto.
Qed.

(** ** Consistency *)

(** C3.  Completeness of consistency proofs: for every [0 < from <= to <= len]
    the builder returns a proof that the verifier accepts for the roots of the
    first [from] and the first [to] leaves. *)
Theorem consistency_complete leaves from to :
  0 < from -> from <= to -> to <= nlen leaves -> nlen leaves <= max_leaves ->
  exists p from_root to_root,
    build_consistency_proof leaves from to = Ok p /\
    compute_root (ntake from leaves) = Ok from_root /\
    compute_root (ntake to leaves) = Ok to_root /\
    verify_consistency_proof p from_root to_root = Ok tt.
Proof.
  intros H1 H2 H3 Hmax. set (D := hash <$> ntake to leaves).
  assert (nlen D = to) as HD by (unfold D; rewrite nlen_fmap, nlen_ntake; lia).
  destruct (build_consistency_proof_with_spec (slice_root D) D from)
    as (p & Hp & _ & _ & Hv); [apply slice_root_sources; lia|lia..|].
  exists p, (mth (ntake from D)), (mth D).
  rewrite !compute_root_spec by (rewrite ?nlen_pos, nlen_ntake; lia). fold D.
  split_and!; [| |done..].
  - unfold build_consistency_proof. fold D. rewrite <-HD at 3. rewrite Hp.
    destruct (N.eqb_spec from 0); [lia|]. destruct (N.ltb_spec to from); [lia|].
    by destruct (N.ltb_spec (nlen leaves) to); [lia|].
  - do 2 f_equal. unfold D. rewrite <-fmap_ntake. f_equal.
    rewrite ntake_ntake. f_equal. lia.
Qed.

Lemma trailing_zeros_odd_part m q s : odd_part m q s -> trailing_zeros m = s.
Proof.
  intros [-> Ho]. destruct q as [|q]; [done|]. clear -Ho.
  induction s as [|s IH] using N.peano_ind.
  - rewrite N.mul_1_r. by destruct q.
  - rewrite N.pow_succ_r', N.mul_assoc, (N.mul_comm (Npos q)), <-N.mul_assoc.
    destruct (Npos q * 2 ^ s) as [|p] eqn:E; [pose proof (pow2_pos s); lia|].
    change (2 * Npos p) with (Npos p~0). change (N.succ (pos_trailing_zeros p) = N.succ s).
    change (pos_trailing_zeros p = s) in IH. by rewrite IH.
Qed.

(** C4.  Soundness of consistency proofs (append-only): if the verifier accepts
    any proof whatsoever between a claimed earlier root and the root of a ledger,
    then the claimed earlier root is the root of that ledger's own prefix, or an
    explicit SHA-256 collision is exhibited: history cannot be rewritten. *)
Theorem consistency_sound leaves p from_root to_root :
  compute_root leaves = Ok to_root -> nlen leaves <= max_leaves ->
  to_size p = nlen leaves ->
  verify_consistency_proof p from_root to_root = Ok tt ->
  compute_root (ntake (from_size p) leaves) = Ok from_root \/
  collision (consistency_inputs p from_root) (mth_inputs (hash <$> leaves)).
Proof.
  intros Hroot Hmax Hsize Hv.
  destruct (decide (leaves = [])) as [->|Hne]; [done|].
  rewrite compute_root_spec in Hroot by done. injection Hroot as <-.
  destruct (decide (0 < from_size p /\ from_size p < to_size p)) as [[Hm Hn]|Hout].
  - destruct (verify_consistency_iff p from_root (mth (hash <$> leaves)) Hm Hn)
      as (q & s & Hq & Hiff).
    apply Hiff in Hv as (seed & rest & Hseed & Hlen & Hcl & Hc).
    rewrite compute_root_spec by (rewrite ?nlen_pos, nlen_ntake; lia).
    rewrite fmap_ntake. rewrite Hsize, <-(nlen_fmap hash) in *.
    destruct (climb_left_sound (hash <$> leaves)) with (m := from_size p) (q := q) (s := s)
      (rest := rest) (seed := seed) as [Heq|Hcol]; auto;
      [by destruct leaves|lia|lia|left; by rewrite <-Heq, Hcl|right].
    revert Hcol. apply collision_mono; [|done]. unfold consistency_inputs.
    rewrite (trailing_zeros_odd_part _ _ _ Hq), Hsize.
    destruct (q =? 1); [destruct Hseed as [-> ->]|rewrite Hseed]; set_solver.
  - unfold verify_consistency_proof in Hv.
    destruct (N.eqb_spec (from_size p) 0); [done|].
    destruct (N.ltb_spec (to_size p) (from_size p)); [done|].
    destruct (N.eqb_spec (from_size p) (to_size p)) as [He|]; [|lia]. simpl in Hv.
    destruct (proof p); [|done]. case_decide as Hr; [|done]. left.
    rewrite He, Hsize, Hr, ntake_all by done. by apply compute_root_spec.
Qed.

(** ** The incremental tree *)

(** [for h in hs { tree.push(h) }] *)
Definition push_all : HashTree -> list digest -> vres HashTree :=
  fun t hs => foldl (fun r h => let? t := r in ht_push t h) (Ok t) hs.

Lemma push_all_spec t hs hs' :
  caches t hs -> exists t', push_all t hs' = Ok t' /\ caches t' (hs ++ hs').
Proof.
  unfold push_all. revert t hs. induction hs' as [|h hs' IH]; intros t hs Hc; simpl.
  - exists t. by rewrite app_nil_r.
  - destruct (ht_push_spec t hs h Hc) as (t1 & -> & Hc1).
    destruct (IH t1 (hs ++ [h]) Hc1) as (t2 & Ht2 & Hc2).
    exists t2. by rewrite <-app_assoc in Hc2.
Qed.

(** A range of a list, as the three pieces around it. *)
Lemma range_split {A} (l : list A) a n :
  a + n <= nlen l ->
  l = ntake a l ++ ntake n (ndrop a l) ++ ndrop n (ndrop a l) /\
  nlen (ntake a l) = a /\ nlen (ntake n (ndrop a l)) = n.
Proof.
  intros Hl. rewrite !ntake_ndrop, !nlen_ntake; rewrite ?nlen_ndrop; [done|lia..].
Qed.

(** C5.  The incremental tree refines the recursive one: pushing the leaf hashes
    of a ledger one at a time never panics, every cached prefix root equals the
    recomputed root, and for every pair of sizes (valid or not) the consistency
    answer built from cached nodes in O(log n) is identical, errors included, to
    the one rebuilt from all the leaves. *)
Theorem hash_tree_refines leaves :
  nlen leaves <= max_leaves ->
  exists t, push_all ht_new (hash <$> leaves) = Ok t /\ ht_len t = nlen leaves /\
    (forall size, 0 < size -> size <= nlen leaves ->
       root_at t size = compute_root (ntake size leaves)) /\
    (forall from to, consistency_proof t from to = build_consistency_proof leaves from to).
Proof.
  intros Hmax. destruct (push_all_spec ht_new [] (hash <$> leaves) caches_new) as (t & Ht & Hc).
  simpl in Hc. assert (nlen (hash <$> leaves) <= max_leaves) as Hmax' by by rewrite nlen_fmap.
  exists t. split_and!; [done|by rewrite (caches_len _ _ Hc), nlen_fmap|..].
  - intros size H1 H2. unfold root_at.
    rewrite (subtree_root_spec _ _ _ _ Hc) by (rewrite ?nlen_fmap; lia).
    rewrite compute_root_spec by (rewrite ?nlen_pos, nlen_ntake; lia). by rewrite fmap_ntake.
  - intros from to. unfold consistency_proof, build_consistency_proof.
    rewrite (caches_len _ _ Hc), nlen_fmap, fmap_ntake.
    destruct (N.eqb_spec from 0) as [|Hf]; [done|].
    destruct (N.ltb_spec to from) as [|Hft]; [done|]. simpl orb. cbn iota.
    destruct (N.ltb_spec (nlen leaves) to) as [|Hto]; [done|].
    unfold build_consistency_proof_with.
    destruct (N.eqb_spec from 0); [lia|]. destruct (N.ltb_spec to from); [lia|]. simpl orb. cbn iota.
    unfold subproof_with. erewrite (subproof_with_fuel_ext _ _ _ _ _ _ _ to); [done| |lia|lia].
    set (D := ntake to (hash <$> leaves)).
    assert (nlen D = to) as HD by (unfold D; rewrite nlen_ntake; rewrite ?nlen_fmap; lia).
    intros a k Hk Hak. destruct (range_split D a k) as (HD' & Ha & Hl); [lia|].
    assert (ntake k (ndrop a D) <> []) by (apply nlen_pos; lia).
    pose proof (sources_roots_prefix _ _ to (subtree_root_sources _ _ Hc Hmax') _ _ _ HD') as Hs1.
    pose proof (slice_root_sources D ltac:(lia) _ _ _ HD') as Hs2.
    rewrite Ha, Hl in *. rewrite Hs1, Hs2 by done. done.
Qed.

End Theorems.

(** ** Witnesses *)

Lemma inclusion_complete_witness :
  exists p root, @build_inclusion_proof demo_sha demo_leaves 2 = Ok p /\
    @verify_inclusion_proof demo_sha p root = Ok tt.
Proof.
  destruct (@inclusion_complete demo_sha demo_leaves 2 (@demo_leaf demo_sha 2))
    as (p & root & ? & ? & ? & ? & ? & ?); [reflexivity|by vm_compute|]. eauto.
Defined.

Lemma inclusion_sound_witness :
  (exists leaf, demo_leaves !! 2%nat = Some leaf /\ hash leaf = ip_leaf_hash demo_inclusion) \/
  @collision demo_sha (@inclusion_inputs demo_sha demo_inclusion)
    (@mth_inputs demo_sha (hash <$> demo_leaves)).
Proof.
  apply (@inclusion_sound demo_sha demo_leaves demo_inclusion demo_root);
    [by vm_compute..].
Defined.

Lemma consistency_complete_witness :
  exists p r3 r5, @build_consistency_proof demo_sha demo_leaves 3 5 = Ok p /\
    @verify_consistency_proof demo_sha p r3 r5 = Ok tt.
Proof.
  destruct (@consistency_complete demo_sha demo_leaves 3 5) as (p & r3 & r5 & ? & ? & ? & ?);
    [by vm_compute..|]. eauto.
Defined.

Lemma consistency_sound_witness :
  @compute_root demo_sha (ntake 3 demo_leaves) = Ok demo_root3 \/
  @collision demo_sha (@consistency_inputs demo_sha demo_consistency demo_root3)
    (@mth_inputs demo_sha (hash <$> demo_leaves)).
Proof.
  apply (@consistency_sound demo_sha demo_leaves demo_consistency demo_root3 demo_root);
    [by vm_compute..].
Defined.

Lemma hash_tree_refines_witness :
  exists t, @push_all demo_sha ht_new (hash <$> demo_leaves) = Ok t /\ ht_len t = 5.
Proof.
  destruct (@hash_tree_refines demo_sha demo_leaves) as (t & ? & ? & _); [by vm_compute|]. eauto.
Defined.
