(* ===== verification/Sth.v ===== *)
(** * Signed tree heads

    Models [crates/domain/src/transparency/sth.rs]: the 48-byte payload a tree
    head signs, minting and verification. *)

From S2P Require Import Prelude Crates Merkle.

Record SignedTreeHead := {
  root_hash : digest;
  signature : array 64;
  timestamp_epoch_seconds : N;
  tree_size : N
}.

Definition STH_PAYLOAD_LEN : nat := 32 + 8 + 8.

(** [buf[..32]], [buf[32..40]] and [buf[40..48]] are written in turn. *)
Definition canonical_payload (root : digest) (size timestamp : N) : list byte :=
  arr_bytes root ++ to_be_bytes 8 size ++ to_be_bytes 8 timestamp.

Section Sth.
Context `{Ed25519}.

Definition mint_sth (root : digest) (size timestamp : N) (signing_key : SigningKey)
    : SignedTreeHead :=
  let payload := canonical_payload root size timestamp in
  {| root_hash := root;
     signature := sign signing_key payload;
     timestamp_epoch_seconds := timestamp;
     tree_size := size |}.

Definition verify_sth (sth : SignedTreeHead) (vk : VerifyingKey) : vres unit :=
  let payload := canonical_payload (root_hash sth) (tree_size sth)
                   (timestamp_epoch_seconds sth) in
  if ed_verify vk payload (signature sth) then Ok tt else Err SignatureInvalid.

Lemma canonical_payload_length root size timestamp :
  length (canonical_payload root size timestamp) = STH_PAYLOAD_LEN.
Proof.
  unfold canonical_payload. by rewrite !length_app; autorewrite with bytes.
Qed.

Lemma canonical_payload_inj r1 n1 t1 r2 n2 t2 :
  u64_ok n1 -> u64_ok t1 -> u64_ok n2 -> u64_ok t2 ->
  canonical_payload r1 n1 t1 = canonical_payload r2 n2 t2 -> r1 = r2 /\ n1 = n2 /\ t1 = t2.
Proof.
  unfold u64_ok, u64_max, canonical_payload. intros Hn1 Ht1 Hn2 Ht2 Heq.
  apply app_inj_1 in Heq as [Hr Heq]; [|by autorewrite with bytes].
  apply app_inj_1 in Heq as [Hn Ht]; [|by autorewrite with bytes].
  split_and!; [by apply array_eq|by apply (to_be_bytes_inj 8); [lia..|]|
    by apply (to_be_bytes_inj 8); [lia..|]].
Qed.

(** A minted head verifies under the signer's public key, and the 48 signed
    bytes pin every field: a head that carries the same signature and still
    verifies either repeats the minted root, size and timestamp, or its signature
    is valid for a message the signer never signed. *)
Theorem sth_binding `{!Ed25519Correct} root size timestamp sk forged :
  u64_ok size -> u64_ok timestamp ->
  u64_ok (tree_size forged) -> u64_ok (timestamp_epoch_seconds forged) ->
  let sth := mint_sth root size timestamp sk in
  verify_sth sth (verifying_key sk) = Ok tt /\
  (signature forged = signature sth -> verify_sth forged (verifying_key sk) = Ok tt ->
   forged = sth \/
   exists msg, length msg = STH_PAYLOAD_LEN /\
     msg <> canonical_payload root size timestamp /\
     ed_verify (verifying_key sk) msg (signature sth) = true).
Proof.
  intros Hs Ht Hfs Hft sth. unfold verify_sth. simpl. rewrite sign_verifies.
  split; [done|]. intros Hsig Hv.
  set (msg := canonical_payload (root_hash forged) (tree_size forged)
                (timestamp_epoch_seconds forged)) in *.
  destruct (decide (msg = canonical_payload root size timestamp)) as [Heq|Hne].
  - left. apply canonical_payload_inj in Heq as (Hr & Hn & Hts); [|done..].
    destruct forged as [r g t n]; simpl in *. unfold sth, mint_sth. by subst.
  - right. exists msg. rewrite <-Hsig. repeat split; [apply canonical_payload_length|done|].
    by destruct (ed_verify _ _ (signature forged)).
Qed.

End Sth.

Lemma sth_binding_witness :
  let sth := @mint_sth demo_ed25519 (array_of 32 [x01; x02]) 7 1700000000 [x05] in
  @verify_sth demo_ed25519 sth [x05] = Ok tt.
Proof.
  pose proof (@sth_binding demo_ed25519 _ (array_of 32 [x01; x02]) 7 1700000000 [x05]
    (@mint_sth demo_ed25519 (array_of 32 [x01; x02]) 7 1700000000 [x05])) as Hb.
  destruct Hb as [Hv _]; [by vm_compute..|]. exact Hv.
Defined.
