(* ===== verification/Store.v ===== *)
(** * The transparency store

    Models [crates/adapters/transparency_store/src/lib.rs] (the trait and its
    data) and [memory.rs] (the in-memory implementation).  The trait is the class
    [TransparencyStore]; what it promises its clients, an append-only ledger that
    de-duplicates on the idempotency key, is the class [StoreLaws]; the memory
    store discharges it. *)

From S2P Require Import Prelude Merkle MerkleSpec.

(** ** Data *)

Record AppendInput := {
  ai_idempotency_key : array 32;
  ai_payload : list byte;
  ai_occurred_at_epoch_seconds : N
}.

Record AppendOutcome := {
  ao_leaf_index : N;
  ao_leaf_hash : digest;
  ao_created : bool
}.

Record LeafPayloadRecord := {
  lp_leaf_index : N;
  lp_leaf_hash : digest;
  lp_payload : list byte
}.

Inductive StoreError :=
| Conflict
| SEBackend (msg : string)
| SEVerification (e : VerificationError).

(** The trait: one method per field; every method runs under the store's lock. *)
Class TransparencyStore (S : Type) := {
  ts_append : S -> AppendInput -> res StoreError AppendOutcome * S;
  ts_get_leaf : S -> N -> res StoreError (option MerkleLeaf);
  ts_current_size : S -> res StoreError N;
  ts_current_root : S -> res StoreError digest;
  ts_build_inclusion_proof : S -> N -> res StoreError InclusionProof;
  ts_load_all_payloads : S -> res StoreError (list LeafPayloadRecord)
}.

Section Store.
Context `{Sha256}.

(** ** The memory store *)

Record Inner := {
  leaves : list MerkleLeaf;
  payloads : list (list byte);
  idempotency : gmap (array 32) N
}.

Definition mem_new : Inner := {| leaves := []; payloads := []; idempotency := ∅ |}.

(** [u64::try_from(v.len())]. *)
Definition try_len {A} (l : list A) (msg : string) : res StoreError N :=
  if (nlen l <=? u64_max)%N then Ok (nlen l) else Err (SEBackend msg).

Definition mem_append (inner : Inner) (inp : AppendInput) : res StoreError AppendOutcome * Inner :=
  match idempotency inner !! ai_idempotency_key inp with
  | Some existing_idx =>
    (let? existing_payload := index_panic (payloads inner !! N.to_nat existing_idx) in
     if bool_decide (existing_payload <> ai_payload inp) then Err Conflict else
     let? existing_leaf := index_panic (leaves inner !! N.to_nat existing_idx) in
     Ok {| ao_leaf_index := existing_idx;
           ao_leaf_hash := hash existing_leaf;
           ao_created := false |}, inner)
  | None =>
    match try_len (leaves inner) "tree_size overflow" with
    | Ok leaf_index =>
      let h := leaf_hash (ai_payload inp) in
      let new_leaf := {| hash := h; ml_leaf_index := leaf_index;
                         occurred_at_epoch_seconds := ai_occurred_at_epoch_seconds inp |} in
      (Ok {| ao_leaf_index := leaf_index; ao_leaf_hash := h; ao_created := true |},
       {| leaves := leaves inner ++ [new_leaf];
          payloads := payloads inner ++ [ai_payload inp];
          idempotency := <[ai_idempotency_key inp := leaf_index]> (idempotency inner) |})
    | Err e => (Err e, inner)
    | Panic => (Panic, inner)
    end
  end.

Definition mem_get_leaf (inner : Inner) (leaf_index : N) : res StoreError (option MerkleLeaf) :=
  Ok (leaves inner !! N.to_nat leaf_index).

Definition mem_current_size (inner : Inner) : res StoreError N :=
  try_len (leaves inner) "tree_size overflow".

Definition mem_current_root (inner : Inner) : res StoreError digest :=
  match leaves inner with
  | [] => Ok (array_of 32 [])
  | ls => map_err SEVerification (compute_root ls)
  end.

Definition mem_build_inclusion_proof (inner : Inner) (leaf_index : N)
    : res StoreError InclusionProof :=
  match leaves inner with
  | [] => Err (SEVerification EmptyTree)
  | ls =>
    if (N.min (nlen ls) u64_max <=? leaf_index)%N
    then Err (SEVerification LeafIndexOutOfBounds)
    else map_err SEVerification (build_inclusion_proof ls leaf_index)
  end.

Definition mem_load_all_payloads (inner : Inner) : res StoreError (list LeafPayloadRecord) :=
  Ok (zip_with (fun leaf payload => {| lp_leaf_index := ml_leaf_index leaf;
                                       lp_leaf_hash := hash leaf; lp_payload := payload |})
       (leaves inner) (payloads inner)).

#[global] Instance MemoryTransparencyStore : TransparencyStore Inner := {
  ts_append := mem_append;
  ts_get_leaf := mem_get_leaf;
  ts_current_size := mem_current_size;
  ts_current_root := mem_current_root;
  ts_build_inclusion_proof := mem_build_inclusion_proof;
  ts_load_all_payloads := mem_load_all_payloads
}.

(** ** The promise: an append-only ledger

    The abstract state is the list of accepted submissions. *)

Definition ledger_leaves (es : list AppendInput) : list MerkleLeaf :=
  imap (fun i e => {| hash := leaf_hash (ai_payload e); ml_leaf_index := N.of_nat i;
                      occurred_at_epoch_seconds := ai_occurred_at_epoch_seconds e |}) es.

Definition ledger_append (es : list AppendInput) (inp : AppendInput)
    : res StoreError AppendOutcome * list AppendInput :=
  match list_find (fun e => ai_idempotency_key e = ai_idempotency_key inp) es with
  | Some (i, e) =>
    (if decide (ai_payload e = ai_payload inp)
     then Ok {| ao_leaf_index := N.of_nat i; ao_leaf_hash := leaf_hash (ai_payload e);
                ao_created := false |}
     else Err Conflict, es)
  | None =>
    (Ok {| ao_leaf_index := nlen es; ao_leaf_hash := leaf_hash (ai_payload inp);
           ao_created := true |}, es ++ [inp])
  end.

Definition ledger_root (es : list AppendInput) : res StoreError digest :=
  match es with
  | [] => Ok (array_of 32 [])
  | _ => map_err SEVerification (compute_root (ledger_leaves es))
  end.

Definition ledger_records (es : list AppendInput) : list LeafPayloadRecord :=
  imap (fun i e => {| lp_leaf_index := N.of_nat i; lp_leaf_hash := leaf_hash (ai_payload e);
                      lp_payload := ai_payload e |}) es.

(** What a store promises: it represents a ledger [es] ([ts_holds]), appends act
    on it as [ledger_append], and the reads answer from it. *)
Class StoreLaws (S : Type) `{TransparencyStore S} := {
  ts_holds : S -> list AppendInput -> Prop;
  ts_append_law s es inp :
    ts_holds s es -> (nlen es <= u64_max)%N ->
    fst (ts_append s inp) = fst (ledger_append es inp) /\
    ts_holds (snd (ts_append s inp)) (snd (ledger_append es inp));
  ts_get_leaf_law s es i :
    ts_holds s es -> ts_get_leaf s i = Ok (ledger_leaves es !! N.to_nat i);
  ts_current_size_law s es :
    ts_holds s es -> (nlen es <= u64_max)%N -> ts_current_size s = Ok (nlen es);
  ts_current_root_law s es :
    ts_holds s es -> ts_current_root s = ledger_root es;
  ts_build_inclusion_proof_law s es i :
    ts_holds s es -> (nlen es <= u64_max)%N ->
    ts_build_inclusion_proof s i =
    map_err SEVerification (build_inclusion_proof (ledger_leaves es) i);
  ts_load_all_payloads_law s es :
    ts_holds s es -> ts_load_all_payloads s = Ok (ledger_records es)
}.

(** ** The memory store keeps the promise *)

(** Representation: the two vectors are the ledger's columns, and the index maps
    each key to the position of its first, and only, entry. *)
Definition mem_holds (inner : Inner) (es : list AppendInput) : Prop :=
  leaves inner = ledger_leaves es /\
  payloads inner = ai_payload <$> es /\
  forall k, idempotency inner !! k =
    (fun p => N.of_nat (fst p)) <$> list_find (fun e => ai_idempotency_key e = k) es.

Lemma ledger_leaves_length es : nlen (ledger_leaves es) = nlen es.
Proof. unfold nlen, ledger_leaves. by rewrite length_imap. Qed.

Lemma ledger_leaves_snoc es e :
  ledger_leaves (es ++ [e]) =
  ledger_leaves es ++ [{| hash := leaf_hash (ai_payload e); ml_leaf_index := nlen es;
                          occurred_at_epoch_seconds := ai_occurred_at_epoch_seconds e |}].
Proof.
  unfold ledger_leaves. rewrite imap_app. simpl. by rewrite Nat.add_0_r.
Qed.

Lemma ledger_leaves_lookup es i :
  ledger_leaves es !! i =
  (fun e => {| hash := leaf_hash (ai_payload e); ml_leaf_index := N.of_nat i;
               occurred_at_epoch_seconds := ai_occurred_at_epoch_seconds e |}) <$> (es !! i).
Proof. unfold ledger_leaves. by rewrite list_lookup_imap. Qed.

Lemma ledger_leaves_nil es : ledger_leaves es = [] <-> es = [].
Proof. by destruct es. Qed.

Lemma try_len_ok {A} (l : list A) msg : (nlen l <= u64_max)%N -> try_len l msg = Ok (nlen l).
Proof. intros. unfold try_len. by destruct (N.leb_spec (nlen l) u64_max); [|lia]. Qed.

Lemma mem_append_holds inner es inp :
  mem_holds inner es -> (nlen es <= u64_max)%N ->
  fst (mem_append inner inp) = fst (ledger_append es inp) /\
  mem_holds (snd (mem_append inner inp)) (snd (ledger_append es inp)).
Proof.
  intros (Hl & Hp & Hi) Hmax. unfold mem_append, ledger_append. rewrite Hi.
  destruct (list_find _ es) as [[i e]|] eqn:Hf; simpl.
  - apply list_find_Some in Hf as (He & _ & _). rewrite Hp, Hl, Nat2N.id.
    rewrite list_lookup_fmap, ledger_leaves_lookup, He. simpl. split; [|done].
    destruct (decide (ai_payload e = ai_payload inp));
      [rewrite bool_decide_false by tauto|rewrite bool_decide_true by done]; done.
  - rewrite try_len_ok by (by rewrite Hl, ledger_leaves_length). simpl.
    rewrite Hl, ledger_leaves_length. split; [done|]. split_and!; simpl.
    + by rewrite ledger_leaves_snoc.
    + by rewrite Hp, fmap_app.
    + intros k. destruct (decide (ai_idempotency_key inp = k)) as [<-|Hk].
      * rewrite lookup_insert_eq, list_find_app_r by done. simpl.
        by rewrite decide_True by done.
      * rewrite lookup_insert_ne, Hi by done.
        destruct (list_find (fun e => ai_idempotency_key e = k) es) as [[j f]|] eqn:Hg.
        -- by rewrite (list_find_app_l _ _ _ _ _ Hg).
        -- rewrite list_find_app_r by done. simpl. by rewrite decide_False by done.
Qed.

Lemma mem_current_root_holds inner es :
  mem_holds inner es -> mem_current_root inner = ledger_root es.
Proof.
  intros (Hl & _ & _). unfold mem_current_root, ledger_root. rewrite Hl. by destruct es.
Qed.

Lemma mem_build_inclusion_proof_holds inner es i :
  mem_holds inner es -> (nlen es <= u64_max)%N ->
  mem_build_inclusion_proof inner i =
  map_err SEVerification (build_inclusion_proof (ledger_leaves es) i).
Proof.
  intros (Hl & _ & _) Hmax. unfold mem_build_inclusion_proof. rewrite Hl.
  destruct (ledger_leaves es) as [|l ls] eqn:E; [done|]. rewrite <-E, ledger_leaves_length.
  rewrite N.min_l by done. destruct (N.leb_spec (nlen es) i) as [Hi|]; [|done].
  unfold build_inclusion_proof. rewrite ledger_leaves_length.
  destruct (N.leb_spec (nlen es) i); [|lia]. by rewrite E.
Qed.

Lemma mem_load_all_payloads_holds inner es :
  mem_holds inner es -> mem_load_all_payloads inner = Ok (ledger_records es).
Proof.
  intros (Hl & Hp & _). unfold mem_load_all_payloads, ledger_records. rewrite Hl, Hp. f_equal.
  apply list_eq. intros i.
  rewrite lookup_zip_with, ledger_leaves_lookup, list_lookup_fmap, list_lookup_imap.
  by destruct (es !! i).
Qed.

#[global] Program Instance mem_laws : StoreLaws Inner := { ts_holds := mem_holds }.
Next Obligation. intros. by apply mem_append_holds. Qed.
Next Obligation. intros s es i (Hl & _ & _). simpl. unfold mem_get_leaf. by rewrite Hl. Qed.
Next Obligation.
  intros s es (Hl & _ & _) Hmax. simpl. unfold mem_current_size.
  rewrite Hl, try_len_ok; by rewrite ledger_leaves_length.
Qed.
Next Obligation. intros. by apply mem_current_root_holds. Qed.
Next Obligation. intros. by apply mem_build_inclusion_proof_holds. Qed.
Next Obligation. intros. by apply mem_load_all_payloads_holds. Qed.

(** ** Runs of appends *)

Definition append_all {S} `{TransparencyStore S} (s : S) (inps : list AppendInput) : S :=
  foldl (fun s i => snd (ts_append s i)) s inps.

Lemma ledger_append_prefix es inp : es `prefix_of` snd (ledger_append es inp).
Proof.
  unfold ledger_append. destruct (list_find _ es) as [[i e]|]; simpl; [done|].
  by apply prefix_app_r.
Qed.

Lemma ledger_append_length es inp : (nlen (snd (ledger_append es inp)) <= nlen es + 1)%N.
Proof.
  unfold ledger_append, nlen. destruct (list_find _ es) as [[i e]|]; simpl; [lia|].
  rewrite length_app. simpl. lia.
Qed.

Lemma ledger_leaves_prefix es es' :
  es `prefix_of` es' -> ledger_leaves es `prefix_of` ledger_leaves es'.
Proof.
  intros [k ->]. unfold ledger_leaves. rewrite imap_app. by eexists.
Qed.

Lemma ledger_append_nodup es inp :
  NoDup (ai_idempotency_key <$> es) -> NoDup (ai_idempotency_key <$> snd (ledger_append es inp)).
Proof.
  intros Hnd. unfold ledger_append. destruct (list_find _ es) as [[i e]|] eqn:Hf; simpl; [done|].
  rewrite fmap_app. apply NoDup_app. split_and!; [done| |apply NoDup_singleton].
  intros k (e & Hk & He)%list_elem_of_fmap Hk'%list_elem_of_singleton.
  apply list_find_None in Hf. rewrite Forall_forall in Hf. apply (Hf e He). congruence.
Qed.

Lemma mem_append_all_holds inps s es :
  mem_holds s es -> NoDup (ai_idempotency_key <$> es) -> (nlen es + nlen inps <= u64_max)%N ->
  exists es', mem_holds (append_all s inps) es' /\ NoDup (ai_idempotency_key <$> es') /\
    es `prefix_of` es' /\ (nlen es' <= nlen es + nlen inps)%N.
Proof.
  revert s es. induction inps as [|inp inps IH]; intros s es Hs Hnd Hmax.
  - exists es. simpl. split_and!; [done..|]. unfold nlen. simpl. lia.
  - assert (nlen (inp :: inps) = nlen inps + 1)%N as Hc by (unfold nlen; simpl; lia).
    rewrite Hc in *. destruct (mem_append_holds s es inp Hs) as [_ Hh]; [lia|].
    pose proof (ledger_append_length es inp).
    destruct (IH _ _ Hh) as (es' & He & Hn & Hp & Hlen); [by apply ledger_append_nodup|lia|].
    exists es'. split_and!; [done..| |lia]. etrans; [apply ledger_append_prefix|done].
Qed.

Lemma mem_holds_new : mem_holds mem_new [].
Proof. by split_and!. Qed.

(** An accepted submission is in the ledger it leaves, at the index it was given. *)
Lemma ledger_append_entry es inp o es' :
  ledger_append es inp = (Ok o, es') ->
  ao_leaf_hash o = leaf_hash (ai_payload inp) /\ es `prefix_of` es' /\
  (ao_created o = false -> es' = es) /\
  exists e, es' !! N.to_nat (ao_leaf_index o) = Some e /\
    ai_idempotency_key e = ai_idempotency_key inp /\ ai_payload e = ai_payload inp.
Proof.
  unfold ledger_append. destruct (list_find _ es) as [[i e]|] eqn:Hf.
  - apply list_find_Some in Hf as (He & Hk & _). case_decide as Hp; [|done].
    intros [= <- <-]. simpl. rewrite Nat2N.id. split_and!; [by rewrite Hp|done|done|by eauto].
  - intros [= <- <-]. simpl. unfold nlen. rewrite Nat2N.id.
    split_and!; [done|by apply prefix_app_r|done|].
    exists inp. split; [|done]. by rewrite lookup_app_r, Nat.sub_diag.
Qed.

(** An append that found its key leaves the state alone; one that succeeded is
    answered again, as a replay, by the state it leaves. *)
Lemma ledger_append_replay es inp o :
  fst (ledger_append es inp) = Ok o ->
  ledger_append (snd (ledger_append es inp)) inp =
  (Ok {| ao_leaf_index := ao_leaf_index o; ao_leaf_hash := ao_leaf_hash o; ao_created := false |},
   snd (ledger_append es inp)).
Proof.
  unfold ledger_append at 1 3 4.
  destruct (list_find _ es) as [[i e]|] eqn:Hf; simpl.
  - case_decide as Hd; [|done]. intros [= <-]. unfold ledger_append.
    rewrite Hf. by rewrite decide_True.
  - intros [= <-]. unfold ledger_append.
    rewrite list_find_app_r by done. simpl. rewrite decide_True by done. simpl.
    by rewrite decide_True by done.
Qed.

(** C6.  The in-memory store implements the ledger.  After any run of appends it
    holds a ledger with pairwise distinct idempotency keys; the next append
    answers exactly as that ledger does: a known key with the same payload
    replays the recorded index and hash and changes nothing, a known key with
    another payload is a conflict and changes nothing, a fresh key gets the next
    index; and a retry of a successful append is always a replay of its answer. *)
Theorem memory_store_refines inps inp :
  (nlen inps < u64_max)%N ->
  exists es,
    mem_holds (append_all mem_new inps) es /\
    NoDup (ai_idempotency_key <$> es) /\
    let s := append_all mem_new inps in
    fst (mem_append s inp) = fst (ledger_append es inp) /\
    mem_holds (snd (mem_append s inp)) (snd (ledger_append es inp)) /\
    (forall i e, es !! i = Some e -> ai_idempotency_key e = ai_idempotency_key inp ->
       snd (mem_append s inp) = s /\
       fst (mem_append s inp) =
         if decide (ai_payload e = ai_payload inp)
         then Ok {| ao_leaf_index := N.of_nat i; ao_leaf_hash := leaf_hash (ai_payload e);
                    ao_created := false |}
         else Err Conflict) /\
    (forall o, fst (mem_append s inp) = Ok o ->
       fst (mem_append (snd (mem_append s inp)) inp) =
       Ok {| ao_leaf_index := ao_leaf_index o; ao_leaf_hash := ao_leaf_hash o;
             ao_created := false |}).
Proof.
  intros Hmax. destruct (mem_append_all_holds inps mem_new []) as (es & Hh & Hnd & _ & Hlen);
    [apply mem_holds_new|constructor|unfold nlen at 1; simpl; lia|].
  exists es. unfold nlen at 2 in Hlen. simpl in Hlen.
  set (s := append_all mem_new inps) in *.
  destruct (mem_append_holds s es inp Hh) as [Hr Hs]; [lia|].
  split; [done|]. split; [done|]. cbv zeta. split_and!; [done|done| |].
  - intros i e He Hk.
    assert (list_find (fun e => ai_idempotency_key e = ai_idempotency_key inp) es = Some (i, e))
      as Hf.
    { apply list_find_Some. split_and!; [done..|]. intros j f Hj Hlt Hk'.
      assert (j = i); [|lia]. apply (NoDup_lookup _ j i (ai_idempotency_key inp) Hnd);
        rewrite list_lookup_fmap; [by rewrite Hj; simpl; rewrite Hk'|by rewrite He; simpl; rewrite Hk]. }
    split; [|by rewrite Hr; unfold ledger_append; rewrite Hf].
    destruct Hh as (_ & _ & Hi). unfold mem_append. by rewrite Hi, Hf.
  - intros o Ho. rewrite Hr in Ho. pose proof (ledger_append_length es inp).
    destruct (mem_append_holds _ _ inp Hs) as [-> _]; [lia|].
    by rewrite (ledger_append_replay _ _ _ Ho).
Qed.

End Store.

Lemma memory_store_refines_witness :
  let inp := {| ai_idempotency_key := array_of 32 [x07]; ai_payload := [x01];
                ai_occurred_at_epoch_seconds := 5 |} in
  exists es, @mem_holds (fun l => array_of 32 l)
    (@append_all (@Inner) (@MemoryTransparencyStore (fun l => array_of 32 l)) mem_new [inp; inp]) es.
Proof.
  intros inp.
  destruct (@memory_store_refines (fun l => array_of 32 l) [inp; inp] inp) as (es & Hh & _);
    [by vm_compute|]. exists es. exact Hh.
Defined.
