(* ===== verification/Tlog.v ===== *)
(** * The transparency-log service: append, verify, tree head, consistency

    Models [crates/services/transparency-log/src/routes/append.rs], [verify.rs],
    [sth.rs], [consistency.rs] and the error mapping of [error.rs].  Handlers are
    [prog]s over the shared state they touch (the store and the cached tree of
    [AppState]); other requests run between their awaits. *)

From S2P Require Import Prelude RustStr Float64 Crates Merkle MerkleSpec MerkleProofs.
From S2P Require Import MerkleConsistency HashTree Sth Store Async.

Local Open Scope N_scope.

(** ** Errors *)

Inductive ServiceError :=
| BadRequest (msg : string)
| KernelFingerprintMismatch
| IdempotencyPayloadMismatch
| NotFound
| EntryUnreadable
| InvalidQuery (msg : string)
| Verification (e : VerificationError)
| Backend (msg : string)
| KernelHmacMismatch
| StageWrittenByMismatch
| Ed25519NotConfigured
| Ed25519KeyFingerprintMismatch
| Ed25519SignatureMismatch
| Ed25519MissingFields
| StageKeyMismatch.

Definition service_of_store (e : StoreError) : ServiceError :=
  match e with
  | Conflict => IdempotencyPayloadMismatch
  | SEBackend s => Backend s
  | SEVerification v => Verification v
  end.

(** [impl Display for VerificationError]. *)
Definition verification_error_display (e : VerificationError) : string :=
  match e with
  | LeafIndexOutOfBounds => "leaf index out of bounds"
  | ProofPathLengthMismatch => "proof path length mismatch"
  | RootMismatch => "root mismatch"
  | InvalidConsistencyRange => "invalid consistency range"
  | EmptyTree => "empty tree"
  | SignatureInvalid => "signature invalid"
  end.

Record ErrorResponse := {
  er_error : string;
  er_ok : bool;
  er_reason : option string
}.
Definition with_reason (error reason : string) : ErrorResponse :=
  {| er_error := error; er_ok := false; er_reason := Some reason |}.
Definition simple (error : string) : ErrorResponse :=
  {| er_error := error; er_ok := false; er_reason := None |}.

(** [impl IntoResponse for ServiceError]: the status code and the body. *)
Definition into_response (e : ServiceError) : N * ErrorResponse :=
  match e with
  | BadRequest msg | InvalidQuery msg => (400, with_reason "invalid_request" msg)
  | KernelFingerprintMismatch => (403, with_reason "forbidden" "kernel_fingerprint_mismatch")
  | IdempotencyPayloadMismatch => (409, with_reason "conflict" "idempotency_payload_mismatch")
  | NotFound => (404, with_reason "not_found" "entry_not_found")
  | EntryUnreadable => (422, with_reason "entry_unreadable" "entry_unreadable")
  | Verification v => (400, with_reason "verification_error" (verification_error_display v))
  | KernelHmacMismatch => (403, with_reason "forbidden" "kernel_hmac_mismatch")
  | StageWrittenByMismatch => (400, with_reason "invalid_request" "stage_written_by_mismatch")
  | Ed25519NotConfigured => (503, with_reason "service_unavailable" "ed25519_not_configured")
  | Ed25519KeyFingerprintMismatch =>
      (403, with_reason "forbidden" "ed25519_key_fingerprint_mismatch")
  | Ed25519SignatureMismatch => (403, with_reason "forbidden" "ed25519_signature_mismatch")
  | Ed25519MissingFields => (400, with_reason "invalid_request" "ed25519_missing_fields")
  | StageKeyMismatch => (403, with_reason "forbidden" "stage_key_mismatch")
  | Backend _ => (500, simple "server_error")
  end.

(** ** Wire data *)

Record AppendRequest := {
  idempotency_key_hex : string;
  kernel_key_fingerprint_sha256 : string;
  ar_occurred_at_epoch_seconds : N;
  token_b64 : string
}.

Record AppendResponse := {
  entry_id : string;
  idempotent_replay : bool;
  leaf_hash_hex : string;
  ar_leaf_index : N;
  ar_ok : bool
}.

Record VerifyResponse := {
  current_root_hash : string;
  current_tree_size : N;
  entry : MerkleLeaf;
  inclusion_proof : InclusionProof
}.

Record SignedTreeHeadResponse := {
  sr_ok : bool;
  signing_key_fingerprint_sha256 : string;
  sth : SignedTreeHead
}.

Record ConsistencyResponse := {
  cr_consistency_proof : ConsistencyProof;
  cr_ok : bool
}.

(** ** State *)

(** The fields of [AppState] these handlers read and never write. *)
Record Config `{Ed25519} := {
  signing_key : SigningKey;
  signing_key_fingerprint_hex : string;
  kernel_key_fingerprint_hex : string
}.

(** The mutable fields: the store and the mutex-protected [consistency_tree]. *)
Record World (St : Type) := {
  store : St;
  consistency_tree : HashTree
}.
Arguments store {St}.
Arguments consistency_tree {St}.
Arguments Build_World {St}.

Section Tlog.
Context `{Sha256} `{Ed25519} `{Hex} `{B64Url}.

Definition b64url_decode (s : string) : res ServiceError (list byte) :=
  match b64url_engine_decode (trim_end_matches "="%char (trim s)) with
  | inr b => Ok b
  | inl e => Err (BadRequest ("base64url decode failed: " +:+ e))
  end.

Definition hex_to_32 (s : string) : res ServiceError (array 32) :=
  match hex_decode (trim s) with
  | inl e => Err (BadRequest ("hex decode failed: " +:+ e))
  | inr raw =>
    if negb (nlen raw =? 32)
    then Err (BadRequest ("expected 32-byte hex value, got " +:+ u64_to_string (nlen raw)))
    else Ok (array_of 32 raw)
  end.

Context {St : Type} `{TransparencyStore St}.

Abbreviation handler A := (prog (World St) ServiceError A).

(** [state.store.f().await] with the error converted by [?]. *)
Definition on_store {B} (f : St -> res StoreError B) : World St -> res ServiceError B * World St :=
  reading (fun w => map_err service_of_store (f (store w))).

(** The body of [append] up to the store call. *)
Definition append_input (cfg : Config) (body : AppendRequest) : res ServiceError AppendInput :=
  let supplied_fpr := to_ascii_lowercase (trim (kernel_key_fingerprint_sha256 body)) in
  let expected_fpr := to_ascii_lowercase (kernel_key_fingerprint_hex cfg) in
  if bool_decide (supplied_fpr <> expected_fpr) then Err KernelFingerprintMismatch else
  let? payload := b64url_decode (token_b64 body) in
  if bool_decide (payload = []) then Err (BadRequest "token_b64 is empty") else
  let? idempotency_key := hex_to_32 (idempotency_key_hex body) in
  Ok {| ai_idempotency_key := idempotency_key; ai_payload := payload;
        ai_occurred_at_epoch_seconds := ar_occurred_at_epoch_seconds body |}.

(** [POST /v1/append]: the status code and the body. *)
Definition append (cfg : Config) (body : AppendRequest) : handler (N * AppendResponse) :=
  match append_input cfg body with
  | Err e => Done (Err e)
  | Panic => Done Panic
  | Ok inp =>
    await_q false
      (fun w => let (r, s) := ts_append (store w) inp in
                (map_err service_of_store r, Build_World s (consistency_tree w)))
      (fun outcome =>
         let idempotent_replay := negb (ao_created outcome) in
         let status := if idempotent_replay then 200 else 201 in
         Done (Ok (status,
           {| entry_id := u64_to_string (ao_leaf_index outcome);
              idempotent_replay := idempotent_replay;
              leaf_hash_hex := hex_encode (arr_bytes (ao_leaf_hash outcome));
              ar_leaf_index := ao_leaf_index outcome;
              ar_ok := true |})))
  end.

(** [GET /v1/verify/:entry_id]. *)
Definition verify (entry_id : string) : handler VerifyResponse :=
  match parse_u64 entry_id with
  | None => Done (Err (InvalidQuery ("entry_id not a u64: " +:+ entry_id)))
  | Some leaf_index =>
    await_q false (on_store (fun s => ts_get_leaf s leaf_index)) (fun found =>
    match found with
    | None => Done (Err NotFound)
    | Some leaf =>
      await_q false (on_store (fun s => ts_build_inclusion_proof s leaf_index)) (fun proof =>
      await_q false (on_store ts_current_size) (fun current_size =>
      await_q false (on_store ts_current_root) (fun current_root =>
      Done (let? _ := map_err (fun e => Backend ("internal proof verification failed: " +:+
                                                 verification_error_display e))
                        (verify_inclusion_proof proof current_root) in
            Ok {| current_root_hash := hex_encode (arr_bytes current_root);
                  current_tree_size := current_size;
                  entry := leaf;
                  inclusion_proof := proof |}))))
    end)
  end.

(** The clock reading as whole seconds. *)
Definition sth_timestamp (now_f : f64) : N :=
  if f64_is_finite now_f && f64_ge now_f (f64_of_Z 0) then f64_as_u64 now_f else 0.

(** [GET /v1/sth]; [now] is what [state.clock.now()] returns. *)
Definition sth_route (cfg : Config) (now : f64) : handler SignedTreeHeadResponse :=
  await_q false (on_store ts_current_size) (fun tree_size =>
  await_q false (on_store ts_current_root) (fun root_hash =>
  Done (Ok {| sr_ok := true;
              signing_key_fingerprint_sha256 := signing_key_fingerprint_hex cfg;
              sth := mint_sth root_hash tree_size (sth_timestamp now) (signing_key cfg) |}))).

(** [for idx in tree.len()..second { get_leaf; push_leaf }] then the proof, under
    the tree's lock; [k] leaves remain. *)
Fixpoint extend_then_prove (k : nat) (idx first second : N) : handler ConsistencyResponse :=
  match k with
  | O =>
    await_q true
      (reading (fun w => map_err Verification
                           (consistency_proof (consistency_tree w) first second)))
      (fun proof => Done (Ok {| cr_consistency_proof := proof; cr_ok := true |}))
  | S k =>
    await_q true (on_store (fun s => ts_get_leaf s idx)) (fun found =>
    match found with
    | None => Done (Err (Backend ("gap at leaf_index " +:+ u64_to_string idx)))
    | Some leaf =>
      await_q true
        (fun w => match ht_push_leaf (consistency_tree w) leaf with
                  | Ok t => (Ok tt, Build_World (store w) t)
                  | Err e => (Err (Verification e), w)
                  | Panic => (Panic, w)
                  end)
        (fun _ => extend_then_prove k (idx + 1) first second)
    end)
  end.

(** [GET /v1/consistency?first=X&second=Y]. *)
Definition consistency (first second : N) : handler ConsistencyResponse :=
  if first =? 0 then Done (Err (Verification InvalidConsistencyRange)) else
  if second <? first then Done (Err (Verification InvalidConsistencyRange)) else
  await_q false (on_store ts_current_size) (fun current =>
  if current <? second then Done (Err (Verification LeafIndexOutOfBounds)) else
  Await false (reading (fun w => ht_len (consistency_tree w))) (fun len =>
  extend_then_prove (N.to_nat (second - len)) len first second)).

(** ** Other requests

    What the other tasks do between two awaits: append to the store, and, when
    the tree's lock is free, push the next leaf onto the cached tree.  Both are
    the steps of the handlers above.  The ledger stays below [2^63] entries. *)
Context `{!StoreLaws St}.

Inductive env_step (held : bool) : World St -> World St -> Prop :=
| env_append w inp :
    (forall es, ts_holds (store w) es -> nlen es < max_leaves) ->
    env_step held w (Build_World (snd (ts_append (store w) inp)) (consistency_tree w))
| env_extend w leaf t :
    held = false ->
    ts_get_leaf (store w) (ht_len (consistency_tree w)) = Ok (Some leaf) ->
    ht_push_leaf (consistency_tree w) leaf = Ok t ->
    env_step held w (Build_World (store w) t).

Definition env (held : bool) : World St -> World St -> Prop := rtc (env_step held).

(** The service invariant: the store holds a ledger [es] that fits, and the
    cached tree is the tree of one of its prefixes. *)
Definition serves (w : World St) (es : list AppendInput) : Prop :=
  ts_holds (store w) es /\ nlen es <= max_leaves /\
  exists k, k <= nlen es /\ caches (consistency_tree w) (ntake k (hash <$> ledger_leaves es)).

(** ** Invariant *)

Lemma prefix_length {A} (l k : list A) : l `prefix_of` k -> nlen l <= nlen k.
Proof. intros Hp%prefix_length. unfold nlen. lia. Qed.

Lemma ntake_prefix {A} (l k : list A) n :
  l `prefix_of` k -> n <= nlen l -> ntake n k = ntake n l.
Proof.
  intros [x ->] Hn. unfold ntake, nlen in *. by rewrite take_app_le by lia.
Qed.

Lemma leaf_hashes_prefix es es' n :
  es `prefix_of` es' -> n <= nlen es ->
  ntake n (hash <$> ledger_leaves es') = ntake n (hash <$> ledger_leaves es).
Proof.
  intros Hp Hn. apply ntake_prefix; [|by rewrite nlen_fmap, ledger_leaves_length].
  apply ledger_leaves_prefix in Hp as [k ->]. rewrite fmap_app. by eexists.
Qed.

Lemma max_leaves_u64 n : n <= max_leaves -> n <= u64_max.
Proof. unfold max_leaves, u64_max. lia. Qed.

Lemma serves_append w es inp :
  serves w es -> nlen es < max_leaves ->
  serves (Build_World (snd (ts_append (store w) inp)) (consistency_tree w))
    (snd (ledger_append es inp)).
Proof.
  intros (Hh & Hmax & k & Hk & Hc) Hlt. pose proof (ledger_append_length es inp).
  pose proof (ledger_append_prefix es inp) as Hp. split_and!; simpl; [|lia|].
  - by apply ts_append_law; [|apply max_leaves_u64].
  - exists k. apply prefix_length in Hp as Hlen. split; [lia|].
    by rewrite (leaf_hashes_prefix es).
Qed.

Lemma serves_push w es leaf t :
  serves w es -> ts_get_leaf (store w) (ht_len (consistency_tree w)) = Ok (Some leaf) ->
  ht_push_leaf (consistency_tree w) leaf = Ok t ->
  serves (Build_World (store w) t) es /\ ht_len t = ht_len (consistency_tree w) + 1.
Proof.
  intros (Hh & Hmax & k & Hk & Hc) Hg Hpush. rewrite (ts_get_leaf_law _ es) in Hg by done.
  assert (nlen (hash <$> ledger_leaves es) = nlen es) as Hlen
    by by rewrite nlen_fmap, ledger_leaves_length.
  assert (ht_len (consistency_tree w) = k) as Hlk
    by (rewrite (caches_len _ _ Hc), nlen_ntake; lia).
  rewrite Hlk in *. injection Hg as Hg. apply lookup_lt_Some in Hg as Hlt.
  unfold ledger_leaves in Hlt. rewrite length_imap in Hlt.
  destruct (ht_push_spec _ _ (hash leaf) Hc) as (t' & Ht' & Hc').
  unfold ht_push_leaf in Hpush. rewrite Hpush in Ht'. injection Ht' as <-.
  assert (ntake k (hash <$> ledger_leaves es) ++ [hash leaf] =
          ntake (k + 1) (hash <$> ledger_leaves es)) as Heq.
  { unfold ntake. replace (N.to_nat (k + 1)) with (S (N.to_nat k)) by lia.
    symmetry. apply take_S_r. by rewrite list_lookup_fmap, Hg. }
  rewrite Heq in Hc'. split.
  - split; [done|]. split; [done|]. exists (k + 1). split; [unfold nlen; lia|done].
  - rewrite (caches_len _ _ Hc'), nlen_ntake; [done|]. rewrite Hlen. unfold nlen. lia.
Qed.

Lemma env_serves held w w' es :
  env held w w' -> serves w es ->
  exists es', serves w' es' /\ es `prefix_of` es' /\
    (held = true -> consistency_tree w' = consistency_tree w).
Proof.
  intros Henv. revert es. induction Henv as [w|w w1 w2 Hstep _ IH]; intros es Hs.
  - by exists es.
  - destruct Hstep as [w inp Hlt|w leaf t -> Hg Hpush].
    + destruct (IH (snd (ledger_append es inp))) as (es' & Hs' & Hp & Ht).
      { apply serves_append; [done|]. apply Hlt, Hs. }
      exists es'. split_and!; [done| |done].
      etrans; [apply ledger_append_prefix|done].
    + apply (serves_push _ es) in Hpush as [Hs1 _]; [|done..].
      destruct (IH _ Hs1) as (es' & Hs' & Hp & _). by exists es'.
Qed.

Lemma serves_leaf w es i leaf :
  serves w es -> ts_get_leaf (store w) i = Ok (Some leaf) <->
  ledger_leaves es !! N.to_nat i = Some leaf.
Proof.
  intros (Hh & _). rewrite (ts_get_leaf_law _ es) by done. split; [by intros [= ->]|by intros ->].
Qed.

(** Reading a leaf that exists: a later ledger still has it. *)
Lemma ledger_leaf_mono es es' i leaf :
  es `prefix_of` es' -> ledger_leaves es !! i = Some leaf -> ledger_leaves es' !! i = Some leaf.
Proof. intros Hp Hl. eapply prefix_lookup_Some; [done|by apply ledger_leaves_prefix]. Qed.

(** The root of a non-empty prefix of the ledger. *)
Lemma ledger_prefix_root es n :
  0 < n -> n <= nlen es -> nlen es <= max_leaves ->
  compute_root (ntake n (ledger_leaves es)) = Ok (mth (ntake n (hash <$> ledger_leaves es))).
Proof.
  intros Hpos Hn Hmax. pose proof (ledger_leaves_length es) as Hlen.
  rewrite compute_root_spec, fmap_ntake; [done|apply nlen_pos|]; rewrite nlen_ntake; lia.
Qed.

Lemma ledger_root_of (es : list AppendInput) : es <> [] -> nlen es <= max_leaves ->
  ledger_root es = Ok (mth (hash <$> ledger_leaves es)).
Proof.
  intros Hne Hmax. unfold ledger_root. destruct es as [|e es]; [done|].
  rewrite compute_root_spec; [done|by rewrite ledger_leaves_nil|by rewrite ledger_leaves_length].
Qed.

(** The proof a store builds for a recorded leaf, against its own root. *)
Lemma ledger_proof_ok es i leaf :
  ledger_leaves es !! N.to_nat i = Some leaf -> nlen es <= max_leaves ->
  exists p, build_inclusion_proof (ledger_leaves es) i = Ok p /\
    ip_leaf_hash p = hash leaf /\ ip_leaf_index p = i /\ ip_tree_size p = nlen es /\
    verify_inclusion_proof p (mth (hash <$> ledger_leaves es)) = Ok tt.
Proof.
  intros Hleaf Hmax. apply lookup_lt_Some in Hleaf as Hlt. rewrite <-ledger_leaves_length in Hmax.
  destruct (build_inclusion_proof_spec (ledger_leaves es) i)
    as (p & h & Hp & Hh & Hph & Hpi & Hps & Hpl & Hpc); [unfold nlen; lia|done|].
  rewrite list_lookup_fmap, Hleaf in Hh. injection Hh as <-.
  exists p. rewrite <-ledger_leaves_length. split_and!; [done..|].
  apply verify_inclusion_iff. rewrite Hpi, Hps, Hph. split_and!; [unfold nlen; lia|done..].
Qed.

(** The whole ledger as a prefix of a later one. *)
Lemma prefix_hashes es es' :
  es `prefix_of` es' -> hash <$> ledger_leaves es = ntake (nlen es) (hash <$> ledger_leaves es').
Proof.
  intros Hp. rewrite (leaf_hashes_prefix es) by done. rewrite ntake_all; [done|].
  by rewrite nlen_fmap, ledger_leaves_length.
Qed.

(** The reads a handler awaits: others may run before each, and what it then reads is
    the ledger of that moment. *)
Lemma await_serves {A B} held (f : St -> res StoreError B) (k : B -> handler A) w es r w' :
  serves w es -> exec env (await_q held (on_store f) k) w r w' ->
  exists w1 es1, serves w1 es1 /\ es `prefix_of` es1 /\
    match f (store w1) with
    | Ok b => exec env (k b) w1 r w'
    | Err e => r = Err (service_of_store e) /\ w' = w1
    | Panic => r = Panic /\ w' = w1
    end.
Proof.
  intros Hs (w1 & He & Hx)%exec_await_q_inv.
  destruct (env_serves _ _ _ _ He Hs) as (es1 & Hs1 & Hp1 & _). exists w1, es1.
  simpl in Hx. split_and!; [done..|]. by destruct (f (store w1)).
Qed.

Lemma await_size {A} (k : N -> handler A) w es r w' :
  serves w es -> exec env (await_q false (on_store ts_current_size) k) w r w' ->
  exists w1 es1, serves w1 es1 /\ es `prefix_of` es1 /\ exec env (k (nlen es1)) w1 r w'.
Proof.
  intros Hs Hx. eapply await_serves in Hx as (w1 & es1 & Hs1 & Hp1 & Hx); [|done]. exists w1, es1.
  destruct (Hs1) as (? & Hm & _). by rewrite (ts_current_size_law _ es1) in Hx by auto using max_leaves_u64.
Qed.

Lemma await_root {A} (k : digest -> handler A) w es r w' :
  serves w es -> es <> [] -> exec env (await_q false (on_store ts_current_root) k) w r w' ->
  exists w1 es1, serves w1 es1 /\ es `prefix_of` es1 /\
    exec env (k (mth (hash <$> ledger_leaves es1))) w1 r w'.
Proof.
  intros Hs Hne Hx. eapply await_serves in Hx as (w1 & es1 & Hs1 & Hp1 & Hx); [|done]. exists w1, es1.
  destruct (Hs1) as (? & Hm & _). rewrite (ts_current_root_law _ es1), ledger_root_of in Hx; try done.
  intros ->. by apply prefix_nil_inv in Hp1.
Qed.

Lemma await_leaf {A} i (k : option MerkleLeaf -> handler A) w es r w' :
  serves w es -> exec env (await_q false (on_store (fun s => ts_get_leaf s i)) k) w r w' ->
  exists w1 es1, serves w1 es1 /\ es `prefix_of` es1 /\
    exec env (k (ledger_leaves es1 !! N.to_nat i)) w1 r w'.
Proof.
  intros Hs Hx. eapply await_serves in Hx as (w1 & es1 & Hs1 & Hp1 & Hx); [|done]. exists w1, es1.
  by rewrite (ts_get_leaf_law _ es1) in Hx by apply Hs1.
Qed.

Lemma await_proof {A} i leaf (k : InclusionProof -> handler A) w es r w' :
  serves w es -> ledger_leaves es !! N.to_nat i = Some leaf ->
  exec env (await_q false (on_store (fun s => ts_build_inclusion_proof s i)) k) w r w' ->
  exists w1 es1 p, serves w1 es1 /\ es `prefix_of` es1 /\
    ip_leaf_hash p = hash leaf /\ ip_leaf_index p = i /\ ip_tree_size p = nlen es1 /\
    verify_inclusion_proof p (mth (hash <$> ledger_leaves es1)) = Ok tt /\ exec env (k p) w1 r w'.
Proof.
  intros Hs Hleaf Hx. eapply await_serves in Hx as (w1 & es1 & Hs1 & Hp1 & Hx); [|done]. destruct (Hs1) as (? & Hm & _).
  destruct (ledger_proof_ok es1 i leaf) as (p & Hp & Hpp); [by eapply ledger_leaf_mono|done|].
  rewrite (ts_build_inclusion_proof_law _ es1), Hp in Hx by auto using max_leaves_u64.
  exists w1, es1, p. by split_and!; try apply Hpp.
Qed.

Lemma leaf_index_lt es i leaf : ledger_leaves es !! N.to_nat i = Some leaf -> i < nlen es.
Proof. intros Hl%lookup_lt_Some. unfold ledger_leaves in Hl. rewrite length_imap in Hl. unfold nlen. lia. Qed.

Lemma extend_then_prove_spec k idx first second w es r w' :
  exec env (extend_then_prove k idx first second) w r w' ->
  serves w es -> ht_len (consistency_tree w) = idx -> k = N.to_nat (second - idx) ->
  0 < first -> first <= second -> second <= nlen es ->
  exists es' p, serves w' es' /\ es `prefix_of` es' /\
    r = Ok {| cr_consistency_proof := p; cr_ok := true |} /\
    from_size p = first /\ to_size p = second /\
    verify_consistency_proof p (mth (ntake first (hash <$> ledger_leaves es')))
      (mth (ntake second (hash <$> ledger_leaves es'))) = Ok tt.
Proof.
  revert idx w es. induction k as [|k IH]; intros idx w es Hx Hs Hidx Hk Hpos Hfs Hse;
    cbn [extend_then_prove] in Hx;
    apply exec_await_q_inv in Hx as (w1 & He & Hx);
    destruct (env_serves _ _ _ _ He Hs) as (es1 & Hs1 & Hp1 & Ht1); specialize (Ht1 eq_refl);
    apply prefix_length in Hp1 as Hl1.
  - simpl in Hx. rewrite Ht1 in Hx. destruct (Hs1) as (Hh & Hmax & k & Hk1 & Hc).
    rewrite Ht1 in Hc. assert (nlen (hash <$> ledger_leaves es1) = nlen es1) as Hlen
      by by rewrite nlen_fmap, ledger_leaves_length.
    pose proof (caches_len _ _ Hc) as Hkl. rewrite nlen_ntake in Hkl by lia.
    destruct (cached_consistency_proof _ _ first second Hc) as (p & Hp & Hf & Ht & Hv);
      [rewrite ?nlen_ntake by lia; lia..|].
    rewrite Hp in Hx. simpl in Hx. apply exec_done_inv in Hx as [-> ->].
    rewrite !ntake_ntake in Hv. exists es1, p. split_and!; try done.
    replace (N.min first k) with first in Hv by lia.
    by replace (N.min second k) with second in Hv by lia.
  - assert (is_Some (ledger_leaves es1 !! N.to_nat idx)) as [leaf Hleaf].
    { apply lookup_lt_is_Some. unfold ledger_leaves. rewrite length_imap. unfold nlen in *. lia. }
    simpl in Hx. apply (serves_leaf _ _ _ _ Hs1) in Hleaf as Hget. rewrite Hget in Hx. simpl in Hx.
    apply exec_await_q_inv in Hx as (w2 & He2 & Hx).
    destruct (env_serves _ _ _ _ He2 Hs1) as (es2 & Hs2 & Hp2 & Ht2). specialize (Ht2 eq_refl).
    apply prefix_length in Hp2 as Hl2.
    destruct (Hs2) as (_ & _ & k2 & _ & Hc2).
    destruct (ht_push_spec _ _ (hash leaf) Hc2) as (t & Hpush & _).
    change (ht_push_leaf (consistency_tree w2) leaf = Ok t) in Hpush. rewrite Hpush in Hx. simpl in Hx.
    destruct (serves_push w2 es2 leaf t Hs2) as [Hs3 Hlen3]; [|done|].
    { rewrite Ht2, Ht1, Hidx. apply (serves_leaf _ _ _ _ Hs2). by eapply ledger_leaf_mono. }
    destruct (IH _ _ _ Hx Hs3) as (es' & p & Hs' & Hp' & Hr); [|lia|done|done|lia|].
    { simpl. by rewrite Hlen3, Ht2, Ht1, Hidx. }
    exists es', p. split_and!; try apply Hr; [done|]. by do 2 (etrans; [done|]).
Qed.

(** Consistency over HTTP under concurrency: however other requests append
    to the store and extend the cached tree between its awaits, the route keeps
    the service invariant, never panics and never reports a gap; a bad range and
    a size beyond the ledger are refused as such; and every proof it serves is
    for the requested sizes and verifies against the roots of those prefixes of
    the ledger. *)
Theorem consistency_route_correct first second w es r w' :
  serves w es -> exec env (consistency first second) w r w' ->
  exists es', serves w' es' /\ es `prefix_of` es' /\
    ((first = 0 \/ second < first) /\ r = Err (Verification InvalidConsistencyRange) \/
     0 < first /\ first <= second /\ nlen es < second /\
       r = Err (Verification LeafIndexOutOfBounds) \/
     exists p root1 root2,
       0 < first /\ first <= second /\ second <= nlen es' /\
       r = Ok {| cr_consistency_proof := p; cr_ok := true |} /\
       from_size p = first /\ to_size p = second /\
       compute_root (ntake first (ledger_leaves es')) = Ok root1 /\
       compute_root (ntake second (ledger_leaves es')) = Ok root2 /\
       verify_consistency_proof p root1 root2 = Ok tt).
Proof.
  intros Hs Hx. unfold consistency in Hx.
  destruct (N.eqb_spec first 0) as [->|Hf0]; [apply exec_done_inv in Hx as [-> ->]; eauto 8|].
  destruct (N.ltb_spec second first) as [Hlt|Hle]; [apply exec_done_inv in Hx as [-> ->]; eauto 8|].
  apply (await_size _ _ es) in Hx as (w1 & es1 & Hs1 & Hp1 & Hx); [|done]. apply prefix_length in Hp1 as Hl1.
  destruct (N.ltb_spec (nlen es1) second) as [Hout|Hin].
  { apply exec_done_inv in Hx as [-> ->]. exists es1. split_and!; [done..|]. right. left.
    split_and!; [lia..|done]. }
  apply exec_await_inv in Hx as (w2 & He2 & Hx).
  destruct (env_serves _ _ _ _ He2 Hs1) as (es2 & Hs2 & Hp2 & _). apply prefix_length in Hp2 as Hl2.
  eapply extend_then_prove_spec in Hx as (es' & p & Hs' & Hp' & -> & Hf & Ht & Hv);
    [|done..|lia|done|lia].
  apply prefix_length in Hp' as Hl'. exists es'. split_and!; [done|by do 2 (etrans; [done|])|].
  right. right. destruct Hs' as (_ & Hmax' & _).
  do 3 eexists. rewrite !ledger_prefix_root by lia. split_and!; [lia..|done|done|done|done|done|done].
Qed.

(** ** Inclusion over HTTP *)

Lemma prefix_same_length {A} (es es' : list A) :
  es `prefix_of` es' -> nlen es' <= nlen es -> es' = es.
Proof.
  intros [k ->] Hlen. unfold nlen in Hlen. rewrite length_app in Hlen.
  destruct k; [by rewrite app_nil_r|simpl in Hlen; lia].
Qed.

(** Inclusion over HTTP under concurrency: [verify] answers [NotFound] only
    for an index the ledger did not have, and fails with a backend error only
    when another request appended meanwhile; every answer it does give carries
    the ledger's leaf at that index and a proof for it that verifies against the
    root it reports, which is the root of a prefix of the ledger no shorter than
    the sizes it reports. *)
Theorem verify_route_correct id w es r w' :
  serves w es -> exec env (verify id) w r w' ->
  exists es', serves w' es' /\ es `prefix_of` es' /\
  match parse_u64 id, r with
  | None, Err (InvalidQuery _) => True
  | Some i, Err NotFound => nlen es <= i
  | Some i, Err (Backend _) => i < nlen es' /\ nlen es < nlen es'
  | Some i, Ok resp =>
      ledger_leaves es' !! N.to_nat i = Some (entry resp) /\
      let p := inclusion_proof resp in
      ip_leaf_index p = i /\ ip_leaf_hash p = hash (entry resp) /\
      exists m root,
        ip_tree_size p <= current_tree_size resp /\ current_tree_size resp <= m /\
        m <= nlen es' /\ compute_root (ntake m (ledger_leaves es')) = Ok root /\
        current_root_hash resp = hex_encode (arr_bytes root) /\
        verify_inclusion_proof p root = Ok tt
  | _, _ => False
  end.
Proof.
  intros Hs Hx. unfold verify in Hx.
  destruct (parse_u64 id) as [i|]; [|apply exec_done_inv in Hx as [-> ->]; eauto].
  apply (await_leaf _ _ _ es) in Hx as (w1 & es1 & Hs1 & Hp1 & Hx); [|done].
  apply prefix_length in Hp1 as Hl1. destruct (ledger_leaves es1 !! N.to_nat i) as [leaf|] eqn:Hleaf.
  2: { apply exec_done_inv in Hx as [-> ->]. exists es1. split_and!; [done..|].
    apply lookup_ge_None in Hleaf. unfold ledger_leaves in Hleaf. rewrite length_imap in Hleaf.
    unfold nlen in *. lia. }
  apply (await_proof _ leaf _ _ es1) in Hx as (w2 & es2 & p & Hs2 & Hp2 & Hph & Hpi & Hps & Hpv & Hx); [|done..].
  pose proof (ledger_leaf_mono _ _ _ _ Hp2 Hleaf) as Hleaf2. apply leaf_index_lt in Hleaf2 as Hi2.
  apply (await_size _ _ es2) in Hx as (w3 & es3 & Hs3 & Hp3 & Hx); [|done].
  apply prefix_length in Hp2 as Hl2. apply prefix_length in Hp3 as Hl3.
  apply (await_root _ _ es3) in Hx as (w4 & es4 & Hs4 & Hp4 & Hx);
    [|done|intros ->; unfold nlen in *; simpl in *; lia].
  apply prefix_length in Hp4 as Hl4. destruct (Hs4) as (_ & Hm4 & _).
  assert (es2 `prefix_of` es4) as Hp24 by by etrans.
  apply exec_done_inv in Hx as [-> ->]. exists es4. split; [done|]. split; [by do 2 (etrans; [done|])|].
  destruct (verify_inclusion_proof p (mth (hash <$> ledger_leaves es4))) as [[]|e|] eqn:Hv; simpl.
  - split; [by eapply ledger_leaf_mono|]. split; [done|]. split; [done|].
    exists (nlen es4), (mth (hash <$> ledger_leaves es4)).
    rewrite Hps, ledger_prefix_root by lia. rewrite <-prefix_hashes by done. by split_and!.
  - split; [lia|]. destruct (N.lt_ge_cases (nlen es) (nlen es4)) as [|Hge]; [done|]. exfalso.
    apply prefix_same_length in Hp24; [|lia]. subst es4. by rewrite Hpv in Hv.
  - by destruct (verify_inclusion_not_panic p (mth (hash <$> ledger_leaves es4))).
Qed.

(** ** Tree heads *)

(** Tree heads: whatever runs beside it, [sth] returns a head whose
    signature verifies under the service's public key, and whose root is the root
    of a ledger prefix at least as long as the size it states; when no append
    intervened the two agree, so a quiescent head commits to the ledger. *)
Theorem sth_route_correct `{!Ed25519Correct} cfg now w es r w' :
  serves w es -> es <> [] -> exec env (sth_route cfg now) w r w' ->
  exists es' resp m, serves w' es' /\ es `prefix_of` es' /\ r = Ok resp /\
    verify_sth (sth resp) (verifying_key (signing_key cfg)) = Ok tt /\
    nlen es <= tree_size (sth resp) /\ tree_size (sth resp) <= m /\ m <= nlen es' /\
    compute_root (ntake m (ledger_leaves es')) = Ok (root_hash (sth resp)) /\
    (es' = es -> tree_size (sth resp) = m).
Proof.
  intros Hs Hne Hx. unfold sth_route in Hx.
  apply (await_size _ _ es) in Hx as (w1 & es1 & Hs1 & Hp1 & Hx); [|done].
  assert (0 < nlen es) as Hpos by (destruct es; [done|unfold nlen; simpl; lia]).
  apply prefix_length in Hp1 as Hl1.
  apply (await_root _ _ es1) in Hx as (w2 & es2 & Hs2 & Hp2 & Hx);
    [|done|intros ->; unfold nlen in *; simpl in *; lia].
  apply prefix_length in Hp2 as Hl2. destruct (Hs2) as (_ & Hm2 & _). apply exec_done_inv in Hx as [-> ->].
  eexists es2, _, (nlen es2). split; [done|]. split; [by etrans|]. split; [done|]. simpl.
  split; [by unfold verify_sth; simpl; rewrite sign_verifies|]. split_and!; [done|done|done| |].
  - rewrite ledger_prefix_root by lia. by rewrite <-prefix_hashes.
  - intros ->. lia.
Qed.

(** ** Append, then verify *)

Lemma run_verify w es i leaf :
  serves w es -> ledger_leaves es !! N.to_nat i = Some leaf ->
  exists p, verify_inclusion_proof p (mth (hash <$> ledger_leaves es)) = Ok tt /\
    ip_leaf_index p = i /\ ip_leaf_hash p = hash leaf /\
    run (verify (u64_to_string i)) w =
    (Ok {| current_root_hash := hex_encode (arr_bytes (mth (hash <$> ledger_leaves es)));
           current_tree_size := nlen es; entry := leaf; inclusion_proof := p |}, w).
Proof.
  intros (Hh & Hmax & _) Hleaf. apply lookup_lt_Some in Hleaf as Hlt.
  unfold ledger_leaves in Hlt. rewrite length_imap in Hlt. apply max_leaves_u64 in Hmax as Hu64.
  destruct (ledger_proof_ok es i leaf Hleaf Hmax) as (p & Hp & Hph & Hpi & Hps & Hpv).
  exists p. split_and!; [done..|]. unfold verify.
  rewrite parse_u64_to_string by (unfold nlen in *; lia). simpl.
  rewrite (ts_get_leaf_law _ es), Hleaf by done. simpl.
  rewrite (ts_build_inclusion_proof_law _ es), Hp by done. simpl.
  rewrite (ts_current_size_law _ es) by done. simpl.
  rewrite (ts_current_root_law _ es), ledger_root_of; [|by intros ->|done|done]. simpl.
  by rewrite Hpv.
Qed.

(** A request made with the encoders is decoded to what was encoded. *)
Lemma append_input_encoded `{!HexCorrect, !B64UrlCorrect} cfg body key payload :
  to_ascii_lowercase (trim (kernel_key_fingerprint_sha256 body)) =
    to_ascii_lowercase (kernel_key_fingerprint_hex cfg) ->
  idempotency_key_hex body = hex_encode (arr_bytes key) ->
  token_b64 body = b64url_encode payload -> payload <> [] ->
  append_input cfg body =
  Ok {| ai_idempotency_key := key; ai_payload := payload;
        ai_occurred_at_epoch_seconds := ar_occurred_at_epoch_seconds body |}.
Proof.
  intros Hfpr Hkey Htok Hne. unfold append_input. rewrite bool_decide_false by tauto.
  unfold b64url_decode. rewrite Htok, trim_plain, b64url_no_pad, b64url_roundtrip
    by apply b64url_plain.
  simpl. rewrite bool_decide_false by done. unfold hex_to_32.
  rewrite Hkey, trim_plain, hex_roundtrip by apply hex_plain.
  unfold nlen. rewrite array_length. simpl. by rewrite array_of_id.
Qed.

(** Append, then verify: a well-formed submission under the pinned kernel
    fingerprint (case-insensitively) is either refused as a conflict with a
    recorded entry of the same key and another payload, or recorded, fresh (201)
    or as a replay (200); the entry id it returns resolves, in the resulting
    ledger, to the leaf hash of the submitted payload with a proof that verifies
    against the current root. *)
Theorem append_then_verify `{!HexCorrect, !B64UrlCorrect} cfg body key payload w es :
  serves w es -> nlen es < max_leaves ->
  to_ascii_lowercase (trim (kernel_key_fingerprint_sha256 body)) =
    to_ascii_lowercase (kernel_key_fingerprint_hex cfg) ->
  idempotency_key_hex body = hex_encode (arr_bytes key) ->
  token_b64 body = b64url_encode payload -> payload <> [] ->
  match run (append cfg body) w with
  | (Ok (status, resp), w') =>
      status = (if idempotent_replay resp then 200 else 201) /\
      leaf_hash_hex resp = hex_encode (arr_bytes (leaf_hash payload)) /\
      exists es' vr, serves w' es' /\ es `prefix_of` es' /\
        nlen es' = nlen es + (if idempotent_replay resp then 0 else 1) /\
        run (verify (entry_id resp)) w' = (Ok vr, w') /\
        hash (entry vr) = leaf_hash payload /\
        verify_inclusion_proof (inclusion_proof vr) (mth (hash <$> ledger_leaves es')) = Ok tt
  | (Err e, w') =>
      e = IdempotencyPayloadMismatch /\
      exists prior, prior ∈ es /\ ai_idempotency_key prior = key /\ ai_payload prior <> payload
  | (Panic, _) => False
  end.
Proof.
  intros Hs Hlt Hfpr Hkey Htok Hne. unfold append.
  rewrite (append_input_encoded cfg body key payload) by done. simpl.
  set (inp := {| ai_idempotency_key := key |}).
  pose proof (serves_append w es inp Hs Hlt) as Hs'. destruct (Hs) as (Hh & Hmax & _).
  destruct (ts_append_law (store w) es inp Hh) as [Hr _]; [by apply max_leaves_u64|].
  destruct (ts_append (store w) inp) as [r s']. simpl in Hr, Hs'. subst r.
  unfold ledger_append in *. destruct (list_find _ es) as [[i e]|] eqn:Hf; simpl in *.
  - apply list_find_Some in Hf as (He & Hk & _). case_decide as Hd; simpl.
    + split; [done|]. split; [by rewrite Hd|].
      destruct (run_verify _ _ (N.of_nat i) {| hash := leaf_hash (ai_payload e);
        ml_leaf_index := N.of_nat i;
        occurred_at_epoch_seconds := ai_occurred_at_epoch_seconds e |} Hs')
        as (p & Hv & _ & _ & Hrun); [by rewrite Nat2N.id, ledger_leaves_lookup, He|].
      exists es. eexists. split; [done|]. split; [done|]. split; [lia|].
      split; [apply Hrun|]. simpl. by rewrite Hd.
    + split; [done|]. exists e. split_and!; [by eapply list_elem_of_lookup_2|done..].
  - split; [done|]. split; [done|].
    destruct (run_verify _ _ (nlen es) {| hash := leaf_hash payload; ml_leaf_index := nlen es;
        occurred_at_epoch_seconds := ar_occurred_at_epoch_seconds body |} Hs')
      as (p & Hv & _ & _ & Hrun).
    { rewrite ledger_leaves_snoc. unfold nlen at 1. rewrite Nat2N.id.
      rewrite lookup_app_r; unfold ledger_leaves; rewrite length_imap; [|lia].
      by rewrite Nat.sub_diag. }
    eexists _, _. split; [done|]. split; [by apply prefix_app_r|].
    split; [unfold nlen; rewrite length_app; simpl; lia|]. split; [apply Hrun|]. done.
Qed.

End Tlog.

(** ** Witnesses and the tree-head race, on the memory store *)

Module Demo.

Definition demo_hash : Sha256 := fun l => array_of 32 (rev l).
#[local] Existing Instance demo_hash.
#[local] Existing Instance demo_ed25519.
#[local] Existing Instance demo_hex.
#[local] Existing Instance demo_b64.

Definition cfg : Config :=
  {| signing_key := [x05] : @SigningKey demo_ed25519; signing_key_fingerprint_hex := "aa";
     kernel_key_fingerprint_hex := "BB" |}.

Definition input (k p : byte) : AppendInput :=
  {| ai_idempotency_key := array_of 32 [k]; ai_payload := [p]; ai_occurred_at_epoch_seconds := 3 |}.

Definition world (inps : list AppendInput) : World Inner :=
  Build_World (append_all mem_new inps) ht_new.

Definition inps : list AppendInput := [input x01 x01; input x02 x02; input x03 x03].

Definition request : AppendRequest :=
  {| idempotency_key_hex := hex_encode (arr_bytes (array_of 32 [x09]));
     kernel_key_fingerprint_sha256 := " bB ";
     ar_occurred_at_epoch_seconds := 7;
     token_b64 := b64url_encode [x61; x62] |}.

Lemma world_serves : serves (world inps) inps.
Proof.
  split; [|split; [by vm_compute|exists 0; split; [by vm_compute|apply caches_new]]].
  split; [reflexivity|]. split; [reflexivity|]. intros k.
  change (idempotency (store (world inps))) with
    (<[array_of 32 [x03] := 2]> (<[array_of 32 [x02] := 1]> (<[array_of 32 [x01] := 0]>
       (∅ : gmap (array 32) N)))).
  unfold inps, input; simpl.
  repeat (case_decide; [subst|]); simplify_map_eq; try done;
    rewrite ?lookup_insert_ne by done; by simplify_map_eq.
Qed.

Lemma env_refl held w : env held w w.
Proof. apply rtc_refl. Qed.

(** The tree-head race: the size and the root are read in two awaits, and
    an append that lands between them makes the service sign, validly, a head
    whose root is not the root of the number of leaves it states. *)
Theorem sth_race :
  exists w es es' w' resp,
    serves w es /\ serves w' es' /\ es `prefix_of` es' /\
    exec env (sth_route cfg (f64_of_Z 10)) w (Ok resp) w' /\
    verify_sth (sth resp) (verifying_key (signing_key cfg)) = Ok tt /\
    compute_root (ntake (tree_size (sth resp)) (ledger_leaves es')) <> Ok (root_hash (sth resp)).
Proof.
  set (w' := Build_World (snd (ts_append (store (world inps)) (input x04 x04))) ht_new).
  exists (world inps), inps, (inps ++ [input x04 x04]), w'.
  eexists {| sr_ok := true; sth := _ |}.
  split; [apply world_serves|]. split; [apply (serves_append (world inps) inps (input x04 x04));
    [apply world_serves|by vm_compute]|]. split; [by apply prefix_app_r|]. split_and!.
  - econstructor; [apply env_refl|]. econstructor.
    { apply rtc_once. apply (env_append false (world inps) (input x04 x04)).
      intros es (Hl & _). apply (f_equal nlen) in Hl. rewrite ledger_leaves_length in Hl.
      change (nlen es = 3) in Hl || (rewrite <-Hl; by vm_compute). }
    apply exec_done.
  - by vm_compute.
  - intros E. vm_compute in E. done.
Qed.

Lemma consistency_route_correct_witness :
  exists es', serves (snd (run (consistency 2 3) (world inps))) es' /\ inps `prefix_of` es'.
Proof.
  destruct (consistency_route_correct 2 3 (world inps) inps _ _ world_serves
    (exec_run env env_refl (consistency 2 3) (world inps))) as (es' & Hs & Hp & _).
  exists es'. split; [exact Hs|exact Hp].
Defined.

Lemma verify_route_correct_witness :
  exists es', serves (snd (run (verify "2") (world inps))) es' /\ inps `prefix_of` es'.
Proof.
  destruct (verify_route_correct "2" (world inps) inps _ _ world_serves
    (exec_run env env_refl (verify "2") (world inps))) as (es' & Hs & Hp & _).
  exists es'. split; [exact Hs|exact Hp].
Defined.

Lemma sth_route_correct_witness :
  exists es' resp, serves (snd (run (sth_route cfg (f64_of_Z 9)) (world inps))) es' /\
    verify_sth (sth resp) (verifying_key (signing_key cfg)) = Ok tt.
Proof.
  destruct (sth_route_correct cfg (f64_of_Z 9) (world inps) inps _ _ world_serves
    ltac:(discriminate) (exec_run env env_refl (sth_route cfg (f64_of_Z 9)) (world inps)))
    as (es' & resp & _ & Hs & _ & _ & Hv & _).
  exists es', resp. split; [exact Hs|exact Hv].
Defined.

Lemma append_then_verify_witness :
  exists vr, run (verify "3") (snd (run (append cfg request) (world inps))) =
    (Ok vr, snd (run (append cfg request) (world inps))).
Proof.
  pose proof (append_then_verify cfg request (array_of 32 [x09]) [x61; x62] (world inps) inps
    world_serves ltac:(by vm_compute) ltac:(by vm_compute) eq_refl eq_refl ltac:(discriminate)) as Hav.
  destruct Hav as (_ & _ & es' & vr & _ & _ & _ & Hrun & _). exists vr. exact Hrun.
Defined.

End Demo.
