(* ===== verification/PgStore.v ===== *)
(** * The Postgres store

    Models [crates/adapters/transparency_store/src/postgres.rs] and the table of
    [migrations/0001_transparency_log.sql].  The database is the class [Postgres]:
    what each statement of the file answers.  [PostgresLaws] is what the manual says
    of those statements on that table; [leaf_index] is a [BIGSERIAL], so a new row
    gets a value drawn from a sequence that starts at 1, is drawn from once per
    attempt, and never gives a value back.  Every statement or commit may also fail;
    a failed commit may have taken effect. *)

From Stdlib Require Import Sorting.Sorted.
From S2P Require Import Prelude RustStr Float64 Crates Async Merkle MerkleSpec MerkleProofs HashTree Sth Store Tlog.

(** ** The database *)

Record Row := {
  r_index : Z;
  r_hash : list byte;
  r_key : list byte;
  r_payload : list byte;
  r_occurred : Z
}.

Definition i64_max : Z := 9223372036854775807.

(** The statements, by what they answer; [pg_upsert] is the [INSERT] and the commit. *)
Class Postgres (D : Type) := {
  pg_begin : D -> string + unit;
  pg_upsert : list byte -> list byte -> list byte -> Z -> D ->
    (string + Z * list byte * list byte * bool) * D;
  pg_select_all : D -> string + list Row;
  pg_select_at : Z -> D -> string + option Row;
  pg_count : D -> string + Z
}.

Definition may_fail {A} (x : string + A) (a : A) : Prop := x = inr a \/ exists e, x = inl e.

(** Where [ORDER BY leaf_index] puts a row. *)
Fixpoint insert_row (r : Row) (rows : list Row) : list Row :=
  match rows with
  | [] => [r]
  | x :: rows => if (r_index r <? r_index x)%Z then r :: x :: rows else x :: insert_row r rows
  end.

(** [pg_table] is the committed rows in index order; [pg_fresh] a database just
    migrated. *)
Class PostgresLaws (D : Type) `{Postgres D} := {
  pg_table : D -> list Row;
  pg_reached : D -> Prop;
  pg_fresh : D -> Prop;
  pg_fresh_law d : pg_fresh d -> pg_reached d /\ pg_table d = [];
  pg_select_all_law d : pg_reached d -> may_fail (pg_select_all d) (pg_table d);
  pg_select_at_law i d : pg_reached d ->
    may_fail (pg_select_at i d) (snd <$> (list_find (fun r => r_index r = i) (pg_table d)));
  pg_count_law d : pg_reached d -> may_fail (pg_count d) (Z.of_nat (length (pg_table d)));
  pg_upsert_law h k p o d : pg_reached d ->
    let (answer, d') := pg_upsert h k p o d in
    pg_reached d' /\
    match snd <$> (list_find (fun r => r_key r = k) (pg_table d)) with
    | Some r => pg_table d' = pg_table d /\ may_fail answer (r_index r, r_hash r, r_payload r, false)
    | None =>
      (pg_table d' = pg_table d /\ exists e, answer = inl e) \/
      exists i, (1 <= i <= i64_max)%Z /\ (i ∉ (r_index <$> pg_table d)) /\
        pg_table d' = insert_row {| r_index := i; r_hash := h; r_key := k; r_payload := p; r_occurred := o |} (pg_table d) /\
        may_fail answer (i, h, p, true)
    end
}.

(** ** The store *)

Section PgStore.
Context `{Sha256} {D : Type} `{Postgres D}.

Definition backend {A B} (x : string + A) (k : A -> res StoreError B) : res StoreError B :=
  match x with inl e => Err (SEBackend e) | inr a => k a end.

(** [u64::try_from] of an [i64]. *)
Definition try_u64 (z : Z) (msg : string) : res StoreError N :=
  if (z <? 0)%Z then Err (SEBackend msg) else Ok (Z.to_N z).

(** [i64::try_from] of a [u64]. *)
Definition try_i64 (n : N) (msg : string) : res StoreError Z :=
  if (Z.of_N n <=? i64_max)%Z then Ok (Z.of_N n) else Err (SEBackend msg).

Definition try_hash (v : list byte) : res StoreError digest :=
  if (length v =? 32)%nat then Ok (array_of 32 v)
  else Err (SEBackend ("leaf_hash wrong length: " +:+ u64_to_string (nlen v))).

Definition try_into_leaf (r : Row) : res StoreError MerkleLeaf :=
  let? leaf_index := try_u64 (r_index r) "negative leaf_index from DB" in
  let? occurred := try_u64 (r_occurred r) "negative occurred_at from DB" in
  let? leaf_hash := try_hash (r_hash r) in
  Ok {| hash := leaf_hash; ml_leaf_index := leaf_index; occurred_at_epoch_seconds := occurred |}.

Definition try_into_record (r : Row) : res StoreError LeafPayloadRecord :=
  let? leaf_index := try_u64 (r_index r) "negative leaf_index from DB" in
  let? leaf_hash := try_hash (r_hash r) in
  Ok {| lp_leaf_index := leaf_index; lp_leaf_hash := leaf_hash; lp_payload := r_payload r |}.

(** [collect] into a [Result]. *)
Fixpoint collect {A B} (f : A -> res StoreError B) (l : list A) : res StoreError (list B) :=
  match l with
  | [] => Ok []
  | a :: l => let? b := f a in let? bs := collect f l in Ok (b :: bs)
  end.

Definition load_all_leaves (d : D) : res StoreError (list MerkleLeaf) :=
  backend (pg_select_all d) (collect try_into_leaf).

Definition pg_append (d : D) (inp : AppendInput) : res StoreError AppendOutcome * D :=
  let h := leaf_hash (ai_payload inp) in
  match pg_begin d with
  | inl e => (Err (SEBackend e), d)
  | inr _ =>
    match try_i64 (ai_occurred_at_epoch_seconds inp) "occurred_at overflow" with
    | Err e => (Err e, d)
    | Panic => (Panic, d)
    | Ok occurred =>
      let (answer, d) := pg_upsert (arr_bytes h) (arr_bytes (ai_idempotency_key inp)) (ai_payload inp) occurred d in
      (backend answer (fun row =>
         let '(index, leaf_hash, existing_payload, created) := row in
         if bool_decide (existing_payload <> ai_payload inp) then Err Conflict else
         let? leaf_index := try_u64 index "negative leaf_index from DB" in
         let? leaf_hash := try_hash leaf_hash in
         Ok {| ao_leaf_index := leaf_index; ao_leaf_hash := leaf_hash; ao_created := created |}), d)
    end
  end.

Definition pg_get_leaf (d : D) (leaf_index : N) : res StoreError (option MerkleLeaf) :=
  let? bind_idx := try_i64 leaf_index "leaf_index overflow" in
  backend (pg_select_at bind_idx d) (fun row =>
    match row with
    | Some r => let? l := try_into_leaf r in Ok (Some l)
    | None => Ok None
    end).

Definition pg_current_size (d : D) : res StoreError N :=
  backend (pg_count d) (fun count => try_u64 count "negative count").

Definition pg_current_root (d : D) : res StoreError digest :=
  let? leaves := load_all_leaves d in
  match leaves with
  | [] => Ok (array_of 32 [])
  | _ => map_err SEVerification (compute_root leaves)
  end.

Definition pg_load_all_payloads (d : D) : res StoreError (list LeafPayloadRecord) :=
  backend (pg_select_all d) (collect try_into_record).

Definition pg_build_inclusion_proof (d : D) (leaf_index : N) : res StoreError InclusionProof :=
  let? leaves := load_all_leaves d in
  match leaves with
  | [] => Err (SEVerification EmptyTree)
  | _ =>
    if (N.min (nlen leaves) u64_max <=? leaf_index)%N
    then Err (SEVerification LeafIndexOutOfBounds)
    else map_err SEVerification (build_inclusion_proof leaves leaf_index)
  end.

#[global] Instance PgTransparencyStore : TransparencyStore D := {
  ts_append := pg_append;
  ts_get_leaf := pg_get_leaf;
  ts_current_size := pg_current_size;
  ts_current_root := pg_current_root;
  ts_build_inclusion_proof := pg_build_inclusion_proof;
  ts_load_all_payloads := pg_load_all_payloads
}.

(** ** The table *)

Definition row_ok (r : Row) : Prop :=
  (1 <= r_index r <= i64_max)%Z /\ r_hash r = arr_bytes (leaf_hash (r_payload r)) /\
  length (r_key r) = 32%nat /\ (0 <= r_occurred r)%Z.

Definition table_ok (rows : list Row) : Prop :=
  StronglySorted Z.lt (r_index <$> rows) /\ NoDup (r_key <$> rows) /\ Forall row_ok rows.

(** What a row says was submitted, and the leaf it is. *)
Definition entry_of (r : Row) : AppendInput :=
  {| ai_idempotency_key := array_of 32 (r_key r); ai_payload := r_payload r;
     ai_occurred_at_epoch_seconds := Z.to_N (r_occurred r) |}.

Definition row_leaf (r : Row) : MerkleLeaf :=
  {| hash := leaf_hash (r_payload r); ml_leaf_index := Z.to_N (r_index r);
     occurred_at_epoch_seconds := Z.to_N (r_occurred r) |}.

Lemma insert_row_perm r rows : insert_row r rows ≡ₚ r :: rows.
Proof.
  induction rows as [|x rows IH]; simpl; [done|]. destruct (_ <? _)%Z; [done|]. rewrite IH. by constructor.
Qed.

Lemma insert_row_sorted r rows :
  StronglySorted Z.lt (r_index <$> rows) -> r_index r ∉ (r_index <$> rows) ->
  StronglySorted Z.lt (r_index <$> insert_row r rows).
Proof.
  induction rows as [|x rows IH]; intros Hs Hn; simpl; [by repeat constructor|].
  rewrite fmap_cons in Hs, Hn. inv Hs as [|? ? Hs' Hx].
  rewrite not_elem_of_cons in Hn. destruct Hn as [Hne Hn].
  destruct (Z.ltb_spec (r_index r) (r_index x)) as [Hlt|Hle]; rewrite !fmap_cons.
  - constructor; [by constructor|]. constructor; [done|]. eapply Forall_impl; [done|]. simpl. lia.
  - constructor; [by apply IH|]. rewrite insert_row_perm, fmap_cons. constructor; [lia|done].
Qed.

Lemma insert_row_ok r rows :
  table_ok rows -> row_ok r -> r_index r ∉ (r_index <$> rows) -> r_key r ∉ (r_key <$> rows) ->
  table_ok (insert_row r rows).
Proof.
  intros (Hs & Hk & Ho) Hr Hi Hn. split_and!.
  - by apply insert_row_sorted.
  - rewrite insert_row_perm, fmap_cons. by constructor.
  - rewrite insert_row_perm. by constructor.
Qed.

(** Indices that start at 1 and increase are always past the position. *)
Lemma index_past_position l k i :
  StronglySorted Z.lt l -> Forall (fun i => (1 <= i)%Z) l -> l !! k = Some i -> (Z.of_nat k < i)%Z.
Proof.
  intros Hs Hl. assert (forall b, Forall (fun i => (b < i)%Z) l -> l !! k = Some i -> (b + Z.of_nat k < i)%Z) as Hgen.
  { clear Hl. revert k. induction Hs as [|x l Hs IH Hx]; intros k b Hb; [done|].
    inv Hb as [|? ? Hbx Hb']. destruct k as [|k]; simpl; [intros [= ->]; lia|].
    intros Hk. pose proof (IH k x Hx Hk). lia. }
  intros Hk. pose proof (Hgen 0%Z) as H0'. rewrite Z.add_0_l in H0'. apply H0'; [|done]. eapply Forall_impl; [exact Hl|]. simpl. lia.
Qed.

Lemma position_before_index rows j r :
  table_ok rows -> rows !! j = Some r -> (j < Z.to_nat (r_index r))%nat.
Proof.
  intros (Hs & _ & Ho) Hj.
  assert (Z.of_nat j < r_index r)%Z; [|lia]. eapply index_past_position; [exact Hs| |].
  - apply Forall_fmap. eapply Forall_impl; [exact Ho|]. intros x [Hx _]. simpl. lia.
  - by rewrite list_lookup_fmap, Hj.
Qed.

(** ** What the store answers *)

Lemma try_hash_ok (h : digest) : try_hash (arr_bytes h) = Ok h.
Proof. unfold try_hash. by rewrite array_length, Nat.eqb_refl, array_of_id. Qed.

Lemma try_u64_ok z msg : (0 <= z)%Z -> try_u64 z msg = Ok (Z.to_N z).
Proof. intros Hz. unfold try_u64. by destruct (Z.ltb_spec z 0); [lia|]. Qed.

Lemma try_into_leaf_ok r : row_ok r -> try_into_leaf r = Ok (row_leaf r).
Proof.
  intros (Hi & Hh & _ & Ho). unfold try_into_leaf. rewrite Hh, !try_u64_ok, try_hash_ok by lia. done.
Qed.

Lemma collect_ok {A B} (f : A -> res StoreError B) g l :
  Forall (fun a => f a = Ok (g a)) l -> collect f l = Ok (g <$> l).
Proof. induction 1 as [|a l Ha _ IH]; [done|]. simpl. by rewrite Ha, IH. Qed.

(** The right answer, or an error of the database. *)
Definition or_backend {A} (r x : res StoreError A) : Prop := r = x \/ exists e, r = Err (SEBackend e).

Lemma or_backend_Ok {A} (r x : res StoreError A) a : or_backend r x -> r = Ok a -> x = Ok a.
Proof. by intros [->|[e ->]]. Qed.

Lemma backend_answers {A B} (x : string + A) a (k : A -> res StoreError B) :
  may_fail x a -> or_backend (backend x k) (k a).
Proof. intros [->|[e ->]]; [by left|]. right. by eexists. Qed.

Context `{!PostgresLaws D}.

(** A database the store works on. *)
Definition pg_valid (d : D) : Prop := pg_reached d /\ table_ok (pg_table d).

Lemma pg_fresh_valid d : pg_fresh d -> pg_valid d.
Proof. intros [? Ht]%pg_fresh_law. split; [done|]. rewrite Ht. split_and!; constructor. Qed.

Lemma load_all_leaves_spec d : pg_valid d -> or_backend (load_all_leaves d) (Ok (row_leaf <$> pg_table d)).
Proof.
  intros [Hr (_ & _ & Ho)]. rewrite <-(collect_ok try_into_leaf).
  - by apply backend_answers, pg_select_all_law.
  - eapply Forall_impl; [exact Ho|apply try_into_leaf_ok].
Qed.

Lemma pg_load_all_payloads_spec d : pg_valid d ->
  or_backend (pg_load_all_payloads d)
    (Ok ((fun r => {| lp_leaf_index := Z.to_N (r_index r); lp_leaf_hash := leaf_hash (r_payload r);
                      lp_payload := r_payload r |}) <$> pg_table d)).
Proof.
  intros [Hr (_ & _ & Ho)]. rewrite <-(collect_ok try_into_record).
  - by apply backend_answers, pg_select_all_law.
  - eapply Forall_impl; [exact Ho|]. intros r (Hi & Hh & _). unfold try_into_record.
    by rewrite Hh, try_u64_ok, try_hash_ok by lia.
Qed.

Lemma pg_current_size_spec d : pg_valid d -> or_backend (pg_current_size d) (Ok (nlen (pg_table d))).
Proof.
  intros [Hr _]. unfold pg_current_size.
  assert (Ok (nlen (pg_table d)) = try_u64 (Z.of_nat (length (pg_table d))) "negative count") as ->
    by (rewrite try_u64_ok by lia; unfold nlen; f_equal; lia).
  by apply (backend_answers _ _ (fun count => try_u64 count "negative count")), pg_count_law.
Qed.

Lemma row_leaf_hashes rows : hash <$> (row_leaf <$> rows) = hash <$> ledger_leaves (entry_of <$> rows).
Proof.
  apply list_eq. intros i. rewrite !list_lookup_fmap, ledger_leaves_lookup, list_lookup_fmap.
  by destruct (rows !! i).
Qed.

Lemma pg_current_root_spec d :
  pg_valid d -> or_backend (pg_current_root d) (ledger_root (entry_of <$> pg_table d)).
Proof.
  intros Hd. unfold pg_current_root. destruct (load_all_leaves_spec d Hd) as [->|[e ->]]; [|by right; eexists].
  left. simpl. pose proof (row_leaf_hashes (pg_table d)) as Hh.
  destruct (pg_table d) as [|r rows]; [done|]. unfold ledger_root, compute_root. simpl in *. by rewrite Hh.
Qed.

Lemma pg_get_leaf_spec d i : pg_valid d ->
  or_backend (pg_get_leaf d i)
    (if (Z.of_N i <=? i64_max)%Z
     then Ok (row_leaf <$> (snd <$> (list_find (fun r => r_index r = Z.of_N i) (pg_table d))))
     else Err (SEBackend "leaf_index overflow")).
Proof.
  intros [Hr (_ & _ & Ho)]. unfold pg_get_leaf, try_i64. destruct (_ <=? _)%Z; [|by left]. simpl.
  pose proof (pg_select_at_law (Z.of_N i) d Hr) as Ha.
  eapply backend_answers in Ha. destruct Ha as [->|Ha]; [|by right]. left.
  destruct (list_find _ _) as [[j r]|] eqn:Hf; [|done]. simpl.
  apply list_find_Some in Hf as (Hj & _). rewrite try_into_leaf_ok; [done|].
  rewrite Forall_forall in Ho. apply Ho. by eapply list_elem_of_lookup_2.
Qed.

(** The row of a key. *)
Definition row_of (k : list byte) (rows : list Row) : option Row :=
  snd <$> (list_find (fun r => r_key r = k) rows).

Lemma row_of_Some k rows r : row_of k rows = Some r -> r ∈ rows /\ r_key r = k.
Proof.
  unfold row_of. intros ([j r'] & Hf & [= <-])%fmap_Some. apply list_find_Some in Hf as (Hj & Hk & _).
  split; [by eapply list_elem_of_lookup_2|done].
Qed.

Lemma row_of_None k rows : row_of k rows = None -> k ∉ (r_key <$> rows).
Proof.
  unfold row_of. destruct (list_find _ rows) eqn:Hf; [done|]. intros _ (r & -> & Hr)%list_elem_of_fmap.
  apply list_find_None in Hf. rewrite Forall_forall in Hf. by eapply Hf.
Qed.

Lemma row_of_elem r rows : NoDup (r_key <$> rows) -> r ∈ rows -> row_of (r_key r) rows = Some r.
Proof.
  intros Hnd Hr. destruct (row_of (r_key r) rows) as [r'|] eqn:Hf.
  - apply row_of_Some in Hf as [Hr' Hk].
    apply list_elem_of_lookup_1 in Hr as [i Hi], Hr' as [j Hj].
    assert (i = j) as <-; [|congruence].
    eapply NoDup_lookup; [exact Hnd|by rewrite list_lookup_fmap, Hi|by rewrite list_lookup_fmap, Hj, <-Hk].
  - apply row_of_None in Hf. destruct Hf. by apply list_elem_of_fmap_2.
Qed.

(** The row a submission becomes under index [i]. *)
Definition submitted (i : Z) (inp : AppendInput) : Row :=
  {| r_index := i; r_hash := arr_bytes (leaf_hash (ai_payload inp));
     r_key := arr_bytes (ai_idempotency_key inp); r_payload := ai_payload inp;
     r_occurred := Z.of_N (ai_occurred_at_epoch_seconds inp) |}.

Lemma submitted_ok i inp : (1 <= i <= i64_max)%Z -> row_ok (submitted i inp).
Proof.
  intros Hi. unfold row_ok. cbn. split; [done|]. split; [done|]. split; [apply array_length|lia].
Qed.

Lemma entry_of_submitted i inp : entry_of (submitted i inp) = inp.
Proof. destruct inp. unfold entry_of. cbn. by rewrite array_of_id, N2Z.id. Qed.

(** One append on the rows: a known key leaves the table alone and is answered from
    its row; a new one adds its row under a drawn index, or fails; after an error it
    may be in the table all the same. *)
Definition append_answer (rows : list Row) (inp : AppendInput) (r : res StoreError AppendOutcome)
    (rows' : list Row) : Prop :=
  match row_of (arr_bytes (ai_idempotency_key inp)) rows with
  | Some row =>
    rows' = rows /\
    or_backend r (if decide (r_payload row = ai_payload inp)
                  then Ok {| ao_leaf_index := Z.to_N (r_index row);
                             ao_leaf_hash := leaf_hash (ai_payload inp); ao_created := false |}
                  else Err Conflict)
  | None =>
    (rows' = rows /\ exists e, r = Err (SEBackend e)) \/
    exists i, (1 <= i <= i64_max)%Z /\ (i ∉ (r_index <$> rows)) /\
      rows' = insert_row (submitted i inp) rows /\
      or_backend r (Ok {| ao_leaf_index := Z.to_N i; ao_leaf_hash := leaf_hash (ai_payload inp);
                          ao_created := true |})
  end.

Lemma append_answer_err rows inp e : append_answer rows inp (Err (SEBackend e)) rows.
Proof. unfold append_answer. destruct (row_of _ _); [split; [done|]; right|left; split; [done|]]; by eexists. Qed.

Lemma pg_append_spec d inp : pg_valid d ->
  let (r, d') := pg_append d inp in pg_valid d' /\ append_answer (pg_table d) inp r (pg_table d').
Proof.
  intros [Hd Ht]. unfold pg_append.
  destruct (pg_begin d) as [e|_]; [by split; [|apply append_answer_err]|].
  unfold try_i64. destruct (_ <=? _)%Z; [|by split; [|apply append_answer_err]].
  pose proof (pg_upsert_law (arr_bytes (leaf_hash (ai_payload inp))) (arr_bytes (ai_idempotency_key inp))
    (ai_payload inp) (Z.of_N (ai_occurred_at_epoch_seconds inp)) d Hd) as Hu.
  destruct (pg_upsert _ _ _ _ d) as [answer d']. destruct Hu as [Hd' Hu].
  unfold append_answer. fold (row_of (arr_bytes (ai_idempotency_key inp)) (pg_table d)) in Hu.
  destruct (row_of _ _) as [row|] eqn:Hf.
  - destruct Hu as [Ht' Ha]. split; [split; [done|by rewrite Ht']|]. split; [done|].
    apply row_of_Some in Hf as [Hin _]. destruct Ht as (_ & _ & Ho). rewrite Forall_forall in Ho.
    destruct (Ho row Hin) as (Hi & Hh & _).
    destruct Ha as [->|[e ->]]; [|right; by eexists]. left. simpl.
    destruct (decide (r_payload row = ai_payload inp)) as [E|E];
      [rewrite bool_decide_false by tauto|by rewrite bool_decide_true].
    rewrite try_u64_ok, Hh, try_hash_ok, E by lia. done.
  - apply row_of_None in Hf. destruct Hu as [[Ht' [e ->]]|(i & Hi & Hni & Ht' & Ha)].
    { split; [split; [done|by rewrite Ht']|]. left. split; [done|by eexists]. }
    split.
    { split; [done|]. rewrite Ht'. apply insert_row_ok; [done|by apply submitted_ok|done..]. }
    right. exists i. split_and!; [lia..|done|done|].
    destruct Ha as [->|[e ->]]; [|right; by eexists]. left. simpl.
    rewrite bool_decide_false, try_u64_ok, try_hash_ok by (tauto || lia). done.
Qed.

(** Rows are only ever added, and only for submissions. *)
Lemma pg_append_grows d inp : pg_valid d ->
  pg_valid (snd (pg_append d inp)) /\
  (forall r, r ∈ pg_table d -> r ∈ pg_table (snd (pg_append d inp))) /\
  (forall r, r ∈ pg_table (snd (pg_append d inp)) -> r ∈ pg_table d \/ entry_of r = inp).
Proof.
  intros Hd. pose proof (pg_append_spec d inp Hd) as Ha. destruct (pg_append d inp) as [r d']. simpl.
  destruct Ha as [Hv Ha]. split; [done|]. unfold append_answer in Ha.
  destruct (row_of _ _); [destruct Ha as [-> _]; auto|].
  destruct Ha as [[-> _]|(i & _ & _ & -> & _)]; [auto|]. setoid_rewrite insert_row_perm.
  setoid_rewrite elem_of_cons. split; [auto|]. intros x [->|Hx]; [|auto]. right. apply entry_of_submitted.
Qed.

Lemma pg_append_all_valid inps d : pg_valid d ->
  pg_valid (append_all d inps) /\
  (forall r, r ∈ pg_table d -> r ∈ pg_table (append_all d inps)) /\
  (forall r, r ∈ pg_table (append_all d inps) -> r ∈ pg_table d \/ entry_of r ∈ inps).
Proof.
  revert d. induction inps as [|inp inps IH]; intros d Hd; [split_and!; by auto|].
  destruct (pg_append_grows d inp Hd) as (Hv & Hk & Ho). destruct (IH _ Hv) as (Hv' & Hk' & Ho').
  split_and!; [done|by eauto|]. intros r Hr. apply Ho' in Hr as [Hr|Hr]; [|right; by constructor].
  apply Ho in Hr as [?| ->]; [by left|]. right. by constructor.
Qed.

(** What an answered append leaves answers its retry. *)
Lemma answered_is_replayed rows inp o d' :
  append_answer rows inp (Ok o) (pg_table d') -> pg_valid d' ->
  or_backend (fst (pg_append d' inp))
    (Ok {| ao_leaf_index := ao_leaf_index o; ao_leaf_hash := ao_leaf_hash o; ao_created := false |}).
Proof.
  intros Ha Hv'. pose proof Hv' as [_ (_ & Hnd' & _)]. pose proof (pg_append_spec d' inp Hv') as Ha'.
  destruct (pg_append d' inp) as [r' d'']. destruct Ha' as [_ Ha']. simpl.
  assert (exists row, row ∈ pg_table d' /\ r_key row = arr_bytes (ai_idempotency_key inp) /\
    r_payload row = ai_payload inp /\ ao_leaf_index o = Z.to_N (r_index row) /\
    ao_leaf_hash o = leaf_hash (ai_payload inp)) as (row & Hrow & Hk & Hp & Hi & Hh).
  { unfold append_answer in Ha. destruct (row_of _ _) as [row|] eqn:Hf.
    - destruct Ha as [Ht Ho]. apply row_of_Some in Hf as [Hrow Hk]. exists row. rewrite Ht.
      eapply or_backend_Ok in Ho; [|done]. case_decide; [|done]. by injection Ho as <-.
    - destruct Ha as [[_ [e He]]|(i & Hi & _ & Ht & Ho)]; [done|]. exists (submitted i inp).
      eapply or_backend_Ok in Ho; [|done]. injection Ho as <-.
      split; [rewrite Ht, insert_row_perm; by constructor|done]. }
  unfold append_answer in Ha'. rewrite <-Hk, (row_of_elem row) in Ha' by done.
  rewrite Hi, Hh. destruct Ha' as [_ Ho]. by rewrite decide_True in Ho.
Qed.

Lemma entries_nodup rows : table_ok rows -> NoDup (ai_idempotency_key <$> (entry_of <$> rows)).
Proof.
  intros (_ & Hk & Ho). rewrite <-list_fmap_compose. apply (NoDup_fmap_1 arr_bytes).
  rewrite <-list_fmap_compose. erewrite Forall_fmap_ext_1; [exact Hk|].
  eapply Forall_impl; [exact Ho|]. intros r (_ & _ & Hl & _). simpl. by apply resize_all_alt.
Qed.

(** C7.  The Postgres store keeps the ledger's promise, but for the indices.  After
    any run of appends on a migrated database, whatever failed on the way, the table
    in index order is a ledger of submissions with distinct keys; the size and the
    root it reports are that ledger's; a known key with the same payload is answered
    from its row, with another payload it is a conflict, and neither changes the
    table; a new key is recorded once or reports an error; recorded rows stay; and a
    retry of an answered append is a replay of the answer.  Any statement may report
    an error of the database instead. *)
Theorem postgres_store_keeps_a_ledger d0 inps inp :
  pg_fresh d0 ->
  let d := append_all d0 inps in
  let es := entry_of <$> pg_table d in
  let (r, d') := ts_append d inp in
  NoDup (ai_idempotency_key <$> es) /\ (forall e, e ∈ es -> e ∈ inps) /\
  or_backend (ts_current_size d) (Ok (nlen es)) /\ or_backend (ts_current_root d) (ledger_root es) /\
  (forall row, row ∈ pg_table d -> row ∈ pg_table d') /\
  (forall row, row ∈ pg_table d -> r_key row = arr_bytes (ai_idempotency_key inp) ->
     pg_table d' = pg_table d /\
     or_backend r (if decide (r_payload row = ai_payload inp)
                   then Ok {| ao_leaf_index := Z.to_N (r_index row);
                              ao_leaf_hash := leaf_hash (ai_payload inp); ao_created := false |}
                   else Err Conflict)) /\
  (ai_idempotency_key inp ∉ (ai_idempotency_key <$> es) ->
     entry_of <$> pg_table d' = es /\ is_ok r = false \/
     entry_of <$> pg_table d' ≡ₚ inp :: es /\ forall o, r = Ok o -> ao_created o = true) /\
  (forall o, r = Ok o ->
     or_backend (fst (ts_append d' inp))
       (Ok {| ao_leaf_index := ao_leaf_index o; ao_leaf_hash := ao_leaf_hash o; ao_created := false |})).
Proof.
  intros Hfresh d es. pose proof (pg_fresh_valid d0 Hfresh) as Hv0.
  destruct (pg_append_all_valid inps d0 Hv0) as (Hv & _ & Hall). fold d in Hv, Hall.
  apply pg_fresh_law in Hfresh as [_ Hempty]. rewrite Hempty in Hall.
  cbn [ts_append ts_current_size ts_current_root PgTransparencyStore].
  pose proof (pg_append_spec d inp Hv) as Ha. pose proof (pg_append_grows d inp Hv) as (_ & Hkeep & _).
  destruct (pg_append d inp) as [r d'] eqn:Happ. destruct Ha as [Hv' Ha]. cbn [snd] in Hkeep.
  pose proof Hv as [_ (_ & Hnd & Hok)].
  split; [by apply entries_nodup, Hv|]. split.
  { intros e (row & -> & Hrow)%list_elem_of_fmap. apply Hall in Hrow as [Hrow|?]; [by apply elem_of_nil in Hrow|done]. }
  split. { unfold es. rewrite nlen_fmap. by apply pg_current_size_spec. }
  split; [by apply pg_current_root_spec|]. split; [done|]. split; [|split].
  - intros row Hrow Hk. unfold append_answer in Ha. by rewrite <-Hk, (row_of_elem row) in Ha.
  - intros Hni. unfold append_answer in Ha. destruct (row_of _ _) as [row|] eqn:Hf.
    { destruct Hni. apply row_of_Some in Hf as [Hrow Hk]. apply list_elem_of_fmap. exists (entry_of row).
      split; [by cbn; rewrite Hk, array_of_id|]. by apply list_elem_of_fmap_2. }
    destruct Ha as [[-> [e ->]]|(i & Hi & _ & -> & Ho)]; [by left|]. right.
    rewrite insert_row_perm, fmap_cons, entry_of_submitted. split; [done|].
    intros o Hr. eapply or_backend_Ok in Ho; [|exact Hr]. by injection Ho as <-.
  - intros o ->. by eapply answered_is_replayed.
Qed.

(** ** What the routes make of it

    A row's index is always past its position, and the routes take one for the
    other. *)
Lemma build_inclusion_proof_leaf leaves i p :
  build_inclusion_proof leaves i = Ok p ->
  (hash <$> leaves) !! N.to_nat i = Some (ip_leaf_hash p) /\ ip_leaf_index p = i.
Proof.
  unfold build_inclusion_proof. destruct leaves as [|l ls]; [done|]. destruct (_ <=? _)%N; [done|].
  intros (path & _ & Hp)%res_bind_Ok. step Hp as (h & Hh & [= <-]).
  destruct (_ !! _); [|done]. by injection Hh as <-.
Qed.

Lemma pg_proof_leaf d i p : pg_valid d -> pg_build_inclusion_proof d i = Ok p ->
  exists row, pg_table d !! N.to_nat i = Some row /\ ip_leaf_hash p = leaf_hash (r_payload row) /\
    ip_leaf_index p = i.
Proof.
  intros Hd. unfold pg_build_inclusion_proof. destruct (load_all_leaves_spec d Hd) as [->|[e ->]]; [|done].
  cbn [res_bind]. destruct (row_leaf <$> pg_table d) as [|l ls] eqn:El; [done|]. rewrite <-El. clear El.
  destruct (_ <=? _)%N; [done|]. destruct (build_inclusion_proof _ i) as [p'|e|] eqn:Hb; [|done..].
  intros [= ->]. apply build_inclusion_proof_leaf in Hb as [Hh Hi].
  rewrite !list_lookup_fmap in Hh. destruct (pg_table d !! _) as [row|]; [|done]. injection Hh as Hh. by exists row.
Qed.

Lemma pg_get_leaf_row d i l : pg_valid d -> pg_get_leaf d i = Ok (Some l) ->
  exists j row, pg_table d !! j = Some row /\ l = row_leaf row /\ (j < N.to_nat i)%nat.
Proof.
  intros Hd Hg. eapply or_backend_Ok in Hg; [|by apply pg_get_leaf_spec].
  destruct (_ <=? _)%Z; [|done]. destruct (list_find _ _) as [[j row]|] eqn:Hf; [|done]. injection Hg as <-.
  apply list_find_Some in Hf as (Hj & Hi & _). exists j, row. split_and!; [done..|].
  pose proof (position_before_index _ j row (proj2 Hd) Hj). lia.
Qed.

Context `{Ed25519} `{Hex} `{B64Url}.

(** The other tasks of a service on this store: appends, and pushes onto the cached
    tree. *)
Inductive pg_step (held : bool) : World D -> World D -> Prop :=
| pg_step_append w inp :
    pg_step held w (Build_World (snd (ts_append (store w) inp)) (consistency_tree w))
| pg_step_extend w leaf t :
    held = false -> ts_get_leaf (store w) (ht_len (consistency_tree w)) = Ok (Some leaf) ->
    ht_push_leaf (consistency_tree w) leaf = Ok t ->
    pg_step held w (Build_World (store w) t).

(** Nothing is ever pushed onto the tree the service starts with. *)
Definition stuck (w : World D) : Prop := pg_valid (store w) /\ ht_len (consistency_tree w) = 0%N.

Lemma no_leaf_zero d l : pg_valid d -> pg_get_leaf d 0 <> Ok (Some l).
Proof. intros Hd Hg. apply pg_get_leaf_row in Hg as (j & row & _ & _ & Hj); [lia|done]. Qed.

Lemma stuck_env held w w' : rtc (pg_step held) w w' -> stuck w -> stuck w'.
Proof.
  induction 1 as [|w w1 w2 Hs _ IH]; [done|]. intros [Hv Hl]. apply IH.
  destruct Hs as [w inp|w leaf t _ Hg _].
  - split; [|done]. by apply (pg_append_grows (store w) inp Hv).
  - exfalso. rewrite Hl in Hg. by eapply no_leaf_zero.
Qed.

(** An answered verify, read at rest. *)
Lemma verify_answered w id resp :
  fst (run (verify id) w) = Ok resp ->
  exists i, parse_u64 id = Some i /\ pg_get_leaf (store w) i = Ok (Some (entry resp)) /\
    pg_build_inclusion_proof (store w) i = Ok (inclusion_proof resp).
Proof.
  unfold verify. destruct (parse_u64 id) as [i|]; [|done].
  cbn [run await_q on_store reading ts_get_leaf PgTransparencyStore fst].
  destruct (pg_get_leaf (store w) i) as [[l|]|e|] eqn:Hg; cbn; [|done..].
  destruct (pg_build_inclusion_proof (store w) i) as [p|e|] eqn:Hp; cbn; [|done..].
  destruct (pg_current_size (store w)); cbn; [|done..].
  destruct (pg_current_root (store w)); cbn; [|done..].
  destruct (verify_inclusion_proof _ _); [|done..]. intros [= <-]. by exists i.
Qed.

Lemma consistency_is_stuck first second w r w' :
  stuck w -> exec (fun held => rtc (pg_step held)) (consistency first second) w r w' ->
  forall resp, r <> Ok resp.
Proof.
  intros Hw Hx resp ->. unfold consistency in Hx.
  destruct (N.eqb_spec first 0); [by apply exec_done_inv in Hx as [? _]|].
  destruct (N.ltb_spec second first); [by apply exec_done_inv in Hx as [? _]|].
  apply exec_await_q_inv in Hx as (w1 & He & Hx). apply (stuck_env _ _ _ He) in Hw.
  cbn [on_store reading fst snd] in Hx. destruct (map_err _ _) as [size|e|]; [|by destruct Hx..].
  destruct (size <? second)%N; [by apply exec_done_inv in Hx as [? _]|].
  apply exec_await_inv in Hx as (w2 & He2 & Hx). apply (stuck_env _ _ _ He2) in Hw.
  cbn [reading fst snd] in Hx. rewrite (proj2 Hw), N.sub_0_r in Hx.
  destruct (N.to_nat second) as [|k] eqn:Ek; [lia|]. cbn [extend_then_prove] in Hx.
  apply exec_await_q_inv in Hx as (w3 & He3 & Hx). apply (stuck_env _ _ _ He3) in Hw.
  cbn [on_store reading fst snd ts_get_leaf PgTransparencyStore] in Hx.
  destruct (pg_get_leaf (store w3) 0) as [[l|]|e|] eqn:Hg; cbn in Hx; [|by apply exec_done_inv in Hx as [? _]|by destruct Hx..].
  by destruct (no_leaf_zero _ l (proj1 Hw)).
Qed.

(** C8.  The Postgres store cannot back the routes.  On a migrated database, whatever
    was appended: an entry id that verify answers comes with the proof of another,
    later row; the newest entry is never answered; and the consistency route, from
    the empty tree the service starts with and among any other requests, never
    answers anything. *)
Theorem postgres_indices_are_not_positions d0 inps tree :
  pg_fresh d0 -> ht_len tree = 0%N ->
  let w := Build_World (append_all d0 inps) tree in
  (forall id resp, fst (run (verify id) w) = Ok resp ->
     exists j row other, pg_table (store w) !! j = Some row /\ entry resp = row_leaf row /\
       pg_table (store w) !! N.to_nat (ip_leaf_index (inclusion_proof resp)) = Some other /\
       ip_leaf_hash (inclusion_proof resp) = leaf_hash (r_payload other) /\
       (j < N.to_nat (ip_leaf_index (inclusion_proof resp)))%nat) /\
  (forall row resp, last (pg_table (store w)) = Some row ->
     fst (run (verify (u64_to_string (Z.to_N (r_index row)))) w) <> Ok resp) /\
  (forall first second r w', exec (fun held => rtc (pg_step held)) (consistency first second) w r w' ->
     forall resp, r <> Ok resp).
Proof.
  intros Hf Ht w. pose proof (pg_fresh_valid d0 Hf) as Hv0.
  destruct (pg_append_all_valid inps d0 Hv0) as [Hv _].
  assert (stuck w) as Hw by done. clearbody w. split_and!.
  - intros id resp (i & _ & Hg & Hp)%verify_answered.
    apply pg_get_leaf_row in Hg as (j & row & Hj & He & Hlt); [|apply Hw].
    apply pg_proof_leaf in Hp as (other & Ho & Hh & Hi); [|apply Hw]. rewrite Hi. by exists j, row, other.
  - intros row resp Hlast (i & Hid & _ & Hp)%verify_answered. destruct Hw as [[Hr Hok] _].
    apply pg_proof_leaf in Hp as (other & Ho & _ & _); [|done].
    rewrite last_lookup in Hlast. pose proof (position_before_index _ _ _ Hok Hlast) as Hlt.
    assert (row_ok row) as (Hi & _).
    { destruct Hok as (_ & _ & Hall). rewrite Forall_forall in Hall. apply Hall. by eapply list_elem_of_lookup_2. }
    rewrite parse_u64_to_string in Hid by (unfold u64_max, i64_max in *; lia). injection Hid as <-.
    apply lookup_lt_Some in Ho. lia.
  - intros first second r w' Hx. by eapply consistency_is_stuck.
Qed.

End PgStore.

(** ** A table that obeys the laws *)

Module Demo.
Import Tlog.Demo.
#[local] Existing Instance demo_hash.
#[local] Existing Instance demo_ed25519.
#[local] Existing Instance demo_hex.
#[local] Existing Instance demo_b64.

(** The committed rows, the sequence, and the values already drawn by transactions
    that have not committed. *)
Record PgTable := { t_rows : list Row; t_next : Z; t_drawn : list Z }.

Definition nextval (t : PgTable) : Z * PgTable :=
  match t_drawn t with
  | i :: drawn => (i, {| t_rows := t_rows t; t_next := t_next t; t_drawn := drawn |})
  | [] => (t_next t, {| t_rows := t_rows t; t_next := t_next t + 1; t_drawn := [] |})
  end.

Definition table_upsert (h k p : list byte) (o : Z) (t : PgTable)
    : (string + (Z * list byte * list byte * bool)) * PgTable :=
  let (i, t) := nextval t in
  match row_of k (t_rows t) with
  | Some r => (inr (r_index r, r_hash r, r_payload r, false), t)
  | None =>
    if (i64_max <? i)%Z then (inl "nextval: reached maximum value of sequence"%string, t) else
    (inr (i, h, p, true),
     {| t_rows := insert_row {| r_index := i; r_hash := h; r_key := k; r_payload := p; r_occurred := o |} (t_rows t);
        t_next := t_next t; t_drawn := t_drawn t |})
  end.

#[local] Instance table_pg : Postgres PgTable := {
  pg_begin _ := inr tt;
  pg_upsert := table_upsert;
  pg_select_all t := inr (t_rows t);
  pg_select_at i t := inr (snd <$> (list_find (fun r => r_index r = i) (t_rows t)));
  pg_count t := inr (Z.of_nat (length (t_rows t)))
}.

Definition table_reached (t : PgTable) : Prop :=
  (1 <= t_next t)%Z /\ NoDup (t_drawn t ++ (r_index <$> t_rows t)) /\
  Forall (fun i => (1 <= i < t_next t)%Z) (t_drawn t ++ (r_index <$> t_rows t)).

Lemma nextval_reached t : table_reached t ->
  let (i, t') := nextval t in
  t_rows t' = t_rows t /\ table_reached t' /\ (1 <= i < t_next t')%Z /\
  (i ∉ t_drawn t' ++ (r_index <$> t_rows t')).
Proof.
  intros (Hn & Hd & Hb). unfold nextval. destruct (t_drawn t) as [|i drawn] eqn:E; cbn.
  - split; [done|]. cbn in Hd, Hb. split.
    + split_and!; cbn; [lia|done|]. eapply Forall_impl; [exact Hb|]. cbn. lia.
    + split; [lia|]. intros Hi. rewrite Forall_forall in Hb. apply Hb in Hi. lia.
  - cbn in Hd, Hb. apply NoDup_cons in Hd as [Hi Hd]. inv Hb as [|? ? Hb1 Hb2].
    split_and!; cbn; [done..|lia|lia|done].
Qed.

#[local] Program Instance table_laws : PostgresLaws PgTable := {
  pg_table := t_rows;
  pg_reached := table_reached;
  pg_fresh t := t_rows t = [] /\ table_reached t
}.
Next Obligation. by intros t [? ?]. Qed.
Next Obligation. intros t _. by left. Qed.
Next Obligation. intros i t _. by left. Qed.
Next Obligation. intros t _. by left. Qed.
Next Obligation.
  intros h k p o t Ht. cbn. unfold table_upsert. pose proof (nextval_reached t Ht) as Hn.
  destruct (nextval t) as [i t']. destruct Hn as (Hrows & Ht' & Hi & Hni). fold (row_of k (t_rows t)).
  rewrite Hrows. destruct (row_of k (t_rows t)) as [r|]; [by split; [|split; [|left]]|].
  destruct (Z.ltb_spec i64_max i) as [Hmax|Hmax]; [split; [done|]; left; split; [done|by eexists]|].
  destruct Ht' as (Hn' & Hd' & Hb'). rewrite Hrows in *. split.
  - split_and!; cbn; [done|rewrite insert_row_perm, fmap_cons..].
    + rewrite <-Permutation_middle. by constructor.
    + rewrite <-Permutation_middle. by constructor.
  - right. exists i. split_and!; [lia|lia| |done|by left]. intros Hin. apply Hni, elem_of_app. by right.
Qed.

Definition migrated : PgTable := {| t_rows := []; t_next := 1; t_drawn := [] |}.

Lemma migrated_fresh : pg_fresh migrated.
Proof. split; [done|]. split_and!; cbn; [done|constructor..]. Qed.

Definition input (b : byte) : AppendInput :=
  {| ai_idempotency_key := array_of 32 [b]; ai_payload := [b]; ai_occurred_at_epoch_seconds := 7 |}.

Lemma postgres_store_keeps_a_ledger_witness :
  let d := append_all migrated [input x01; input x02] in
  ts_current_size d = Ok 2%N /\
  res_map (fun o => (ao_leaf_index o, ao_created o)) (fst (ts_append d (input x02))) = Ok (2%N, false) /\
  NoDup (ai_idempotency_key <$> (entry_of <$> pg_table d)).
Proof.
  intros d. split; [vm_compute; reflexivity|]. split; [vm_compute; reflexivity|].
  pose proof (postgres_store_keeps_a_ledger migrated [input x01; input x02] (input x02) migrated_fresh) as Ht.
  cbv zeta in Ht. destruct (ts_append _ _). exact (proj1 Ht).
Defined.

(** The service's tree when it starts. *)
Lemma postgres_indices_are_not_positions_witness : exists resp row,
  fst (run (verify "1") (Build_World (append_all migrated [input x01; input x02]) ht_new)) = Ok resp /\
  ml_leaf_index (entry resp) = 1%N /\ arr_bytes (hash (entry resp)) = arr_bytes (leaf_hash [x01]) /\
  ip_leaf_hash (inclusion_proof resp) = leaf_hash (r_payload row) /\ r_payload row = [x02].
Proof.
  destruct (postgres_indices_are_not_positions migrated [input x01; input x02] ht_new migrated_fresh
    ltac:(reflexivity)) as (Hv & _).
  destruct (run (verify "1") (Build_World (append_all migrated [input x01; input x02]) ht_new)) as [[resp|e|] w'] eqn:E;
    [|vm_compute in E; discriminate E..].
  destruct (Hv "1"%string resp) as (j & row & other & Hj & He & Ho & Hh & Hlt); [by rewrite E|].
  exists resp, other. split; [reflexivity|].
  assert (ml_leaf_index (entry resp) = 1%N /\ arr_bytes (hash (entry resp)) = arr_bytes (leaf_hash [x01]) /\
    ip_leaf_index (inclusion_proof resp) = 1%N) as (H1 & H2 & H3)
    by (vm_compute in E; injection E as <- _; vm_compute; auto).
  rewrite H3 in Ho. vm_compute in Ho. injection Ho as <-. auto.
Defined.

(** The first entry has no proof, and a client that retries leaves a gap behind. *)
Example first_entry_is_unverifiable :
  res_map ao_leaf_index (fst (ts_append migrated (input x01))) = Ok 1%N /\
  fst (run (verify "1") (Build_World (append_all migrated [input x01]) ht_new)) = Err (Verification LeafIndexOutOfBounds) /\
  fst (run (consistency 1 1) (Build_World (append_all migrated [input x01]) ht_new)) = Err (Backend "gap at leaf_index 0").
Proof. by split_and!. Qed.

Example a_retry_leaves_a_gap :
  r_index <$> t_rows (append_all migrated [input x01; input x01; input x02]) = [1; 3]%Z.
Proof. reflexivity. Qed.

(** A transaction that drew its index first and commits second goes in before the
    other's row: the ledger of one leaf is then no prefix of the ledger of two. *)
Definition in_flight : PgTable := {| t_rows := []; t_next := 3; t_drawn := [2; 1]%Z |}.

Example late_commit_rewrites_history :
  table_reached in_flight /\
  ai_payload <$> (entry_of <$> t_rows (append_all in_flight [input x02])) = [[x02]] /\
  ai_payload <$> (entry_of <$> t_rows (append_all in_flight [input x02; input x01])) = [[x01]; [x02]].
Proof.
  split; [|by split]. split_and!; cbn; [done| |]; [|by repeat constructor].
  repeat constructor; set_solver.
Qed.

End Demo.
