(* ===== verification/Json.v ===== *)
(** * JSON values and the canonical serialisation of claims

    Models [crates/domain/src/safety/token/canonical.rs].  [serde_json::Value] is
    the inductive [Value]; a [serde_json::Map] and a [BTreeMap<String, _>] are key
    lists sorted by byte order, and [bt_insert] is their insertion.  The printer
    and the parser of [serde_json] are parameters. *)

From S2P Require Import Prelude RustStr Float64 Crates Merkle.
From Stdlib Require Import Sorted.

Inductive Number :=
| PosInt (n : N)
| NegInt (z : Z)
| Float (f : f64).

Inductive Value :=
| Null
| Bool (b : bool)
| Num (n : Number)
| Str (s : string)
| Arr (vs : list Value)
| Obj (m : list (string * Value)).

Abbreviation ClaimsMap := (list (string * Value)).

Section ValueInd.
Variable P : Value -> Prop.
Hypothesis Hnull : P Null.
Hypothesis Hbool : forall b, P (Bool b).
Hypothesis Hnum : forall n, P (Num n).
Hypothesis Hstr : forall s, P (Str s).
Hypothesis Harr : forall vs, Forall P vs -> P (Arr vs).
Hypothesis Hobj : forall m, Forall (fun kv => P (snd kv)) m -> P (Obj m).
(** Induction through the nested lists. *)
Fixpoint value_ind (v : Value) : P v :=
  match v with
  | Null => Hnull
  | Bool b => Hbool b
  | Num n => Hnum n
  | Str s => Hstr s
  | Arr vs =>
    Harr vs ((fix go vs : Forall P vs :=
      match vs with
      | [] => Forall_nil_2 P
      | v :: vs => Forall_cons_2 P v vs (value_ind v) (go vs)
      end) vs)
  | Obj m =>
    Hobj m ((fix go m : Forall (fun kv => P (snd kv)) m :=
      match m with
      | [] => Forall_nil_2 _
      | kv :: m => Forall_cons_2 (fun kv => P (snd kv)) kv m (value_ind (snd kv)) (go m)
      end) m)
  end.
End ValueInd.

(** ** Sorted maps *)

Definition key_lt (a b : string) : Prop := String.compare a b = Lt.

(** [BTreeMap::insert]. *)
Fixpoint bt_insert {A} (k : string) (v : A) (m : list (string * A)) : list (string * A) :=
  match m with
  | [] => [(k, v)]
  | (k', v') :: m' =>
    match String.compare k k' with
    | Lt => (k, v) :: m
    | Eq => (k, v) :: m'
    | Gt => (k', v') :: bt_insert k v m'
    end
  end.

(** [BTreeMap::get]. *)
Fixpoint bt_get {A} (k : string) (m : list (string * A)) : option A :=
  match m with
  | [] => None
  | (k', v) :: m => if String.eqb k k' then Some v else bt_get k m
  end.

Definition bt_contains {A} (k : string) (m : list (string * A)) : bool :=
  match bt_get k m with Some _ => true | None => false end.

(** Inserting the pairs of a list in turn. *)
Definition bt_collect {A} (l : list (string * A)) : list (string * A) :=
  foldl (fun m kv => bt_insert (fst kv) (snd kv) m) [] l.

(** The helper [btree_to_value] of the kernel's route files. *)
Definition btree_to_value (m : ClaimsMap) : Value := Obj (bt_collect m).

(** The map invariant: keys strictly increasing. *)
Definition sorted {A} (m : list (string * A)) : Prop :=
  StronglySorted (fun a b => key_lt (fst a) (fst b)) m.

(** ** Accessors of [Value] *)

Definition as_str (v : Value) : option string := match v with Str s => Some s | _ => None end.

Definition as_bool (v : Value) : option bool := match v with Bool b => Some b | _ => None end.

(** [Value::as_f64]. *)
Definition as_f64 (v : Value) : option f64 :=
  match v with
  | Num (PosInt n) => Some (f64_of_Z (Z.of_N n))
  | Num (NegInt z) => Some (f64_of_Z z)
  | Num (Float f) => Some f
  | _ => None
  end.

(** [Number::from_f64(f).map_or(Value::Null, Value::Number)]. *)
Definition json_f64 (f : f64) : Value := if f64_is_finite f then Num (Float f) else Null.

(** A JSON integer of type [i64]. *)
Definition i64_value (z : Z) : Value :=
  Num (if (z <? 0)%Z then NegInt z else PosInt (Z.to_N z)).

(** ** [serde_json] *)

Class SerdeJson := {
  serde_to_string : Value -> string;
  (** a failed parse carries the [Display] text of the error *)
  serde_from_slice : list byte -> string + Value
}.

(** Nesting depth; the parser refuses input nested deeper than 127. *)
Fixpoint depth (v : Value) : nat :=
  match v with
  | Arr vs => S (list_max (depth <$> vs))
  | Obj m => S (list_max ((fun kv => depth (snd kv)) <$> m))
  | _ => 0
  end.

Definition number_ok (n : Number) : Prop :=
  match n with
  | PosInt n => u64_ok n
  | NegInt z => (- 2 ^ 63 <= z < 0)%Z
  | Float f => f64_is_finite f = true
  end.

(** The values Rust code can build: maps are maps, strings are UTF-8, numbers are
    in range and finite. *)
Fixpoint value_ok (v : Value) : Prop :=
  match v with
  | Null | Bool _ => True
  | Num n => number_ok n
  | Str s => utf8 s = true
  | Arr vs =>
    (fix go vs := match vs with [] => True | v :: vs => value_ok v /\ go vs end) vs
  | Obj m =>
    sorted m /\
    (fix go m := match m with
                 | [] => True
                 | (k, v) :: m => utf8 k = true /\ value_ok v /\ go m
                 end) m
  end.

(** Printing then parsing returns the value ([float_roundtrip] is enabled); the text
    of a struct, its members in any order, parses to the map of its members; and no
    value prints as the empty string. *)
Class SerdeJsonCorrect `{SerdeJson} : Prop := {
  serde_roundtrip : forall v, value_ok v -> (depth v <= 127)%nat ->
    serde_from_slice (as_bytes (serde_to_string v)) = inr v;
  serde_struct : forall m,
    Forall (fun kv => utf8 (fst kv) = true /\ value_ok (snd kv)) m -> (depth (Obj m) <= 127)%nat ->
    serde_from_slice (as_bytes (serde_to_string (Obj m))) = inr (Obj (bt_collect m));
  serde_nonempty : forall v, serde_to_string v <> EmptyString
}.

Section Canonical.
Context `{Sha256} `{Hex} `{SerdeJson}.

(** Every nested object is rebuilt through a [BTreeMap]. *)
Fixpoint sort_value (v : Value) : Value :=
  match v with
  | Obj m =>
    let sorted_m :=
      (fix go (acc m : list (string * Value)) :=
         match m with
         | [] => acc
         | (k, child) :: m => go (bt_insert k (sort_value child) acc) m
         end) [] m in
    Obj (bt_collect sorted_m)
  | Arr items => Arr (sort_value <$> items)
  | other => other
  end.

Definition stable_json (m : ClaimsMap) : string :=
  serde_to_string
    (Obj (foldl (fun out kv => bt_insert (fst kv) (sort_value (snd kv)) out) [] m)).

Definition sha256_hex (data : list byte) : string := hex_encode (arr_bytes (sha256 data)).

Definition token_sha256 (token : string) : string := sha256_hex (as_bytes token).

Definition params_fingerprint (params : Value) : string :=
  let canonical := sort_value params in
  sha256_hex (as_bytes (serde_to_string canonical)).

End Canonical.

(** ** Maps: lemmas *)

Lemma string_compare_refl s : String.compare s s = Eq.
Proof.
  induction s as [|a s IH]; simpl; [done|]. unfold Ascii.compare. by rewrite N.compare_refl.
Qed.

Lemma key_lt_irrefl k : ~ key_lt k k.
Proof. unfold key_lt. by rewrite string_compare_refl. Qed.

Lemma key_lt_trans a b c : key_lt a b -> key_lt b c -> key_lt a c.
Proof.
  unfold key_lt. revert b c. induction a as [|x a IH]; intros [|y b] [|z c]; simpl; try done.
  unfold Ascii.compare.
  destruct (N.compare_spec (N_of_ascii x) (N_of_ascii y)) as [E1|E1|E1]; try done;
    destruct (N.compare_spec (N_of_ascii y) (N_of_ascii z)) as [E2|E2|E2]; try done; intros H1 H2.
  - rewrite E1, E2, N.compare_refl. eauto.
  - by apply N.compare_lt_iff in E2 as E2'; rewrite <-E1 in E2'; rewrite E2'.
  - by apply N.compare_lt_iff in E1 as E1'; rewrite E2 in E1'; rewrite E1'.
  - assert (N_of_ascii x < N_of_ascii z)%N as E3 by lia. by apply N.compare_lt_iff in E3 as ->.
Qed.

Lemma key_gt a b : String.compare a b = Gt <-> key_lt b a.
Proof.
  unfold key_lt. rewrite String.compare_antisym. by destruct (String.compare b a).
Qed.

Section Maps.
Context {A : Type}.
Implicit Types m : list (string * A).

Lemma bt_get_insert k k' (v : A) m :
  bt_get k' (bt_insert k v m) = if String.eqb k' k then Some v else bt_get k' m.
Proof.
  induction m as [|[k1 v1] m IH]; simpl; [done|].
  destruct (String.compare k k1) eqn:E; simpl.
  - apply String.compare_eq_iff in E as ->. by destruct (String.eqb k' k1).
  - done.
  - rewrite IH. destruct (String.eqb_spec k' k1) as [->|]; [|done].
    destruct (String.eqb_spec k1 k) as [->|]; [|done]. by rewrite string_compare_refl in E.
Qed.

Lemma bt_insert_keys k (v : A) m P :
  Forall (fun kv => P (fst kv)) m -> P k -> Forall (fun kv => P (fst kv)) (bt_insert k v m).
Proof.
  intros Hm Hk. induction Hm as [|[k1 v1] m H1 Hm IH]; simpl; [by constructor|].
  destruct (String.compare k k1); repeat constructor; auto.
Qed.

Lemma bt_insert_sorted k (v : A) m : sorted m -> sorted (bt_insert k v m).
Proof.
  unfold sorted. induction 1 as [|[k1 v1] m Hs IH Hf]; simpl; [repeat constructor|].
  destruct (String.compare k k1) eqn:E.
  - apply String.compare_eq_iff in E as ->. by constructor.
  - constructor; [by constructor|]. constructor; [done|]. simpl in *.
    eapply Forall_impl; [exact Hf|]. intros [k2 v2]. simpl. by apply key_lt_trans.
  - constructor; [done|]. apply (bt_insert_keys k v m (key_lt k1)); [done|]. by apply key_gt.
Qed.

Lemma bt_insert_last k (v : A) m :
  Forall (fun kv => key_lt (fst kv) k) m -> bt_insert k v m = m ++ [(k, v)].
Proof.
  induction 1 as [|[k1 v1] m H1 _ IH]; simpl in *; [done|].
  apply key_gt in H1. by rewrite H1, IH.
Qed.

(** Inserting the entries of a sorted map, in order, rebuilds it; the values may
    change on the way. *)
Lemma foldl_insert_sorted {B} (f : B -> A) (m : list (string * B)) (acc : list (string * A)) :
  StronglySorted (fun a b => key_lt (fst a) (fst b)) m ->
  Forall (fun kv => Forall (fun kv' => key_lt (fst kv') (fst kv)) acc) m ->
  foldl (fun out kv => bt_insert (fst kv) (f (snd kv)) out) acc m =
  acc ++ ((fun kv => (fst kv, f (snd kv))) <$> m).
Proof.
  intros Hs. revert acc. induction Hs as [|[k v] m Hs IH Hf]; intros acc Hacc; simpl.
  - by rewrite app_nil_r.
  - apply Forall_cons in Hacc as [Hk Hacc]. simpl in Hk. rewrite bt_insert_last by done.
    rewrite IH, <-app_assoc; [done|].
    rewrite Forall_forall in Hacc, Hf |- *. intros kv Hkv.
    apply Forall_app. split; [by apply Hacc|]. constructor; [by apply (Hf kv)|constructor].
Qed.

Lemma bt_collect_sorted m : sorted m -> bt_collect m = m.
Proof.
  intros Hs. unfold bt_collect. rewrite (foldl_insert_sorted (fun v => v)); [|done|].
  - simpl. rewrite <-(list_fmap_id m) at 2. apply list_fmap_ext. by intros ? [].
  - apply Forall_forall. constructor.
Qed.

Lemma bt_collect_app_sorted l acc :
  sorted acc -> sorted (foldl (fun m kv => bt_insert (fst kv) (snd kv : A) m) acc l).
Proof. revert acc. induction l as [|kv l IH]; intros acc Hs; simpl; auto using bt_insert_sorted. Qed.

Lemma bt_get_lower k m : Forall (fun kv => key_lt k (fst kv)) m -> bt_get k m = None.
Proof.
  induction 1 as [|[k1 v1] m H1 _ IH]; simpl in *; [done|].
  destruct (String.eqb_spec k k1) as [->|]; [|done]. by apply key_lt_irrefl in H1.
Qed.

(** [BTreeMap::extend] by the entries of another map: those win. *)
Lemma bt_get_extend k l acc :
  sorted l ->
  bt_get k (foldl (fun m kv => bt_insert (fst kv) (snd kv : A) m) acc l) =
  match bt_get k l with Some v => Some v | None => bt_get k acc end.
Proof.
  intros Hs. revert acc. induction Hs as [|[k1 v1] l Hs IH Hf]; intros acc; simpl in *; [done|].
  rewrite IH, bt_get_insert. destruct (String.eqb_spec k k1) as [->|]; [|done].
  by rewrite (bt_get_lower _ _ Hf).
Qed.

End Maps.

(** ** Values: lemmas *)

Lemma value_ok_arr vs : value_ok (Arr vs) <-> Forall value_ok vs.
Proof.
  simpl. induction vs as [|v vs IH]; [by split|]. rewrite Forall_cons, IH. done.
Qed.

Lemma value_ok_obj m :
  value_ok (Obj m) <-> sorted m /\ Forall (fun kv => utf8 (fst kv) = true /\ value_ok (snd kv)) m.
Proof.
  simpl. assert (forall l, (fix go (m : list (string * Value)) := match m with
      | [] => True
      | (k, v) :: m => utf8 k = true /\ value_ok v /\ go m
      end) l <-> Forall (fun kv => utf8 (fst kv) = true /\ value_ok (snd kv)) l) as Hgo.
  { intros l. induction l as [|[k v] l IH]; [by split|]. rewrite Forall_cons, IH. simpl. tauto. }
  by rewrite Hgo.
Qed.

Lemma sort_value_obj m :
  sort_value (Obj m) =
  Obj (bt_collect (foldl (fun out kv => bt_insert (fst kv) (sort_value (snd kv)) out) [] m)).
Proof.
  simpl. do 2 f_equal. generalize (@nil (string * Value)) as acc.
  induction m as [|[k v] m IH]; intros acc; simpl; [done|]. by rewrite IH.
Qed.

(** On the values Rust can build, whose maps are sorted, canonicalisation is the
    identity: the kernel signs and fingerprints exactly the value it was given. *)
Lemma sort_value_id v : value_ok v -> sort_value v = v.
Proof.
  induction v as [| | | |vs IH|m IH] using value_ind; intros Hok; try done.
  - apply value_ok_arr in Hok. simpl. f_equal. induction Hok as [|v vs Hv Hvs IHvs]; [done|].
    apply Forall_cons in IH as [IHv IH]. rewrite fmap_cons, IHv by done. by rewrite IHvs.
  - apply value_ok_obj in Hok as [Hs Hf]. rewrite sort_value_obj.
    rewrite (foldl_insert_sorted sort_value); [|done|apply Forall_forall; constructor].
    simpl. assert ((fun kv => (fst kv, sort_value (snd kv))) <$> m = m) as ->.
    { clear Hs. induction Hf as [|[k v] m [_ Hv] Hm IHm]; [done|].
      apply Forall_cons in IH as [IHv IH]. rewrite fmap_cons. simpl in *. by rewrite IHm, IHv. }
    by rewrite bt_collect_sorted.
Qed.

Lemma stable_json_id `{SerdeJson} m : value_ok (Obj m) -> stable_json m = serde_to_string (Obj m).
Proof.
  intros Hok. unfold stable_json. apply value_ok_obj in Hok as [Hs Hf]. do 2 f_equal.
  rewrite (foldl_insert_sorted sort_value); [|done|apply Forall_forall; constructor].
  rewrite app_nil_l. clear Hs. induction Hf as [|[k v] m [_ Hv] Hm IHm]; [done|].
  rewrite fmap_cons, IHm. simpl in *. by rewrite sort_value_id.
Qed.

Lemma json_f64_ok f : value_ok (json_f64 f).
Proof. unfold json_f64. by destruct (f64_is_finite f) eqn:E. Qed.

Lemma json_f64_finite f : f64_is_finite f = true -> as_f64 (json_f64 f) = Some f.
Proof. unfold json_f64. by intros ->. Qed.

(** ** A toy [serde_json]

    Values are printed as the binary digits of an injective encoding: enough to
    show that the round-trip law is satisfiable. *)

Module DemoJson.

#[local] Instance f64_countable : Countable f64.
Proof.
  refine (inj_countable'
    (fun x => match x with
     | SpecFloat.S754_zero b => inl (inl b)
     | SpecFloat.S754_infinity b => inl (inr b)
     | SpecFloat.S754_nan => inr (inl tt)
     | SpecFloat.S754_finite b m e => inr (inr (b, m, e))
     end)
    (fun y => match y with
     | inl (inl b) => SpecFloat.S754_zero b
     | inl (inr b) => SpecFloat.S754_infinity b
     | inr (inl _) => SpecFloat.S754_nan
     | inr (inr (b, m, e)) => SpecFloat.S754_finite b m e
     end) _).
  by intros [].
Defined.

Definition leaf : Type := bool + (N + (Z + (f64 + string))).

Fixpoint to_tree (v : Value) : gen_tree leaf :=
  match v with
  | Null => GenNode 0 []
  | Bool b => GenLeaf (inl b)
  | Num (PosInt n) => GenLeaf (inr (inl n))
  | Num (NegInt z) => GenLeaf (inr (inr (inl z)))
  | Num (Float f) => GenLeaf (inr (inr (inr (inl f))))
  | Str s => GenLeaf (inr (inr (inr (inr s))))
  | Arr vs => GenNode 1 (to_tree <$> vs)
  | Obj m =>
    GenNode 2 ((fun kv => GenNode 3 [GenLeaf (inr (inr (inr (inr (fst kv))))); to_tree (snd kv)])
                 <$> m)
  end.

Definition key_of (t : gen_tree leaf) : string :=
  match t with GenLeaf (inr (inr (inr (inr s)))) => s | _ => EmptyString end.

Fixpoint of_tree (t : gen_tree leaf) : Value :=
  match t with
  | GenLeaf (inl b) => Bool b
  | GenLeaf (inr (inl n)) => Num (PosInt n)
  | GenLeaf (inr (inr (inl z))) => Num (NegInt z)
  | GenLeaf (inr (inr (inr (inl f)))) => Num (Float f)
  | GenLeaf (inr (inr (inr (inr s)))) => Str s
  | GenNode 1 ts => Arr (of_tree <$> ts)
  | GenNode 2 ts =>
    Obj ((fun t => match t with
                   | GenNode 3 [k; v] => (key_of k, of_tree v)
                   | _ => (EmptyString, Null)
                   end) <$> ts)
  | GenNode _ _ => Null
  end.

Lemma of_to_tree v : of_tree (to_tree v) = v.
Proof.
  induction v as [| |[]| |vs IH|m IH] using value_ind; try done; simpl; f_equal;
    rewrite <-list_fmap_compose.
  - induction IH as [|v vs Hv Hvs IHvs]; [done|]. rewrite fmap_cons, IHvs. simpl. by rewrite Hv.
  - induction IH as [|[k v] m Hv Hm IHm]; [done|]. rewrite fmap_cons, IHm. simpl in *. by rewrite Hv.
Qed.

Fixpoint pos_digits (p : positive) : string :=
  match p with
  | xH => String "1"%char EmptyString
  | xO p => String "0"%char (pos_digits p)
  | xI p => String "2"%char (pos_digits p)
  end.
Fixpoint digits_pos (s : string) : positive :=
  match s with
  | String a s =>
    if Ascii.eqb a "0"%char then xO (digits_pos s)
    else if Ascii.eqb a "2"%char then xI (digits_pos s) else xH
  | EmptyString => xH
  end.

Lemma digits_pos_digits p : digits_pos (pos_digits p) = p.
Proof. induction p; simpl; congruence. Qed.

Definition demo_serde : SerdeJson := {|
  serde_to_string := fun v => pos_digits (encode (to_tree v));
  serde_from_slice := fun b =>
    match decode (digits_pos (String.string_of_list_byte b)) with
    | Some t => inr (match of_tree t with Obj m => Obj (bt_collect m) | v => v end)
    | None => inl "expected value"
    end
|}.

#[global] Instance demo_serde_correct : @SerdeJsonCorrect demo_serde.
Proof.
  split; simpl.
  - intros v Hok _. unfold as_bytes.
    rewrite String.string_of_list_byte_of_string, digits_pos_digits, decode_encode, of_to_tree.
    destruct v; try done. by rewrite bt_collect_sorted by apply Hok.
  - intros m _ _. unfold as_bytes. change (GenNode 2 _) with (to_tree (Obj m)).
    by rewrite String.string_of_list_byte_of_string, digits_pos_digits, decode_encode, of_to_tree.
  - intros v. by destruct (encode (to_tree v)).
Qed.

End DemoJson.
