(* ===== verification/Serde.v ===== *)
(** * Writing and reading JSON values the way [serde] derives it

    The accessors of [serde_json::Value] the services use, and the reading of a [serde_json::Value] into a Rust type, as the derived
    implementations do it: a struct is an object, whose unknown members are
    ignored, or the array of its fields; a unit variant is its name, or a one-entry
    object with a null; an absent or null member is the [None] of an [Option]. *)

From S2P Require Import Prelude RustStr Float64 Crates Merkle Json.

(** ** Accessors and constructors of [Value] *)

(** [Value::get(key)]. *)
Definition vget (k : string) (v : Value) : option Value :=
  match v with Obj m => bt_get k m | _ => None end.

(** [Value::as_i64]. *)
Definition as_i64 (v : Value) : option Z :=
  match v with
  | Num (PosInt n) => if (n <=? 9223372036854775807)%N then Some (Z.of_N n) else None
  | Num (NegInt z) => Some z
  | _ => None
  end.

(** A [Serialize] [Option<T>]. *)
Definition opt_value {A} (f : A -> Value) (o : option A) : Value :=
  match o with Some a => f a | None => Null end.

Definition strs (l : list string) : Value := Arr (Str <$> l).

(** [json!({ ... })]. *)
Definition jobj (l : list (string * Value)) : Value := Obj (bt_collect l).

(** ** Derived readers *)

Definition de_u64 (v : Value) : option N :=
  match v with Num (PosInt n) => Some n | _ => None end.

Definition de_unit_variant {A} (names : list (string * A)) (v : Value) : option A :=
  match v with
  | Str s => bt_get s names
  | Obj [(k, Null)] => bt_get k names
  | _ => None
  end.

Definition de_vec {A} (f : Value -> option A) (v : Value) : option (list A) :=
  match v with Arr vs => mapM f vs | _ => None end.

(** [BTreeMap<String, Value>]. *)
Definition de_btreemap (v : Value) : option ClaimsMap :=
  match v with Obj m => Some (bt_collect m) | _ => None end.

(** The fields of a struct, in declaration order. *)
Definition de_fields (names : list string) (v : Value) : option (list (option Value)) :=
  match v with
  | Obj m => Some ((fun k => bt_get k m) <$> names)
  | Arr vs => if (length vs =? length names)%nat then Some (Some <$> vs) else None
  | _ => None
  end.

(** The last fields of a struct that have a [#[serde(default)]] may be missing from its
    array form; [ds] are their values. *)
Definition with_defaults (n : nat) (ds : list Value) (v : Value) : Value :=
  match v with
  | Arr vs => Arr (vs ++ drop (length ds - (n - length vs)) ds)
  | _ => v
  end.

(** With [deny_unknown_fields]. *)
Definition de_fields_strict (names : list string) (v : Value) : option (list (option Value)) :=
  match v with
  | Obj m => if forallb (fun kv => bool_decide (fst kv ∈ names)) m then de_fields names v else None
  | _ => de_fields names v
  end.

(** A member that must be there. *)
Definition de_req {A} (f : Value -> option A) (v : option Value) : option A := v ≫= f.

Definition de_option {A} (f : Value -> option A) (v : option Value) : option (option A) :=
  match v with
  | None | Some Null => Some None
  | Some v => Some <$> f v
  end.

(** ** Lemmas *)

(** Reading back a list that was written element by element. *)
Lemma de_vec_fmap {A} (wr : A -> Value) (rd : Value -> option A) (l : list A) :
  Forall (fun a => rd (wr a) = Some a) l -> de_vec rd (Arr (wr <$> l)) = Some l.
Proof.
  simpl. induction 1 as [|a l Ha _ IH]; [done|]. cbn. by rewrite Ha; cbn; rewrite IH.
Qed.

Lemma de_option_map {A} (wr : A -> Value) (rd : Value -> option A) (o : option A) :
  (forall a, o = Some a -> rd (wr a) = Some a /\ wr a <> Null) ->
  de_option rd (Some (match o with Some a => wr a | None => Null end)) = Some o.
Proof.
  intros Ho. destruct o as [a|]; [|done]. destruct (Ho a eq_refl) as [E Hn]. simpl.
  destruct (wr a) eqn:Et; try done; by rewrite E.
Qed.
