(* ===== verification/Token.v ===== *)
(** * Kernel tokens: claims, signing and verification

    Models [crates/domain/src/safety/claims.rs] (the two claim sets),
    [error.rs], [token/sign.rs], [token/verify.rs], and the pinned-key verifier
    of [crates/adapters/safety_kernel_client/src/token.rs]. *)

From S2P Require Import Prelude RustStr Float64 Crates Merkle Json.
From Stdlib Require Import Sorted.

(** ** Errors *)

Inductive KernelTokenError :=
| Format (code : string)
| Signature (code : string)
| Claims (code : string)
| Expired (code : string).

(** ** Claim sets *)

(** The trait every claim set implements. *)
Class ToClaimsMap (C : Type) := to_btreemap : C -> ClaimsMap.

Definition KERNEL_AUTHORIZE_AUD : string := "kernel/authorize".
Definition APPROVAL_AUD : string := "kernel/approvals/decision".

Record AuthorizeClaims := {
  ac_action : string;
  ac_aud : string;
  ac_run_id : string;
  ac_subject : string;
  ac_params_fingerprint : string;
  ac_issued_at : f64;
  ac_expires_at : f64;
  ac_nonce : string
}.

#[global] Instance AuthorizeClaims_to_btreemap : ToClaimsMap AuthorizeClaims := fun c =>
  bt_collect [("action", Str (ac_action c));
              ("aud", Str (ac_aud c));
              ("run_id", Str (ac_run_id c));
              ("subject", Str (ac_subject c));
              ("params_fingerprint", Str (ac_params_fingerprint c));
              ("issued_at", json_f64 (ac_issued_at c));
              ("expires_at", json_f64 (ac_expires_at c));
              ("nonce", Str (ac_nonce c))].

Record ApprovalClaims := {
  pc_action : string;
  pc_aud : string;
  pc_run_id : string;
  pc_subject : string;
  pc_params_fingerprint : string;
  pc_issued_at : f64;
  pc_expires_at : f64;
  pc_nonce : string;
  pc_decision : string;
  pc_reason : option string;
  pc_approver : string;
  pc_proposal_fingerprint : string
}.

#[global] Instance ApprovalClaims_to_btreemap : ToClaimsMap ApprovalClaims := fun c =>
  bt_collect [("action", Str (pc_action c));
              ("aud", Str (pc_aud c));
              ("approver", Str (pc_approver c));
              ("decision", Str (pc_decision c));
              ("expires_at", json_f64 (pc_expires_at c));
              ("issued_at", json_f64 (pc_issued_at c));
              ("nonce", Str (pc_nonce c));
              ("params_fingerprint", Str (pc_params_fingerprint c));
              ("proposal_fingerprint", Str (pc_proposal_fingerprint c));
              ("reason", match pc_reason c with Some s => Str s | None => Null end);
              ("run_id", Str (pc_run_id c));
              ("subject", Str (pc_subject c))].

(** ** Signing and verification *)

Record VerifiedClaims := {
  vc_token : string;
  vc_claims : ClaimsMap;
  vc_signature_b64 : string
}.

Definition REQUIRED_FIELDS : list string :=
  ["action"; "run_id"; "subject"; "params_fingerprint"; "issued_at"; "expires_at"; "nonce"].

Definition SIGNATURE_LENGTH : nat := 64.

Section Token.
Context `{Ed25519} `{B64Url} `{SerdeJson}.

Definition sign_kernel_token {C} `{ToClaimsMap C} (claims : C) (signing_key : SigningKey)
    : string :=
  let map := to_btreemap claims in
  let payload_json := stable_json map in
  let payload_b64 := b64url_encode (as_bytes payload_json) in
  let sig := sign signing_key (as_bytes payload_b64) in
  let sig_b64 := b64url_encode (arr_bytes sig) in
  payload_b64 +:+ "." +:+ sig_b64.

(** The first required field that is missing. *)
Definition missing_field (obj : ClaimsMap) : option string :=
  list_find (fun k => bt_contains k obj = false) REQUIRED_FIELDS ≫= fun p => Some (snd p).

(** [obj.get(k).and_then(as_str).map(trim).filter(|s| !s.is_empty())]. *)
Definition str_claim (obj : ClaimsMap) (k : string) : option string :=
  match bt_get k obj ≫= as_str with
  | Some s => let s := trim s in if is_empty s then None else Some s
  | None => None
  end.

Definition f64_claim (obj : ClaimsMap) (k : string) : option f64 := bt_get k obj ≫= as_f64.

(** The audience check. *)
Definition check_aud (obj : ClaimsMap) (expected_aud : option string)
    : res KernelTokenError unit :=
  match expected_aud with
  | None => Ok tt
  | Some want_aud =>
    let? _ := ok_or (Claims "missing_claim:aud") (bt_get "aud" obj) in
    let? got_aud := ok_or (Claims "invalid_aud") (str_claim obj "aud") in
    if String.eqb got_aud want_aud then Ok tt else Err (Claims "invalid_audience")
  end.

(** Everything after the signature check: the claims themselves. *)
Definition check_claims (obj : ClaimsMap) (now_s leeway_s : f64) (expected_aud : option string)
    : res KernelTokenError unit :=
  match missing_field obj with
  | Some k => Err (Claims ("missing_claim:" +:+ k))
  | None =>
    let? _ := ok_or (Claims "invalid_action") (str_claim obj "action") in
    let? _ := ok_or (Claims "invalid_run_id") (str_claim obj "run_id") in
    let? _ := ok_or (Claims "invalid_subject") (str_claim obj "subject") in
    let? _ := ok_or (Claims "invalid_params_fingerprint") (str_claim obj "params_fingerprint") in
    let? _ := ok_or (Claims "invalid_nonce") (str_claim obj "nonce") in
    let? iat := ok_or (Claims "invalid_time_claims:ValueError") (f64_claim obj "issued_at") in
    let? exp := ok_or (Claims "invalid_time_claims:ValueError") (f64_claim obj "expires_at") in
    let leeway := f64_max leeway_s (f64_of_Z 0) in
    if f64_lt (f64_add now_s leeway) iat then Err (Claims "token_used_before_issued") else
    if f64_gt (f64_sub now_s leeway) exp then Err (Expired "token_expired") else
    if f64_le exp iat then Err (Claims "invalid_expiry_window") else
    check_aud obj expected_aud
  end.

Definition verify_kernel_token (token : string) (public_key : VerifyingKey)
    (now_s leeway_s : f64) (expected_aud : option string) : res KernelTokenError VerifiedClaims :=
  let t := trim token in
  match split_on "."%char t with
  | [part0; part1] =>
    let payload_b64 := trim part0 in
    let sig_b64 := trim part1 in
    if is_empty payload_b64 || is_empty sig_b64 then Err (Format "invalid_token_format") else
    match b64url_engine_decode payload_b64 with
    | inl e => Err (Format ("invalid_payload_b64:" +:+ e))
    | inr payload_json =>
      match b64url_engine_decode sig_b64 with
      | inl e => Err (Format ("invalid_signature_b64:" +:+ e))
      | inr sig_bytes =>
        if negb (length sig_bytes =? SIGNATURE_LENGTH)%nat
        then Err (Format "invalid_signature_b64:WrongLength")
        else if negb (ed_verify public_key (as_bytes payload_b64) (array_of 64 sig_bytes))
        then Err (Signature ("invalid_signature:" +:+ signature_error_display))
        else
        match serde_from_slice payload_json with
        | inl e => Err (Format ("invalid_payload_json:" +:+ e))
        | inr (Obj obj) =>
          let? _ := check_claims obj now_s leeway_s expected_aud in
          Ok {| vc_token := t; vc_claims := bt_collect obj; vc_signature_b64 := sig_b64 |}
        | inr _ => Err (Claims "claims_not_object")
        end
      end
    end
  | _ => Err (Format "invalid_token_format")
  end.

(** ** What acceptance means *)

(** The claims an accepting verifier has checked. *)
Definition claims_valid (obj : ClaimsMap) (now_s leeway_s : f64) (expected_aud : option string)
    : Prop :=
  (forall k, k ∈ ["action"; "run_id"; "subject"; "params_fingerprint"; "nonce"] ->
     exists s, str_claim obj k = Some s) /\
  (exists iat exp,
     f64_claim obj "issued_at" = Some iat /\ f64_claim obj "expires_at" = Some exp /\
     let leeway := f64_max leeway_s (f64_of_Z 0) in
     f64_lt (f64_add now_s leeway) iat = false /\
     f64_gt (f64_sub now_s leeway) exp = false /\
     f64_le exp iat = false) /\
  (forall want, expected_aud = Some want -> str_claim obj "aud" = Some want).

Lemma str_claim_contains obj k s : str_claim obj k = Some s -> bt_contains k obj = true.
Proof. unfold str_claim, bt_contains. by destruct (bt_get k obj). Qed.

Lemma f64_claim_contains obj k s : f64_claim obj k = Some s -> bt_contains k obj = true.
Proof. unfold f64_claim, bt_contains. by destruct (bt_get k obj). Qed.

Lemma str_claim_get obj k s : str_claim obj k = Some s -> exists v, bt_get k obj = Some v.
Proof. unfold str_claim. destruct (bt_get k obj); [eauto|done]. Qed.

Lemma missing_field_none obj :
  missing_field obj = None <-> Forall (fun k => bt_contains k obj = true) REQUIRED_FIELDS.
Proof.
  unfold missing_field. destruct (list_find _ _) as [[i k]|] eqn:E; simpl.
  - apply list_find_Some in E as (Hk & Hf & _). split; [done|]. intros Hall.
    rewrite Forall_lookup in Hall. specialize (Hall _ _ Hk). congruence.
  - apply list_find_None in E. split; [|done]. intros _. eapply Forall_impl; [exact E|].
    intros k Hk. simpl in Hk. by destruct (bt_contains k obj).
Qed.

Lemma check_claims_iff obj now leeway aud :
  check_claims obj now leeway aud = Ok tt <-> claims_valid obj now leeway aud.
Proof.
  unfold check_claims, claims_valid. split.
  - destruct (missing_field obj) eqn:Em; [done|].
    destruct (str_claim obj "action") as [s1|] eqn:E1; simpl; [|done].
    destruct (str_claim obj "run_id") as [s2|] eqn:E2; simpl; [|done].
    destruct (str_claim obj "subject") as [s3|] eqn:E3; simpl; [|done].
    destruct (str_claim obj "params_fingerprint") as [s4|] eqn:E4; simpl; [|done].
    destruct (str_claim obj "nonce") as [s5|] eqn:E5; simpl; [|done].
    destruct (f64_claim obj "issued_at") as [iat|] eqn:E6; simpl; [|done].
    destruct (f64_claim obj "expires_at") as [exp|] eqn:E7; simpl; [|done].
    destruct (f64_lt _ _) eqn:E8; [done|]. destruct (f64_gt _ _) eqn:E9; [done|].
    destruct (f64_le _ _) eqn:E10; [done|]. intros Haud. split_and!.
    + intros k Hk. rewrite !elem_of_cons, elem_of_nil in Hk. naive_solver.
    + exists iat, exp. by split_and!.
    + intros want ->. unfold check_aud in Haud. destruct (bt_get "aud" obj); simpl in Haud; [|done].
      destruct (str_claim obj "aud") as [got|]; simpl in Haud; [|done].
      destruct (String.eqb_spec got want); [congruence|done].
  - intros (Hs & (iat & exp & Hi & He & Hlt & Hgt & Hle) & Haud).
    assert (missing_field obj = None) as ->.
    { apply missing_field_none. repeat constructor;
        try (by eapply f64_claim_contains);
        match goal with |- bt_contains ?k _ = true => destruct (Hs k) as [s Hk]; [set_solver|] end;
        by eapply str_claim_contains. }
    destruct (Hs "action") as [? ->]; [set_solver|]. destruct (Hs "run_id") as [? ->]; [set_solver|].
    destruct (Hs "subject") as [? ->]; [set_solver|].
    destruct (Hs "params_fingerprint") as [? ->]; [set_solver|].
    destruct (Hs "nonce") as [? ->]; [set_solver|]. rewrite Hi, He. cbn [res_bind ok_or].
    cbv zeta in Hlt, Hgt. rewrite Hlt, Hgt, Hle. destruct aud as [want|]; [|done]. unfold check_aud.
    specialize (Haud want eq_refl). destruct (str_claim_get _ _ _ Haud) as [v ->]. simpl.
    rewrite Haud. simpl. by rewrite String.eqb_refl.
Qed.

Lemma check_claims_split obj now leeway aud :
  check_claims obj now leeway aud =
  let? _ := check_claims obj now leeway None in check_aud obj aud.
Proof.
  unfold check_claims. destruct (missing_field obj); [done|].
  repeat match goal with |- context [str_claim obj ?k] => destruct (str_claim obj k); [|done] end.
  repeat match goal with |- context [f64_claim obj ?k] => destruct (f64_claim obj k); [|done] end.
  cbn [res_bind ok_or]. by repeat (case_match; [done|]).
Qed.

Lemma check_claims_total obj now leeway aud : check_claims obj now leeway aud <> Panic.
Proof.
  unfold check_claims, check_aud. destruct (missing_field obj); [done|].
  repeat match goal with |- context [str_claim obj ?k] =>
    lazymatch k with "aud"%string => fail | _ => destruct (str_claim obj k); [|done] end end.
  repeat match goal with |- context [f64_claim obj ?k] => destruct (f64_claim obj k); [|done] end.
  cbn [res_bind ok_or]. do 3 (case_match; [done|]). destruct aud; [|done].
  destruct (bt_get "aud" obj); [|done]. destruct (str_claim obj "aud"); [|done].
  simpl. by case_match.
Qed.

(** The verifier accepts exactly when: the trimmed token is two non-empty parts
    around one dot, the second decodes to 64 bytes that are a valid signature of
    the first part's characters, the first decodes to a JSON object, and the
    object's claims are valid. *)
Definition token_accepted (token : string) (vk : VerifyingKey) (now leeway : f64)
    (aud : option string) (vc : VerifiedClaims) : Prop :=
  exists part0 part1 payload sig obj,
    split_on "."%char (trim token) = [part0; part1] /\
    trim part0 <> EmptyString /\ trim part1 <> EmptyString /\
    b64url_engine_decode (trim part0) = inr payload /\
    b64url_engine_decode (trim part1) = inr sig /\ length sig = SIGNATURE_LENGTH /\
    ed_verify vk (as_bytes (trim part0)) (array_of 64 sig) = true /\
    serde_from_slice payload = inr (Obj obj) /\
    claims_valid obj now leeway aud /\
    vc = {| vc_token := trim token; vc_claims := bt_collect obj; vc_signature_b64 := trim part1 |}.

Lemma is_empty_false s : is_empty s = false <-> s <> EmptyString.
Proof. by destruct s. Qed.

Lemma verify_kernel_token_iff token vk now leeway aud vc :
  verify_kernel_token token vk now leeway aud = Ok vc <->
  token_accepted token vk now leeway aud vc.
Proof.
  unfold verify_kernel_token, token_accepted. split.
  - destruct (split_on _ _) as [|p0 [|p1 []]]; try done.
    destruct (is_empty (trim p0)) eqn:E0; [done|]. destruct (is_empty (trim p1)) eqn:E1; [done|].
    apply is_empty_false in E0, E1. simpl.
    destruct (b64url_engine_decode (trim p0)) as [|payload] eqn:Ep; [done|].
    destruct (b64url_engine_decode (trim p1)) as [|sig] eqn:Es; [done|].
    destruct (Nat.eqb_spec (length sig) SIGNATURE_LENGTH) as [El|]; [|done]. simpl.
    destruct (ed_verify _ _ _) eqn:Ev; [|done]. simpl.
    destruct (serde_from_slice payload) as [|[| | | | |obj]] eqn:Ej; try done.
    destruct (check_claims obj now leeway aud) as [[]| |] eqn:Ec; try done. simpl. intros [= <-].
    apply check_claims_iff in Ec. exists p0, p1, payload, sig, obj. by split_and!.
  - intros (p0 & p1 & payload & sig & obj & -> & E0 & E1 & -> & -> & El & Ev & -> & Hc & ->).
    apply is_empty_false in E0 as ->. apply is_empty_false in E1 as ->. simpl.
    rewrite El, Nat.eqb_refl, Ev. simpl. apply check_claims_iff in Hc as ->. done.
Qed.

Lemma verify_kernel_token_total token vk now leeway aud :
  verify_kernel_token token vk now leeway aud <> Panic.
Proof.
  unfold verify_kernel_token. destruct (split_on _ _) as [|p0 [|p1 []]]; try done.
  destruct (_ || _); [done|]. destruct (b64url_engine_decode (trim p0)); [done|].
  destruct (b64url_engine_decode (trim p1)); [done|]. destruct (negb (_ =? _)%nat); [done|].
  destruct (negb (ed_verify _ _ _)); [done|].
  destruct (serde_from_slice _) as [|[| | | | |obj]]; try done.
  destruct (check_claims obj now leeway aud) eqn:E; [done..|]. by apply check_claims_total in E.
Qed.

(** ** Signing, then verifying *)

Context `{!B64UrlCorrect, !SerdeJsonCorrect}.

Lemma as_bytes_nonempty s : s <> EmptyString -> as_bytes s <> [].
Proof. by destruct s. Qed.

(** The payload part of a token. *)
Definition token_payload (m : ClaimsMap) : string := b64url_encode (as_bytes (stable_json m)).

(** The two parts of a token made by [sign_kernel_token]. *)
Lemma signed_token_parts {C} `{ToClaimsMap C} (c : C) sk :
  let payload := token_payload (to_btreemap c) in
  let sig := b64url_encode (arr_bytes (sign sk (as_bytes payload))) in
  trim (sign_kernel_token c sk) = sign_kernel_token c sk /\
  split_on "."%char (sign_kernel_token c sk) = [payload; sig] /\
  trim payload = payload /\ trim sig = sig /\ payload <> EmptyString /\ sig <> EmptyString.
Proof.
  cbv zeta. set (payload := token_payload _). set (sig := b64url_encode (arr_bytes _)).
  assert (sign_kernel_token c sk = payload +:+ String "."%char sig) as -> by done.
  split_and!.
  - apply trim_plain. rewrite all_plain_app. simpl.
    unfold payload, token_payload, sig. by rewrite !b64url_plain.
  - apply (split_on_two _ url_safe); [done|apply b64url_alphabet..].
  - apply trim_plain, b64url_plain.
  - apply trim_plain, b64url_plain.
  - apply b64url_nonempty, as_bytes_nonempty, serde_nonempty.
  - apply b64url_nonempty. intros Hn. apply (f_equal length) in Hn. by rewrite array_length in Hn.
Qed.

(** On the kernel's own tokens the verifier only has the claims left to check. *)
Lemma verify_signed `{!Ed25519Correct} {C} `{ToClaimsMap C} (c : C) sk now leeway aud :
  value_ok (Obj (to_btreemap c)) -> (depth (Obj (to_btreemap c)) <= 127)%nat ->
  verify_kernel_token (sign_kernel_token c sk) (verifying_key sk) now leeway aud =
  let? _ := check_claims (to_btreemap c) now leeway aud in
  Ok {| vc_token := sign_kernel_token c sk; vc_claims := to_btreemap c;
        vc_signature_b64 :=
          b64url_encode (arr_bytes (sign sk (as_bytes (token_payload (to_btreemap c))))) |}.
Proof.
  intros Hok Hdepth. destruct (signed_token_parts c sk) as (Ht & Hsplit & Hp & Hs & Hpn & Hsn).
  unfold verify_kernel_token. rewrite Ht, Hsplit, Hp, Hs.
  apply is_empty_false in Hpn as ->. apply is_empty_false in Hsn as ->. simpl.
  unfold token_payload at 1. rewrite !b64url_roundtrip, array_length, array_of_id, sign_verifies.
  simpl. rewrite stable_json_id, serde_roundtrip by done.
  rewrite bt_collect_sorted; [done|]. by apply value_ok_obj in Hok as [? _].
Qed.

(** C15.  A token the kernel signs is accepted, under the kernel's public key,
    exactly when its claims are valid at the verifier's clock, leeway and
    audience; the verifier then returns the very claims that were signed. *)
Theorem sign_then_verify `{!Ed25519Correct} {C} `{ToClaimsMap C} (c : C) sk now leeway aud vc :
  value_ok (Obj (to_btreemap c)) -> (depth (Obj (to_btreemap c)) <= 127)%nat ->
  verify_kernel_token (sign_kernel_token c sk) (verifying_key sk) now leeway aud = Ok vc <->
  claims_valid (to_btreemap c) now leeway aud /\
  vc = {| vc_token := sign_kernel_token c sk; vc_claims := to_btreemap c;
          vc_signature_b64 :=
            b64url_encode (arr_bytes (sign sk (as_bytes (token_payload (to_btreemap c))))) |}.
Proof.
  intros Hok Hdepth. rewrite verify_signed by done. rewrite <-check_claims_iff.
  destruct (check_claims _ _ _ _) as [[]| |]; simpl; split; try done; naive_solver.
Qed.

(** [token] carries a signature of [payload] that is valid under [vk]. *)
Definition carries (token : string) (vk : VerifyingKey) (payload : string) : Prop :=
  exists part0 part1 sig,
    split_on "."%char (trim token) = [part0; part1] /\ trim part0 = payload /\
    b64url_engine_decode (trim part1) = inr (arr_bytes sig) /\ ed_verify vk (as_bytes payload) sig = true.

(** [token] is itself a forgery: what it carries a valid signature of is the payload of
    none of the claim maps the key has signed. *)
Definition forgery (vk : VerifyingKey) (signed : list ClaimsMap) (token : string) : Prop :=
  exists payload, carries token vk payload /\ payload ∉ token_payload <$> signed.

Lemma carries_inj token vk p1 p2 : carries token vk p1 -> carries token vk p2 -> p1 = p2.
Proof. intros (a & b & s1 & E & <- & _) (a' & b' & s2 & E' & <- & _). congruence. Qed.

Lemma accepted_carries token vk now leeway aud vc :
  token_accepted token vk now leeway aud vc ->
  exists payload obj json, carries token vk payload /\ b64url_engine_decode payload = inr json /\
    serde_from_slice json = inr (Obj obj) /\ claims_valid obj now leeway aud /\ vc_claims vc = bt_collect obj.
Proof.
  intros (p0 & p1 & json & sig & obj & Ht & _ & _ & Hd & Hs & Hl & Hv & Hj & Hc & ->).
  exists (trim p0), obj, json. split_and!; try done.
  exists p0, p1, (array_of 64 sig). by rewrite array_of_bytes.
Qed.

(** C16.  What verifies was issued, or is itself a forgery.  Let [signed] be the claim
    maps the holder of the key has signed so far.  Whatever string a caller presents, an
    accepting verifier returns the claims of one of them -- the token being that very
    payload under a valid signature, and the claims in force at the verifier's clock,
    leeway and audience -- unless the token is a forgery: a valid signature under the
    pinned key of a payload its holder never signed.  And no token of the kernel's own is
    one. *)
Theorem accepted_token_was_issued (signed : list ClaimsMap) vk :
  Forall (fun m => value_ok (Obj m) /\ (depth (Obj m) <= 127)%nat) signed ->
  (forall token now leeway aud vc,
     verify_kernel_token token vk now leeway aud = Ok vc ->
     (vc_claims vc ∈ signed /\ carries token vk (token_payload (vc_claims vc)) /\
      claims_valid (vc_claims vc) now leeway aud) \/
     forgery vk signed token) /\
  (forall C `(ToClaimsMap C) (c : C) sk,
     to_btreemap c ∈ signed -> ~ forgery vk signed (sign_kernel_token c sk)).
Proof.
  intros Hok. split.
  - intros token now leeway aud vc Hv%verify_kernel_token_iff.
    apply accepted_carries in Hv as (payload & obj & json & Hcar & Hd & Hj & Hc & ->).
    destruct (decide (payload ∈ token_payload <$> signed)) as [(m & -> & Hm)%list_elem_of_fmap|Hno];
      [left|right; by exists payload].
    rewrite Forall_forall in Hok. destruct (Hok m Hm) as [Hvm Hdepth].
    unfold token_payload in Hd. rewrite b64url_roundtrip in Hd. injection Hd as <-.
    rewrite stable_json_id, serde_roundtrip in Hj by done. injection Hj as <-.
    rewrite bt_collect_sorted; [done|]. by apply value_ok_obj in Hvm as [? _].
  - intros C ? c sk Hc (payload & (p0 & p1 & sig & Ht & <- & _) & Hno).
    destruct (signed_token_parts c sk) as (Htrim & Hsplit & Hp0 & _).
    rewrite Htrim, Hsplit in Ht. injection Ht as <- <-. apply Hno. rewrite Hp0.
    by apply list_elem_of_fmap_2.
Qed.

(** Audiences partition the tokens of one signing key: a token whose [aud]
    claim is another than the one a verifier expects is refused, and if all its
    other claims are in order the refusal is [invalid_audience]. *)
Theorem audience_partition `{!Ed25519Correct} {C} `{ToClaimsMap C} (c : C) sk now leeway got want :
  value_ok (Obj (to_btreemap c)) -> (depth (Obj (to_btreemap c)) <= 127)%nat ->
  str_claim (to_btreemap c) "aud" = Some got -> got <> want ->
  exists e,
    verify_kernel_token (sign_kernel_token c sk) (verifying_key sk) now leeway (Some want) = Err e /\
    (claims_valid (to_btreemap c) now leeway None -> e = Claims "invalid_audience").
Proof.
  intros Hok Hdepth Haud Hne. rewrite verify_signed, check_claims_split by done.
  destruct (check_claims (to_btreemap c) now leeway None) as [[]|e|] eqn:E; simpl.
  - unfold check_aud. destruct (str_claim_get _ _ _ Haud) as [v ->]. simpl. rewrite Haud. simpl.
    destruct (String.eqb_spec got want); [done|]. eauto.
  - exists e. split; [done|]. intros Hv%check_claims_iff. congruence.
  - by apply check_claims_total in E.
Qed.

End Token.

(** ** The claim maps of the kernel *)

Lemma authorize_map (c : AuthorizeClaims) :
  to_btreemap c =
  [("action", Str (ac_action c)); ("aud", Str (ac_aud c));
   ("expires_at", json_f64 (ac_expires_at c)); ("issued_at", json_f64 (ac_issued_at c));
   ("nonce", Str (ac_nonce c)); ("params_fingerprint", Str (ac_params_fingerprint c));
   ("run_id", Str (ac_run_id c)); ("subject", Str (ac_subject c))].
Proof. reflexivity. Qed.

Lemma approval_map (c : ApprovalClaims) :
  to_btreemap c =
  [("action", Str (pc_action c)); ("approver", Str (pc_approver c)); ("aud", Str (pc_aud c));
   ("decision", Str (pc_decision c)); ("expires_at", json_f64 (pc_expires_at c));
   ("issued_at", json_f64 (pc_issued_at c)); ("nonce", Str (pc_nonce c));
   ("params_fingerprint", Str (pc_params_fingerprint c));
   ("proposal_fingerprint", Str (pc_proposal_fingerprint c));
   ("reason", match pc_reason c with Some s => Str s | None => Null end);
   ("run_id", Str (pc_run_id c)); ("subject", Str (pc_subject c))].
Proof. reflexivity. Qed.

(** A list of concrete keys is checked for order by computation. *)
Fixpoint keys_sorted (ks : list string) : bool :=
  match ks with
  | [] => true
  | k :: ks' =>
    match ks' with
    | k' :: _ => match String.compare k k' with Lt => keys_sorted ks' | _ => false end
    | [] => true
    end
  end.

Lemma keys_sorted_spec {A} (m : list (string * A)) :
  keys_sorted (fst <$> m) = true -> sorted m.
Proof.
  intros Hk. apply Sorted_StronglySorted; [intros [a x] [b y] [c z]; apply key_lt_trans|].
  induction m as [|[k v] m IH]; [constructor|]. destruct m as [|[k' v'] m].
  - repeat constructor.
  - simpl in Hk. destruct (String.compare k k') eqn:E; try done.
    constructor; [by apply IH|]. by constructor.
Qed.

Lemma depth_json_f64 f : depth (json_f64 f) = 0%nat.
Proof. unfold json_f64. by destruct (f64_is_finite f). Qed.

Lemma authorize_claims_ok c :
  utf8 (ac_action c) = true -> utf8 (ac_aud c) = true -> utf8 (ac_run_id c) = true ->
  utf8 (ac_subject c) = true -> utf8 (ac_params_fingerprint c) = true ->
  utf8 (ac_nonce c) = true ->
  value_ok (Obj (to_btreemap c)) /\ (depth (Obj (to_btreemap c)) <= 127)%nat.
Proof.
  intros. rewrite authorize_map. split.
  - apply value_ok_obj. split; [by apply keys_sorted_spec|].
    repeat constructor; simpl; auto using json_f64_ok.
  - simpl. rewrite !depth_json_f64. simpl. lia.
Qed.

(** ** The pinned-key verifier of the client *)

Section Pinned.
Context `{Sha256} `{Ed25519} `{Hex} `{B64Url} `{SerdeJson}.

Definition fingerprint_for (pubkey_bytes : array 32) : string :=
  hex_encode (take 8 (arr_bytes (sha256 (arr_bytes pubkey_bytes)))).

Record PinnedKeyVerifier := {
  pinned_verifying_key : VerifyingKey;
  fingerprint : string;
  leeway_seconds : f64
}.

Definition from_pubkey_bytes (pinned : array 32) : res KernelTokenError PinnedKeyVerifier :=
  match verifying_key_from_bytes pinned with
  | inl e => Err (Signature ("invalid_pinned_pubkey:" +:+ e))
  | inr vk => Ok {| pinned_verifying_key := vk; fingerprint := fingerprint_for pinned;
                    leeway_seconds := f64_of_Z 5 |}
  end.

Definition with_leeway (pinned : array 32) (leeway : f64) : res KernelTokenError PinnedKeyVerifier :=
  let? me := from_pubkey_bytes pinned in
  Ok {| pinned_verifying_key := pinned_verifying_key me; fingerprint := fingerprint me;
        leeway_seconds := leeway |}.

Definition pinned_verify (v : PinnedKeyVerifier) (token : string) (now_epoch_seconds : f64)
    : res KernelTokenError VerifiedClaims :=
  verify_kernel_token token (pinned_verifying_key v) now_epoch_seconds (leeway_seconds v) None.

Definition verify_with_aud (v : PinnedKeyVerifier) (token : string) (now_epoch_seconds : f64)
    (expected_aud : string) : res KernelTokenError VerifiedClaims :=
  verify_kernel_token token (pinned_verifying_key v) now_epoch_seconds (leeway_seconds v)
    (Some expected_aud).

End Pinned.

(** ** Witnesses *)

Module Demo.

#[local] Existing Instance demo_ed25519.
#[local] Existing Instance demo_b64.
#[local] Existing Instance DemoJson.demo_serde.

Definition key : @SigningKey demo_ed25519 := [x01].

Definition claims : AuthorizeClaims := {|
  ac_action := "deploy"; ac_aud := KERNEL_AUTHORIZE_AUD; ac_run_id := "run-1";
  ac_subject := "worker"; ac_params_fingerprint := "ab12";
  ac_issued_at := f64_of_Z 1000; ac_expires_at := f64_of_Z 1060; ac_nonce := "n0nce" |}.

Lemma claims_are_ok :
  value_ok (Obj (to_btreemap claims)) /\ (depth (Obj (to_btreemap claims)) <= 127)%nat.
Proof. by apply authorize_claims_ok. Qed.

Lemma claims_are_valid aud :
  (forall want, aud = Some want -> want = KERNEL_AUTHORIZE_AUD) ->
  claims_valid (to_btreemap claims) (f64_of_Z 1010) (f64_of_Z 5) aud.
Proof.
  intros Haud. apply check_claims_iff. destruct aud as [want|]; [|reflexivity].
  by rewrite (Haud want eq_refl).
Qed.

Lemma sign_then_verify_witness : exists vc,
  verify_kernel_token (sign_kernel_token claims key) (verifying_key key) (f64_of_Z 1010) (f64_of_Z 5)
    (Some KERNEL_AUTHORIZE_AUD) = Ok vc.
Proof.
  eexists. apply (sign_then_verify claims key (f64_of_Z 1010) (f64_of_Z 5)
    (Some KERNEL_AUTHORIZE_AUD) _ (proj1 claims_are_ok) (proj2 claims_are_ok)).
  split; [apply claims_are_valid; congruence|reflexivity].
Defined.

(** The kernel signed one claim map: its token is accepted as issued; to a verifier whose
    list of signed maps is empty the same token would be a forgery. *)
Lemma accepted_token_was_issued_witness : exists vc,
  verify_kernel_token (sign_kernel_token claims key) (verifying_key key) (f64_of_Z 1010) (f64_of_Z 5) None = Ok vc /\
  vc_claims vc = to_btreemap claims /\
  carries (sign_kernel_token claims key) (verifying_key key) (token_payload (to_btreemap claims)) /\
  forgery (verifying_key key) [] (sign_kernel_token claims key).
Proof.
  assert (exists vc, verify_kernel_token (sign_kernel_token claims key) (verifying_key key)
    (f64_of_Z 1010) (f64_of_Z 5) None = Ok vc) as [vc Hvc] by (eexists; vm_compute; reflexivity).
  exists vc. split; [exact Hvc|].
  destruct (accepted_token_was_issued [to_btreemap claims] (verifying_key key)) as [Hv Hown].
  { apply Forall_singleton, claims_are_ok. }
  destruct (Hv _ _ _ _ _ Hvc) as [(Hm & Hc & _)|Hf].
  - apply list_elem_of_singleton in Hm. rewrite Hm in Hc.
    split; [exact Hm|]. split; [exact Hc|]. eexists. split; [exact Hc|by apply not_elem_of_nil].
  - exfalso. apply (Hown _ _ claims key); [by apply list_elem_of_singleton|exact Hf].
Defined.

Lemma audience_partition_witness : exists e,
  verify_kernel_token (sign_kernel_token claims key) (verifying_key key) (f64_of_Z 1010) (f64_of_Z 5)
    (Some APPROVAL_AUD) = Err e.
Proof.
  destruct (audience_partition claims key (f64_of_Z 1010) (f64_of_Z 5)
    KERNEL_AUTHORIZE_AUD APPROVAL_AUD (proj1 claims_are_ok) (proj2 claims_are_ok)
    eq_refl ltac:(discriminate)) as (e & He & _).
  exists e. exact He.
Defined.

End Demo.
