(* ===== verification/CircuitBreaker.v ===== *)
(** * The client's circuit breaker

    Models [crates/domain/src/safety/client_state.rs] (the pure gate) and
    [crates/adapters/safety_kernel_client/src/circuit_breaker.rs] (the driver).
    Each method holds the breaker's mutex throughout, so it is one atomic step;
    [now] is the reading of the injected clock. *)

From S2P Require Import Prelude RustStr Float64.

Local Open Scope N_scope.

(** ** The pure core *)

Inductive CircuitState := Closed | Open | HalfOpen.

#[global] Instance CircuitState_eq_dec : EqDecision CircuitState.
Proof. solve_decision. Defined.

Definition forbids_call (s : CircuitState) : bool := match s with Open => true | _ => false end.

Record CircuitConfig := {
  failure_threshold : N;
  cooldown_seconds : f64;
  call_timeout_seconds : f64
}.

Definition CircuitConfig_default : CircuitConfig :=
  {| failure_threshold := 3; cooldown_seconds := f64_of_Z 30; call_timeout_seconds := f64_of_Z 5 |}.

Inductive GateDecision := Permit | RefuseUnavailable | PermitProbeAfterCooldown.

Definition gate_decision (state : CircuitState) (cooldown_elapsed probe_in_flight : bool)
    : GateDecision :=
  match state with
  | Closed => Permit
  | HalfOpen => if probe_in_flight then RefuseUnavailable else Permit
  | Open => if cooldown_elapsed then PermitProbeAfterCooldown else RefuseUnavailable
  end.

Record CircuitTransition := {
  tr_from : CircuitState;
  tr_to : CircuitState;
  at_epoch_seconds : f64;
  failure_count : N
}.

(** ** The driver *)

Record BreakerState := {
  current : CircuitState;
  consecutive_failures : N;
  opened_at_epoch_seconds : option f64;
  transitions : list CircuitTransition;
  probe_in_flight : bool
}.

(** The caller-visible failures; the client wraps them. *)
Inductive KernelDecisionError :=
| Unavailable (reason : string)
| Denied (reason : string).

Definition breaker_new : BreakerState :=
  {| current := Closed; consecutive_failures := 0; opened_at_epoch_seconds := None;
     transitions := []; probe_in_flight := false |}.

Definition before_call (config : CircuitConfig) (now : f64) (st : BreakerState)
    : res KernelDecisionError unit * BreakerState :=
  let opened := default now (opened_at_epoch_seconds st) in
  let cooldown_elapsed := f64_ge (f64_sub now opened) (cooldown_seconds config) in
  match gate_decision (current st) cooldown_elapsed (probe_in_flight st) with
  | Permit =>
    (Ok tt,
     if decide (current st = HalfOpen)
     then {| current := current st; consecutive_failures := consecutive_failures st;
             opened_at_epoch_seconds := opened_at_epoch_seconds st;
             transitions := transitions st; probe_in_flight := true |}
     else st)
  | PermitProbeAfterCooldown =>
    (Ok tt,
     {| current := HalfOpen; consecutive_failures := consecutive_failures st;
        opened_at_epoch_seconds := opened_at_epoch_seconds st;
        transitions := transitions st ++
          [{| tr_from := current st; tr_to := HalfOpen; at_epoch_seconds := now;
              failure_count := consecutive_failures st |}];
        probe_in_flight := true |})
  | RefuseUnavailable =>
    let reason :=
      if decide (current st = HalfOpen) then "circuit half-open probe in flight"%string
      else ("circuit breaker open (" +:+
            f64_fmt1 (f64_sub (cooldown_seconds config) (f64_sub now opened)) +:+
            "s remaining in cooldown)")%string in
    (Err (Unavailable reason), st)
  end.

Definition record_success (now : f64) (st : BreakerState) : BreakerState :=
  match current st with
  | Closed =>
    {| current := Closed; consecutive_failures := 0;
       opened_at_epoch_seconds := opened_at_epoch_seconds st;
       transitions := transitions st; probe_in_flight := false |}
  | prev =>
    {| current := Closed; consecutive_failures := 0; opened_at_epoch_seconds := None;
       transitions := transitions st ++
         [{| tr_from := prev; tr_to := Closed; at_epoch_seconds := now; failure_count := 0 |}];
       probe_in_flight := false |}
  end.

Definition record_failure (config : CircuitConfig) (now : f64) (st : BreakerState) : BreakerState :=
  let failures := saturating_add32 (consecutive_failures st) 1 in
  let prev := current st in
  let should_open := match prev with
                     | Closed => failure_threshold config <=? failures
                     | HalfOpen => true
                     | Open => false
                     end in
  if should_open
  then {| current := Open; consecutive_failures := failures;
          opened_at_epoch_seconds := Some now;
          transitions := transitions st ++
            [{| tr_from := prev; tr_to := Open; at_epoch_seconds := now;
                failure_count := failures |}];
          probe_in_flight := false |}
  else {| current := prev; consecutive_failures := failures;
          opened_at_epoch_seconds := opened_at_epoch_seconds st;
          transitions := transitions st; probe_in_flight := false |}.

Definition drain_transitions (st : BreakerState) : list CircuitTransition * BreakerState :=
  (transitions st,
   {| current := current st; consecutive_failures := consecutive_failures st;
      opened_at_epoch_seconds := opened_at_epoch_seconds st; transitions := [];
      probe_in_flight := probe_in_flight st |}).

(** ** The breaker as a transition system *)

(** What its callers do to it, in any order: gate a call, report an outcome,
    drain the audit log. *)
Inductive Event :=
| Gate (now : f64)
| Success (now : f64)
| Failure (now : f64)
| Drain.

Definition step (config : CircuitConfig) (e : Event) (st : BreakerState) : BreakerState :=
  match e with
  | Gate now => snd (before_call config now st)
  | Success now => record_success now st
  | Failure now => record_failure config now st
  | Drain => snd (drain_transitions st)
  end.

Definition run_events (config : CircuitConfig) (es : list Event) (st : BreakerState) : BreakerState :=
  foldl (fun st e => step config e st) st es.

Inductive reachable (config : CircuitConfig) : BreakerState -> Prop :=
| reach_new : reachable config breaker_new
| reach_step st e : reachable config st -> reachable config (step config e st).

(** A log of transitions that leads from state [a] to state [b]. *)
Fixpoint path_between (a b : CircuitState) (log : list CircuitTransition) : Prop :=
  match log with
  | [] => a = b
  | t :: log => tr_from t = a /\ tr_from t <> tr_to t /\ path_between (tr_to t) b log
  end.

Definition breaker_inv (config : CircuitConfig) (st : BreakerState) : Prop :=
  (probe_in_flight st = true <-> current st = HalfOpen) /\
  (opened_at_epoch_seconds st = None <-> current st = Closed) /\
  consecutive_failures st <= u32_max /\
  (current st = Closed -> consecutive_failures st <> 0 ->
   consecutive_failures st < failure_threshold config) /\
  (exists start, path_between start (current st) (transitions st)).

Lemma path_between_snoc a b c log t :
  path_between a b log -> tr_from t = b -> tr_to t = c -> b <> c ->
  path_between a c (log ++ [t]).
Proof.
  intros Hp <- <- Hne. revert a Hp. induction log as [|u log IH]; simpl; intros a; [by intros ->|].
  intros (? & ? & ?). split_and!; auto.
Qed.

Lemma step_inv config e st : breaker_inv config st -> breaker_inv config (step config e st).
Proof.
  destruct st as [cur cf oa trs pf]. unfold breaker_inv. simpl.
  intros (Hp & Ho & Hu & Hc & start & Hpath). destruct e as [now|now|now|]; simpl.
  - unfold before_call. destruct cur; simpl; [by eauto 10| |].
    + destruct (f64_ge _ _); simpl; [|by eauto 10].
      split_and!; [done|naive_solver|done|done|exists start; by eapply path_between_snoc].
    + assert (pf = true) as -> by naive_solver. simpl. by eauto 10.
  - unfold record_success. destruct cur; simpl;
      (split_and!; [done|naive_solver|lia|lia|]); exists start; try done; by eapply path_between_snoc.
  - unfold record_failure, saturating_add32. simpl. destruct cur; simpl.
    + destruct (N.leb_spec (failure_threshold config) (N.min (cf + 1) u32_max));
        simpl; (split_and!; [done|naive_solver|lia|intros; (done || lia)|]); exists start;
        [by eapply path_between_snoc|done].
    + split_and!; [done|naive_solver|lia|done|by exists start].
    + split_and!; [done|done|lia|done|]. exists start. by eapply path_between_snoc.
  - split_and!; [done..|by exists cur].
Qed.

Lemma reachable_inv config st : reachable config st -> breaker_inv config st.
Proof.
  induction 1 as [|st e _ IH]; [|by apply step_inv].
  unfold breaker_inv; simpl. split_and!; [done|done|lia|done|by exists Closed].
Qed.

(** C17.  The breaker's invariant: in every reachable state, whatever sequence of
    gates, outcomes and drains led there, a probe is in flight exactly in
    [HalfOpen], an opening time is recorded exactly outside [Closed], a closed
    breaker has seen fewer consecutive failures than the threshold, and the
    undrained audit log is an unbroken path of genuine transitions that ends in
    the current state. *)
Theorem breaker_invariant config st :
  reachable config st ->
  (probe_in_flight st = true <-> current st = HalfOpen) /\
  (opened_at_epoch_seconds st = None <-> current st = Closed) /\
  consecutive_failures st <= u32_max /\
  (current st = Closed -> consecutive_failures st <> 0 ->
   consecutive_failures st < failure_threshold config) /\
  (exists start, path_between start (current st) (transitions st)).
Proof. apply reachable_inv. Qed.

(** Gating a refusing breaker any number of times leaves it as it is. *)
Definition refuses (config : CircuitConfig) (now : f64) (st : BreakerState) : Prop :=
  (exists reason, fst (before_call config now st) = Err (Unavailable reason)) /\
  snd (before_call config now st) = st.

Lemma half_open_refuses config st now :
  current st = HalfOpen -> probe_in_flight st = true -> refuses config now st.
Proof. intros Hcur Hp. unfold refuses, before_call. rewrite Hcur, Hp. simpl. eauto. Qed.

Lemma open_refuses config st t now :
  current st = Open -> opened_at_epoch_seconds st = Some t ->
  f64_ge (f64_sub now t) (cooldown_seconds config) = false -> refuses config now st.
Proof.
  intros Hcur Ho Hc. unfold refuses, before_call. rewrite Hcur, Ho. simpl. rewrite Hc. simpl. eauto.
Qed.

Lemma gates_refused config st nows :
  (forall now, now ∈ nows -> refuses config now st) -> run_events config (Gate <$> nows) st = st.
Proof.
  induction nows as [|now nows IH]; intros Hr; [done|]. unfold run_events in *. simpl.
  destruct (Hr now) as [_ ->]; [set_solver|]. apply IH. set_solver.
Qed.

(** Fail-closed gating: a reachable breaker lets a call through only when it
    is closed, or when it is open and the cooldown since the recorded opening has
    elapsed; the latter call takes the single probe slot, and from then on every
    gate, at any clock reading and however many are tried, is refused and changes
    nothing until an outcome is reported.  A NaN clock never passes an open
    breaker. *)
Theorem breaker_fail_closed config st now :
  reachable config st ->
  (fst (before_call config now st) = Ok tt ->
     current st = Closed /\ snd (before_call config now st) = st \/
     exists t st',
       current st = Open /\ opened_at_epoch_seconds st = Some t /\
       f64_ge (f64_sub now t) (cooldown_seconds config) = true /\
       st' = snd (before_call config now st) /\ current st' = HalfOpen /\
       forall nows now', run_events config (Gate <$> nows) st' = st' /\ refuses config now' st') /\
  (fst (before_call config now st) <> Ok tt -> refuses config now st) /\
  (current st = Open -> now = SpecFloat.S754_nan -> refuses config now st).
Proof.
  intros (Hp & Ho & _)%reachable_inv. split_and!.
  - unfold before_call. destruct (current st) eqn:Hcur; simpl; [by left| |].
    + destruct (opened_at_epoch_seconds st) as [t|] eqn:Ht; [|by destruct Ho as [Ho _]; specialize (Ho eq_refl)].
      simpl. destruct (f64_ge _ _) eqn:Hc; simpl; [|done]. intros _. right.
      do 2 eexists. split_and!; [done..|]. intros nows now'.
      split; [apply gates_refused; intros|]; by apply half_open_refuses.
    + assert (probe_in_flight st = true) as -> by by apply Hp. done.
  - intros Hn. unfold refuses. revert Hn. unfold before_call.
    destruct (gate_decision _ _ _); simpl; eauto; done.
  - intros Hcur ->. destruct (opened_at_epoch_seconds st) as [t|] eqn:Ht.
    + apply (open_refuses _ _ t); [done..|]. by destruct (cooldown_seconds config).
    + destruct Ho as [Ho _]. specialize (Ho eq_refl). congruence.
Qed.

(** Tripping: from the fresh breaker, [n] consecutive failures leave it
    closed with [n] recorded while [n] is below the threshold, and at the
    threshold it opens, stamped with the time of that failure; it then refuses
    every call until the cooldown has elapsed. *)
Theorem breaker_trips config ts t now :
  0 < failure_threshold config -> failure_threshold config <= u32_max ->
  let st := run_events config (Failure <$> ts) breaker_new in
  (N.of_nat (length ts) < failure_threshold config ->
     current st = Closed /\ consecutive_failures st = N.of_nat (length ts)) /\
  (N.of_nat (length ts) + 1 = failure_threshold config ->
     let st' := record_failure config t st in
     current st' = Open /\ opened_at_epoch_seconds st' = Some t /\
     (f64_ge (f64_sub now t) (cooldown_seconds config) = false -> refuses config now st')).
Proof.
  intros Hpos Hmax. cbv zeta.
  assert (N.of_nat (length ts) < failure_threshold config ->
    current (run_events config (Failure <$> ts) breaker_new) = Closed /\
    consecutive_failures (run_events config (Failure <$> ts) breaker_new) = N.of_nat (length ts))
    as Hrun.
  { induction ts as [|t' ts IH] using rev_ind; [done|]. rewrite length_app. simpl. intros Hlt.
    unfold run_events in *. rewrite fmap_app, foldl_app. simpl.
    destruct IH as [Hcur Hcf]; [lia|]. unfold record_failure. rewrite Hcur, Hcf.
    unfold saturating_add32. rewrite N.min_l by lia.
    destruct (N.leb_spec (failure_threshold config) (N.of_nat (length ts) + 1)); simpl; [lia|].
    split; [done|lia]. }
  split; [done|]. intros Hn. destruct Hrun as [Hcur Hcf]; [lia|].
  assert (current (record_failure config t (run_events config (Failure <$> ts) breaker_new)) = Open
    /\ opened_at_epoch_seconds
         (record_failure config t (run_events config (Failure <$> ts) breaker_new)) = Some t)
    as [Hopen Ht].
  { unfold record_failure. rewrite Hcur, Hcf. unfold saturating_add32. rewrite N.min_l by lia.
    by destruct (N.leb_spec (failure_threshold config) (N.of_nat (length ts) + 1)); [|lia]. }
  split_and!; [done..|]. intros Hc. by apply (open_refuses _ _ t).
Qed.

(** A late outcome frees the slot of a probe that has not answered: a call admitted
    while closed fails after the first probe was admitted, the breaker re-opens,
    and the next cooldown admits a second probe while the first is still out. *)
Example late_failure_admits_second_probe :
  let cfg := CircuitConfig_default in
  let t n := f64_of_Z n in
  let before_first := run_events cfg
    [Gate (t 0%Z); Failure (t 1%Z); Failure (t 2%Z); Failure (t 3%Z)] breaker_new in
  let before_second := run_events cfg [Gate (t 40%Z); Failure (t 41%Z)] before_first in
  fst (before_call cfg (t 40%Z) before_first) = Ok tt /\
  fst (before_call cfg (t 80%Z) before_second) = Ok tt.
Proof. by vm_compute. Qed.

(** ** Witnesses *)

Lemma breaker_invariant_witness :
  let st := step CircuitConfig_default (Failure (f64_of_Z 7)) breaker_new in
  consecutive_failures st <= u32_max.
Proof.
  apply (breaker_invariant CircuitConfig_default). apply reach_step, reach_new.
Defined.

Lemma breaker_fail_closed_witness :
  refuses CircuitConfig_default SpecFloat.S754_nan
    (run_events CircuitConfig_default
       [Failure (f64_of_Z 1); Failure (f64_of_Z 2); Failure (f64_of_Z 3)] breaker_new).
Proof.
  apply (breaker_fail_closed CircuitConfig_default); [|reflexivity|reflexivity].
  apply reach_step, reach_step, reach_step, reach_new.
Defined.

Lemma breaker_trips_witness :
  current (record_failure CircuitConfig_default (f64_of_Z 3)
    (run_events CircuitConfig_default (Failure <$> [f64_of_Z 1; f64_of_Z 2]) breaker_new)) = Open.
Proof.
  apply (breaker_trips CircuitConfig_default [f64_of_Z 1; f64_of_Z 2] (f64_of_Z 3) (f64_of_Z 4));
    [by vm_compute..].
Defined.
