(* ===== verification/Client.v ===== *)
(** * The Safety Kernel client: [authorize]

    Models [crates/domain/src/safety/decision.rs], the wire data and errors of
    [crates/adapters/safety_kernel_client/src/types.rs], and [authorize],
    [health], [public_key] and the audit trail of [client.rs].  The HTTP stack
    ([reqwest]) is a parameter: a function from the request sent to what comes
    back. *)

From S2P Require Import Prelude RustStr Float64 Crates Merkle Json Serde Token CircuitBreaker.

(** ** Data *)

Inductive KernelDecision :=
| Allow (token : string) (claims : VerifiedClaims)
| Deny (reason : string).

Inductive KernelClientError :=
| Transport (msg : string)
| Decode (msg : string)
| Verification (e : KernelTokenError)
| Decision (e : KernelDecisionError).

Record AuthorizeRequest := {
  rq_action : string;
  rq_params_fingerprint : string;
  rq_run_id : string;
  rq_subject : string;
  rq_traceparent : option string
}.

Record AuthorizeResponse := {
  claims_hint : option ClaimsMap;
  rs_token : string
}.

Record HealthResponse := { h_ok : bool; h_uptime_s : f64; h_version : string }.

Record PublicKeyResponse := {
  pk_algorithm : string;
  pk_ok : bool;
  pk_public_key_b64 : string;
  pk_public_key_fingerprint : string
}.

Record AuditEntry := {
  outcome : string;
  recorded_at_epoch_seconds : f64;
  ae_run_id : string;
  ae_subject : string;
  ae_traceparent : option string
}.

(** ** [reqwest] *)

(** The serialised request body: [traceparent] is [#[serde(skip)]]. *)
Definition authorize_body (r : AuthorizeRequest) : Value :=
  Obj [("action", Str (rq_action r)); ("params_fingerprint", Str (rq_params_fingerprint r));
       ("run_id", Str (rq_run_id r)); ("subject", Str (rq_subject r))].

Record HttpRequest := {
  url : string;
  headers : list (string * string);
  query : list (string * string);
  json : option Value
}.

(** What [send] and the body accessors give: a transport error, or a status with
    the body as text (an accessor may fail) and as JSON. *)
Record Response := {
  status : N;
  status_display : string;
  text : option string;
  resp_json : string + Value
}.

Class Reqwest := {
  (** [HeaderValue::from_str]: [None] if accepted, else the error's text *)
  header_value_error : string -> option string;
  (** the text of a body that is JSON but not of the type asked for *)
  decode_error : Value -> string
}.

(** ** The derived readings of the answers *)

Definition de_authorize_response (v : Value) : option AuthorizeResponse :=
  fs ← de_fields ["claims_hint"; "token"] v;
  match fs with
  | [hint; token] =>
    hint ← de_option de_btreemap hint; token ← de_req as_str token;
    Some {| claims_hint := hint; rs_token := token |}
  | _ => None
  end.

Definition de_health_response (v : Value) : option HealthResponse :=
  fs ← de_fields ["ok"; "uptime_s"; "version"] v;
  match fs with
  | [ok; uptime; version] =>
    ok ← de_req as_bool ok; uptime ← de_req as_f64 uptime; version ← de_req as_str version;
    Some {| h_ok := ok; h_uptime_s := uptime; h_version := version |}
  | _ => None
  end.

Definition de_public_key_response (v : Value) : option PublicKeyResponse :=
  fs ← de_fields ["algorithm"; "ok"; "public_key_b64"; "public_key_fingerprint"] v;
  match fs with
  | [algorithm; ok; key; fpr] =>
    algorithm ← de_req as_str algorithm; ok ← de_req as_bool ok; key ← de_req as_str key;
    fpr ← de_req as_str fpr;
    Some {| pk_algorithm := algorithm; pk_ok := ok; pk_public_key_b64 := key;
            pk_public_key_fingerprint := fpr |}
  | _ => None
  end.

(** A transport error carries its [Display] text. *)
Definition Send := HttpRequest -> string + Response.

Definition is_server_error (s : N) : bool := ((500 <=? s) && (s <? 600))%N.
Definition is_success (s : N) : bool := ((200 <=? s) && (s <? 300))%N.

Definition decode_json {A} (decode : Value -> string + A) (r : Response) : string + A :=
  match resp_json r with inl e => inl e | inr v => decode v end.

(** [resp.json::<A>().await], given the derived reading of [A]. *)
Definition read_json `{Reqwest} {A} (de : Value -> option A) (r : Response) : string + A :=
  decode_json (fun v => match de v with Some a => inr a | None => inl (decode_error v) end) r.

Section Client.
Context `{Ed25519} `{B64Url} `{SerdeJson} `{Reqwest}.

(** The mutable part of [SafetyKernelClient]. *)
Record Client := {
  breaker : BreakerState;
  audit : list AuditEntry
}.

(** The fixed part. *)
Record ClientConfig := {
  base_url : string;
  api_key : string;
  breaker_config : CircuitConfig;
  verifier : PinnedKeyVerifier
}.

(** The clock readings of one call, in order of use. *)
Record Readings := {
  t_gate : f64;      (* [before_call] *)
  t_verify : f64;    (* [verifier.verify] *)
  t_outcome : f64;   (* [record_success] or [record_failure] *)
  t_audit : f64      (* the audit entry *)
}.

Definition client_new : Client := {| breaker := breaker_new; audit := [] |}.

Definition record_audit (c : Client) (e : AuditEntry) : Client :=
  {| breaker := breaker c; audit := audit c ++ [e] |}.

Definition audit_entry (o : string) (now : f64) (r : AuthorizeRequest) : AuditEntry :=
  {| outcome := o; recorded_at_epoch_seconds := now; ae_run_id := rq_run_id r;
     ae_subject := rq_subject r; ae_traceparent := rq_traceparent r |}.

Definition with_breaker (c : Client) (b : BreakerState) : Client :=
  {| breaker := b; audit := audit c |}.

(** [x-api-key], and [traceparent] when given and well-formed. *)
Definition build_headers (cfg : ClientConfig) (traceparent : option string)
    : res KernelClientError (list (string * string)) :=
  match header_value_error (api_key cfg) with
  | Some e => Err (Transport ("bad api key header: " +:+ e))
  | None =>
    Ok (("x-api-key", api_key cfg) ::
        match traceparent with
        | Some tp => match header_value_error tp with
                     | None => [("traceparent", tp)]
                     | Some _ => []
                     end
        | None => []
        end)
  end.

Definition endpoint (cfg : ClientConfig) (path : string) : string :=
  trim_end_matches "/"%char (base_url cfg) +:+ path.

(** [POST /kernel/v1/authorize]. *)
Definition authorize (cfg : ClientConfig) (send : Send) (now : Readings) (request : AuthorizeRequest)
    (c : Client) : res KernelClientError KernelDecision * Client :=
  let entry o := audit_entry o (t_audit now) request in
  let (gate, b) := before_call (breaker_config cfg) (t_gate now) (breaker c) in
  let c := with_breaker c b in
  let fail c := with_breaker c (record_failure (breaker_config cfg) (t_outcome now) (breaker c)) in
  let succeed c := with_breaker c (record_success (t_outcome now) (breaker c)) in
  match gate with
  | Err e => (Err (Decision e), record_audit c (entry "UNAVAILABLE"))
  | Panic => (Panic, c)
  | Ok _ =>
    match build_headers cfg (rq_traceparent request) with
    | Err e => (Err e, c)
    | Panic => (Panic, c)
    | Ok hs =>
      match send {| url := endpoint cfg "/kernel/v1/authorize"; headers := hs; query := [];
                    json := Some (authorize_body request) |} with
      | inl e =>
        (Err (Decision (Unavailable ("kernel call failed: " +:+ e))),
         record_audit (fail c) (entry "UNAVAILABLE"))
      | inr resp =>
        if is_server_error (status resp) then
          (Err (Decision (Unavailable ("kernel returned " +:+ status_display resp))),
           record_audit (fail c) (entry "UNAVAILABLE"))
        else if (status resp =? 403)%N then
          (Ok (Deny (default "(no body)" (text resp))), record_audit (succeed c) (entry "DENY"))
        else if negb (is_success (status resp)) then
          (Err (Transport ("unexpected status " +:+ status_display resp +:+ ": " +:+
                           default "" (text resp))), c)
        else
          match read_json de_authorize_response resp with
          | inl e => (Err (Decode ("response decode failed: " +:+ e)), fail c)
          | inr body =>
            match pinned_verify (verifier cfg) (rs_token body) (t_verify now) with
            | Ok verified =>
              (Ok (Allow (rs_token body) verified), record_audit (succeed c) (entry "ALLOW"))
            | Err e => (Err (Verification e), record_audit c (entry "VERIFICATION_FAILED"))
            | Panic => (Panic, c)
            end
          end
      end
    end
  end.

(** [health] and [public_key]: outside the breaker and the audit trail. *)
Definition thin_get {A} (cfg : ClientConfig) (send : Send) (what path : string)
    (decode : Value -> option A) (traceparent : option string) : res KernelClientError A :=
  let? hs := build_headers cfg traceparent in
  match send {| url := endpoint cfg path; headers := hs; query := []; json := None |} with
  | inl e => Err (Decision (Unavailable ("kernel " +:+ what +:+ " call failed: " +:+ e)))
  | inr resp =>
    if negb (is_success (status resp))
    then Err (Decision (Unavailable ("kernel " +:+ what +:+ " returned " +:+ status_display resp)))
    else match read_json decode resp with
         | inl e => Err (Decode (what +:+ " response decode failed: " +:+ e))
         | inr a => Ok a
         end
  end.

Definition health (cfg : ClientConfig) (send : Send) (traceparent : option string) :=
  thin_get cfg send "health" "/kernel/v1/health" de_health_response traceparent.

Definition public_key (cfg : ClientConfig) (send : Send) (traceparent : option string) :=
  thin_get cfg send "public_key" "/kernel/v1/public_key" de_public_key_response traceparent.

(** ** Fail-closed authorisation *)

(** The request [authorize] sends. *)
Definition authorize_request (cfg : ClientConfig) (hs : list (string * string))
    (request : AuthorizeRequest) : HttpRequest :=
  {| url := endpoint cfg "/kernel/v1/authorize"; headers := hs; query := [];
     json := Some (authorize_body request) |}.

(** The answer to a call that was let through and sent. *)
Lemma authorize_answered cfg send now request c hs resp :
  fst (before_call (breaker_config cfg) (t_gate now) (breaker c)) = Ok tt ->
  build_headers cfg (rq_traceparent request) = Ok hs ->
  send (authorize_request cfg hs request) = inr resp ->
  fst (authorize cfg send now request c) =
  if is_server_error (status resp)
  then Err (Decision (Unavailable ("kernel returned " +:+ status_display resp)))
  else if (status resp =? 403)%N then Ok (Deny (default "(no body)" (text resp)))
  else if negb (is_success (status resp))
  then Err (Transport ("unexpected status " +:+ status_display resp +:+ ": " +:+ default "" (text resp)))
  else match read_json de_authorize_response resp with
       | inl e => Err (Decode ("response decode failed: " +:+ e))
       | inr body =>
         match pinned_verify (verifier cfg) (rs_token body) (t_verify now) with
         | Ok verified => Ok (Allow (rs_token body) verified)
         | Err e => Err (Verification e)
         | Panic => Panic
         end
       end.
Proof.
  intros Hg Hh Hs. unfold authorize. destruct (before_call _ _ _) as [gate b]. simpl in Hg. subst gate.
  rewrite Hh. unfold authorize_request in Hs. rewrite Hs.
  destruct (is_server_error _); [done|]. destruct (_ =? 403)%N; [done|]. destruct (negb _); [done|].
  destruct (read_json _ _); [done|]. by destruct (pinned_verify _ _ _).
Qed.

(** C18.  [authorize] fails closed.  It answers [Allow] only if the breaker let the
    call through, the kernel answered it with a success status, and the token in
    the body verifies under the pinned key at the client's clock, the claims
    returned being the verifier's; and when the breaker refuses, the answer is an
    unavailability error that does not depend on the network at all. *)
Theorem authorize_fail_closed cfg send now request c :
  (forall token claims c',
     authorize cfg send now request c = (Ok (Allow token claims), c') ->
     exists hs resp body,
       fst (before_call (breaker_config cfg) (t_gate now) (breaker c)) = Ok tt /\
       build_headers cfg (rq_traceparent request) = Ok hs /\
       send (authorize_request cfg hs request) = inr resp /\ is_success (status resp) = true /\
       read_json de_authorize_response resp = inr body /\ rs_token body = token /\
       token_accepted token (pinned_verifying_key (verifier cfg)) (t_verify now)
         (leeway_seconds (verifier cfg)) None claims /\
       current (breaker c') = Closed /\
       audit c' = audit c ++ [audit_entry "ALLOW" (t_audit now) request]) /\
  (forall e, fst (before_call (breaker_config cfg) (t_gate now) (breaker c)) = Err e ->
     (exists reason, e = Unavailable reason) /\ fst (authorize cfg send now request c) = Err (Decision e) /\
     forall send', authorize cfg send' now request c = authorize cfg send now request c).
Proof.
  unfold authorize. destruct (before_call _ _ _) as [gate b] eqn:Hg. simpl. split.
  - intros token claims c'. destruct gate as [[]| |]; [|done..].
    destruct (build_headers cfg _) as [hs| |] eqn:Hh; [|done..].
    change {| url := _ |} with (authorize_request cfg hs request).
    destruct (send _) as [e|resp] eqn:Hs; [done|].
    destruct (is_server_error _); [done|]. destruct (_ =? 403)%N; [done|].
    destruct (is_success (status resp)) eqn:Hst; simpl; [|done].
    destruct (read_json _ _) as [e|body] eqn:Hd; [done|].
    destruct (pinned_verify _ _ _) as [v| |] eqn:Hv; [|done..]. intros [= <- <- <-].
    apply verify_kernel_token_iff in Hv. exists hs, resp, body. split_and!; try done.
    simpl. unfold record_success. by destruct (current b).
  - intros e ->. split; [|done]. unfold before_call in Hg.
    destruct (gate_decision _ _ _); simplify_eq. by eexists.
Qed.

(** An [Allow] is bound to the pinned key and the clock, not to the request:
    two requests that differ in action, run, subject and fingerprint, but are
    answered alike, are decided alike.  The claims of the verified token are
    handed to the caller without being compared with what was asked. *)
Theorem authorize_ignores_request cfg send now r1 r2 c :
  rq_traceparent r1 = rq_traceparent r2 ->
  (forall hs, send (authorize_request cfg hs r1) = send (authorize_request cfg hs r2)) ->
  fst (authorize cfg send now r1 c) = fst (authorize cfg send now r2 c) /\
  breaker (snd (authorize cfg send now r1 c)) = breaker (snd (authorize cfg send now r2 c)).
Proof.
  intros Htp Hsend. unfold authorize. rewrite Htp.
  destruct (before_call _ _ _) as [gate b]. destruct gate as [[]| |]; simpl; [|done..].
  destruct (build_headers cfg _) as [hs| |]; simpl; [|done..].
  specialize (Hsend hs). unfold authorize_request in Hsend. rewrite Hsend. clear Hsend.
  destruct (send _) as [e|resp]; [done|].
  destruct (is_server_error _); [done|]. destruct (_ =? 403)%N; [done|].
  destruct (negb _); [done|]. destruct (read_json _ _) as [e|body]; [done|].
  by destruct (pinned_verify _ _ _).
Qed.

(** [authorize] always answers. *)
Lemma authorize_total cfg send now request c : fst (authorize cfg send now request c) <> Panic.
Proof.
  unfold authorize. destruct (before_call _ _ _) as [gate b] eqn:Hg.
  destruct gate as [[]| |]; [|done|].
  2: { unfold before_call in Hg. by destruct (gate_decision _ _ _). }
  unfold build_headers. destruct (header_value_error (api_key cfg)); [done|].
  destruct (send _) as [e|resp]; [done|].
  destruct (is_server_error _); [done|]. destruct (_ =? 403)%N; [done|].
  destruct (negb _); [done|]. destruct (read_json _ _) as [e|body]; [done|].
  destruct (pinned_verify _ _ _) eqn:Hv; [done..|]. by apply verify_kernel_token_total in Hv.
Qed.

(** ** The probe slot *)

(** A sequence of calls, one after the other. *)
Definition Call : Type := Send * Readings * AuthorizeRequest.
Fixpoint run_calls (cfg : ClientConfig) (calls : list Call) (c : Client)
    : list (res KernelClientError KernelDecision) * Client :=
  match calls with
  | [] => ([], c)
  | (send, now, request) :: calls =>
    let (r, c) := authorize cfg send now request c in
    let (rs, c) := run_calls cfg calls c in (r :: rs, c)
  end.

(** Statuses that are neither a server error, a denial nor a success. *)
Definition unexpected_status (s : N) : bool :=
  negb (is_server_error s) && negb (s =? 403)%N && negb (is_success s).

Lemma wedged_calls cfg calls c :
  current (breaker c) = HalfOpen -> probe_in_flight (breaker c) = true ->
  breaker (snd (run_calls cfg calls c)) = breaker c /\
  Forall (fun r => exists reason, r = Err (Decision (Unavailable reason)))
    (fst (run_calls cfg calls c)).
Proof.
  revert c. induction calls as [|[[send now] request] calls IH]; intros c Hcur Hp; simpl.
  - split; [done|constructor].
  - destruct (half_open_refuses (breaker_config cfg) (breaker c) (t_gate now) Hcur Hp)
      as [[reason Hr] Hb].
    unfold authorize. destruct (before_call _ _ _) as [gate b]. simpl in Hr, Hb. subst gate b.
    set (c1 := record_audit _ _). destruct (IH c1) as [Hb1 Hf]; [done..|].
    destruct (run_calls cfg calls c1) as [rs c2]. simpl in *. split; [done|]. constructor; eauto.
Qed.

(** The probe slot can leak: when the call admitted after the cooldown is
    answered with an unexpected status (a 404, say), [authorize] reports no
    outcome to the breaker and writes no audit entry; the breaker stays
    half-open with its slot taken, and every later call, whatever the network and
    the clock do, is refused as unavailable, for ever. *)
Theorem probe_slot_leak cfg send now request c t hs resp calls :
  reachable (breaker_config cfg) (breaker c) ->
  current (breaker c) = Open -> opened_at_epoch_seconds (breaker c) = Some t ->
  f64_ge (f64_sub (t_gate now) t) (cooldown_seconds (breaker_config cfg)) = true ->
  build_headers cfg (rq_traceparent request) = Ok hs ->
  send (authorize_request cfg hs request) = inr resp ->
  unexpected_status (status resp) = true ->
  let c' := snd (authorize cfg send now request c) in
  audit c' = audit c /\ current (breaker c') = HalfOpen /\
  breaker (snd (run_calls cfg calls c')) = breaker c' /\
  Forall (fun r => exists reason, r = Err (Decision (Unavailable reason)))
    (fst (run_calls cfg calls c')).
Proof.
  intros Hr Hcur Ht Hcool Hh Hs Hu. cbv zeta.
  assert (snd (authorize cfg send now request c) =
    with_breaker c (snd (before_call (breaker_config cfg) (t_gate now) (breaker c)))) as ->.
  { unfold authorize, before_call. rewrite Hcur, Ht. simpl. rewrite Hcool. simpl.
    rewrite Hh. unfold authorize_request in Hs. rewrite Hs. unfold unexpected_status in Hu.
    destruct (is_server_error _); [done|]. destruct (_ =? 403)%N; [done|].
    by destruct (is_success _). }
  assert (current (snd (before_call (breaker_config cfg) (t_gate now) (breaker c))) = HalfOpen /\
    probe_in_flight (snd (before_call (breaker_config cfg) (t_gate now) (breaker c))) = true)
    as [Hh' Hp'].
  { unfold before_call. rewrite Hcur, Ht. simpl. by rewrite Hcool. }
  split; [done|]. split; [done|]. by apply wedged_calls.
Qed.

End Client.

(** ** Witnesses *)

Module Demo.

#[local] Existing Instance demo_ed25519.
#[local] Existing Instance demo_b64.
#[local] Existing Instance DemoJson.demo_serde.

Definition reqwest : Reqwest := {|
  header_value_error := fun _ => None; decode_error := fun _ => "missing field" |}.
#[local] Existing Instance reqwest.

Definition cfg : ClientConfig := {|
  base_url := "https://kernel/"; api_key := "k"; breaker_config := CircuitConfig_default;
  verifier := {| pinned_verifying_key := verifying_key Token.Demo.key; fingerprint := "";
                 leeway_seconds := f64_of_Z 5 |} |}.

Definition request : AuthorizeRequest := {|
  rq_action := "deploy"; rq_params_fingerprint := "ab12"; rq_run_id := "run-1";
  rq_subject := "worker"; rq_traceparent := None |}.

Definition at_time (t : Z) : Readings :=
  {| t_gate := f64_of_Z t; t_verify := f64_of_Z t; t_outcome := f64_of_Z t; t_audit := f64_of_Z t |}.

(** A kernel that answers every request with the given status and JSON. *)
Definition answering (s : N) (v : Value) : Send := fun _ =>
  inr {| status := s; status_display := ""; text := None; resp_json := inr v |}.

Definition token_body (t : string) : Value := jobj [("token", Str t)].

Definition tripped : Client := {|
  breaker := run_events CircuitConfig_default
    [Failure (f64_of_Z 1); Failure (f64_of_Z 2); Failure (f64_of_Z 3)] breaker_new;
  audit := [] |}.

(** A signed token is let through by a closed breaker. *)
Example authorize_allows :
  match authorize cfg (answering 200 (token_body (sign_kernel_token Token.Demo.claims Token.Demo.key)))
          (at_time 1010) request client_new with
  | (Ok (Allow _ claims), _) => vc_claims claims = to_btreemap Token.Demo.claims
  | _ => False
  end.
Proof. vm_compute. reflexivity. Qed.

(** A worker asks to delete; a replayed token that allows a deployment is accepted. *)
Definition other_request : AuthorizeRequest := {|
  rq_action := "delete"; rq_params_fingerprint := "ff"; rq_run_id := "run-2";
  rq_subject := "api"; rq_traceparent := None |}.

Lemma authorize_ignores_request_witness :
  fst (authorize cfg (answering 200 (token_body (sign_kernel_token Token.Demo.claims Token.Demo.key)))
         (at_time 1010) other_request client_new) =
  fst (authorize cfg (answering 200 (token_body (sign_kernel_token Token.Demo.claims Token.Demo.key)))
         (at_time 1010) request client_new).
Proof.
  exact (proj1 (authorize_ignores_request cfg
    (answering 200 (token_body (sign_kernel_token Token.Demo.claims Token.Demo.key)))
    (at_time 1010) other_request request client_new eq_refl (fun _ => eq_refl))).
Defined.

Lemma probe_slot_leak_witness :
  current (breaker (snd (authorize cfg (answering 404 Null) (at_time 50) request tripped))) = HalfOpen.
Proof.
  apply (probe_slot_leak cfg (answering 404 Null) (at_time 50) request tripped (f64_of_Z 3)
    [("x-api-key", "k")]
    {| status := 404; status_display := ""; text := None; resp_json := inr Null |} []);
    [|by vm_compute..].
  apply reach_step, reach_step, reach_step, reach_new.
Defined.

End Demo.
