(* ===== verification/Middleware.v ===== *)
(** * The gating middleware

    Models [crates/adapters/safety_kernel_middleware/src]: the policy tiers and
    the static table ([policy.rs]), claims extraction ([extractor.rs]), the
    rejections ([error.rs]), the kernel-client trait ([client_trait.rs]) and the
    request handler ([service.rs]).  The client is an interface; the SDK of
    [Client.v] is one instance. *)

From S2P Require Import Prelude RustStr Float64 Crates Merkle Json Token CircuitBreaker Client.

(** ** Policy *)

Inductive MiddlewarePolicy := Unrestricted | Supervised | Gated.

Definition StaticPolicy := gmap (string * string) MiddlewarePolicy.

(** [table.insert((m, p), pol)] for each triple, in order. *)
Definition from_routes (routes : list (string * string * MiddlewarePolicy)) : StaticPolicy :=
  foldl (fun table r => <[fst r := snd r]> table) ∅ routes.

Definition resolve (policy : StaticPolicy) (method path : string) : MiddlewarePolicy :=
  default Unrestricted (policy !! (method, path)).

(** ** Rejections *)

Inductive MiddlewareError :=
| KernelUnavailable (reason : string)
| MDenied (reason : string)
| Forged (reason : string)
| BadRequest (reason : string).

Definition kind_str (e : MiddlewareError) : string :=
  match e with
  | KernelUnavailable _ => "kernel_unavailable"
  | MDenied _ => "denied"
  | Forged _ => "forged"
  | BadRequest _ => "bad_request"
  end.

(** [IntoResponse]: the status and the JSON body. *)
Definition into_response (e : MiddlewareError) : N * Value :=
  let (status, reason) := match e with
                          | KernelUnavailable reason => (503%N, reason)
                          | MDenied reason | Forged reason => (403%N, reason)
                          | BadRequest reason => (400%N, reason)
                          end in
  (status, Obj [("error", Str (kind_str e)); ("ok", Bool false); ("reason", Str reason)]).

(** [Display] of the token errors: transparent. *)
Definition token_error_display (e : KernelTokenError) : string :=
  match e with Format c | Signature c | Claims c | Expired c => c end.

(** ** Requests *)

(** The [http] types: header values are bytes that may not be text. *)
Class HttpTypes := header_to_str : list byte -> option string.

Record Parts := {
  method : string;
  path : string;
  hdrs : list (string * list byte)
}.

(** A body is collected to bytes, or fails with an error's text. *)
Definition Body : Type := string + list byte.

Record SafetyToken := { st_token : string; st_claims : VerifiedClaims }.

(** What reaches the inner service. *)
Record Forwarded := {
  fw_parts : Parts;
  fw_body : Body;
  fw_token : option SafetyToken
}.

Section Middleware.
Context `{Sha256} `{Hex} `{HttpTypes}.

Definition header_str (headers : list (string * list byte)) (key : string) : option string :=
  bt_get key headers ≫= header_to_str.

(** ["0".repeat(64)] *)
Definition zeros64 : string := Nat.iter 64 (String "0"%char) EmptyString.

(** [DefaultExtractor::extract]. *)
Definition extract (p : Parts) (body_bytes : option (list byte))
    : res MiddlewareError AuthorizeRequest :=
  let action := (method p +:+ ":" +:+ path p)%string in
  let? run_id := ok_or (BadRequest "missing required header: x-run-id")
                   (header_str (hdrs p) "x-run-id") in
  let? subject := ok_or (BadRequest "missing required header: x-subject")
                    (header_str (hdrs p) "x-subject") in
  let params_fingerprint :=
    match body_bytes with
    | Some (b :: bs) => hex_encode (arr_bytes (sha256 (b :: bs)))
    | _ => zeros64
    end in
  let traceparent := header_str (hdrs p) "traceparent" in
  Ok {| rq_action := action; rq_params_fingerprint := params_fingerprint; rq_run_id := run_id;
        rq_subject := subject; rq_traceparent := traceparent |}.

(** ** The client interface *)

(** [SafetyKernelClientTrait]: [authorize] on the client's state. *)
Class KernelClient (C : Type) :=
  kc_authorize : C -> AuthorizeRequest -> res KernelClientError KernelDecision * C.

(** What the middleware relies on: an [Allow] carries claims that [vouched] holds
    of, and the client does not panic. *)
Class FailClosedClient (C : Type) `{KernelClient C} (vouched : string -> VerifiedClaims -> Prop)
    : Prop := {
  kc_allow_vouched c rq token claims c' :
    kc_authorize c rq = (Ok (Allow token claims), c') -> vouched token claims;
  kc_total c rq : fst (kc_authorize c rq) <> Panic
}.

(** The answer to a request: forwarded to the inner service, or rejected. *)
Inductive Answer :=
| Forward (f : Forwarded)
| Reject (status : N) (body : Value)
| Panicked.

Definition reject (e : MiddlewareError) : Answer :=
  let (status, body) := into_response e in Reject status body.

(** [handle]: the answer, the client afterwards, and the authorisation request
    spawned in the background, if any. *)
Definition handle {C} `{KernelClient C} (policy : StaticPolicy) (parts : Parts) (body : Body) (c : C)
    : Answer * C * option AuthorizeRequest :=
  match resolve policy (method parts) (path parts) with
  | Unrestricted =>
    (Forward {| fw_parts := parts; fw_body := body; fw_token := None |}, c, None)
  | Supervised =>
    match body with
    | inl e => (reject (KernelUnavailable ("body collection failed: " +:+ e)), c, None)
    | inr bytes =>
      (Forward {| fw_parts := parts; fw_body := inr bytes; fw_token := None |}, c,
       match extract parts (Some bytes) with Ok rq => Some rq | _ => None end)
    end
  | Gated =>
    match body with
    | inl e => (reject (KernelUnavailable ("body collection failed: " +:+ e)), c, None)
    | inr bytes =>
      match extract parts (Some bytes) with
      | Err e => (reject e, c, None)
      | Panic => (Panicked, c, None)
      | Ok rq =>
        let (decision, c) := kc_authorize c rq in
        (match decision with
         | Ok (Allow token vc) =>
           Forward {| fw_parts := parts; fw_body := inr bytes;
                      fw_token := Some {| st_token := token; st_claims := vc |} |}
         | Ok (Deny reason) | Err (Decision (Denied reason)) => reject (MDenied reason)
         | Err (Verification e) => reject (Forged (token_error_display e))
         | Err (Decision (Unavailable reason)) | Err (Transport reason) | Err (Decode reason) =>
           reject (KernelUnavailable reason)
         | Panic => Panicked
         end, c, None)
      end
    end
  end.

(** ** Fail-closed gating *)

Lemma reject_status e : exists s body, reject e = Reject s body /\ (400 <= s)%N.
Proof. destruct e; do 2 eexists; (split; [reflexivity|lia]). Qed.

Lemma extract_total p b : extract p b <> Panic.
Proof.
  unfold extract. destruct (header_str _ "x-run-id"); [|done].
  by destruct (header_str _ "x-subject").
Qed.

(** C19.  Gating fails closed: on a gated route a request reaches the inner service
    only if the client answered [Allow] for exactly the extracted claims, and then
    unchanged but for the attached token, whose claims the client vouches for;
    every other outcome is an error status, and no background call is made. *)
Theorem gated_fail_closed {C} `{FailClosedClient C vouched} policy parts body (c : C) :
  resolve policy (method parts) (path parts) = Gated ->
  match handle policy parts body c with
  | (Forward f, c', spawned) =>
      spawned = None /\ fw_parts f = parts /\ fw_body f = body /\
      exists rq token claims bytes,
        body = inr bytes /\ extract parts (Some bytes) = Ok rq /\
        kc_authorize c rq = (Ok (Allow token claims), c') /\
        fw_token f = Some {| st_token := token; st_claims := claims |} /\ vouched token claims
  | (Reject status _, _, spawned) => (400 <= status)%N /\ spawned = None
  | (Panicked, _, _) => False
  end.
Proof.
  intros Hgated. unfold handle. rewrite Hgated.
  assert (forall e, match reject e with Reject s _ => (400 <= s)%N | _ => False end) as Hrej
    by (intros e; destruct (reject_status e) as (s & b & -> & Hs); done).
  destruct body as [e|bytes]; [by split|].
  destruct (extract parts (Some bytes)) as [rq|e|] eqn:Hx.
  - pose proof (kc_total c rq) as Ht.
    destruct (kc_authorize c rq) as [decision c'] eqn:Hk.
    destruct decision as [[token claims|reason]|[]|]; simpl in Ht;
      try (by split); try done; simpl.
    + split_and!; [done..|]. exists rq, token, claims, bytes. split_and!; [done..|].
      by eapply kc_allow_vouched.
    + destruct e; simpl; by split.
  - by destruct (reject e) eqn:Er; specialize (Hrej e); rewrite Er in Hrej.
  - by apply extract_total in Hx.
Qed.

End Middleware.

(** ** The SDK as the middleware's client *)

Section Sdk.
Context `{Ed25519} `{B64Url} `{SerdeJson} `{Reqwest}.
Context (cfg : ClientConfig) (send : Send) (now : Readings).

#[global] Instance sdk_client : KernelClient Client := fun c rq => authorize cfg send now rq c.

(** An [Allow] of the SDK is a token accepted under the pinned key. *)
Definition sdk_vouched (token : string) (claims : VerifiedClaims) : Prop :=
  token_accepted token (pinned_verifying_key (verifier cfg)) (t_verify now)
    (leeway_seconds (verifier cfg)) None claims.

Lemma authorize_allow_accepted rq c token claims c' :
  authorize cfg send now rq c = (Ok (Allow token claims), c') -> sdk_vouched token claims.
Proof.
  unfold authorize. destruct (before_call _ _ _) as [[[]| |] b]; [|done..].
  destruct (build_headers cfg _) as [hs| |]; [|done..]. destruct (send _) as [e|resp]; [done|].
  destruct (is_server_error _); [done|]. destruct (_ =? 403)%N; [done|].
  destruct (negb _); [done|]. destruct (read_json _ _) as [e|body]; [done|].
  destruct (pinned_verify _ _ _) eqn:Hv; [|done..]. intros [= <- <- _].
  by apply verify_kernel_token_iff.
Qed.

#[global] Instance sdk_fail_closed : FailClosedClient Client sdk_vouched.
Proof.
  split; [intros c rq token claims c'; apply authorize_allow_accepted|intros; apply authorize_total].
Qed.

End Sdk.

(** ** Witness *)

Module Demo.

#[local] Existing Instance demo_ed25519.
#[local] Existing Instance demo_b64.
#[local] Existing Instance demo_hex.
#[local] Existing Instance DemoJson.demo_serde.
#[local] Existing Instance Client.Demo.reqwest.
#[local] Instance sha : Sha256 := fun l => array_of 32 l.
#[local] Instance http : HttpTypes := fun b => Some (String.string_of_list_byte b).

Definition policy : StaticPolicy := from_routes [("POST", "/gated/run", Gated)].

Definition parts : Parts := {|
  method := "POST"; path := "/gated/run";
  hdrs := [("x-run-id", as_bytes "run-1"); ("x-subject", as_bytes "worker")] |}.

Definition kernel : Send :=
  Client.Demo.answering 200
    (Client.Demo.token_body (sign_kernel_token Token.Demo.claims Token.Demo.key)).

#[local] Existing Instance sdk_client.

(** With a kernel that allows, the request is forwarded with its token. *)
Lemma gated_fail_closed_witness :
  match @handle sha demo_hex http Client
          (sdk_client Client.Demo.cfg kernel (Client.Demo.at_time 1010))
          policy parts (inr [x01]) client_new with
  | (Forward f, _, spawned) => fw_parts f = parts /\ fw_body f = inr [x01] /\ spawned = None
  | _ => False
  end.
Proof.
  pose proof (@gated_fail_closed sha demo_hex http Client _ _
    (sdk_fail_closed Client.Demo.cfg kernel (Client.Demo.at_time 1010))
    policy parts (inr [x01]) client_new eq_refl) as Hg.
  destruct (handle policy parts (inr [x01]) client_new) as [[answer c'] spawned] eqn:Hh.
  destruct answer as [f|s b|].
  - destruct Hg as (Hs & Hp & Hb & _). split; [exact Hp|]. split; [exact Hb|exact Hs].
  - exfalso. vm_compute in Hh. discriminate Hh.
  - exact Hg.
Defined.

End Demo.
