(* ===== verification/Revoke.v ===== *)
(** * Coercive shutdown: the shared revoke contract

    Models [crates/domain/src/safety/revoke.rs]: the target, tier and trigger
    types, the two fingerprint recipes, the generation fence
    [honour_revocation], the kill and restore claim sets and the wire data, with
    the [serde] derivations that read the claim sets back. *)

From S2P Require Import Prelude RustStr Float64 Crates Merkle Json Serde Token.

(** ** Audiences and actions *)

Definition REVOKE_COMPUTE_AUD : string := "kernel/revoke/compute".
Definition REVOKE_COMPUTE_ACTION : string := "revoke_compute".
Definition REVOKE_RESTORE_AUD : string := "kernel/revoke/restore".
Definition REVOKE_RESTORE_ACTION : string := "revoke_restore".

(** ** Values *)

Inductive RevocationTier := Sigterm | Sigkill | CgroupKill | VmStop.
Inductive RevokeTrigger := OperatorEmergencyStop | RogueDetermination.

Record InstanceTarget := { project : string; zone : string; instance : string }.

#[global] Instance RevocationTier_eq_dec : EqDecision RevocationTier.
Proof. solve_decision. Defined.
#[global] Instance RevokeTrigger_eq_dec : EqDecision RevokeTrigger.
Proof. solve_decision. Defined.
#[global] Instance InstanceTarget_eq_dec : EqDecision InstanceTarget.
Proof. solve_decision. Defined.
#[global] Program Instance InstanceTarget_countable : Countable InstanceTarget :=
  inj_countable' (fun t => (project t, zone t, instance t))
    (fun p => {| project := p.1.1; zone := p.1.2; instance := p.2 |}) _.
Next Obligation. by intros []. Qed.

(** The variants by their [snake_case] names. *)
Definition tier_names : list (string * RevocationTier) :=
  [("sigterm", Sigterm); ("sigkill", Sigkill); ("cgroup_kill", CgroupKill); ("vm_stop", VmStop)].
Definition trigger_names : list (string * RevokeTrigger) :=
  [("operator_emergency_stop", OperatorEmergencyStop); ("rogue_determination", RogueDetermination)].

(** [serde_json::to_value]. *)
Definition tier_to_value (t : RevocationTier) : Value :=
  Str match t with
      | Sigterm => "sigterm"
      | Sigkill => "sigkill"
      | CgroupKill => "cgroup_kill"
      | VmStop => "vm_stop"
      end.
Definition trigger_to_value (t : RevokeTrigger) : Value :=
  Str match t with
      | OperatorEmergencyStop => "operator_emergency_stop"
      | RogueDetermination => "rogue_determination"
      end.
Definition target_to_value (t : InstanceTarget) : Value :=
  Obj (bt_collect [("project", Str (project t)); ("zone", Str (zone t));
                   ("instance", Str (instance t))]).
Definition opt_str (o : option string) : Value :=
  match o with Some s => Str s | None => Null end.

(** ** The generation fence *)

Record RevokeGates := {
  signature_verified : bool;
  not_expired : bool;
  nonce_unseen : bool;
  target_matches : bool
}.

Inductive RevokeRejectReason :=
| SignatureUnverified
| GateExpired
| NonceReplayed
| TargetMismatch
| GateStaleGeneration.

Inductive HonourDecision := Honour | Reject (r : RevokeRejectReason).

Definition honour_revocation (revocation_generation current_grant_generation : N)
    (gates : RevokeGates) : HonourDecision :=
  if negb (signature_verified gates) then Reject SignatureUnverified else
  if negb (not_expired gates) then Reject GateExpired else
  if negb (target_matches gates) then Reject TargetMismatch else
  if negb (nonce_unseen gates) then Reject NonceReplayed else
  if negb (revocation_generation =? current_grant_generation)%N then Reject GateStaleGeneration else
  Honour.

(** ** Claim sets *)

Record RevokeComputeClaims := {
  rc_aud : string;
  rc_run_id : string;
  rc_subject : string;
  rc_params_fingerprint : string;
  rc_issued_at : f64;
  rc_expires_at : f64;
  rc_nonce : string;
  rc_target : InstanceTarget;
  rc_target_generation : N;
  rc_tier : RevocationTier;
  rc_trigger : RevokeTrigger;
  rc_reason : option string
}.

#[global] Instance RevokeComputeClaims_to_btreemap : ToClaimsMap RevokeComputeClaims := fun c =>
  bt_collect [("action", Str REVOKE_COMPUTE_ACTION);
              ("aud", Str (rc_aud c));
              ("expires_at", json_f64 (rc_expires_at c));
              ("issued_at", json_f64 (rc_issued_at c));
              ("nonce", Str (rc_nonce c));
              ("params_fingerprint", Str (rc_params_fingerprint c));
              ("reason", opt_str (rc_reason c));
              ("run_id", Str (rc_run_id c));
              ("subject", Str (rc_subject c));
              ("target", target_to_value (rc_target c));
              ("target_generation", Num (PosInt (rc_target_generation c)));
              ("tier", tier_to_value (rc_tier c));
              ("trigger", trigger_to_value (rc_trigger c))].

Record RestoreClaims := {
  rs_aud : string;
  rs_run_id : string;
  rs_subject : string;
  rs_params_fingerprint : string;
  rs_issued_at : f64;
  rs_expires_at : f64;
  rs_nonce : string;
  rs_target : InstanceTarget;
  rs_reason : option string
}.

#[global] Instance RestoreClaims_to_btreemap : ToClaimsMap RestoreClaims := fun c =>
  bt_collect [("action", Str REVOKE_RESTORE_ACTION);
              ("aud", Str (rs_aud c));
              ("expires_at", json_f64 (rs_expires_at c));
              ("issued_at", json_f64 (rs_issued_at c));
              ("nonce", Str (rs_nonce c));
              ("params_fingerprint", Str (rs_params_fingerprint c));
              ("reason", opt_str (rs_reason c));
              ("run_id", Str (rs_run_id c));
              ("subject", Str (rs_subject c));
              ("target", target_to_value (rs_target c))].

(** ** Wire data *)

Record MintRevokeRequest := {
  mr_target : InstanceTarget;
  mr_tier : RevocationTier;
  mr_trigger : RevokeTrigger;
  mr_reason : option string
}.

Record RestoreRequest := { rr_target : InstanceTarget; rr_reason : option string }.

Record SignedRevokeResponse := {
  sgr_ok : bool;
  sgr_run_id : string;
  sgr_token : string;
  sgr_token_sha256 : string;
  sgr_claims : ClaimsMap
}.

Record PendingRevokeResponse := {
  pr_ok : bool;
  pr_pending : list string;
  pr_current_grant_generation : N
}.

Record RevokeAckRequest := { ra_run_id : string; ra_outcome : string }.

Record RevokeAckResponse := { rk_ok : bool; rk_run_id : string; rk_cleared : bool }.

(** ** The derived [Deserialize] implementations

    [serde_json::from_value] into a struct reads its fields by name, ignores
    unknown ones, and takes an absent [Option] field as [None].  A struct may
    also be given as the array of its fields and a unit variant as a one-entry
    object with a null. *)

Definition de_target (v : Value) : option InstanceTarget :=
  match v with
  | Obj m =>
    p ← bt_get "project" m ≫= as_str;
    z ← bt_get "zone" m ≫= as_str;
    i ← bt_get "instance" m ≫= as_str;
    Some {| project := p; zone := z; instance := i |}
  | Arr [Str p; Str z; Str i] => Some {| project := p; zone := z; instance := i |}
  | _ => None
  end.

Definition de_opt_str (v : option Value) : option (option string) :=
  match v with
  | None | Some Null => Some None
  | Some (Str s) => Some (Some s)
  | _ => None
  end.

(** [serde_json::from_value::<RevokeComputeClaims>(Value::Object(m)).ok()]. *)
Definition de_revoke_claims (m : ClaimsMap) : option RevokeComputeClaims :=
  aud ← bt_get "aud" m ≫= as_str;
  run_id ← bt_get "run_id" m ≫= as_str;
  subject ← bt_get "subject" m ≫= as_str;
  fp ← bt_get "params_fingerprint" m ≫= as_str;
  iat ← bt_get "issued_at" m ≫= as_f64;
  exp ← bt_get "expires_at" m ≫= as_f64;
  nonce ← bt_get "nonce" m ≫= as_str;
  target ← bt_get "target" m ≫= de_target;
  generation ← bt_get "target_generation" m ≫= de_u64;
  tier ← bt_get "tier" m ≫= de_unit_variant tier_names;
  trigger ← bt_get "trigger" m ≫= de_unit_variant trigger_names;
  reason ← de_opt_str (bt_get "reason" m);
  Some {| rc_aud := aud; rc_run_id := run_id; rc_subject := subject;
          rc_params_fingerprint := fp; rc_issued_at := iat; rc_expires_at := exp;
          rc_nonce := nonce; rc_target := target; rc_target_generation := generation;
          rc_tier := tier; rc_trigger := trigger; rc_reason := reason |}.

(** [serde_json::from_value::<RestoreClaims>(Value::Object(m)).ok()]. *)
Definition de_restore_claims (m : ClaimsMap) : option RestoreClaims :=
  aud ← bt_get "aud" m ≫= as_str;
  run_id ← bt_get "run_id" m ≫= as_str;
  subject ← bt_get "subject" m ≫= as_str;
  fp ← bt_get "params_fingerprint" m ≫= as_str;
  iat ← bt_get "issued_at" m ≫= as_f64;
  exp ← bt_get "expires_at" m ≫= as_f64;
  nonce ← bt_get "nonce" m ≫= as_str;
  target ← bt_get "target" m ≫= de_target;
  reason ← de_opt_str (bt_get "reason" m);
  Some {| rs_aud := aud; rs_run_id := run_id; rs_subject := subject;
          rs_params_fingerprint := fp; rs_issued_at := iat; rs_expires_at := exp;
          rs_nonce := nonce; rs_target := target; rs_reason := reason |}.

(** ** Fingerprints *)

Section Fingerprints.
Context `{Sha256} `{Hex} `{SerdeJson}.

Definition revoke_payload (run_id : string) (target : InstanceTarget) (target_generation : N)
    (tier : RevocationTier) (trigger : RevokeTrigger) (reason : option string) : Value :=
  Obj (bt_collect [("run_id", Str run_id);
                   ("target", target_to_value target);
                   ("target_generation", Num (PosInt target_generation));
                   ("tier", tier_to_value tier);
                   ("trigger", trigger_to_value trigger);
                   ("reason", opt_str reason)]).

Definition revoke_params_fingerprint (run_id : string) (target : InstanceTarget)
    (target_generation : N) (tier : RevocationTier) (trigger : RevokeTrigger)
    (reason : option string) : string :=
  params_fingerprint (revoke_payload run_id target target_generation tier trigger reason).

Definition restore_payload (run_id : string) (target : InstanceTarget) (reason : option string)
    : Value :=
  Obj (bt_collect [("run_id", Str run_id);
                   ("target", target_to_value target);
                   ("reason", opt_str reason)]).

Definition restore_params_fingerprint (run_id : string) (target : InstanceTarget)
    (reason : option string) : string :=
  params_fingerprint (restore_payload run_id target reason).

End Fingerprints.

(** ** Well-formedness: Rust strings are UTF-8 and generations fit a [u64] *)

Definition target_ok (t : InstanceTarget) : Prop :=
  utf8 (project t) = true /\ utf8 (zone t) = true /\ utf8 (instance t) = true.

Definition opt_str_ok (o : option string) : Prop := value_ok (opt_str o).

Definition revoke_claims_ok (c : RevokeComputeClaims) : Prop :=
  Forall (fun s => utf8 s = true)
    [rc_aud c; rc_run_id c; rc_subject c; rc_params_fingerprint c; rc_nonce c] /\
  target_ok (rc_target c) /\ u64_ok (rc_target_generation c) /\ opt_str_ok (rc_reason c).

Definition restore_claims_ok (c : RestoreClaims) : Prop :=
  Forall (fun s => utf8 s = true)
    [rs_aud c; rs_run_id c; rs_subject c; rs_params_fingerprint c; rs_nonce c] /\
  target_ok (rs_target c) /\ opt_str_ok (rs_reason c).

Lemma target_value_ok t : target_ok t -> value_ok (target_to_value t).
Proof.
  intros (? & ? & ?). unfold target_to_value. apply value_ok_obj.
  split; [by apply keys_sorted_spec|]. by repeat constructor.
Qed.

Lemma tier_value_ok t : value_ok (tier_to_value t).
Proof. by destruct t. Qed.
Lemma trigger_value_ok t : value_ok (trigger_to_value t).
Proof. by destruct t. Qed.

Lemma bool_value_ok b : value_ok (Bool b).
Proof. done. Qed.

Lemma depth_opt_str o : depth (opt_str o) = 0%nat.
Proof. by destruct o. Qed.

#[export] Hint Resolve target_value_ok tier_value_ok trigger_value_ok bool_value_ok json_f64_ok : wire.
#[export] Hint Rewrite depth_json_f64 depth_opt_str : wire.

(** Discharge [value_ok] of an object with concrete keys. *)
Ltac obj_ok :=
  apply value_ok_obj; split; [by apply keys_sorted_spec|];
  repeat (apply Forall_cons_2; [split; [reflexivity|unfold opt_str_ok in *; try exact eq_refl; cbn [snd]; eauto with wire]|]);
  try apply Forall_nil_2.

(** A struct that can be sent, its members in any order. *)
Definition members_ok (m : list (string * Value)) : Prop :=
  Forall (fun kv => utf8 (fst kv) = true /\ value_ok (snd kv)) m /\ (depth (Obj m) <= 127)%nat.

(** Members whose keys are written out. *)
Ltac members :=
  split; [repeat (apply Forall_cons_2; [split; [reflexivity|
            unfold opt_str_ok in *; try exact eq_refl; cbn [snd]; eauto with wire]|]);
          try apply Forall_nil_2|].

Lemma revoke_map_ok c :
  revoke_claims_ok c ->
  value_ok (Obj (to_btreemap c)) /\ (depth (Obj (to_btreemap c)) <= 127)%nat.
Proof.
  intros (Hs & Ht & Hg & Hr). rewrite !Forall_cons in Hs.
  destruct Hs as (? & ? & ? & ? & ? & _). split.
  - obj_ok.
  - simpl. autorewrite with wire. simpl. lia.
Qed.

Lemma restore_map_ok c :
  restore_claims_ok c ->
  value_ok (Obj (to_btreemap c)) /\ (depth (Obj (to_btreemap c)) <= 127)%nat.
Proof.
  intros (Hs & Ht & Hr). rewrite !Forall_cons in Hs.
  destruct Hs as (? & ? & ? & ? & ? & _). split.
  - obj_ok.
  - simpl. autorewrite with wire. simpl. lia.
Qed.

(** ** Reading back *)

Lemma de_target_to_value t : de_target (target_to_value t) = Some t.
Proof. by destruct t. Qed.
Lemma de_tier t : de_unit_variant tier_names (tier_to_value t) = Some t.
Proof. by destruct t. Qed.
Lemma de_trigger t : de_unit_variant trigger_names (trigger_to_value t) = Some t.
Proof. by destruct t. Qed.
Lemma de_opt_str_to_value o : de_opt_str (Some (opt_str o)) = Some o.
Proof. by destruct o. Qed.

#[export] Hint Rewrite de_target_to_value de_tier de_trigger de_opt_str_to_value : wire.

(** A kill's claims survive the trip through the signed map. *)
Lemma de_revoke_roundtrip c :
  f64_is_finite (rc_issued_at c) = true -> f64_is_finite (rc_expires_at c) = true ->
  de_revoke_claims (to_btreemap c) = Some c.
Proof.
  intros Hi He. unfold de_revoke_claims.
  cbv -[as_f64 json_f64 de_target target_to_value de_unit_variant tier_names trigger_names
    de_opt_str opt_str tier_to_value trigger_to_value].
  rewrite !json_f64_finite by done. autorewrite with wire. by destruct c.
Qed.

Lemma de_restore_roundtrip c :
  f64_is_finite (rs_issued_at c) = true -> f64_is_finite (rs_expires_at c) = true ->
  de_restore_claims (to_btreemap c) = Some c.
Proof.
  intros Hi He. unfold de_restore_claims.
  cbv -[as_f64 json_f64 de_target target_to_value de_unit_variant tier_names trigger_names
    de_opt_str opt_str tier_to_value trigger_to_value].
  rewrite !json_f64_finite by done. autorewrite with wire. by destruct c.
Qed.

(** ** Binding *)

Section Binding.
Context `{Sha256} `{Hex} `{SerdeJson} `{!HexCorrect} `{!SerdeJsonCorrect}.

(** The bytes a fingerprint hashes. *)
Definition fingerprinted (v : Value) : list byte := as_bytes (serde_to_string v).

Definition json_ok (v : Value) : Prop := value_ok v /\ (depth v <= 127)%nat.

Lemma fingerprinted_inj v w : json_ok v -> json_ok w -> fingerprinted v = fingerprinted w -> v = w.
Proof.
  intros [Hv Hdv] [Hw Hdw] Heq. pose proof (serde_roundtrip v Hv Hdv) as Hr.
  unfold fingerprinted in Heq. rewrite Heq, serde_roundtrip in Hr by done. by injection Hr.
Qed.

Lemma params_fingerprint_inj v w :
  json_ok v -> json_ok w -> params_fingerprint v = params_fingerprint w ->
  v = w \/ sha_collision (fingerprinted v) (fingerprinted w).
Proof.
  intros Hv Hw Heq. destruct (decide (fingerprinted v = fingerprinted w)) as [He|He].
  - left. by apply fingerprinted_inj.
  - right. split; [done|]. unfold params_fingerprint, sha256_hex in Heq.
    rewrite !sort_value_id in Heq by (apply Hv || apply Hw).
    apply (f_equal hex_decode) in Heq. rewrite !hex_roundtrip in Heq.
    injection Heq as Heq. by apply array_eq.
Qed.

Lemma revoke_payload_ok run_id target g tier trigger reason :
  utf8 run_id = true -> target_ok target -> u64_ok g -> opt_str_ok reason ->
  json_ok (revoke_payload run_id target g tier trigger reason).
Proof. intros. split; [obj_ok|]. simpl. autorewrite with wire. simpl. lia. Qed.

Lemma restore_payload_ok run_id target reason :
  utf8 run_id = true -> target_ok target -> opt_str_ok reason ->
  json_ok (restore_payload run_id target reason).
Proof. intros. split; [obj_ok|]. simpl. autorewrite with wire. simpl. lia. Qed.

Lemma target_to_value_inj t u : target_to_value t = target_to_value u -> t = u.
Proof.
  intros E. apply (f_equal de_target) in E. rewrite !de_target_to_value in E. by injection E.
Qed.
Lemma opt_str_inj a b : opt_str a = opt_str b -> a = b.
Proof. destruct a, b; simpl; congruence. Qed.

Lemma revoke_payload_inj r1 t1 g1 i1 w1 e1 r2 t2 g2 i2 w2 e2 :
  revoke_payload r1 t1 g1 i1 w1 e1 = revoke_payload r2 t2 g2 i2 w2 e2 ->
  r1 = r2 /\ t1 = t2 /\ g1 = g2 /\ i1 = i2 /\ w1 = w2 /\ e1 = e2.
Proof.
  intros E. injection E as Er -> Ep Ez Ei -> Et Ew. split_and!; try done.
  - destruct t1, t2; simpl in *; congruence.
  - apply (f_equal Str) in Et. apply (f_equal (de_unit_variant tier_names)) in Et.
    by destruct i1, i2.
  - by destruct w1, w2.
  - by apply opt_str_inj.
Qed.

(** C34.  The fingerprint binds the decision: two revocations with the same
    fingerprint are the same decision on the same target, generation, tier,
    trigger and reason under the same id, and no restore shares a fingerprint
    with a revocation, unless the two serialised payloads are an explicit SHA-256
    collision. *)
Theorem fingerprint_binds r1 t1 g1 i1 w1 e1 :
  utf8 r1 = true -> target_ok t1 -> u64_ok g1 -> opt_str_ok e1 ->
  (forall r2 t2 g2 i2 w2 e2,
     utf8 r2 = true -> target_ok t2 -> u64_ok g2 -> opt_str_ok e2 ->
     revoke_params_fingerprint r1 t1 g1 i1 w1 e1 = revoke_params_fingerprint r2 t2 g2 i2 w2 e2 ->
     (r1 = r2 /\ t1 = t2 /\ g1 = g2 /\ i1 = i2 /\ w1 = w2 /\ e1 = e2) \/
     sha_collision (fingerprinted (revoke_payload r1 t1 g1 i1 w1 e1))
                   (fingerprinted (revoke_payload r2 t2 g2 i2 w2 e2))) /\
  (forall r2 t2 e2,
     utf8 r2 = true -> target_ok t2 -> opt_str_ok e2 ->
     revoke_params_fingerprint r1 t1 g1 i1 w1 e1 = restore_params_fingerprint r2 t2 e2 ->
     sha_collision (fingerprinted (revoke_payload r1 t1 g1 i1 w1 e1))
                   (fingerprinted (restore_payload r2 t2 e2))).
Proof.
  intros Hr Ht Hg He. split.
  - intros r2 t2 g2 i2 w2 e2 ? ? ? ? [E|E]%params_fingerprint_inj;
      auto using revoke_payload_ok. left. by apply revoke_payload_inj.
  - intros r2 t2 e2 ? ? ? [E|E]%params_fingerprint_inj;
      auto using revoke_payload_ok, restore_payload_ok. done.
Qed.

End Binding.

(** The fence: honoured exactly when every gate passed and the generations agree. *)
Lemma honour_iff g cur gates :
  honour_revocation g cur gates = Honour <->
  signature_verified gates = true /\ not_expired gates = true /\ target_matches gates = true /\
  nonce_unseen gates = true /\ g = cur.
Proof.
  unfold honour_revocation. destruct gates as [[] [] [] []]; simpl; try naive_solver.
  destruct (N.eqb_spec g cur); naive_solver.
Qed.

Module Demo.
#[local] Existing Instance demo_hex.
#[local] Existing Instance DemoJson.demo_serde.
#[local] Instance sha : Sha256 := fun l => array_of 32 (rev l).

Definition vm (z : string) : InstanceTarget :=
  {| project := "proj"; zone := z; instance := "agent-vm" |}.

Lemma vm_ok z : utf8 z = true -> target_ok (vm z).
Proof. by intros. Qed.

Lemma fingerprint_binds_witness :
  sha_collision
    (fingerprinted (revoke_payload "r1" (vm "a") 0 VmStop RogueDetermination None))
    (fingerprinted (restore_payload "r1" (vm "a") None)) \/
  revoke_params_fingerprint "r1" (vm "a") 0 VmStop RogueDetermination None <>
  restore_params_fingerprint "r1" (vm "a") None.
Proof.
  destruct (decide (revoke_params_fingerprint "r1" (vm "a") 0 VmStop RogueDetermination None =
    restore_params_fingerprint "r1" (vm "a") None)) as [E|E]; [left|by right].
  apply (proj2 (fingerprint_binds "r1" (vm "a") 0 VmStop RogueDetermination None
    eq_refl (vm_ok "a" eq_refl) ltac:(by vm_compute) I)); [done|by apply vm_ok|done|exact E].
Defined.

End Demo.
