(* ===== verification/Auth.v ===== *)
(** * API-key authentication of the two services

    Models [crates/services/safety-kernel/src/auth.rs] (the per-role layer in
    front of every kernel route) and [crates/services/transparency-log/src/auth.rs]
    (the single-key layer of the log), and the kernel's error envelope
    ([dto.rs]).  The layers read the [x-api-key] header; [supplied] is its text,
    absent when there is no such header or it is not visible ASCII.  The
    [test-seams] feature, off in production builds, is left out. *)

From S2P Require Import Prelude RustStr Crates Merkle MerkleSpec Store Tlog.

Local Open Scope N_scope.

(** ** The constant-time comparison both services share *)

Fixpoint xor_or (diff : N) (ab : list (byte * byte)) : N :=
  match ab with
  | [] => diff
  | (x, y) :: ab => xor_or (N.lor diff (N.lxor (Byte.to_N x) (Byte.to_N y))) ab
  end.

Definition constant_time_eq (a b : list byte) : bool :=
  if negb (length a =? length b)%nat then false else xor_or 0 (zip a b) =? 0.

(** ** The kernel's error envelope *)

Record KernelErrorResponse := {
  ke_ok : bool;
  ke_error : string;
  ke_reason : option string
}.
Definition kernel_simple (error : string) : KernelErrorResponse :=
  {| ke_ok := false; ke_error := error; ke_reason := None |}.
Definition kernel_with_reason (error reason : string) : KernelErrorResponse :=
  {| ke_ok := false; ke_error := error; ke_reason := Some reason |}.

(** ** The kernel's layer *)

Record AuthSettings := {
  auth_mode : string;
  env : string;
  api_key_worker : option string;
  api_key_api : option string;
  api_key_operator : option string;
  api_key_reaper : option string
}.

Inductive AuthOutcome :=
| PublicPath                                           (* forwarded without a role *)
| Denied (status : N) (body : KernelErrorResponse)
| CallerRole (role : string).                          (* forwarded with the role *)

Definition kernel_is_public_path (path : string) : bool :=
  String.eqb path "/health" || String.eqb path "/kernel/v1/health"
  || String.eqb path "/kernel/v1/public_key".

Definition auth_layer (s : AuthSettings) (path : string) (supplied : option string)
    : AuthOutcome :=
  if kernel_is_public_path path then PublicPath else
  if negb (String.eqb (auth_mode s) "api_key")
  then Denied 503 (kernel_simple "auth_misconfigured") else
  let worker_key := default "" (api_key_worker s) in
  let api_key := default "" (api_key_api s) in
  let operator_key := default "" (api_key_operator s) in
  let reaper_key := default "" (api_key_reaper s) in
  if is_empty worker_key || is_empty api_key
  then Denied 503 (kernel_simple "auth_misconfigured") else
  if (String.eqb (env s) "prod" || String.eqb (env s) "production") && is_empty operator_key
  then Denied 503 (kernel_simple "auth_misconfigured") else
  let supplied := default "" supplied in
  if is_empty supplied then Denied 401 (kernel_simple "unauthorized") else
  let matches key := negb (is_empty key) && constant_time_eq (as_bytes supplied) (as_bytes key) in
  if matches worker_key then CallerRole "worker" else
  if matches api_key then CallerRole "api" else
  if matches operator_key then CallerRole "operator" else
  if matches reaper_key then CallerRole "reaper" else
  Denied 401 (kernel_simple "unauthorized").

(** ** The log's layer: [None] forwards the request *)

Definition tlog_is_public_path (path : string) : bool :=
  String.eqb path "/health" || String.eqb path "/v1/keys/transparency".

Definition tlog_auth_layer (configured path : string) (supplied : option string)
    : option (N * ErrorResponse) :=
  if tlog_is_public_path path then None else
  if is_empty configured then Some (503, simple "auth_misconfigured") else
  let supplied := default "" supplied in
  if is_empty supplied then Some (401, simple "unauthorized") else
  if negb (constant_time_eq (as_bytes supplied) (as_bytes configured))
  then Some (401, simple "unauthorized") else
  None.

(** ** Lemmas *)

Lemma lor_zero a b : N.lor a b = 0 <-> a = 0 /\ b = 0.
Proof. apply N.lor_eq_0_iff. Qed.

Lemma xor_or_zero ab diff :
  xor_or diff ab = 0 <-> diff = 0 /\ Forall (fun p => fst p = snd p) ab.
Proof.
  revert diff. induction ab as [|[x y] ab IH]; intros diff; simpl.
  - rewrite Forall_nil. tauto.
  - rewrite IH, lor_zero, N.lxor_eq_0_iff, Forall_cons. simpl.
    assert (Byte.to_N x = Byte.to_N y <-> x = y) as ->; [|tauto].
    split; [|by intros ->]. intros E. apply (f_equal Byte.of_N) in E.
    rewrite !Byte.of_to_N in E. congruence.
Qed.

(** The XOR accumulation decides equality. *)
Lemma constant_time_eq_spec a b : constant_time_eq a b = true <-> a = b.
Proof.
  unfold constant_time_eq. destruct (Nat.eqb_spec (length a) (length b)) as [E|E]; simpl.
  - rewrite N.eqb_eq, xor_or_zero. split; [intros [_ Hf]|intros ->; split; [done|]].
    + revert b E Hf. induction a as [|x a IH]; intros [|y b] E Hf; simpl in *; try done.
      apply Forall_cons in Hf as [Hxy Hf]. simpl in Hxy. subst y. f_equal. apply IH; [lia|done].
    + clear E. induction b; simpl; by constructor.
  - split; [done|]. by intros ->.
Qed.

Lemma constant_time_eq_str s t :
  constant_time_eq (as_bytes s) (as_bytes t) = true <-> s = t.
Proof. rewrite constant_time_eq_spec. split; [apply as_bytes_inj|by intros ->]. Qed.

(** The key configured for a role. *)
Definition role_key (s : AuthSettings) (role : string) : option string :=
  if String.eqb role "worker" then api_key_worker s
  else if String.eqb role "api" then api_key_api s
  else if String.eqb role "operator" then api_key_operator s
  else if String.eqb role "reaper" then api_key_reaper s
  else None.

Lemma key_matches_iff supplied (o : option string) :
  negb (is_empty (default "" o)) && constant_time_eq (as_bytes supplied) (as_bytes (default "" o))
    = true <->
  o = Some supplied /\ supplied <> "".
Proof.
  rewrite andb_true_iff, negb_true_iff, constant_time_eq_str.
  destruct o as [[|a k]|]; simpl; [naive_solver..|]. split; [by intros [? _]|by intros []].
Qed.

Lemma role_key_unique s r1 r2 key :
  NoDup (omap (role_key s) ["worker"; "api"; "operator"; "reaper"]) ->
  role_key s r1 = Some key -> role_key s r2 = Some key -> r1 = r2.
Proof.
  assert (forall r k, role_key s r = Some k -> r ∈ ["worker"; "api"; "operator"; "reaper"]) as Hin.
  { intros r k. unfold role_key.
    repeat match goal with |- context [String.eqb r ?n] =>
      destruct (String.eqb_spec r n) as [->|]; [set_solver|] end. done. }
  intros Hnd H1 H2. pose proof (Hin _ _ H1) as I1. pose proof (Hin _ _ H2) as I2.
  cbn [omap list_omap] in Hnd. rewrite !elem_of_cons, elem_of_nil in I1, I2.
  destruct I1 as [->|[->|[->|[->|[]]]]], I2 as [->|[->|[->|[->|[]]]]]; try done; exfalso;
    rewrite H1, H2 in Hnd; repeat case_match; rewrite ?NoDup_cons in Hnd; set_solver.
Qed.

(** Roles are earned: the kernel's layer forwards a request to a protected
    route under a role only if the caller presented, non-empty, exactly the key
    configured for that role, so a role whose key is unset is held by nobody and
    the comparison's constant-time loop decides equality; without a matching key
    the answer is 401, and a layer whose keys are not all configured refuses
    everything with 503.  When the four keys differ each key has one role. *)
Theorem roles_are_earned s path supplied :
  match auth_layer s path supplied with
  | PublicPath => kernel_is_public_path path = true
  | CallerRole role =>
      kernel_is_public_path path = false /\ auth_mode s = "api_key" /\
      exists key, supplied = Some key /\ key <> "" /\ role_key s role = Some key /\
        (forall role', role_key s role' = Some key ->
           NoDup (omap (role_key s) ["worker"; "api"; "operator"; "reaper"]) -> role' = role)
  | Denied status body =>
      kernel_is_public_path path = false /\
      (status = 503 /\ body = kernel_simple "auth_misconfigured" \/
       status = 401 /\ body = kernel_simple "unauthorized" /\
       forall role key, supplied = Some key -> key <> "" -> role_key s role <> Some key)
  end.
Proof.
  unfold auth_layer. destruct (kernel_is_public_path path) eqn:Hpub; [done|].
  destruct (String.eqb_spec (auth_mode s) "api_key") as [Hmode|]; simpl; [|eauto].
  destruct (is_empty (default "" (api_key_worker s)) || _) eqn:Hkeys; [eauto|].
  destruct ((_ || _) && is_empty _); [eauto|].
  destruct supplied as [key|]; simpl; [|split; [done|right; by split_and!]].
  destruct (is_empty key) eqn:Hne; [split; [done|right; split_and!; [done..|]];
    intros role k [= ->]; by destruct k|].
  apply orb_false_iff in Hkeys as [Hw Ha].
  repeat match goal with
  | |- context [if negb (is_empty ?k) && ?c then _ else _] =>
      let E := fresh "E" in destruct (negb (is_empty k) && c) eqn:E
  end.
  all: rewrite ?key_matches_iff, <-?not_true_iff_false, ?key_matches_iff in *.
  1-4: split; [done|]; split; [done|]; exists key; split; [done|]; split; [by intros ->|].
  1-4: split; [naive_solver|]; intros role' Hr' Hnd.
  1-4: apply (role_key_unique s role' _ key Hnd Hr'); naive_solver.
  split; [done|]. right. split_and!; [done..|]. intros role k [= <-] Hk.
  unfold role_key. repeat case_match; naive_solver.
Qed.
