(* ===== verification/TlogClient.v ===== *)
(** * Writing to the transparency log: the kernel and the reaper as clients

    Models the append client of the kernel
    ([crates/services/safety-kernel/src/transparency_client.rs]), the kill
    recorder of the reaper ([crates/services/safety-kernel-reaper/src/tlog.rs]) and
    the log's [POST /v1/append] as they meet it: authentication layer, JSON body,
    handler and JSON answer.  [TlogClient] is the interface the kernel's handlers
    rely on; the kernel's HTTP client in front of the log service implements it. *)

From S2P Require Import Prelude RustStr Float64 Crates Json Serde Token CircuitBreaker Client Revoke.
From S2P Require Import Merkle MerkleSpec MerkleProofs HashTree Store Async Sth Tlog Auth.

Abbreviation HttpRequest := Client.HttpRequest.
Abbreviation Response := Client.Response.
Abbreviation InstanceTarget := Revoke.InstanceTarget.

Local Open Scope N_scope.

(** ** Data *)

Record TransparencyAppendInput := {
  ti_idempotency_key : array 32;
  ti_payload : list byte;
  ti_occurred_at_epoch_seconds : N
}.

Record TransparencyAppendOutcome := {
  to_leaf_index : N;
  to_idempotent_replay : bool
}.

Inductive TransparencyError :=
| TUnreachable (detail : string)
| TRejected (status_code : N) (detail : string)
| TServerError (status_code : N) (detail : string)
| TConflict
| TMalformed (detail : string)
| TProtocolViolation (msg : string).

Definition kind (e : TransparencyError) : string :=
  match e with
  | TUnreachable _ => "unreachable"
  | TRejected _ _ => "append_failed"
  | TServerError _ _ => "server_error"
  | TConflict => "conflict"
  | TMalformed _ => "malformed_response"
  | TProtocolViolation _ => "protocol_violation"
  end.

(** ** The interface

    [tokio::time::timeout(timeout, client.append(input)).await]: [None] when the
    time elapsed first, whether or not the log took the entry. *)
Class TlogClient (T : Type) :=
  tlog_append : TransparencyAppendInput -> T -> option (TransparencyError + TransparencyAppendOutcome) * T.

(** What the kernel's handlers count on, while the log is in good order
    ([tl_ok]): entries stay, a success means the payload is in the ledger under
    its key, and a conflict that another payload is.  [tl_row t k p] says that
    the ledger holds payload [p] under idempotency key [k]. *)
Class TlogLaws (T : Type) `{TlogClient T} := {
  tl_ok : T -> Prop;
  tl_row : T -> array 32 -> list byte -> Prop;
  tl_mono t i k p : tl_ok t -> tl_row t k p -> tl_row (snd (tlog_append i t)) k p;
  tl_recorded t i o :
    tl_ok t -> fst (tlog_append i t) = Some (inr o) ->
    tl_row (snd (tlog_append i t)) (ti_idempotency_key i) (ti_payload i);
  tl_conflict t i :
    tl_ok t -> fst (tlog_append i t) = Some (inl TConflict) ->
    exists p, p <> ti_payload i /\ tl_row (snd (tlog_append i t)) (ti_idempotency_key i) p
}.

(** ** The HTTP client *)

(** The text of a JSON type error, the answers of the framework to a body it
    cannot read, and the [Display] of a status code. *)
Class Axum := {
  json_error_display : Value -> string;
  json_rejection : option Value -> N * string;
  status_code_display : N -> string
}.

Definition truncate (s : string) (max : nat) : string := take_chars max s.

Section TlogClient.
Context `{Sha256} `{Ed25519} `{Hex} `{B64Url} `{SerdeJson} `{Axum}.

Definition idempotency_key_for_token (token : string) : array 32 := sha256 (as_bytes token).

(** The wire body shared by the two clients. *)
Definition append_body (key : array 32) (fingerprint : string) (occurred_at : N)
    (payload : list byte) : Value :=
  Obj [("idempotency_key_hex", Str (hex_encode (arr_bytes key)));
       ("kernel_key_fingerprint_sha256", Str fingerprint);
       ("occurred_at_epoch_seconds", Num (PosInt occurred_at));
       ("token_b64", Str (b64url_encode payload))].

Definition append_http_request (base_url api_key : string) (body : Value) : HttpRequest :=
  {| Client.url := trim_end_matches "/"%char base_url +:+ "/v1/append";
     Client.headers := [("x-api-key", api_key)]; Client.query := []; Client.json := Some body |}.

Record AppendResponseBody := {
  ab_entry_id : string;
  ab_idempotent_replay : bool;
  ab_leaf_hash_hex : string;
  ab_leaf_index : N;
  ab_ok : bool
}.

Definition de_append_response (v : Value) : option AppendResponseBody :=
  match v with
  | Obj m =>
    e ← bt_get "entry_id" m ≫= as_str;
    r ← bt_get "idempotent_replay" m ≫= as_bool;
    h ← bt_get "leaf_hash_hex" m ≫= as_str;
    i ← bt_get "leaf_index" m ≫= de_u64;
    o ← bt_get "ok" m ≫= as_bool;
    Some {| ab_entry_id := e; ab_idempotent_replay := r; ab_leaf_hash_hex := h;
            ab_leaf_index := i; ab_ok := o |}
  | Arr [Str e; Bool r; Str h; Num (PosInt i); Bool o] =>
    Some {| ab_entry_id := e; ab_idempotent_replay := r; ab_leaf_hash_hex := h;
            ab_leaf_index := i; ab_ok := o |}
  | _ => None
  end.

Record ReqwestTransparencyClient := {
  tc_base_url : string;
  tc_api_key : string;
  tc_kernel_key_fingerprint_hex : string
}.

Definition client_request (c : ReqwestTransparencyClient) (i : TransparencyAppendInput)
    : HttpRequest :=
  append_http_request (tc_base_url c) (tc_api_key c)
    (append_body (ti_idempotency_key i) (tc_kernel_key_fingerprint_hex c)
       (ti_occurred_at_epoch_seconds i) (ti_payload i)).

(** What [append] makes of the answer to its request. *)
Definition client_result (i : TransparencyAppendInput) (answer : string + Response)
    : TransparencyError + TransparencyAppendOutcome :=
  match answer with
  | inl e => inl (TUnreachable (truncate e 300))
  | inr resp =>
    let status := Client.status resp in
    if status =? 409 then inl TConflict else
    if Client.is_success status then
      match Client.decode_json (fun v => match de_append_response v with
                                         | Some b => inr b
                                         | None => inl (json_error_display v)
                                         end) resp with
      | inl e => inl (TMalformed (truncate e 300))
      | inr parsed =>
        let expected := leaf_hash (ti_payload i) in
        match hex_decode (ab_leaf_hash_hex parsed) with
        | inl _ => inl (TProtocolViolation ("non-hex leaf_hash returned by t-log (got " +:+
                     u64_to_string (nlen (as_bytes (ab_leaf_hash_hex parsed))) +:+ " chars)"))
        | inr returned =>
          if bool_decide (arr_bytes expected <> returned) then
            inl (TProtocolViolation ("leaf_hash mismatch — t-log lied about what it stored " +:+
                   "(expected " +:+ hex_encode (arr_bytes expected) +:+ ", got " +:+
                   truncate (ab_leaf_hash_hex parsed) 64 +:+ ")"))
          else inr {| to_leaf_index := ab_leaf_index parsed;
                      to_idempotent_replay := ab_idempotent_replay parsed |}
        end
      end
    else
      let detail := truncate (default "" (Client.text resp)) 300 in
      if Client.is_server_error status then inl (TServerError status detail)
      else inl (TRejected status detail)
  end.

(** ** The reaper's kill recorder *)

Record KillRecord := {
  kr_kind : string;
  kr_run_id : string;
  kr_nonce : string;
  kr_token_sha256 : string;
  kr_target : InstanceTarget;
  kr_outcome_instance : string;
  kr_outcome_op_id : string;
  kr_outcome_prev_state : string;
  kr_occurred_at_epoch_seconds : N
}.

(** [serde_json::to_vec]: the members in the order of the struct. *)
Definition payload_bytes (r : KillRecord) : list byte :=
  as_bytes (serde_to_string (Obj
    [("kind", Str (kr_kind r)); ("run_id", Str (kr_run_id r)); ("nonce", Str (kr_nonce r));
     ("token_sha256", Str (kr_token_sha256 r));
     ("target", Obj [("project", Str (Revoke.project (kr_target r)));
                     ("zone", Str (Revoke.zone (kr_target r)));
                     ("instance", Str (Revoke.instance (kr_target r)))]);
     ("outcome_instance", Str (kr_outcome_instance r));
     ("outcome_op_id", Str (kr_outcome_op_id r));
     ("outcome_prev_state", Str (kr_outcome_prev_state r));
     ("occurred_at_epoch_seconds", Num (PosInt (kr_occurred_at_epoch_seconds r)))])).

Record ReqwestKillRecorder := {
  rk_base_url : string;
  rk_api_key : string;
  rk_kernel_key_fingerprint_hex : string
}.

Definition recorder_request (c : ReqwestKillRecorder) (r : KillRecord) : HttpRequest :=
  let payload := payload_bytes r in
  append_http_request (rk_base_url c) (rk_api_key c)
    (append_body (sha256 payload) (rk_kernel_key_fingerprint_hex c)
       (kr_occurred_at_epoch_seconds r) payload).

(** [None] is success; an error carries the text of [KillRecorderError::Append]. *)
Definition recorder_result (answer : string + Response) : option string :=
  match answer with
  | inl e => Some e
  | inr resp =>
    if Client.is_success (Client.status resp) || (Client.status resp =? 409) then None
    else Some ("status=" +:+ u64_to_string (Client.status resp) +:+ " body=" +:+
               take_chars 200 (default "" (Client.text resp)))
  end.

(** The recorder as the reaper's [main] builds it from its pinned key. *)
Definition main_kill_recorder (url api_key : string) (v : PinnedKeyVerifier) : ReqwestKillRecorder :=
  {| rk_base_url := url; rk_api_key := api_key; rk_kernel_key_fingerprint_hex := fingerprint v |}.

(** The fingerprint the log's [main] pins, from the kernel's public key; the
    kernel's [main] computes the one it sends the same way. *)
Definition main_kernel_key_fingerprint (kernel_pk : array 32) : string :=
  hex_encode (arr_bytes (sha256 (arr_bytes kernel_pk))).

(** ** The log's side of [POST /v1/append] *)

(** [deny_unknown_fields]. *)
Definition de_append_request (v : Value) : option AppendRequest :=
  match v with
  | Obj m =>
    if forallb (fun kv => bool_decide (fst kv ∈ ["idempotency_key_hex";
         "kernel_key_fingerprint_sha256"; "occurred_at_epoch_seconds"; "token_b64"])) m then
      k ← bt_get "idempotency_key_hex" m ≫= as_str;
      f ← bt_get "kernel_key_fingerprint_sha256" m ≫= as_str;
      o ← bt_get "occurred_at_epoch_seconds" m ≫= de_u64;
      t ← bt_get "token_b64" m ≫= as_str;
      Some {| idempotency_key_hex := k; kernel_key_fingerprint_sha256 := f;
              ar_occurred_at_epoch_seconds := o; token_b64 := t |}
    else None
  | Arr [Str k; Str f; Num (PosInt o); Str t] =>
    Some {| idempotency_key_hex := k; kernel_key_fingerprint_sha256 := f;
            ar_occurred_at_epoch_seconds := o; token_b64 := t |}
  | _ => None
  end.

Definition append_response_value (r : AppendResponse) : Value :=
  Obj [("entry_id", Str (entry_id r)); ("idempotent_replay", Bool (idempotent_replay r));
       ("leaf_hash_hex", Str (leaf_hash_hex r)); ("leaf_index", Num (PosInt (ar_leaf_index r)));
       ("ok", Bool (ar_ok r))].

(** [reason] is skipped when absent. *)
Definition error_response_value (r : ErrorResponse) : Value :=
  Obj ([("error", Str (er_error r)); ("ok", Bool (er_ok r))] ++
       match er_reason r with Some s => [("reason", Str s)] | None => [] end).

(** A JSON answer as the client receives it. *)
Definition json_response (status : N) (v : Value) : Response :=
  let body := serde_to_string v in
  {| Client.status := status; Client.status_display := status_code_display status;
     Client.text := Some body; Client.resp_json := serde_from_slice (as_bytes body) |}.

Definition text_response (status : N) (body : string) : Response :=
  {| Client.status := status; Client.status_display := status_code_display status;
     Client.text := Some body; Client.resp_json := serde_from_slice (as_bytes body) |}.

Context {St : Type} `{TransparencyStore St}.

(** [headers().get(name)]: the first value. *)
Definition request_header (req : HttpRequest) (name : string) : option string :=
  (fun ikv => snd (snd ikv)) <$> list_find (fun kv => fst kv = name) (Client.headers req).

(** A panic in a handler drops the connection. *)
Definition append_service (cfg : Config) (configured_key : string) (req : HttpRequest)
    (w : World St) : (string + Response) * World St :=
  match tlog_auth_layer configured_key "/v1/append" (request_header req "x-api-key") with
  | Some (status, body) => (inr (json_response status (error_response_value body)), w)
  | None =>
    match Client.json req ≫= de_append_request with
    | None => let (status, msg) := json_rejection (Client.json req) in
              (inr (text_response status msg), w)
    | Some body =>
      match run (append cfg body) w with
      | (Ok (status, r), w') => (inr (json_response status (append_response_value r)), w')
      | (Err e, w') => let (status, b) := into_response e in
                       (inr (json_response status (error_response_value b)), w')
      | (Panic, w') => (inl "connection closed before message completed", w')
      end
    end
  end.

(** ** The kernel's client in front of the log *)

(** The kernel's client [c] talking to the log over a network that delivers. *)
Definition log_client (c : ReqwestTransparencyClient) (cfg : Config) (configured_key : string)
    : TlogClient (World St) := fun i w =>
  let (answer, w') := append_service cfg configured_key (client_request c i) w in
  (Some (client_result i answer), w').

Context `{!StoreLaws St} `{!HexCorrect} `{!B64UrlCorrect} `{!SerdeJsonCorrect}.

(** An authenticated request with the shared body reaches the handler as encoded. *)
Lemma append_service_encoded cfg url key k f o p (w : World St) :
  key <> "" ->
  append_service cfg key (append_http_request url key (append_body k f o p)) w =
  match run (append cfg {| idempotency_key_hex := hex_encode (arr_bytes k);
                           kernel_key_fingerprint_sha256 := f; ar_occurred_at_epoch_seconds := o;
                           token_b64 := b64url_encode p |}) w with
  | (Ok (status, r), w') => (inr (json_response status (append_response_value r)), w')
  | (Err e, w') => let (status, b) := into_response e in
                   (inr (json_response status (error_response_value b)), w')
  | (Panic, w') => (inl "connection closed before message completed", w')
  end.
Proof.
  intros Hkey. unfold append_service.
  assert (tlog_auth_layer key "/v1/append" (Some key) = None) as Hauth.
  { unfold tlog_auth_layer. simpl. apply is_empty_false in Hkey as ->.
    by destruct (constant_time_eq (as_bytes key) (as_bytes key)) eqn:E;
      [|rewrite <-not_true_iff_false, constant_time_eq_str in E]. }
  change (request_header _ _) with (Some key). by rewrite Hauth.
Qed.

Lemma append_response_ok r :
  utf8 (entry_id r) = true -> utf8 (leaf_hash_hex r) = true -> u64_ok (ar_leaf_index r) ->
  serde_from_slice (as_bytes (serde_to_string (append_response_value r))) =
  inr (append_response_value r).
Proof.
  intros. apply serde_roundtrip; [obj_ok|]. simpl. lia.
Qed.

(** What the client reads from a success of the log. *)
Lemma client_result_success i r status :
  Client.is_success status = true -> (status =? 409) = false ->
  utf8 (entry_id r) = true -> u64_ok (ar_leaf_index r) ->
  leaf_hash_hex r = hex_encode (arr_bytes (leaf_hash (ti_payload i))) ->
  client_result i (inr (json_response status (append_response_value r))) =
  inr {| to_leaf_index := ar_leaf_index r; to_idempotent_replay := idempotent_replay r |}.
Proof.
  intros Hs H409 Hid Hix Hhash. unfold client_result. simpl. rewrite H409, Hs.
  unfold Client.decode_json. simpl.
  rewrite append_response_ok by (try done; rewrite Hhash; apply plain_utf8, hex_plain).
  simpl. rewrite Hhash, hex_roundtrip. by rewrite bool_decide_false by tauto.
Qed.

Lemma run_append cfg body inp (w : World St) :
  append_input cfg body = Ok inp ->
  run (append cfg body) w =
  let (r, s) := ts_append (store w) inp in
  (let? o := map_err service_of_store r in
   Ok (if negb (ao_created o) then 200 else 201,
       {| entry_id := u64_to_string (ao_leaf_index o); idempotent_replay := negb (ao_created o);
          leaf_hash_hex := hex_encode (arr_bytes (ao_leaf_hash o));
          ar_leaf_index := ao_leaf_index o; ar_ok := true |}),
   Build_World s (consistency_tree w)).
Proof.
  intros Hin. unfold append. rewrite Hin. simpl. destruct (ts_append _ _) as [[| |] s]; done.
Qed.

(** Every answer of the kernel's client in front of a log that delivers. *)
Lemma log_client_append c cfg key pk (w : World St) es i :
  serves w es -> nlen es < max_leaves -> key <> "" -> tc_api_key c = key ->
  tc_kernel_key_fingerprint_hex c = main_kernel_key_fingerprint pk ->
  kernel_key_fingerprint_hex cfg = main_kernel_key_fingerprint pk ->
  ti_payload i <> [] ->
  match log_client c cfg key i w with
  | (Some (inr o), w') =>
      exists es' e, serves w' es' /\ es `prefix_of` es' /\
        (to_idempotent_replay o = true -> es' = es) /\
        es' !! N.to_nat (to_leaf_index o) = Some e /\
        ai_idempotency_key e = ti_idempotency_key i /\ ai_payload e = ti_payload i
  | (Some (inl TConflict), w') =>
      serves w' es /\ exists e, e ∈ es /\ ai_idempotency_key e = ti_idempotency_key i /\
        ai_payload e <> ti_payload i
  | _ => False
  end.
Proof.
  intros Hs Hlt Hkey <- Hfc Hfs Hne. unfold log_client, client_request.
  rewrite append_service_encoded by done.
  set (inp := {| ai_idempotency_key := ti_idempotency_key i; ai_payload := ti_payload i;
                 ai_occurred_at_epoch_seconds := ti_occurred_at_epoch_seconds i |}).
  rewrite (run_append _ _ inp).
  2: { apply append_input_encoded; [|done..]. simpl. rewrite Hfc, Hfs.
       unfold main_kernel_key_fingerprint. by rewrite trim_plain by apply hex_plain. }
  pose proof (serves_append w es inp Hs Hlt) as Hs'. destruct (Hs) as (Hh & Hmax & _).
  destruct (ts_append_law (store w) es inp Hh) as [Hr _]; [by apply max_leaves_u64|].
  destruct (ts_append (store w) inp) as [r s']. simpl in Hr, Hs'. subst r.
  destruct (ledger_append es inp) as [r es'] eqn:Hla. simpl in Hs'.
  destruct r as [o|e|]; cbn [map_err res_bind fst].
  - destruct (ledger_append_entry _ _ _ _ Hla) as (Hlh & Hp & Hrep & e & He & Hek & Hep).
    assert (u64_ok (ao_leaf_index o)) as Hix.
    { apply lookup_lt_Some in He. destruct Hs' as (_ & Hm' & _). apply max_leaves_u64 in Hm'.
      unfold u64_ok, nlen in *. lia. }
    rewrite client_result_success; simpl; try done.
    + exists es', e. split_and!; try done. by rewrite negb_true_iff.
    + by destruct (ao_created o).
    + by destruct (ao_created o).
    + by apply plain_utf8, u64_to_string_plain.
    + by rewrite Hlh.
  - unfold ledger_append in Hla. destruct (list_find _ es) as [[j e']|] eqn:Hf; [|done].
    apply list_find_Some in Hf as (He & Hk & _). case_decide as Hd; [done|].
    injection Hla as <- <-. simpl. split; [done|]. exists e'.
    split_and!; [by eapply list_elem_of_lookup_2|done..].
  - unfold ledger_append in Hla. repeat case_match; done.
Qed.

(** A decision the log acknowledges is in the ledger: with the kernel's
    client keyed and fingerprinted as the two services' [main]s do it, an append
    over a network that delivers either succeeds, the ledger then holding exactly
    the submitted payload under its key at the index reported (freshly, or
    unchanged on a replay), or is a conflict with an entry of the same key and
    another payload; no other answer, and no panic, is possible. *)
Theorem acknowledged_is_recorded c cfg key pk (w : World St) es i :
  serves w es -> nlen es < max_leaves -> key <> "" -> tc_api_key c = key ->
  tc_kernel_key_fingerprint_hex c = main_kernel_key_fingerprint pk ->
  kernel_key_fingerprint_hex cfg = main_kernel_key_fingerprint pk ->
  ti_payload i <> [] ->
  match log_client c cfg key i w with
  | (Some (inr o), w') =>
      exists es' e, serves w' es' /\ es `prefix_of` es' /\
        (to_idempotent_replay o = true -> es' = es) /\
        es' !! N.to_nat (to_leaf_index o) = Some e /\
        ai_idempotency_key e = ti_idempotency_key i /\ ai_payload e = ti_payload i
  | (Some (inl TConflict), w') =>
      serves w' es /\ exists e, e ∈ es /\ ai_idempotency_key e = ti_idempotency_key i /\
        ai_payload e <> ti_payload i
  | _ => False
  end.
Proof. apply log_client_append. Qed.

(** ** The interface, implemented *)

Lemma append_empty_payload c cfg key (w : World St) i :
  key <> "" -> tc_api_key c = key -> ti_payload i = [] ->
  (exists e, fst (log_client c cfg key i w) = Some (inl e) /\ e <> TConflict) /\
  snd (log_client c cfg key i w) = w.
Proof.
  intros Hkey <- Hp. unfold log_client, client_request. rewrite append_service_encoded by done.
  unfold append, append_input, b64url_decode. cbn [kernel_key_fingerprint_sha256 token_b64].
  rewrite Hp, (trim_plain (b64url_encode [])), b64url_no_pad, b64url_roundtrip
    by apply b64url_plain.
  case_bool_decide; simpl; by split; [eexists|].
Qed.

(** The kernel's client in front of the log keeps the promises its handlers rely
    on, as long as the ledger has room. *)
Program Definition log_client_laws c cfg key pk
    (Hkey : key <> "") (Hc : tc_api_key c = key)
    (Hfc : tc_kernel_key_fingerprint_hex c = main_kernel_key_fingerprint pk)
    (Hfs : kernel_key_fingerprint_hex cfg = main_kernel_key_fingerprint pk)
    : @TlogLaws (World St) (log_client c cfg key) := {|
  tl_ok := fun w => (exists es, serves w es) /\ forall es, serves w es -> nlen es < max_leaves;
  tl_row := fun w k p => exists es e, serves w es /\ e ∈ es /\ ai_idempotency_key e = k /\ ai_payload e = p
|}.
Next Obligation.
  intros c cfg key pk Hkey Hc Hfc Hfs w i k p [_ Hroom] (es & e & Hs & He & Hk & Hp).
  unfold tlog_append. destruct (decide (ti_payload i = [])) as [E|E].
  { destruct (append_empty_payload c cfg key w i Hkey Hc E) as [_ ->]. by exists es, e. }
  pose proof (log_client_append c cfg key pk w es i Hs (Hroom _ Hs) Hkey Hc Hfc Hfs E) as Ha.
  destruct (log_client c cfg key i w) as [[[[]|o]|] w']; try done; simpl.
  - destruct Ha as [Hs' _]. by exists es, e.
  - destruct Ha as (es' & e' & Hs' & Hpre & _). exists es', e. split_and!; try done.
    destruct Hpre as [l ->]. set_solver.
Qed.
Next Obligation.
  intros c cfg key pk Hkey Hc Hfc Hfs w i o [[es Hs] Hroom] Ho. unfold tlog_append in *.
  destruct (decide (ti_payload i = [])) as [E|E].
  { destruct (append_empty_payload c cfg key w i Hkey Hc E) as [(e & He & _) _]. congruence. }
  pose proof (log_client_append c cfg key pk w es i Hs (Hroom _ Hs) Hkey Hc Hfc Hfs E) as Ha.
  destruct (log_client c cfg key i w) as [r w']. simpl in *. subst r.
  destruct Ha as (es' & e & Hs' & _ & _ & He & Hk & Hp). exists es', e.
  split_and!; try done. by eapply list_elem_of_lookup_2.
Qed.
Next Obligation.
  intros c cfg key pk Hkey Hc Hfc Hfs w i [[es Hs] Hroom] Ho. unfold tlog_append in *.
  destruct (decide (ti_payload i = [])) as [E|E].
  { destruct (append_empty_payload c cfg key w i Hkey Hc E) as [(e & He & Hne) _]. congruence. }
  pose proof (log_client_append c cfg key pk w es i Hs (Hroom _ Hs) Hkey Hc Hfc Hfs E) as Ha.
  destruct (log_client c cfg key i w) as [r w']. simpl in *. subst r.
  destruct Ha as (Hs' & e & He & Hk & Hp). exists (ai_payload e). split; [done|]. by exists es, e.
Qed.

(** ** The reaper's records *)

Lemma hex_take_neq (d : array 32) : hex_encode (take 8 (arr_bytes d)) <> hex_encode (arr_bytes d).
Proof.
  intros E. apply (f_equal hex_decode) in E. rewrite !hex_roundtrip in E. injection E as E.
  apply (f_equal length) in E. rewrite length_take, array_length in E. lia.
Qed.

(** No kill is ever recorded: wired as the two [main]s wire them, the
    reaper sends the 16-digit display fingerprint of its pinned key where the log
    pins the full 64-digit one, so whatever the record and the ledger, the log
    answers 403, stores nothing, and the recorder reports an error. *)
Theorem kill_records_are_refused cfg key pk url v r (w : World St) :
  key <> "" -> from_pubkey_bytes pk = Ok v ->
  kernel_key_fingerprint_hex cfg = main_kernel_key_fingerprint pk ->
  let (answer, w') := append_service cfg key (recorder_request (main_kill_recorder url key v) r) w in
  w' = w /\ (exists body, answer = inr (json_response 403 body)) /\
  exists msg, recorder_result answer = Some msg.
Proof.
  intros Hkey Hv Hf. unfold from_pubkey_bytes in Hv.
  destruct (verifying_key_from_bytes pk) as [|vk]; [done|]. injection Hv as <-.
  unfold recorder_request. cbn [main_kill_recorder rk_base_url rk_api_key rk_kernel_key_fingerprint_hex fingerprint].
  rewrite append_service_encoded by done. unfold append, append_input.
  cbn [kernel_key_fingerprint_sha256]. rewrite Hf. unfold main_kernel_key_fingerprint, fingerprint_for.
  rewrite trim_plain, !hex_lower, bool_decide_true by (apply hex_plain || apply hex_take_neq).
  simpl. split_and!; [done|by eexists|]. by eexists.
Qed.

End TlogClient.

(** ** Witnesses *)

Module Demo.
Import Tlog.Demo.
#[local] Existing Instance demo_hash.
#[local] Existing Instance demo_ed25519.
#[local] Existing Instance demo_hex.
#[local] Existing Instance demo_b64.
#[local] Existing Instance DemoJson.demo_serde.
#[local] Instance axum : Axum := {|
  json_error_display := fun _ => "invalid type"; json_rejection := fun _ => (422, "unprocessable");
  status_code_display := u64_to_string |}.

Definition pk : array 32 := array_of 32 [x05].

Definition log_cfg : Config := {|
  signing_key := [x05] : @SigningKey demo_ed25519; signing_key_fingerprint_hex := "aa";
  kernel_key_fingerprint_hex := main_kernel_key_fingerprint pk |}.

Definition kernel_client : ReqwestTransparencyClient := {|
  tc_base_url := "https://log/"; tc_api_key := "k";
  tc_kernel_key_fingerprint_hex := main_kernel_key_fingerprint pk |}.

Definition decision : TransparencyAppendInput := {|
  ti_idempotency_key := array_of 32 [x09]; ti_payload := [x61]; ti_occurred_at_epoch_seconds := 5 |}.

Lemma acknowledged_is_recorded_witness :
  exists es' e, es' !! 3%nat = Some e /\ ai_payload e = ti_payload decision /\
    inps `prefix_of` es'.
Proof.
  pose proof (acknowledged_is_recorded kernel_client log_cfg "k" pk (world inps) inps decision
    world_serves ltac:(by vm_compute) ltac:(discriminate) eq_refl eq_refl eq_refl ltac:(discriminate))
    as Ha.
  assert (fst (log_client kernel_client log_cfg "k" decision (world inps)) =
    Some (inr {| to_leaf_index := 3; to_idempotent_replay := false |})) as Hr by (vm_compute; reflexivity).
  destruct (log_client kernel_client log_cfg "k" decision (world inps)) as [r w'].
  simpl in Hr. subst r.
  destruct Ha as (es' & e & _ & Hp & _ & He & _ & Hpay). exists es', e.
  split; [exact He|]. split; [exact Hpay|exact Hp].
Defined.

Definition record : KillRecord := {|
  kr_kind := "kill_executed"; kr_run_id := "revoke_1"; kr_nonce := "n"; kr_token_sha256 := "ab";
  kr_target := Revoke.Demo.vm "z"; kr_outcome_instance := "agent-vm"; kr_outcome_op_id := "op";
  kr_outcome_prev_state := "RUNNING"; kr_occurred_at_epoch_seconds := 5 |}.

Lemma kill_records_are_refused_witness :
  exists v msg, from_pubkey_bytes pk = Ok v /\
    recorder_result (fst (append_service log_cfg "k"
      (recorder_request (main_kill_recorder "https://log" "k" v) record) (world inps))) = Some msg.
Proof.
  assert (exists v, from_pubkey_bytes pk = Ok v) as [v Hv] by (eexists; vm_compute; reflexivity).
  pose proof (kill_records_are_refused log_cfg "k" pk "https://log" v record (world inps)
    ltac:(discriminate) Hv eq_refl) as Hr.
  destruct (append_service log_cfg "k" (recorder_request (main_kill_recorder "https://log" "k" v) record)
    (world inps)) as [a w'] eqn:E.
  destruct Hr as (_ & _ & msg & Hm). exists v, msg. split; [exact Hv|]. rewrite E. exact Hm.
Defined.

End Demo.
