(* ===== verification/Routing.v ===== *)
(** * Route tables

    What [axum::Router] makes of the route tables of
    [crates/services/safety-kernel/src/main.rs] and
    [crates/services/transparency-log/src/router.rs]: a path is matched against the
    patterns, a method against the row, and the layers see the request before the
    table does.  The tables themselves are in [LogHttp] and [KernelService].  The
    matching and the percent-decoding are the framework's: parameters, with the
    documented matching rule ([path_captures]) as their law. *)

From S2P Require Import Prelude RustStr Float64 Crates Merkle Json Client TlogClient Async Pool.

#[local] Open Scope string_scope.

(** ** Requests as they arrive *)

Inductive Method := GET | HEAD | POST | OtherMethod (name : string).

#[export] Instance method_eq_dec : EqDecision Method.
Proof. solve_decision. Defined.

Record Incoming := { in_method : Method; in_path : string; in_http : HttpRequest }.

(** ** Patterns *)

Inductive Segment := Fixed (s : string) | Capture (name : string).

(** [{name}] captures one non-empty segment. *)
Definition segment (s : string) : Segment :=
  match s with
  | String "{" t =>
    match string_rev t with String "}" n => Capture (string_rev n) | _ => Fixed s end
  | _ => Fixed s
  end.

Definition segments (pattern : string) : list Segment := segment <$> split_on "/"%char pattern.

Fixpoint captures (ps : list Segment) (segs : list string) : option (list string) :=
  match ps, segs with
  | [], [] => Some []
  | Fixed s :: ps, t :: segs => if String.eqb s t then captures ps segs else None
  | Capture _ :: ps, t :: segs =>
    if is_empty t then None else cons t <$> captures ps segs
  | _, _ => None
  end.

(** The segments of [path] that [pattern] captures, if it matches. *)
Definition path_captures (pattern path : string) : option (list string) :=
  captures (segments pattern) (split_on "/"%char path).

(** ** The framework *)

(** [at_path patterns path] is the position of the matching pattern with the raw
    captures; [percent_decode] fails on what is not UTF-8, which [Path] answers with
    [path_rejection]; [body_limit] is the answer of [RequestBodyLimitLayer] to a request
    it does not let through. *)
Class AxumRouting := {
  at_path : list string -> string -> option (nat * list string);
  percent_decode : string -> option string;
  path_rejection : list (option string) -> N * string;
  body_limit : N -> HttpRequest -> option Response
}.

(** A member of a query that is given once. *)
Definition query_one (name : string) (q : list (string * string)) : option string :=
  match filter (fun kv => fst kv = name) q with [(_, v)] => Some v | _ => None end.

(** A [Query] that cannot be read as the service's one query type. *)
Class AxumQuery := query_rejection : list (string * string) -> N * string.

Class AxumRoutingLaws `{AxumRouting} : Prop := {
  at_path_sound : forall ps path i caps, at_path ps path = Some (i, caps) ->
    exists p, ps !! i = Some p /\ path_captures p path = Some caps;
  at_path_complete : forall ps path i p caps,
    ps !! i = Some p -> path_captures p path = Some caps -> is_Some (at_path ps path);
  percent_decode_literal : forall s,
    utf8 s = true -> string_forall (fun a => negb (Ascii.eqb a "%"%char)) s = true -> percent_decode s = Some s
}.

(** ** Dispatch *)

Record Row (X : Type) := { pattern : string; row_method : Method; row_handler : X }.
Arguments pattern {X}.
Arguments row_method {X}.
Arguments row_handler {X}.
Arguments Build_Row {X}.

(** [get(h)] answers [HEAD] too. *)
Definition answers_method (row m : Method) : bool :=
  bool_decide (m = row) || bool_decide (row = GET /\ m = HEAD).

Inductive Dispatch (X : Type) :=
| NoRoute
| WrongMethod
| Routed (h : X) (params : list (option string)).
Arguments NoRoute {X}.
Arguments WrongMethod {X}.
Arguments Routed {X}.

Section Routing.
Context `{AxumRouting}.

Definition dispatch {X} (table : list (Row X)) (m : Method) (path : string) : Dispatch X :=
  match at_path (pattern <$> table) path with
  | None => NoRoute
  | Some (i, caps) =>
    match table !! i with
    | None => NoRoute
    | Some row =>
      if answers_method (row_method row) m then Routed (row_handler row) (percent_decode <$> caps)
      else WrongMethod
    end
  end.

Context `{SerdeJson} `{Axum}.

(** The answer to a [HEAD] keeps the status only. *)
Definition without_body (m : Method) (r : res Empty_set Response) : res Empty_set Response :=
  match m, r with
  | HEAD, Ok resp => Ok (text_response (status resp) "")
  | _, _ => r
  end.

(** The limit comes before the table. *)
Definition limited {W} (max : N) (req : HttpRequest) (p : prog W Empty_set Response)
    : prog W Empty_set Response :=
  match body_limit max req with Some resp => Done (Ok resp) | None => p end.

Definition served {W X} (table : list (Row X))
    (handle : X -> list (option string) -> prog W Empty_set Response) (inc : Incoming)
    : prog W Empty_set Response :=
  match dispatch table (in_method inc) (in_path inc) with
  | NoRoute => Done (Ok (text_response 404 ""))
  | WrongMethod => Done (Ok (text_response 405 ""))
  | Routed h params => prog_then (without_body (in_method inc)) (handle h params)
  end.

End Routing.

(** ** Unambiguous tables *)

Fixpoint overlap (ps qs : list Segment) : bool :=
  match ps, qs with
  | [], [] => true
  | Fixed s :: ps, Fixed t :: qs => String.eqb s t && overlap ps qs
  | Fixed s :: ps, Capture _ :: qs | Capture _ :: ps, Fixed s :: qs => negb (is_empty s) && overlap ps qs
  | Capture _ :: ps, Capture _ :: qs => overlap ps qs
  | _, _ => false
  end.

(** No two patterns of the table match one path. *)
Fixpoint unambiguous (ps : list string) : bool :=
  match ps with
  | [] => true
  | p :: ps => forallb (fun q => negb (overlap (segments p) (segments q))) ps && unambiguous ps
  end.

Lemma captures_overlap ps qs segs c d :
  captures ps segs = Some c -> captures qs segs = Some d -> overlap ps qs = true.
Proof.
  revert qs segs c d. induction ps as [|[s|n] ps IH]; intros [|[t|n'] qs] [|x segs] c d; simpl; try done.
  - destruct (String.eqb_spec s x) as [->|]; [|done]. destruct (String.eqb_spec t x) as [->|]; [|done].
    rewrite String.eqb_refl. apply IH.
  - destruct (String.eqb_spec s x) as [->|]; [|done]. destruct (is_empty x); [done|]. simpl.
    intros Hc (d' & Hd & _)%fmap_Some. by eapply IH.
  - destruct (String.eqb_spec t x) as [->|]; [|by destruct (is_empty x)]. destruct (is_empty x); [done|]. simpl.
    intros (c' & Hc & _)%fmap_Some Hd. by eapply IH.
  - destruct (is_empty x); [done|]. intros (c' & Hc & _)%fmap_Some (d' & Hd & _)%fmap_Some. by eapply IH.
Qed.

Lemma unambiguous_position ps i j p q path c d :
  unambiguous ps = true -> ps !! i = Some p -> ps !! j = Some q ->
  path_captures p path = Some c -> path_captures q path = Some d -> i = j.
Proof.
  intros Hu Hi Hj Hp Hq. pose proof (captures_overlap _ _ _ _ _ Hp Hq) as Ho.
  pose proof (captures_overlap _ _ _ _ _ Hq Hp) as Ho'.
  revert i j Hi Hj. induction ps as [|a ps IH]; intros [|i] [|j] Hi Hj; simplify_eq/=; try done;
    apply andb_true_iff in Hu as [Ha Hu].
  - rewrite forallb_forall in Ha. specialize (Ha q). rewrite Ho in Ha.
    discriminate Ha. by apply list_elem_of_In, list_elem_of_lookup_2 with j.
  - rewrite forallb_forall in Ha. specialize (Ha p). rewrite Ho' in Ha.
    discriminate Ha. by apply list_elem_of_In, list_elem_of_lookup_2 with i.
  - f_equal. by apply IH.
Qed.

(** *** Patterns without captures *)

Definition is_fixed (g : Segment) : bool := match g with Fixed _ => true | Capture _ => false end.

Lemma segment_fixed s t : segment s = Fixed t -> t = s.
Proof.
  destruct s as [|a s]; simpl; [by intros [= <-]|].
  intros Hs. repeat case_match; by simplify_eq.
Qed.

Lemma split_on_inj c s t : split_on c s = split_on c t -> s = t.
Proof.
  revert t. induction s as [|a s IH]; intros [|b t]; simpl; [done|..].
  - destruct (split_on_cons c t) as (p & ps & ->). by destruct (Ascii.eqb b c).
  - destruct (split_on_cons c s) as (p & ps & ->). by destruct (Ascii.eqb a c).
  - destruct (split_on_cons c s) as (p & ps & Es). destruct (split_on_cons c t) as (q & qs & Et).
    destruct (Ascii.eqb_spec a c) as [->|]; destruct (Ascii.eqb_spec b c) as [->|];
      rewrite ?Es, ?Et; intros Heq; simplify_eq.
    + f_equal. apply IH. by rewrite Es, Et.
    + f_equal. apply IH. by rewrite Es, Et.
Qed.

Lemma captures_fixed l segs caps :
  forallb is_fixed (segment <$> l) = true -> captures (segment <$> l) segs = Some caps -> segs = l /\ caps = [].
Proof.
  revert segs caps. induction l as [|x l IH]; intros [|t segs] caps; simpl; try done.
  - by intros _ [= <-].
  - by destruct (segment x).
  - destruct (segment x) as [s|] eqn:Ex; [|done]. apply segment_fixed in Ex as ->. simpl.
    destruct (String.eqb_spec x t) as [->|]; [|done]. by intros Hf [-> ->]%IH.
Qed.

(** Such a pattern matches itself only. *)
Lemma path_captures_fixed pattern path caps :
  forallb is_fixed (segments pattern) = true -> path_captures pattern path = Some caps ->
  path = pattern /\ caps = [].
Proof. intros Hf [Hs ->]%captures_fixed; [|done]. split; [|done]. by apply split_on_inj in Hs. Qed.

Section Laws.
Context `{AxumRoutingLaws}.

(** A row is reached by exactly the paths its pattern matches. *)
Lemma dispatch_row {X} (table : list (Row X)) m path i row caps :
  unambiguous (pattern <$> table) = true -> table !! i = Some row ->
  path_captures (pattern row) path = Some caps ->
  dispatch table m path =
    if answers_method (row_method row) m then Routed (row_handler row) (percent_decode <$> caps) else WrongMethod.
Proof.
  intros Hu Hi Hc. assert ((pattern <$> table) !! i = Some (pattern row)) as Hp
    by by rewrite list_lookup_fmap, Hi.
  destruct (at_path_complete _ _ _ _ _ Hp Hc) as [[j caps'] Hat]. unfold dispatch. rewrite Hat.
  destruct (at_path_sound _ _ _ _ Hat) as (q & Hq & Hc').
  assert (i = j) as <- by (by eapply unambiguous_position). rewrite Hi.
  rewrite Hp in Hq. injection Hq as <-. by simplify_eq.
Qed.

Lemma dispatch_inv {X} (table : list (Row X)) m path h params :
  dispatch table m path = Routed h params ->
  exists row caps, row ∈ table /\ row_handler row = h /\ answers_method (row_method row) m = true /\
    path_captures (pattern row) path = Some caps /\ params = percent_decode <$> caps.
Proof.
  unfold dispatch. destruct (at_path _ _) as [[i caps]|] eqn:Hat; [|done].
  destruct (at_path_sound _ _ _ _ Hat) as (q & Hq & Hc).
  destruct (table !! i) as [row|] eqn:Hi; [|done]. destruct (answers_method _ _) eqn:Hm; [|done].
  intros [= <- <-]. exists row, caps. rewrite list_lookup_fmap, Hi in Hq. injection Hq as <-.
  split_and!; try done. by eapply list_elem_of_lookup_2.
Qed.

End Laws.

(** ** An instance: the first pattern that matches *)

Module DemoRouting.

Fixpoint first_match (i : nat) (ps : list string) (path : string) : option (nat * list string) :=
  match ps with
  | [] => None
  | p :: ps =>
    match path_captures p path with
    | Some caps => Some (i, caps)
    | None => first_match (S i) ps path
    end
  end.

Definition demo_routing : AxumRouting := {|
  at_path := first_match 0; percent_decode := Some;
  path_rejection _ := (400%N, "Invalid UTF-8 in path"); body_limit _ _ := None |}.

Lemma first_match_sound k ps path i caps : first_match k ps path = Some (i, caps) ->
  exists j p, i = (k + j)%nat /\ ps !! j = Some p /\ path_captures p path = Some caps.
Proof.
  revert k. induction ps as [|p ps IH]; intros k; simpl; [done|].
  destruct (path_captures p path) as [c|] eqn:E.
  - intros [= <- <-]. exists 0%nat, p. split; [lia|done].
  - intros (j & q & -> & Hj & Hc)%IH. exists (S j), q. split; [lia|done].
Qed.

Lemma first_match_complete k ps path i p caps :
  ps !! i = Some p -> path_captures p path = Some caps -> is_Some (first_match k ps path).
Proof.
  revert k i. induction ps as [|q ps IH]; intros k [|i] Hi Hc; simplify_eq/=.
  - rewrite Hc. by eexists.
  - destruct (path_captures q path); [by eexists|]. by eapply IH.
Qed.

Lemma demo_routing_laws : @AxumRoutingLaws demo_routing.
Proof.
  split.
  - intros ps path i caps (j & p & -> & Hj & Hc)%first_match_sound. by exists p.
  - intros ps path i p caps. apply first_match_complete.
  - done.
Qed.

End DemoRouting.
