(* ===== verification/PolicyIpc.v ===== *)
(** * The kernel's policy engine client: line-delimited JSON over a Unix socket

    Models [crates/adapters/src/policy_engine_client.rs]: one connection per
    request, one JSON line out, one JSON line back, three timeouts, and the five
    reply parsers.  The process at the other end of the socket is the parameter
    [Sidecar]; a request id (a UUID v7) is an argument.  [PolicyEngine] is the
    interface the kernel's routes rely on, [ipc_policy_engine] its implementation
    by this client. *)

From S2P Require Import Prelude RustStr Float64 Crates Json Serde Token.
From stdpp Require Import pretty.

Local Open Scope N_scope.

(** ** [std::time::Duration] and its [Debug] text *)

Record Duration := { dur_secs : N; dur_nanos : N }.

Definition from_secs (n : N) : Duration := {| dur_secs := n; dur_nanos := 0 |}.

(** The first [width] decimal digits of [frac / (10 * div)], without trailing zeros. *)
Fixpoint frac_digits (width : nat) (frac div : N) : string :=
  match width with
  | O => ""
  | S width =>
    if frac =? 0 then "" else
    String (pretty_N_char (frac / div)) (frac_digits width (frac mod div) (div / 10))
  end.

Definition fmt_decimal (integer frac div : N) (width : nat) (unit : string) : string :=
  let digits := frac_digits width frac div in
  u64_to_string integer +:+ (if is_empty digits then "" else "." +:+ digits) +:+ unit.

Definition duration_debug (d : Duration) : string :=
  if 0 <? dur_secs d then fmt_decimal (dur_secs d) (dur_nanos d) 100000000 9 "s" else
  if 1000000 <=? dur_nanos d
  then fmt_decimal (dur_nanos d / 1000000) (dur_nanos d mod 1000000) 100000 6 "ms" else
  if 1000 <=? dur_nanos d
  then fmt_decimal (dur_nanos d / 1000) (dur_nanos d mod 1000) 100 3 "µs"
  else fmt_decimal (dur_nanos d) 0 1 0 "ns".

Example duration_debug_1 :
  (duration_debug <$> [from_secs 5; {| dur_secs := 1; dur_nanos := 50000000 |};
                       {| dur_secs := 0; dur_nanos := 250000000 |}; from_secs 0]) =
  ["5s"; "1.05s"; "250ms"; "0ns"]%string.
Proof. reflexivity. Qed.

(** ** Errors *)

Inductive IpcError :=
| IpcConnect (e : string)
| IpcTimeout (what : string)
| IpcEof
| MalformedResponse (what : string)
| SidecarReportedError (e : string)
| RequestIdMismatch (expected got : string).

Definition ipc_kind (e : IpcError) : string :=
  match e with
  | IpcConnect _ => "IpcConnect"
  | IpcTimeout _ => "IpcTimeout"
  | IpcEof => "IpcEof"
  | MalformedResponse _ => "MalformedResponse"
  | SidecarReportedError _ => "SidecarReportedError"
  | RequestIdMismatch _ _ => "RequestIdMismatch"
  end.

(** [detail], the [Display] text. *)
Definition ipc_detail (e : IpcError) : string :=
  match e with
  | IpcConnect e => "ipc_connect:" +:+ e
  | IpcTimeout w => "ipc_timeout:" +:+ w
  | IpcEof => "ipc_eof"
  | MalformedResponse w => "malformed_response:" +:+ w
  | SidecarReportedError e => "sidecar_error:" +:+ e
  | RequestIdMismatch expected got => "request_id_mismatch:" +:+ expected +:+ " vs " +:+ got
  end.

(** ** Requests and replies *)

Record AuthorizePolicyRequest := {
  ap_action : string;
  ap_subject : string;
  ap_now : f64;
  ap_metadata : Value
}.

Record PolicyDecision := { pd_allowed : bool; pd_reason : string; pd_metadata : Value }.

Record AuditAppendRequest := {
  aa_unit_id : string;
  aa_action_name : string;
  aa_payload : Value;
  aa_success : bool;
  aa_error : option string;
  aa_started_at : f64;
  aa_ended_at : f64
}.

Record AuditChainEntry := { ae_outcome_id : string; ae_record_hash : string; ae_chain_entry : Value }.

Record PolicyModuleAuthorizeRequest := {
  ma_event_kind : string;
  ma_module_path : string;
  ma_caller_subject : string;
  ma_caller_run_id : string;
  ma_event_fingerprint : string;
  ma_expected_required_patterns : option (list string);
  ma_metadata : option Value
}.

Record PolicyModuleAuthorizeResponseInner := {
  mi_decision : string;
  mi_reason : option string;
  mi_registered_at_unix_ms : option Z
}.

Record PolicyModuleRegisterRequest := {
  mg_module_path : string;
  mg_required_patterns_regex_set : list string;
  mg_caller_subject : string
}.

Record PolicyModuleRegisterResponseInner := {
  mo_registered_at_unix_ms : Z;
  mo_revoked_at_unix_ms : option Z;
  mo_conflict : bool
}.

Record PolicyAuditEventRequest := {
  ev_event_kind : string;
  ev_subject : string;
  ev_metadata : option ClaimsMap
}.

Record PolicyModuleStatusRequest := { ms_module_path : string }.

Record PolicyModuleStatusDecisionRow := {
  dr_ts_unix_ms : Z;
  dr_decision : string;
  dr_caller_run_id : string;
  dr_token_sha256 : string
}.

Record PolicyModuleStatusResponseInner := {
  si_module_path : string;
  si_required_patterns_regex_set : list string;
  si_registered_at_unix_ms : Z;
  si_registered_by : string;
  si_revoked_at_unix_ms : option Z;
  si_recent_decisions : list PolicyModuleStatusDecisionRow
}.

(** ** The socket

    The result of an I/O operation under [tokio::time::timeout]: [None] when the
    time elapsed first, [Some (inl e)] an I/O error with its text.  [sc_read_line]
    returns what [read_line] appended to the buffer: a line with its newline, the
    rest of the stream without one, or nothing at its end. *)
Abbreviation timed A := (option (string + A)).

Class Sidecar (S : Type) := {
  sc_connect : string -> S -> timed unit * S;
  sc_write : string -> S -> timed unit * S;
  sc_read_line : S -> timed string * S
}.

(** The texts of [serde_json]'s type errors. *)
Class FromValue := from_value_error : Value -> string.

(** [s.trim_end_matches(['\n', '\r'])]. *)
Definition is_newline (a : ascii) : bool := Ascii.eqb a "010"%char || Ascii.eqb a "013"%char.
Fixpoint drop_newlines (s : string) : string :=
  match s with
  | String a s' => if is_newline a then drop_newlines s' else s
  | EmptyString => EmptyString
  end.
Definition trim_end_newlines (s : string) : string := string_rev (drop_newlines (string_rev s)).

Record PolicyEngineClient := {
  sock_path : string;
  connect_timeout : Duration;
  request_timeout : Duration
}.

Definition client_new (sock_path : string) : PolicyEngineClient :=
  {| sock_path := sock_path; connect_timeout := from_secs 1; request_timeout := from_secs 5 |}.

Definition with_timeouts (connect request : Duration) (c : PolicyEngineClient) : PolicyEngineClient :=
  {| sock_path := sock_path c; connect_timeout := connect; request_timeout := request |}.

Section PolicyIpc.
Context `{SerdeJson} `{FromValue}.

(** ** The reply parsers *)

(** The checks every parser begins with: [ok] is a boolean, the request id is
    echoed, [ok] is true. *)
Definition check_envelope (resp : Value) (expected_request_id : string) : res IpcError unit :=
  let? ok := ok_or (MalformedResponse "missing_ok") (vget "ok" resp ≫= as_bool) in
  let echoed_rid := default "" (vget "request_id" resp ≫= as_str) in
  if negb (String.eqb echoed_rid expected_request_id)
  then Err (RequestIdMismatch expected_request_id echoed_rid)
  else if negb ok
  then Err (SidecarReportedError (default "unspecified" (vget "error" resp ≫= as_str)))
  else Ok tt.

Definition validate_envelope (resp : Value) (expected_request_id result_key : string)
    : res IpcError Value :=
  let? _ := check_envelope resp expected_request_id in
  ok_or (MalformedResponse ("missing_" +:+ result_key)) (vget result_key resp).

Definition parse_authorize_response (resp : Value) (expected_request_id : string)
    : res IpcError PolicyDecision :=
  let? _ := check_envelope resp expected_request_id in
  let? decision := ok_or (MalformedResponse "missing_decision") (vget "decision" resp) in
  let? allowed := ok_or (MalformedResponse "missing_decision.allowed")
                    (vget "allowed" decision ≫= as_bool) in
  Ok {| pd_allowed := allowed;
        pd_reason := default "" (vget "reason" decision ≫= as_str);
        pd_metadata := default (Obj []) (vget "metadata" decision) |}.

Definition parse_audit_append_response (resp : Value) (expected_request_id : string)
    : res IpcError AuditChainEntry :=
  let? _ := check_envelope resp expected_request_id in
  let? outcome_id := ok_or (MalformedResponse "missing_outcome_id")
                       (vget "outcome_id" resp ≫= as_str) in
  let? record_hash := ok_or (MalformedResponse "missing_record_hash")
                        (vget "record_hash" resp ≫= as_str) in
  Ok {| ae_outcome_id := outcome_id; ae_record_hash := record_hash;
        ae_chain_entry := default (Obj []) (vget "chain_entry" resp) |}.

Definition parse_policy_authorize_response (resp : Value) (expected_request_id : string)
    : res IpcError PolicyModuleAuthorizeResponseInner :=
  let? decision_obj := validate_envelope resp expected_request_id "decision" in
  let? decision := ok_or (MalformedResponse "missing_decision.decision")
                     (vget "decision" decision_obj ≫= as_str) in
  Ok {| mi_decision := decision;
        mi_reason := vget "reason" decision_obj ≫= as_str;
        mi_registered_at_unix_ms := vget "registered_at_unix_ms" decision_obj ≫= as_i64 |}.

Definition parse_policy_register_response (resp : Value) (expected_request_id : string)
    : res IpcError PolicyModuleRegisterResponseInner :=
  let? result := validate_envelope resp expected_request_id "result" in
  let? at_ms := ok_or (MalformedResponse "missing_result.registered_at_unix_ms")
                  (vget "registered_at_unix_ms" result ≫= as_i64) in
  Ok {| mo_registered_at_unix_ms := at_ms;
        mo_revoked_at_unix_ms := vget "revoked_at_unix_ms" result ≫= as_i64;
        mo_conflict := default false (vget "conflict" result ≫= as_bool) |}.

Definition parse_policy_audit_event_response (resp : Value) (expected_request_id : string)
    : res IpcError Z :=
  let? result := validate_envelope resp expected_request_id "result" in
  ok_or (MalformedResponse "missing_result.ts_unix_ms") (vget "ts_unix_ms" result ≫= as_i64).

(** The derived [Deserialize] of the status payload. *)
Definition de_strs (v : Value) : option (list string) :=
  match v with Arr vs => mapM as_str vs | _ => None end.

Definition de_opt_i64 (v : option Value) : option (option Z) :=
  match v with
  | None | Some Null => Some None
  | Some v => Some <$> as_i64 v
  end.

Definition de_decision_row (v : Value) : option PolicyModuleStatusDecisionRow :=
  match v with
  | Obj m =>
    t ← bt_get "ts_unix_ms" m ≫= as_i64;
    d ← bt_get "decision" m ≫= as_str;
    r ← bt_get "caller_run_id" m ≫= as_str;
    h ← bt_get "token_sha256" m ≫= as_str;
    Some {| dr_ts_unix_ms := t; dr_decision := d; dr_caller_run_id := r; dr_token_sha256 := h |}
  | Arr [t; Str d; Str r; Str h] =>
    t ← as_i64 t;
    Some {| dr_ts_unix_ms := t; dr_decision := d; dr_caller_run_id := r; dr_token_sha256 := h |}
  | _ => None
  end.

Definition de_rows (v : Value) : option (list PolicyModuleStatusDecisionRow) :=
  match v with Arr vs => mapM de_decision_row vs | _ => None end.

Definition de_status (v : Value) : option PolicyModuleStatusResponseInner :=
  let make path set at_ms by_ rev rows :=
    {| si_module_path := path; si_required_patterns_regex_set := set;
       si_registered_at_unix_ms := at_ms; si_registered_by := by_;
       si_revoked_at_unix_ms := rev; si_recent_decisions := rows |} in
  match v with
  | Obj m =>
    path ← bt_get "module_path" m ≫= as_str;
    set ← bt_get "required_patterns_regex_set" m ≫= de_strs;
    at_ms ← bt_get "registered_at_unix_ms" m ≫= as_i64;
    by_ ← bt_get "registered_by" m ≫= as_str;
    rev ← de_opt_i64 (bt_get "revoked_at_unix_ms" m);
    rows ← bt_get "recent_decisions" m ≫= de_rows;
    Some (make path set at_ms by_ rev rows)
  | Arr [Str path; set; at_ms; Str by_; rev; rows] =>
    set ← de_strs set; at_ms ← as_i64 at_ms; rev ← de_opt_i64 (Some rev); rows ← de_rows rows;
    Some (make path set at_ms by_ rev rows)
  | _ => None
  end.

Definition parse_policy_status_response (resp : Value) (expected_request_id : string)
    : res IpcError (option PolicyModuleStatusResponseInner) :=
  let? _ := check_envelope resp expected_request_id in
  let? result := ok_or (MalformedResponse "missing_result") (vget "result" resp) in
  match result with
  | Null => Ok None
  | _ =>
    let? inner := ok_or (MalformedResponse ("status_payload:" +:+ from_value_error result))
                    (de_status result) in
    Ok (Some inner)
  end.

(** ** One exchange *)

Section Exchange.
Context {S : Type} `{Sidecar S}.

Definition parse_line (buf : string) : res IpcError Value :=
  match serde_from_slice (as_bytes (trim_end_newlines buf)) with
  | inl e => Err (MalformedResponse ("parse:" +:+ e))
  | inr (Obj m) => Ok (Obj m)
  | inr _ => Err (MalformedResponse "not_object")
  end.

Definition round_trip (c : PolicyEngineClient) (envelope : Value) (s : S) : res IpcError Value * S :=
  let (connected, s) := sc_connect (sock_path c) s in
  match connected with
  | Some (inl e) => (Err (IpcConnect e), s)
  | None => (Err (IpcTimeout ("connect:" +:+ duration_debug (connect_timeout c))), s)
  | Some (inr _) =>
    let line := serde_to_string envelope +:+ String "010" "" in
    let (written, s) := sc_write line s in
    match written with
    | Some (inl e) => (Err (MalformedResponse ("write:" +:+ e)), s)
    | None => (Err (IpcTimeout ("write:" +:+ duration_debug (request_timeout c))), s)
    | Some (inr _) =>
      let (read, s) := sc_read_line s in
      match read with
      | Some (inl e) => (Err (MalformedResponse ("read:" +:+ e)), s)
      | None => (Err (IpcTimeout ("read:" +:+ duration_debug (request_timeout c))), s)
      | Some (inr buf) =>
        if is_empty buf then (Err IpcEof, s) else (parse_line buf, s)
      end
    end
  end.

Definition envelope (op request_id : string) (payload : Value) : Value :=
  jobj [("op", Str op); ("request_id", Str request_id); ("payload", payload)].

(** [let resp = self.round_trip(&envelope).await?; Self::parse(&resp, &request_id)]. *)
Definition ask {A} (parse : Value -> string -> res IpcError A) (op : string) (payload : Value)
    (c : PolicyEngineClient) (request_id : string) (s : S) : res IpcError A * S :=
  let (resp, s) := round_trip c (envelope op request_id payload) s in
  (let? resp := resp in parse resp request_id, s).

Definition authorize (c : PolicyEngineClient) (request_id : string) (req : AuthorizePolicyRequest)
    : S -> res IpcError PolicyDecision * S :=
  ask parse_authorize_response "authorize"
    (jobj [("action", Str (ap_action req)); ("subject", Str (ap_subject req));
           ("now", json_f64 (ap_now req)); ("metadata", ap_metadata req)]) c request_id.

Definition audit_append (c : PolicyEngineClient) (request_id : string) (req : AuditAppendRequest)
    : S -> res IpcError AuditChainEntry * S :=
  ask parse_audit_append_response "audit_append"
    (jobj [("unit_id", Str (aa_unit_id req)); ("action_name", Str (aa_action_name req));
           ("payload", aa_payload req); ("success", Bool (aa_success req));
           ("error", opt_value Str (aa_error req)); ("started_at", json_f64 (aa_started_at req));
           ("ended_at", json_f64 (aa_ended_at req))]) c request_id.

Definition policy_authorize (c : PolicyEngineClient) (request_id : string)
    (req : PolicyModuleAuthorizeRequest) : S -> res IpcError PolicyModuleAuthorizeResponseInner * S :=
  ask parse_policy_authorize_response "policy_authorize"
    (jobj [("event_kind", Str (ma_event_kind req)); ("module_path", Str (ma_module_path req));
           ("caller_subject", Str (ma_caller_subject req));
           ("caller_run_id", Str (ma_caller_run_id req));
           ("event_fingerprint", Str (ma_event_fingerprint req));
           ("expected_required_patterns", opt_value strs (ma_expected_required_patterns req));
           ("metadata", default Null (ma_metadata req))]) c request_id.

Definition policy_register (c : PolicyEngineClient) (request_id : string)
    (req : PolicyModuleRegisterRequest) : S -> res IpcError PolicyModuleRegisterResponseInner * S :=
  ask parse_policy_register_response "policy_register"
    (jobj [("module_path", Str (mg_module_path req));
           ("required_patterns_regex_set", strs (mg_required_patterns_regex_set req));
           ("caller_subject", Str (mg_caller_subject req))]) c request_id.

Definition policy_audit_event (c : PolicyEngineClient) (request_id : string)
    (req : PolicyAuditEventRequest) : S -> res IpcError Z * S :=
  ask parse_policy_audit_event_response "policy_audit_event"
    (jobj [("event_kind", Str (ev_event_kind req)); ("subject", Str (ev_subject req));
           ("metadata", opt_value (fun m => Obj (bt_collect m)) (ev_metadata req))]) c request_id.

Definition policy_module_status (c : PolicyEngineClient) (request_id : string)
    (req : PolicyModuleStatusRequest)
    : S -> res IpcError (option PolicyModuleStatusResponseInner) * S :=
  ask parse_policy_status_response "policy_status"
    (jobj [("module_path", Str (ms_module_path req))]) c request_id.

(** ** What an answer stands for *)

(** The line the sidecar sent back, when everything went well and in time. *)
Definition reply_line (c : PolicyEngineClient) (env : Value) (s : S) : option string :=
  match sc_connect (sock_path c) s with
  | (Some (inr _), s) =>
    match sc_write (serde_to_string env +:+ String "010" "") s with
    | (Some (inr _), s) =>
      match sc_read_line s with
      | (Some (inr buf), _) => if is_empty buf then None else Some buf
      | _ => None
      end
    | _ => None
    end
  | _ => None
  end.

Definition replies_to (request_id : string) (resp : Value) : Prop :=
  vget "ok" resp = Some (Bool true) /\
  default "" (vget "request_id" resp ≫= as_str) = request_id.

Lemma check_envelope_iff resp rid : check_envelope resp rid = Ok tt <-> replies_to rid resp.
Proof.
  unfold check_envelope, replies_to. destruct (vget "ok" resp) as [[]|]; simpl; try naive_solver.
  destruct (String.eqb_spec (default "" (vget "request_id" resp ≫= as_str)) rid); simpl;
    destruct b; naive_solver.
Qed.

(** A reply to one request is refused as the reply to any other. *)
Lemma check_envelope_other resp rid rid' :
  replies_to rid resp -> rid' <> rid ->
  check_envelope resp rid' = Err (RequestIdMismatch rid' rid).
Proof.
  intros [Hok Hid] Hne. unfold check_envelope. rewrite Hok, Hid. simpl.
  by destruct (String.eqb_spec rid rid').
Qed.

(** What the six parsers have in common: they begin with the envelope. *)
Class Parser {A} (parse : Value -> string -> res IpcError A) : Prop :=
  parser_checks v rid : exists k, parse v rid = res_bind (check_envelope v rid) k.

#[global] Instance authorize_parser : Parser parse_authorize_response.
Proof. eexists; reflexivity. Qed.
#[global] Instance audit_append_parser : Parser parse_audit_append_response.
Proof. eexists; reflexivity. Qed.
#[global] Instance policy_authorize_parser : Parser parse_policy_authorize_response.
Proof.
  intros v rid. unfold parse_policy_authorize_response, validate_envelope.
  rewrite res_bind_assoc. eauto.
Qed.
#[global] Instance policy_register_parser : Parser parse_policy_register_response.
Proof.
  intros v rid. unfold parse_policy_register_response, validate_envelope.
  rewrite res_bind_assoc. eauto.
Qed.
#[global] Instance policy_audit_event_parser : Parser parse_policy_audit_event_response.
Proof.
  intros v rid. unfold parse_policy_audit_event_response, validate_envelope.
  rewrite res_bind_assoc. eauto.
Qed.
#[global] Instance policy_status_parser : Parser parse_policy_status_response.
Proof. eexists; reflexivity. Qed.

Lemma round_trip_iff c env s v :
  fst (round_trip c env s) = Ok v <->
  exists buf, reply_line c env s = Some buf /\ parse_line buf = Ok v.
Proof.
  unfold round_trip, reply_line.
  destruct (sc_connect _ s) as [[[e|u]|] s1]; simpl; [naive_solver| |naive_solver].
  destruct (sc_write _ s1) as [[[e|u']|] s2]; simpl; [naive_solver| |naive_solver].
  destruct (sc_read_line s2) as [[[e|buf]|] s3]; simpl; [naive_solver| |naive_solver].
  destruct (is_empty buf); simpl; naive_solver.
Qed.

Lemma ask_iff {A} (parse : Value -> string -> res IpcError A) op payload c rid s a :
  fst (ask parse op payload c rid s) = Ok a <->
  exists buf v, reply_line c (envelope op rid payload) s = Some buf /\ parse_line buf = Ok v /\
    parse v rid = Ok a.
Proof.
  unfold ask. pose proof (round_trip_iff c (envelope op rid payload) s) as Hr.
  destruct (round_trip _ _ _) as [r s']; simpl in *. rewrite res_bind_Ok. naive_solver.
Qed.

(** Whatever the operation, only the reply to this very request is read. *)
Lemma ask_own_reply {A} (parse : Value -> string -> res IpcError A) `{!Parser parse}
    op payload c rid s a :
  fst (ask parse op payload c rid s) = Ok a ->
  exists buf v, reply_line c (envelope op rid payload) s = Some buf /\ parse_line buf = Ok v /\
    replies_to rid v /\
    forall rid', rid' <> rid -> parse v rid' = Err (RequestIdMismatch rid' rid).
Proof.
  intros (buf & v & Hl & Hv & Ha)%ask_iff. exists buf, v.
  destruct (parser_checks v rid) as [k Hk]. rewrite Hk in Ha.
  step Ha as ([] & Hc%check_envelope_iff & _). split_and!; try done.
  intros rid' Hne. destruct (parser_checks v rid') as [k' ->].
  by rewrite (check_envelope_other _ _ _ Hc Hne).
Qed.

Lemma parse_line_ok buf v :
  parse_line buf = Ok v <->
  exists m, v = Obj m /\ serde_from_slice (as_bytes (trim_end_newlines buf)) = inr (Obj m).
Proof. unfold parse_line. destruct (serde_from_slice _) as [e|[]]; naive_solver. Qed.

Lemma parse_authorize_iff v rid d :
  parse_authorize_response v rid = Ok d <->
  replies_to rid v /\ exists dec, vget "decision" v = Some dec /\
    vget "allowed" dec = Some (Bool (pd_allowed d)) /\
    pd_reason d = default "" (vget "reason" dec ≫= as_str) /\
    pd_metadata d = default (Obj []) (vget "metadata" dec).
Proof.
  rewrite <-check_envelope_iff. unfold parse_authorize_response.
  destruct (check_envelope v rid) as [[]| |]; simpl; [|naive_solver..].
  destruct (vget "decision" v) as [dec|]; simpl; [|naive_solver].
  destruct d as [al re me]; simpl.
  destruct (vget "allowed" dec) as [[]|] eqn:E; simpl; naive_solver.
Qed.

Lemma round_trip_total c env s : fst (round_trip c env s) <> Panic.
Proof.
  unfold round_trip. destruct (sc_connect _ s) as [[[]|] s1]; simpl; try done.
  destruct (sc_write _ s1) as [[[]|] s2]; simpl; try done.
  destruct (sc_read_line s2) as [[[|buf]|] s3]; simpl; try done.
  destruct (is_empty buf); simpl; [done|]. unfold parse_line.
  by destruct (serde_from_slice _) as [|[]].
Qed.

Lemma ask_total {A} (parse : Value -> string -> res IpcError A) op payload c rid s :
  (forall v, parse v rid <> Panic) -> fst (ask parse op payload c rid s) <> Panic.
Proof.
  intros Hp. unfold ask. pose proof (round_trip_total c (envelope op rid payload) s) as Hr.
  destruct (round_trip _ _ _) as [[v| |] s']; simpl in *; auto.
Qed.

Lemma check_envelope_total v rid : check_envelope v rid <> Panic.
Proof.
  unfold check_envelope. destruct (vget "ok" v ≫= as_bool) as [ok|]; simpl; [|done].
  by destruct (String.eqb _ _), ok.
Qed.

Lemma parse_authorize_total v rid : parse_authorize_response v rid <> Panic.
Proof.
  unfold parse_authorize_response. pose proof (check_envelope_total v rid).
  destruct (check_envelope v rid); simpl; [|done..].
  destruct (vget "decision" v) as [dec|]; simpl; [|done].
  by destruct (vget "allowed" dec ≫= as_bool).
Qed.

Lemma parse_policy_authorize_total v rid : parse_policy_authorize_response v rid <> Panic.
Proof.
  unfold parse_policy_authorize_response, validate_envelope. pose proof (check_envelope_total v rid).
  destruct (check_envelope v rid); simpl; [|done..].
  destruct (vget "decision" v) as [dec|]; simpl; [|done].
  by destruct (vget "decision" dec ≫= as_str).
Qed.

(** C21.  The kernel believes only the policy engine's answer to this very
    request: a decision comes back exactly when the socket connected, took the
    line and gave one back, each in time, and that line is a JSON object with [ok]
    true, the request's id and the decision's [allowed] flag, whose fields the
    decision then repeats; and the same line read as the answer to any other
    request, by any of the six operations, is a request-id mismatch. *)
Theorem only_its_own_reply_is_believed c rid req s d :
  let env := envelope "authorize" rid
    (jobj [("action", Str (ap_action req)); ("subject", Str (ap_subject req));
           ("now", json_f64 (ap_now req)); ("metadata", ap_metadata req)]) in
  (fst (authorize c rid req s) = Ok d <->
   exists buf m dec,
     reply_line c env s = Some buf /\
     serde_from_slice (as_bytes (trim_end_newlines buf)) = inr (Obj m) /\
     replies_to rid (Obj m) /\ bt_get "decision" m = Some dec /\
     vget "allowed" dec = Some (Bool (pd_allowed d)) /\
     pd_reason d = default "" (vget "reason" dec ≫= as_str) /\
     pd_metadata d = default (Obj []) (vget "metadata" dec)) /\
  (forall v rid' A (parse : Value -> string -> res IpcError A), Parser parse ->
     replies_to rid v -> rid' <> rid -> parse v rid' = Err (RequestIdMismatch rid' rid)).
Proof.
  cbv zeta. split.
  - unfold authorize. rewrite ask_iff. setoid_rewrite parse_authorize_iff.
    setoid_rewrite parse_line_ok. naive_solver.
  - intros v rid' A parse Hp Hr Hne. destruct (parser_checks v rid') as [k ->].
    by rewrite (check_envelope_other _ _ _ Hr Hne).
Qed.

End Exchange.

(** ** The interface of the kernel's routes

    One method per operation of the client, whose request id is drawn inside. *)
End PolicyIpc.

Class PolicyEngine (P : Type) := {
  pe_authorize : AuthorizePolicyRequest -> P -> res IpcError PolicyDecision * P;
  pe_audit_append : AuditAppendRequest -> P -> res IpcError AuditChainEntry * P;
  pe_policy_authorize :
    PolicyModuleAuthorizeRequest -> P -> res IpcError PolicyModuleAuthorizeResponseInner * P;
  pe_policy_register :
    PolicyModuleRegisterRequest -> P -> res IpcError PolicyModuleRegisterResponseInner * P;
  pe_policy_audit_event : PolicyAuditEventRequest -> P -> res IpcError Z * P;
  pe_policy_module_status :
    PolicyModuleStatusRequest -> P -> res IpcError (option PolicyModuleStatusResponseInner) * P
}.

(** No answer of the policy engine crashes the kernel. *)
Class PolicyEngineTotal (P : Type) `{PolicyEngine P} : Prop := {
  pe_authorize_total req p : fst (pe_authorize req p) <> Panic;
  pe_policy_authorize_total req p : fst (pe_policy_authorize req p) <> Panic
}.

(** This client, the ids it will draw and the process at the other end. *)
Record IpcEngine (S : Type) := {
  ie_client : PolicyEngineClient;
  ie_uuids : nat -> string;
  ie_drawn : nat;
  ie_sidecar : S
}.
Arguments ie_client {S}.
Arguments ie_uuids {S}.
Arguments ie_drawn {S}.
Arguments ie_sidecar {S}.
Arguments Build_IpcEngine {S}.

Section IpcEngine.
Context `{SerdeJson} `{FromValue} {S : Type} `{Sidecar S}.

Definition drawing {A} (op : PolicyEngineClient -> string -> S -> res IpcError A * S)
    (e : IpcEngine S) : res IpcError A * IpcEngine S :=
  let (r, s) := op (ie_client e) (ie_uuids e (ie_drawn e)) (ie_sidecar e) in
  (r, Build_IpcEngine (ie_client e) (ie_uuids e) (Datatypes.S (ie_drawn e)) s).

#[global] Instance ipc_policy_engine : PolicyEngine (IpcEngine S) := {
  pe_authorize r := drawing (fun c id => authorize c id r);
  pe_audit_append r := drawing (fun c id => audit_append c id r);
  pe_policy_authorize r := drawing (fun c id => policy_authorize c id r);
  pe_policy_register r := drawing (fun c id => policy_register c id r);
  pe_policy_audit_event r := drawing (fun c id => policy_audit_event c id r);
  pe_policy_module_status r := drawing (fun c id => policy_module_status c id r)
}.

Lemma drawing_total {A} (op : PolicyEngineClient -> string -> S -> res IpcError A * S) e :
  (forall c id s, fst (op c id s) <> Panic) -> fst (drawing op e) <> Panic.
Proof.
  intros Hop. unfold drawing. specialize (Hop (ie_client e) (ie_uuids e (ie_drawn e)) (ie_sidecar e)).
  by destruct (op _ _ _).
Qed.

#[global] Instance ipc_policy_engine_total : PolicyEngineTotal (IpcEngine S).
Proof.
  split; intros req e; apply drawing_total; intros c id s; apply ask_total; intros v;
    auto using parse_authorize_total, parse_policy_authorize_total.
Qed.

End IpcEngine.

(** ** Witness *)

Module Demo.
#[local] Existing Instance DemoJson.demo_serde.
#[local] Instance demo_from_value : FromValue := fun _ => "invalid type".

(** A sidecar that sends back a fixed list of lines, one per connection. *)
#[local] Instance scripted : Sidecar (list string) := {
  sc_connect _ s := (Some (inr tt), s);
  sc_write _ s := (Some (inr tt), s);
  sc_read_line s := match s with l :: s => (Some (inr l), s) | [] => (Some (inr ""), []) end
}.

Definition reply : Value :=
  Obj [("decision", Obj [("allowed", Bool true); ("reason", Str "listed")]);
       ("ok", Bool true); ("request_id", Str "id-1")].

Definition question : AuthorizePolicyRequest := {|
  ap_action := "deploy"; ap_subject := "worker"; ap_now := f64_of_Z 1000; ap_metadata := Obj [] |}.

Lemma only_its_own_reply_is_believed_witness :
  fst (authorize (client_new "/run/policy.sock") "id-1" question
         [serde_to_string reply +:+ String "010" ""]) =
    Ok {| pd_allowed := true; pd_reason := "listed"; pd_metadata := Obj [] |} /\
  parse_authorize_response reply "id-2" = Err (RequestIdMismatch "id-2" "id-1").
Proof.
  pose proof (only_its_own_reply_is_believed (client_new "/run/policy.sock") "id-1" question
    [serde_to_string reply +:+ String "010" ""]
    {| pd_allowed := true; pd_reason := "listed"; pd_metadata := Obj [] |}) as [Hiff Hother].
  split.
  - apply Hiff. exists (serde_to_string reply +:+ String "010" ""),
      [("decision", Obj [("allowed", Bool true); ("reason", Str "listed")]);
       ("ok", Bool true); ("request_id", Str "id-1")],
      (Obj [("allowed", Bool true); ("reason", Str "listed")]).
    split_and!; try reflexivity. by split.
  - apply Hother; [apply _|by split|discriminate].
Defined.

End Demo.
