(* ===== verification/Allowlist.v ===== *)
(** * The actions an API caller may have authorised

    Models [crates/domain/src/safety/api_action_allowlist.rs]. *)

From S2P Require Import Prelude RustStr.

Definition API_ALLOWED_PREFIXES : list string :=
  ["/api/v1/aara-engine/"; "/api/v1/aara/"; "/api/v1/aara-orchestrator/";
   "/api/v1/runs/"; "/api/v1/experiments/"; "/api/v1/compute/"; "/api/v1/artifacts/";
   "/api/v1/analysis/"; "/api/v1/context/"; "/api/v1/data/"; "/api/v1/nano/";
   "/api/v1/agents/"; "/api/v1/domains/"; "/api/v1/connectors/"; "/api/v1/planner/";
   "/api/v1/workflows/"; "/api/v1/chat/"; "/api/v1/chat"; "/api/v1/training/";
   "/api/v1/inference/"; "/api/v1/queue/"; "/api/v1/stream/"; "/api/v1/ingest/";
   "/api/v1/governance/"; "/api/v1/compliance/"; "/api/v1/safety/";
   "/api/v1/autonomous/"; "/api/v1/rsi/"; "/api/v1/hypothesis-evolution/";
   "/api/v1/problem-discovery/"; "/api/v1/world-model/"; "/api/v1/semantic-kb/";
   "/api/v1/knowledge-base/"; "/api/v1/solvers/"; "/api/v1/solvers";
   "/api/v1/integrations/"; "/api/v1/code-tools/"; "/api/v1/tool-discovery/";
   "/api/v1/autonomy/"; "/api/v1/hitl/"; "/api/v1/graduation/"; "/api/v1/auth/";
   "/api/v1/preferences/"; "/api/v1/ui-rsi/"; "/api/v1/telco/"; "/api/v1/panasonic/";
   "/api/v1/qcad/"; "/api/v1/pulse/"; "/api/v1/qec/"; "/api/v1/wps/"; "/api/v1/models/";
   "/api/v1/metrics/"; "/api/v1/system/"; "/api/v1/emergency/"; "/api/v1/mcp/"; "/mcp/";
   "/aara-engine/"; "/api/v1/demo/"; "/api/v1/demo_builder/"; "/api/v1/jobs/";
   "/api/v1/github/"; "/api/v1/oauth/"; "/api/v1/health"; "/health"; "artifact_promote";
   "artifact_rollback"; "artifact_set_canary"]%string.

Definition ends_with_char (c : ascii) (s : string) : bool :=
  match string_rev s with String a _ => Ascii.eqb a c | EmptyString => false end.

(** [s.split_once(c)]. *)
Fixpoint split_once (c : ascii) (s : string) : option (string * string) :=
  match s with
  | EmptyString => None
  | String a s =>
    if Ascii.eqb a c then Some ("", s)
    else match split_once c s with Some (x, y) => Some (String a x, y) | None => None end
  end.

Definition prefix_match (path prefix : string) : bool :=
  String.eqb path (trim_end_matches "/"%char prefix) || starts_with prefix path.

Definition is_api_action_allowed (action : string) : bool :=
  let path := match split_once ":"%char action with Some (_, rest) => rest | None => action end in
  let path := trim path in
  existsb (prefix_match path) API_ALLOWED_PREFIXES.

(** ** Matching is by path segment *)

Definition segments (path : string) : list string := split_on "/"%char path.

#[local] Arguments String.append !_ _ / : simpl nomatch.

Lemma split_on_join c q t : split_on c (q +:+ String c t) = split_on c q ++ split_on c t.
Proof.
  induction q as [|a q IH]; simpl.
  - by rewrite Ascii.eqb_refl.
  - rewrite IH. destruct (Ascii.eqb a c); [done|].
    by destruct (split_on_cons c q) as (p & ps & ->).
Qed.

(** One path lies below another, or is it, exactly when its segments extend those
    of the other. *)
Lemma segments_prefix c q s :
  split_on c q `prefix_of` split_on c s <-> s = q \/ exists t, s = q +:+ String c t.
Proof.
  split; [|intros [->|[t ->]]; [done|]; rewrite split_on_join; by eexists].
  revert s. induction q as [|a q IH]; intros [|b s]; simpl.
  - eauto.
  - destruct (Ascii.eqb_spec b c) as [->|]; [eauto|].
    destruct (split_on_cons c s) as (p & ps & ->). intros [l Hl]. done.
  - destruct (split_on_cons c q) as (p & ps & E). destruct (Ascii.eqb a c); rewrite E.
    + intros [l Hl]. done.
    + intros [l Hl]. done.
  - destruct (split_on_cons c q) as (p & ps & Eq), (split_on_cons c s) as (x & xs & Es).
    destruct (Ascii.eqb_spec a c) as [->|Ha], (Ascii.eqb_spec b c) as [->|Hb];
      rewrite ?Eq, ?Es; intros [l Hl]; injection Hl; try done; intros.
    + destruct (IH s) as [->|[t ->]]; [|eauto..].
      exists l. rewrite Eq, Es. simpl. congruence.
    + subst. destruct (IH s) as [->|[t ->]]; [|eauto..].
      exists l. by rewrite Eq, Es.
Qed.

#[local] Transparent String.prefix.

Lemma starts_with_iff p s : starts_with p s = true <-> exists t, s = p +:+ t.
Proof.
  unfold starts_with. revert s. induction p as [|a p IH]; intros [|b s]; simpl.
  - split; [by exists ""|done].
  - split; [by exists (String b s)|done].
  - split; [done|]. by intros [? ?].
  - destruct (ascii_dec a b) as [->|Hne].
    + rewrite IH. split; intros [t Ht]; exists t; [by subst|by injection Ht].
    + split; [done|]. intros [t Ht]. by injection Ht as ->.
Qed.

(** A slash-terminated entry admits its collection root and what lies below it. *)
Lemma prefix_match_collection path root :
  trim_end_matches "/"%char (root +:+ "/") = root ->
  prefix_match path (root +:+ "/") = true <-> segments root `prefix_of` segments path.
Proof.
  intros Hroot. unfold prefix_match, segments.
  rewrite segments_prefix, Hroot, orb_true_iff, starts_with_iff.
  destruct (String.eqb_spec path root); [naive_solver|].
  setoid_rewrite string_app_assoc. naive_solver.
Qed.

Example allowlist_tests :
  (is_api_action_allowed <$>
     ["POST:/api/v1/aara-engine/invoke"; "POST:/api/v1/chat"; "artifact_promote"; "/health";
      "POST:/api/v1/runs"; "POST:/api/v1/runs/123/cancel"]%string) =
    [true; true; true; true; true; true] /\
  (is_api_action_allowed <$>
     ["POST:/api/v1/admin/dangerous"; ""; "POST:/api/v1/runsX"; "POST:/api/v1/run";
      "POST:/api/v2/runs"]%string) = [false; false; false; false; false].
Proof. split; vm_compute; reflexivity. Qed.

(** The entries written without a slash (here [/api/v1/chat]) do admit siblings. *)
Example chat_admits_siblings : is_api_action_allowed "POST:/api/v1/chatroom-admin" = true.
Proof. vm_compute. reflexivity. Qed.

(** The entries as roots of subtrees: those written with a final slash. *)
Definition collection_root (p : string) : option string :=
  if ends_with_char "/"%char p then Some (trim_end_matches "/"%char p) else None.

Lemma roots_are_clean :
  forallb (fun p => match collection_root p with
                    | Some r => String.eqb p (r +:+ "/") &&
                                String.eqb (trim_end_matches "/"%char p) r
                    | None => String.eqb (trim_end_matches "/"%char p) p
                    end) API_ALLOWED_PREFIXES = true.
Proof. vm_compute. reflexivity. Qed.

(** An API action is allowed exactly when its path has the segments of a listed
    collection as its first segments, or begins with one of the entries
    written without a slash. *)
Theorem allowlist_by_segments action :
  let path := trim (match split_once ":"%char action with Some (_, rest) => rest | None => action end) in
  is_api_action_allowed action = true <->
  exists p, p ∈ API_ALLOWED_PREFIXES /\
    match collection_root p with
    | Some root => segments root `prefix_of` segments path
    | None => starts_with p path = true
    end.
Proof.
  cbv zeta. unfold is_api_action_allowed. set (path := trim _).
  rewrite existsb_exists. setoid_rewrite <-list_elem_of_In.
  split; intros (p & Hp & Hm); exists p; (split; [done|]);
    pose proof roots_are_clean as Hc; rewrite forallb_forall in Hc;
    specialize (Hc p); rewrite <-list_elem_of_In in Hc; specialize (Hc Hp);
    destruct (collection_root p) as [root|].
  - apply andb_true_iff in Hc as [->%String.eqb_eq Ht%String.eqb_eq].
    by apply prefix_match_collection.
  - apply String.eqb_eq in Hc. unfold prefix_match in Hm. rewrite Hc in Hm.
    apply orb_true_iff in Hm as [->%String.eqb_eq|]; [|done]. apply starts_with_iff.
    exists "". by rewrite string_app_nil.
  - apply andb_true_iff in Hc as [->%String.eqb_eq Ht%String.eqb_eq].
    by apply prefix_match_collection.
  - unfold prefix_match. by rewrite Hm, orb_true_r.
Qed.
