(* ===== verification/KernelAuthorize.v ===== *)
(** * The kernel's decision routes: authorize and approvals

    Models [crates/services/safety-kernel/src/routes/authorize.rs] and
    [routes/approvals.rs].  The policy engine and the transparency log are the
    interfaces [PolicyEngine] and [TlogClient]; each call of one is an await of the
    handler's [prog], between which anything else may happen.  The clock and the
    nonce source of a request are its [Reading]. *)

From S2P Require Import Prelude RustStr Float64 Crates Merkle Json Serde Token Revoke Async Auth PolicyIpc TlogClient Allowlist.
From stdpp Require Import pretty.

Local Open Scope N_scope.

(** ** Wire data *)

Record AuthorizeRequest := {
  rq_action : string;
  rq_run_id : string;
  rq_subject : string;
  rq_params_fingerprint : string;
  rq_params : option ClaimsMap;
  rq_ttl_s : option Z;
  rq_metadata : option ClaimsMap
}.

Record AuthorizeResponse := {
  ar_ok : bool;
  ar_token : string;
  ar_token_sha256 : string;
  ar_claims : ClaimsMap
}.

Record ApproveRequest := {
  av_approver : string;
  av_proposal_fingerprint : string;
  av_metadata : option ClaimsMap
}.

Record RejectRequest := {
  rj_approver : string;
  rj_proposal_fingerprint : string;
  rj_reason : option string;
  rj_metadata : option ClaimsMap
}.

Record SignedDecisionResponse := {
  sd_ok : bool;
  sd_item_id : string;
  sd_decision : string;
  sd_token : string;
  sd_token_sha256 : string;
  sd_claims : ClaimsMap
}.

(** ** State *)

(** The policy engine, the log client (absent in dev) and, for the statements, the
    audit requests made of the policy engine. *)
Record AWorld (P T : Type) := {
  policy : P;
  transparency_client : option T;
  audits : list AuditAppendRequest
}.
Arguments policy {P T}.
Arguments transparency_client {P T}.
Arguments audits {P T}.
Arguments Build_AWorld {P T}.

(** The fixed part of [AppState] and [Settings] used here. *)
Record AuthorizeConfig `{Ed25519} := {
  a_signing_key : SigningKey;
  default_token_ttl_s : Z;
  max_token_ttl_s : Z;
  approval_token_ttl_s : Z
}.

(** What one request reads from the clock and the nonce source. *)
Record Reading := { s_now : f64; s_nonce : string; s_ended_at : f64 }.

Inductive AResponse :=
| ADeny (status : N) (body : KernelErrorResponse)
| AJson (status : N) (body : Value)
| ASigned (r : AuthorizeResponse)
| ADecision (r : SignedDecisionResponse).

Section KernelAuthorize.
Context `{Sha256} `{Ed25519} `{Hex} `{B64Url} `{SerdeJson}.
Context {P T : Type} `{PolicyEngine P} `{TlogClient T}.

Abbreviation handler := (prog (AWorld P T) Empty_set AResponse).

Definition ask_policy (req : AuthorizePolicyRequest) (w : AWorld P T)
    : res IpcError PolicyDecision * AWorld P T :=
  let (r, p) := pe_authorize req (policy w) in
  (r, Build_AWorld p (transparency_client w) (audits w)).

(** Fail-open: the policy engine's answer to the audit record is only logged. *)
Definition audit (req : AuditAppendRequest) (w : AWorld P T) : unit * AWorld P T :=
  let (_, p) := pe_audit_append req (policy w) in
  (tt, Build_AWorld p (transparency_client w) (audits w ++ [req])).

(** The result is [None] when there is no log, and otherwise what
    [timeout(.., tlog.append(..))] returned. *)
Definition tlog_step (token : string) (now : f64) (w : AWorld P T)
    : option (option (TransparencyError + TransparencyAppendOutcome)) * AWorld P T :=
  match transparency_client w with
  | None => (None, w)
  | Some t =>
    let occurred_at_u :=
      if f64_is_finite now && f64_ge now (f64_of_Z 0) then f64_as_u64 now else 0 in
    let (r, t) := tlog_append {| ti_idempotency_key := idempotency_key_for_token token;
                                 ti_payload := as_bytes token;
                                 ti_occurred_at_epoch_seconds := occurred_at_u |} t in
    (Some r, Build_AWorld (policy w) (Some t) (audits w))
  end.

(** ** [POST /kernel/v1/authorize] *)

(** The ["request"] member of every audit payload. *)
Definition audited_request (body : AuthorizeRequest) (caller : string) (requested ttl : Z) : Value :=
  jobj [("action", Str (rq_action body)); ("run_id", Str (rq_run_id body));
        ("subject", Str (rq_subject body)); ("caller_role", Str caller);
        ("params_fingerprint", Str (rq_params_fingerprint body));
        ("ttl_s_requested", i64_value requested); ("ttl_s_issued", i64_value ttl);
        ("metadata", opt_value btree_to_value (rq_metadata body))].

Definition audit_payload (request : Value) (allowed : bool) (reason : string)
    (metadata token_sha claims : Value) : Value :=
  jobj [("request", request);
        ("decision", jobj [("allowed", Bool allowed); ("reason", Str reason); ("metadata", metadata)]);
        ("token_sha256", token_sha); ("claims", claims)].

Definition audit_request (action_name : string) (payload : Value) (error : option string)
    (s : Reading) : AuditAppendRequest :=
  {| aa_unit_id := "safety_kernel"; aa_action_name := action_name; aa_payload := payload;
     aa_success := match error with None => true | Some _ => false end; aa_error := error;
     aa_started_at := s_now s; aa_ended_at := s_ended_at s |}.

(** The deny record and the 403, shared by a policy denial, a policy error and the
    two log failures ([synth_audit_and_deny]). *)
Definition audited_denial (body : AuthorizeRequest) (caller : string) (requested ttl : Z)
    (reason : string) (metadata : Value) (s : Reading) : AuditAppendRequest :=
  audit_request "kernel_authorize"
    (audit_payload (audited_request body caller requested ttl) false reason metadata Null Null)
    (Some reason) s.

Definition issued_record (body : AuthorizeRequest) (caller : string) (requested ttl : Z)
    (reason : string) (metadata : Value) (tok_sha : string) (claims_map : ClaimsMap) (s : Reading)
    : AuditAppendRequest :=
  audit_request "kernel_authorize"
    (audit_payload (audited_request body caller requested ttl) true reason metadata
       (Str tok_sha) (btree_to_value claims_map)) None s.

Definition synth_audit_and_deny (body : AuthorizeRequest) (caller : string) (requested ttl : Z)
    (reason : string) (metadata : Value) (s : Reading) : handler :=
  Await false (audit (audited_denial body caller requested ttl reason metadata s)) (fun _ =>
  Done (Ok (ADeny 403 (kernel_with_reason "denied" reason)))).

(** Steps 1 to 3.5: what is refused before anyone is asked. *)
Definition refused_at_once (caller : string) (body : AuthorizeRequest) : option AResponse :=
  if negb (String.eqb caller "worker" || String.eqb caller "api")
  then Some (ADeny 403 (kernel_with_reason "forbidden" "caller_role_forbidden")) else
  if String.eqb caller "api" && negb (is_api_action_allowed (trim (rq_action body)))
  then Some (ADeny 403 (kernel_with_reason "forbidden" "api_action_forbidden")) else
  if match rq_params body with
     | Some params =>
       negb (String.eqb (params_fingerprint (btree_to_value params)) (rq_params_fingerprint body))
     | None => false
     end
  then Some (ADeny 403 (kernel_with_reason "forbidden" "params_fingerprint_mismatch")) else
  match rq_ttl_s body with
  | Some ttl_req =>
    if negb ((1 <=? ttl_req) && (ttl_req <=? 3600))%Z
    then Some (AJson 422 (jobj [("ok", Bool false); ("error", Str "invalid_request");
                                ("reason", Str ("ttl_s_out_of_range:" +:+ pretty ttl_req))]))
    else None
  | None => None
  end.

Definition requested_ttl (cfg : AuthorizeConfig) (body : AuthorizeRequest) : Z :=
  default (default_token_ttl_s cfg) (rq_ttl_s body).

Definition clamp_ttl (cfg : AuthorizeConfig) (requested : Z) : Z :=
  Z.max (Z.min (max_token_ttl_s cfg) (Z.max requested 1)) 1.

(** The metadata sent to the policy engine: the trusted fields, then the caller's. *)
Definition policy_metadata (caller : string) (body : AuthorizeRequest) : ClaimsMap :=
  let md := bt_insert "caller_role" (Str caller) (bt_insert "run_id" (Str (rq_run_id body)) []) in
  let md := match rq_params body with
            | Some params => bt_insert "params" (btree_to_value params) md
            | None => md
            end in
  foldl (fun md kv => bt_insert (fst kv) (snd kv) md) md (default [] (rq_metadata body)).

Definition policy_request (caller : string) (body : AuthorizeRequest) (s : Reading)
    : AuthorizePolicyRequest :=
  {| ap_action := rq_action body; ap_subject := caller; ap_now := s_now s;
     ap_metadata := Obj (policy_metadata caller body) |}.

Definition authorize_claims (caller : string) (body : AuthorizeRequest) (ttl : Z) (s : Reading)
    : AuthorizeClaims :=
  {| ac_action := rq_action body; ac_aud := KERNEL_AUTHORIZE_AUD; ac_run_id := rq_run_id body;
     ac_subject := caller; ac_params_fingerprint := rq_params_fingerprint body;
     ac_issued_at := s_now s; ac_expires_at := f64_add (s_now s) (f64_of_Z ttl);
     ac_nonce := s_nonce s |}.

Definition error_metadata (detail : string) : Value := jobj [("error", Str detail)].

(** [TransparencyError::detail], the [Display] text. *)
Definition transparency_detail (e : TransparencyError) : string :=
  match e with
  | TUnreachable d => "transparency-log unreachable: " +:+ d
  | TRejected c d =>
    "transparency-log rejected request: status=" +:+ u64_to_string c +:+ " detail=" +:+ d
  | TServerError c d =>
    "transparency-log server error: status=" +:+ u64_to_string c +:+ " detail=" +:+ d
  | TConflict => "transparency-log idempotency conflict (existing row preserved)"
  | TMalformed d => "transparency-log malformed response: " +:+ d
  | TProtocolViolation m => "transparency-log protocol violation: " +:+ m
  end.

Definition authorize (cfg : AuthorizeConfig) (caller : string) (body : AuthorizeRequest) (s : Reading)
    : handler :=
  match refused_at_once caller body with
  | Some r => Done (Ok r)
  | None =>
  let requested := requested_ttl cfg body in
  let ttl := clamp_ttl cfg requested in
  let deny := fun reason metadata => synth_audit_and_deny body caller requested ttl reason metadata s in
  let decide := fun (decision_allowed : bool) decision_reason decision_metadata =>
    if negb decision_allowed then deny decision_reason decision_metadata else
    let claims_struct := authorize_claims caller body ttl s in
    let token := sign_kernel_token claims_struct (a_signing_key cfg) in
    let tok_sha := token_sha256 token in
    let claims_map := to_btreemap claims_struct in
    let issue :=
      Await false
        (audit (issued_record body caller requested ttl decision_reason decision_metadata
                  tok_sha claims_map s))
        (fun _ => Done (Ok (ASigned {| ar_ok := true; ar_token := token; ar_token_sha256 := tok_sha;
                                       ar_claims := claims_map |}))) in
    Await false (tlog_step token (s_now s)) (fun tlog_outcome =>
    match tlog_outcome with
    | None | Some (Some (inr _)) | Some (Some (inl TConflict)) => issue
    | Some (Some (inl e)) =>
      deny ("transparency_error:" +:+ kind e) (error_metadata (transparency_detail e))
    | Some None =>
      deny "transparency_error:timeout" (error_metadata "transparency-log timed out")
    end) in
  Await false (ask_policy (policy_request caller body s)) (fun policy_decision_result =>
  match policy_decision_result with
  | Ok d => decide (pd_allowed d) (pd_reason d) (pd_metadata d)
  | Err e => decide false ("policy_error:" +:+ ipc_kind e) (error_metadata (ipc_detail e))
  | Panic => Done Panic
  end)
  end.

(** ** [POST /kernel/v1/approvals/{item_id}/approve] and [reject] *)

Definition decision_payload (item_id decision approver : string) (reason : option string)
    (proposal_fingerprint : string) : Value :=
  jobj [("item_id", Str item_id); ("decision", Str decision); ("approver", Str approver);
        ("reason", opt_value Str reason); ("proposal_fingerprint", Str proposal_fingerprint)].

Definition compute_decision_fingerprint (item_id decision approver : string)
    (reason : option string) (proposal_fingerprint : string) : string :=
  params_fingerprint (decision_payload item_id decision approver reason proposal_fingerprint).

Definition approval_claims (cfg : AuthorizeConfig) (item_id decision approver : string)
    (reason : option string) (proposal_fingerprint : string) (s : Reading) : ApprovalClaims :=
  let ttl := Z.max (approval_token_ttl_s cfg) 60 in
  {| pc_action := "approval_decision"; pc_aud := APPROVAL_AUD; pc_run_id := item_id;
     pc_subject := "operator";
     pc_params_fingerprint :=
       compute_decision_fingerprint item_id decision approver reason proposal_fingerprint;
     pc_issued_at := s_now s; pc_expires_at := f64_add (s_now s) (f64_of_Z ttl);
     pc_nonce := s_nonce s; pc_decision := decision; pc_reason := reason;
     pc_approver := approver; pc_proposal_fingerprint := proposal_fingerprint |}.

Definition sign_decision (cfg : AuthorizeConfig) (caller item_id decision approver : string)
    (reason : option string) (proposal_fingerprint : string) (metadata : option ClaimsMap)
    (s : Reading) : handler :=
  if negb (String.eqb caller "operator")
  then Done (Ok (ADeny 403 (kernel_with_reason "forbidden" "caller_role_not_operator"))) else
  let claims_struct := approval_claims cfg item_id decision approver reason proposal_fingerprint s in
  let token := sign_kernel_token claims_struct (a_signing_key cfg) in
  let tok_sha := token_sha256 token in
  let claims_map := to_btreemap claims_struct in
  Await false
    (audit (audit_request "kernel_signed_approval"
      (jobj [("request", jobj [("item_id", Str item_id); ("decision", Str decision);
                ("approver", Str approver); ("reason", opt_value Str reason);
                ("proposal_fingerprint", Str proposal_fingerprint);
                ("metadata", opt_value btree_to_value metadata); ("caller_role", Str caller)]);
             ("token_sha256", Str tok_sha); ("claims", btree_to_value claims_map)]) None s))
    (fun _ => Done (Ok (ADecision {| sd_ok := true; sd_item_id := item_id; sd_decision := decision;
       sd_token := token; sd_token_sha256 := tok_sha; sd_claims := claims_map |}))).

Definition approve (cfg : AuthorizeConfig) (caller item_id : string) (body : ApproveRequest)
    (s : Reading) : handler :=
  sign_decision cfg caller item_id "approved" (av_approver body) None
    (av_proposal_fingerprint body) (av_metadata body) s.

Definition reject (cfg : AuthorizeConfig) (caller item_id : string) (body : RejectRequest)
    (s : Reading) : handler :=
  sign_decision cfg caller item_id "rejected" (rj_approver body) (rj_reason body)
    (rj_proposal_fingerprint body) (rj_metadata body) s.

(** ** What issuing means *)

Definition eligible (caller : string) (body : AuthorizeRequest) : Prop :=
  (caller = "worker" \/ caller = "api" /\ is_api_action_allowed (trim (rq_action body)) = true) /\
  (forall params, rq_params body = Some params ->
     params_fingerprint (btree_to_value params) = rq_params_fingerprint body) /\
  (forall t, rq_ttl_s body = Some t -> (1 <= t <= 3600)%Z).

Lemma eligible_iff caller body : refused_at_once caller body = None <-> eligible caller body.
Proof.
  unfold refused_at_once, eligible.
  destruct (String.eqb_spec caller "worker") as [->|Hw]; simpl.
  2: destruct (String.eqb_spec caller "api") as [->|Ha]; simpl; [|naive_solver].
  2: destruct (is_api_action_allowed _); simpl; [|naive_solver].
  all: destruct (rq_params body) as [ps|]; simpl;
    [destruct (String.eqb_spec (params_fingerprint (btree_to_value ps)) (rq_params_fingerprint body));
     simpl; [|naive_solver]|].
  all: destruct (rq_ttl_s body) as [t|]; simpl; [|naive_solver].
  all: destruct (Z.leb_spec 1 t), (Z.leb_spec t 3600); simpl; split; try done;
    try (intros (_ & _ & Ht); specialize (Ht t eq_refl); lia); naive_solver lia.
Qed.

(** An immediate refusal is a 403, or the 422 of a TTL out of range. *)
Lemma refused_at_once_shape caller body r :
  refused_at_once caller body = Some r ->
  (exists e, r = ADeny 403 e) \/
  (exists v t, r = AJson 422 v /\ rq_ttl_s body = Some t /\ ~ (1 <= t <= 3600)%Z).
Proof.
  unfold refused_at_once.
  destruct (negb (_ || _)); [intros [= <-]; eauto|].
  destruct (_ && negb _); [intros [= <-]; eauto|].
  destruct (match rq_params body with Some _ => _ | None => _ end); [intros [= <-]; eauto|].
  destruct (rq_ttl_s body) as [t|]; [|done].
  destruct (Z.leb_spec 1 t), (Z.leb_spec t 3600); simpl; intros [= <-];
    right; do 2 eexists; (split_and!; [done..|lia]).
Qed.

(** The issued TTL is positive and within the configured maximum. *)
Lemma clamp_ttl_range cfg t :
  (1 <= clamp_ttl cfg t)%Z /\ (clamp_ttl cfg t <= Z.max 1 (max_token_ttl_s cfg))%Z.
Proof. unfold clamp_ttl. lia. Qed.

(** The log's answers after which a token is issued. *)
Definition log_accepts
    (r : option (option (TransparencyError + TransparencyAppendOutcome))) : Prop :=
  match r with None | Some (Some (inr _)) | Some (Some (inl TConflict)) => True | _ => False end.

Context `{!PolicyEngineTotal P}.

(** The token a request leads to when it is issued. *)
Definition issued_claims (cfg : AuthorizeConfig) (caller : string) (body : AuthorizeRequest)
    (s : Reading) : AuthorizeClaims :=
  authorize_claims caller body (clamp_ttl cfg (requested_ttl cfg body)) s.

Definition issued_token (cfg : AuthorizeConfig) (caller : string) (body : AuthorizeRequest)
    (s : Reading) : string :=
  sign_kernel_token (issued_claims cfg caller body s) (a_signing_key cfg).

Definition issued_response (cfg : AuthorizeConfig) (caller : string) (body : AuthorizeRequest)
    (s : Reading) : AuthorizeResponse :=
  {| ar_ok := true; ar_token := issued_token cfg caller body s;
     ar_token_sha256 := token_sha256 (issued_token cfg caller body s);
     ar_claims := to_btreemap (issued_claims cfg caller body s) |}.

Lemma ask_policy_total req w : fst (ask_policy req w) <> Panic.
Proof.
  unfold ask_policy. pose proof (pe_authorize_total req (policy w)) as Ht.
  by destruct (pe_authorize _ _).
Qed.

Lemma denial_inv env body caller requested ttl reason md s w r w' :
  exec env (synth_audit_and_deny body caller requested ttl reason md s) w r w' ->
  exists w3, env false w w3 /\ r = Ok (ADeny 403 (kernel_with_reason "denied" reason)) /\
    w' = snd (audit (audited_denial body caller requested ttl reason md s) w3).
Proof. intros (w3 & He & [-> ->]%exec_done_inv)%exec_await_inv. eauto. Qed.

(** Every answer of the route, whatever runs between its steps. *)
Lemma authorize_answers env cfg caller body s w r w' :
  exec env (authorize cfg caller body s) w r w' ->
  exists resp, r = Ok resp /\
  match resp with
  | ASigned a =>
    eligible caller body /\ a = issued_response cfg caller body s /\
    exists w1 w2 w3 d,
      env false w w1 /\
      fst (ask_policy (policy_request caller body s) w1) = Ok d /\ pd_allowed d = true /\
      env false (snd (ask_policy (policy_request caller body s) w1)) w2 /\
      log_accepts (fst (tlog_step (issued_token cfg caller body s) (s_now s) w2)) /\
      env false (snd (tlog_step (issued_token cfg caller body s) (s_now s) w2)) w3 /\
      w' = snd (audit (issued_record body caller (requested_ttl cfg body)
                         (clamp_ttl cfg (requested_ttl cfg body)) (pd_reason d) (pd_metadata d)
                         (ar_token_sha256 a) (ar_claims a) s) w3)
  | ADeny status e =>
    status = 403 /\
    (w' = w /\ ~ eligible caller body \/
     eligible caller body /\ exists reason md w3,
       e = kernel_with_reason "denied" reason /\
       w' = snd (audit (audited_denial body caller (requested_ttl cfg body)
                          (clamp_ttl cfg (requested_ttl cfg body)) reason md s) w3))
  | AJson status _ =>
    status = 422 /\ w' = w /\ exists t, rq_ttl_s body = Some t /\ ~ (1 <= t <= 3600)%Z
  | ADecision _ => False
  end.
Proof.
  intros Hx. unfold authorize in Hx.
  destruct (refused_at_once caller body) as [resp|] eqn:Href.
  - apply exec_done_inv in Hx as [-> ->]. exists resp. split; [done|].
    assert (~ eligible caller body) as Hn by (rewrite <-eligible_iff; congruence).
    destruct (refused_at_once_shape _ _ _ Href) as [[e ->]|(v & t & -> & Ht & Hr)]; eauto.
  - apply eligible_iff in Href. apply exec_await_inv in Hx as (w1 & He1 & Hx).
    pose proof (ask_policy_total (policy_request caller body s) w1) as Htot.
    destruct (fst (ask_policy _ w1)) as [d|e|] eqn:Ed; [|cbn [negb] in Hx|done].
    + destruct (pd_allowed d) eqn:Ea; cbn [negb] in Hx.
      * apply exec_await_inv in Hx as (w2 & He2 & Hx).
         fold (issued_claims cfg caller body s) in Hx. fold (issued_token cfg caller body s) in Hx.
         destruct (fst (tlog_step _ _ w2)) as [[[[]|o]|]|] eqn:El.
         all: try (apply denial_inv in Hx as (w3 & _ & -> & ->); eexists; split; [done|];
                   split; [done|]; right; split; [done|]; eauto).
         all: apply exec_await_inv in Hx as (w3 & He3 & [-> ->]%exec_done_inv);
           eexists; split; [reflexivity|]; split_and!; [done|reflexivity|];
           exists w1, w2, w3, d; rewrite El; by split_and!.
      * apply denial_inv in Hx as (w3 & _ & -> & ->). eexists; split; [done|].
         split; [done|]. right. split; [done|]. eauto.
    + apply denial_inv in Hx as (w3 & _ & -> & ->). eexists; split; [done|].
      split; [done|]. right. split; [done|]. eauto.
Qed.

(** C20.  The kernel signs only what has been vetted, whatever other requests do
    between its steps: a signed answer means that the caller is a worker, or the
    API asking for a listed action, with parameters that hash to the fingerprint
    it signs, that the policy engine answered this very question and allowed it,
    and that the transparency log then took the token (or there is none); the
    claims bind the trusted role, the action, the run and a clamped lifetime.
    Everything else is a 403, or the 422 of a TTL out of range: an engine error or
    a log failure is never an approval, the immediate refusals touch nothing, and
    every other answer's last act is to send the audit record of what it says.
    Conversely, alone, an eligible and allowed request that the log takes is
    signed. *)
Theorem authorize_issues_only_vetted env cfg caller body s w :
  (forall r w', exec env (authorize cfg caller body s) w r w' ->
   exists resp, r = Ok resp /\
   match resp with
   | ASigned a =>
     eligible caller body /\ a = issued_response cfg caller body s /\
     exists w1 w2 w3 d,
       env false w w1 /\
       fst (ask_policy (policy_request caller body s) w1) = Ok d /\ pd_allowed d = true /\
       env false (snd (ask_policy (policy_request caller body s) w1)) w2 /\
       log_accepts (fst (tlog_step (issued_token cfg caller body s) (s_now s) w2)) /\
       env false (snd (tlog_step (issued_token cfg caller body s) (s_now s) w2)) w3 /\
       w' = snd (audit (issued_record body caller (requested_ttl cfg body)
                          (clamp_ttl cfg (requested_ttl cfg body)) (pd_reason d) (pd_metadata d)
                          (ar_token_sha256 a) (ar_claims a) s) w3)
   | ADeny status e =>
     status = 403 /\
     (w' = w /\ ~ eligible caller body \/
      eligible caller body /\ exists reason md w3,
        e = kernel_with_reason "denied" reason /\
        w' = snd (audit (audited_denial body caller (requested_ttl cfg body)
                           (clamp_ttl cfg (requested_ttl cfg body)) reason md s) w3))
   | AJson status _ =>
     status = 422 /\ w' = w /\ exists t, rq_ttl_s body = Some t /\ ~ (1 <= t <= 3600)%Z
   | ADecision _ => False
   end) /\
  (forall d, eligible caller body ->
   fst (ask_policy (policy_request caller body s) w) = Ok d -> pd_allowed d = true ->
   log_accepts (fst (tlog_step (issued_token cfg caller body s) (s_now s)
                       (snd (ask_policy (policy_request caller body s) w)))) ->
   fst (run (authorize cfg caller body s) w) = Ok (ASigned (issued_response cfg caller body s))).
Proof.
  split.
  - intros r w'. apply authorize_answers.
  - intros d Hel%eligible_iff Hd Ha Hl. unfold authorize. rewrite Hel. cbn [run].
    destruct (ask_policy _ w) as [rd w2]. simpl in Hd, Hl. rewrite Hd. simpl. rewrite Ha. simpl.
    fold (issued_claims cfg caller body s). fold (issued_token cfg caller body s).
    destruct (tlog_step _ _ w2) as [rl w3]. simpl in Hl.
    destruct rl as [[[[]|o]|]|]; try done; simpl; by destruct (audit _ _).
Qed.

(** ** Approvals *)

(** The keys in byte order. *)
Lemma decision_payload_sorted item decision approver reason fp :
  decision_payload item decision approver reason fp =
  Obj [("approver", Str approver); ("decision", Str decision); ("item_id", Str item);
       ("proposal_fingerprint", Str fp); ("reason", opt_value Str reason)].
Proof. reflexivity. Qed.

Lemma decision_payload_ok item decision approver reason fp :
  utf8 item = true -> utf8 decision = true -> utf8 approver = true -> opt_str_ok reason ->
  utf8 fp = true -> json_ok (decision_payload item decision approver reason fp).
Proof.
  intros. assert (value_ok (opt_value Str reason)) by (by destruct reason).
  rewrite decision_payload_sorted. split; [obj_ok|]. simpl. destruct reason; simpl; lia.
Qed.

Lemma opt_value_str_inj a b : opt_value Str a = opt_value Str b -> a = b.
Proof. destruct a, b; simpl; congruence. Qed.

Lemma sign_decision_inv env cfg caller item decision approver reason fp md s w r w' :
  exec env (sign_decision cfg caller item decision approver reason fp md s) w r w' ->
  (caller <> "operator" /\ w' = w /\
   r = Ok (ADeny 403 (kernel_with_reason "forbidden" "caller_role_not_operator"))) \/
  (caller = "operator" /\ exists a, r = Ok (ADecision a) /\
   let c := approval_claims cfg item decision approver reason fp s in
   a = {| sd_ok := true; sd_item_id := item; sd_decision := decision;
          sd_token := sign_kernel_token c (a_signing_key cfg);
          sd_token_sha256 := token_sha256 (sign_kernel_token c (a_signing_key cfg));
          sd_claims := to_btreemap c |}).
Proof.
  unfold sign_decision. destruct (String.eqb_spec caller "operator"); simpl; intros Hx.
  - right. apply exec_await_inv in Hx as (w1 & _ & [-> ->]%exec_done_inv). eauto.
  - left. by apply exec_done_inv in Hx as [-> ->].
Qed.

(** The two routes together. *)
Inductive ApprovalCall := Approve (body : ApproveRequest) | Reject (body : RejectRequest).

Definition call_decision (c : ApprovalCall) : string :=
  match c with Approve _ => "approved" | Reject _ => "rejected" end.
Definition call_approver (c : ApprovalCall) : string :=
  match c with Approve b => av_approver b | Reject b => rj_approver b end.
Definition call_reason (c : ApprovalCall) : option string :=
  match c with Approve _ => None | Reject b => rj_reason b end.
Definition call_proposal (c : ApprovalCall) : string :=
  match c with Approve b => av_proposal_fingerprint b | Reject b => rj_proposal_fingerprint b end.

Definition serve_approval (cfg : AuthorizeConfig) (caller item : string) (c : ApprovalCall)
    (s : Reading) : handler :=
  match c with
  | Approve b => approve cfg caller item b s
  | Reject b => reject cfg caller item b s
  end.

Definition call_payload (item : string) (c : ApprovalCall) : Value :=
  decision_payload item (call_decision c) (call_approver c) (call_reason c) (call_proposal c).

Definition call_ok (item : string) (c : ApprovalCall) : Prop :=
  utf8 item = true /\ utf8 (call_approver c) = true /\ opt_str_ok (call_reason c) /\
  utf8 (call_proposal c) = true.

Lemma call_payload_ok item c : call_ok item c -> json_ok (call_payload item c).
Proof. intros (? & ? & ? & ?). apply decision_payload_ok; try done. by destruct c. Qed.

Lemma call_payload_inj item1 c1 item2 c2 :
  call_payload item1 c1 = call_payload item2 c2 ->
  item1 = item2 /\ call_decision c1 = call_decision c2 /\ call_approver c1 = call_approver c2 /\
  call_reason c1 = call_reason c2 /\ call_proposal c1 = call_proposal c2.
Proof.
  unfold call_payload. rewrite !decision_payload_sorted. intros E.
  injection E as ? ? ? ? ?%opt_value_str_inj. by split_and!.
Qed.

Lemma serve_approval_inv env cfg caller item c s w r w' :
  exec env (serve_approval cfg caller item c s) w r w' ->
  (caller <> "operator" /\ w' = w /\
   r = Ok (ADeny 403 (kernel_with_reason "forbidden" "caller_role_not_operator"))) \/
  (caller = "operator" /\
   let claims := approval_claims cfg item (call_decision c) (call_approver c) (call_reason c)
                   (call_proposal c) s in
   r = Ok (ADecision
     {| sd_ok := true; sd_item_id := item; sd_decision := call_decision c;
        sd_token := sign_kernel_token claims (a_signing_key cfg);
        sd_token_sha256 := token_sha256 (sign_kernel_token claims (a_signing_key cfg));
        sd_claims := to_btreemap claims |})).
Proof. destruct c; intros [?|[-> (a & -> & ->)]]%sign_decision_inv; auto. Qed.

(** Approvals speak for the operator and for one decision: the two approval
    routes sign for nobody else and always sign for him, under the approvals
    audience, and two answers whose claims carry the same fingerprint decide the
    same thing about the same item and proposal, for the same approver and reason
    -- an approval never passes for a rejection -- unless the two payloads are an
    explicit SHA-256 collision. *)
Theorem approvals_bind_the_decision `{!HexCorrect} `{!SerdeJsonCorrect} env cfg caller item c s w r w' :
  exec env (serve_approval cfg caller item c s) w r w' -> call_ok item c ->
  (caller <> "operator" -> w' = w /\ exists e, r = Ok (ADeny 403 e)) /\
  (caller = "operator" -> exists a, r = Ok (ADecision a) /\
     bt_get "aud" (sd_claims a) = Some (Str APPROVAL_AUD) /\
     bt_get "subject" (sd_claims a) = Some (Str "operator") /\
     bt_get "decision" (sd_claims a) = Some (Str (call_decision c)) /\
     forall cfg2 item2 c2 s2 w2 a2 w2',
       exec env (serve_approval cfg2 caller item2 c2 s2) w2 (Ok (ADecision a2)) w2' ->
       call_ok item2 c2 ->
       bt_get "params_fingerprint" (sd_claims a) = bt_get "params_fingerprint" (sd_claims a2) ->
       (item = item2 /\ call_decision c = call_decision c2 /\ call_approver c = call_approver c2 /\
        call_reason c = call_reason c2 /\ call_proposal c = call_proposal c2) \/
       sha_collision (fingerprinted (call_payload item c)) (fingerprinted (call_payload item2 c2))).
Proof.
  intros Hx Hok. apply serve_approval_inv in Hx as [(Hne & -> & ->)|[-> ->]].
  - split; [eauto|done].
  - split; [done|]. intros _. eexists. split; [done|]. split_and!; [reflexivity..|].
    intros cfg2 item2 c2 s2 w2 a2 w2' Hx Hok2 Heq.
    apply serve_approval_inv in Hx as [(? & _ & ?)|[_ [= ->]]]; [done|].
    cbn [sd_claims] in Heq. rewrite !approval_map in Heq.
    assert (params_fingerprint (call_payload item c) = params_fingerprint (call_payload item2 c2))
      as Hf by (by injection Heq).
    apply params_fingerprint_inj in Hf as [Hf|Hf]; auto using call_payload_ok.
    left. by apply call_payload_inj.
Qed.

(** The caller's metadata is merged last: it can replace the trusted role in what the
    policy engine is told. *)
Lemma metadata_replaces_caller_role caller body v :
  bt_get "caller_role" (default [] (rq_metadata body)) = Some v ->
  sorted (default [] (rq_metadata body)) ->
  bt_get "caller_role" (policy_metadata caller body) = Some v.
Proof.
  intros Hg Hs. unfold policy_metadata. by rewrite bt_get_extend, Hg.
Qed.

End KernelAuthorize.

(** ** Witnesses *)

Module Demo.
#[local] Existing Instance demo_ed25519.
#[local] Existing Instance demo_hex.
#[local] Existing Instance demo_b64.
#[local] Existing Instance DemoJson.demo_serde.
#[local] Instance sha : Sha256 := fun l => array_of 32 (rev l).

(** A policy engine that allows one subject, and nothing else of it works. *)
#[local] Instance one_subject : PolicyEngine string := {
  pe_authorize req p :=
    (Ok {| pd_allowed := String.eqb (ap_subject req) p; pd_reason := "listed"; pd_metadata := Obj [] |}, p);
  pe_audit_append _ p := (Err IpcEof, p);
  pe_policy_authorize _ p := (Err IpcEof, p);
  pe_policy_register _ p := (Err IpcEof, p);
  pe_policy_audit_event _ p := (Err IpcEof, p);
  pe_policy_module_status _ p := (Err IpcEof, p)
}.

#[local] Instance one_subject_total : PolicyEngineTotal string.
Proof. done. Qed.

#[local] Instance accepting_log : TlogClient unit :=
  fun _ t => (Some (inr {| to_leaf_index := 0; to_idempotent_replay := false |}), t).

Definition cfg : AuthorizeConfig := {|
  a_signing_key := [x01] : @SigningKey demo_ed25519; default_token_ttl_s := 60;
  max_token_ttl_s := 300; approval_token_ttl_s := 900 |}.

Definition request : AuthorizeRequest := {|
  rq_action := "POST:/api/v1/runs"; rq_run_id := "run-1"; rq_subject := "someone";
  rq_params_fingerprint := "ab12"; rq_params := None; rq_ttl_s := Some 600%Z; rq_metadata := None |}.

Definition reading : Reading := {|
  s_now := f64_of_Z 1000; s_nonce := "n0nce"; s_ended_at := f64_of_Z 1001 |}.

Definition world : AWorld string unit := Build_AWorld "api" (Some tt) [].

Lemma authorize_issues_only_vetted_witness :
  fst (run (authorize cfg "api" request reading) world) =
  Ok (ASigned (issued_response cfg "api" request reading)) /\
  ac_expires_at (issued_claims cfg "api" request reading) = f64_of_Z 1300.
Proof.
  split; [|vm_compute; reflexivity].
  eapply (proj2 (authorize_issues_only_vetted (fun _ _ _ => True) cfg "api" request reading world)
    {| pd_allowed := true; pd_reason := "listed"; pd_metadata := Obj [] |}).
  - apply eligible_iff. reflexivity.
  - reflexivity.
  - reflexivity.
  - exact I.
Defined.

Definition approval : ApproveRequest := {|
  av_approver := "alice"; av_proposal_fingerprint := "cd34"; av_metadata := None |}.

Definition rejection : RejectRequest := {|
  rj_approver := "alice"; rj_proposal_fingerprint := "cd34"; rj_reason := None;
  rj_metadata := None |}.

(** Sha-256 stands in as byte reversal cut to 32 bytes, so the two payloads of an
    approval and of a rejection do have different fingerprints or collide. *)
Lemma approvals_bind_the_decision_witness : exists a1 a2,
  fst (run (approve cfg "operator" "item-1" approval reading) world) = Ok (ADecision a1) /\
  fst (run (reject cfg "operator" "item-1" rejection reading) world) = Ok (ADecision a2) /\
  (bt_get "params_fingerprint" (sd_claims a1) = bt_get "params_fingerprint" (sd_claims a2) ->
   sha_collision (fingerprinted (call_payload "item-1" (Approve approval)))
     (fingerprinted (call_payload "item-1" (Reject rejection)))).
Proof.
  pose (env := fun (_ : bool) (_ _ : AWorld string unit) => True).
  assert (forall held w, env held w w) as Hrefl by done.
  pose proof (exec_run _ Hrefl (serve_approval cfg "operator" "item-1" (Approve approval) reading) world)
    as Hx1.
  pose proof (exec_run _ Hrefl (serve_approval cfg "operator" "item-1" (Reject rejection) reading) world)
    as Hx2.
  destruct (proj2 (approvals_bind_the_decision env cfg "operator" "item-1" (Approve approval) reading
    world _ _ Hx1 ltac:(by split_and!)) eq_refl) as (a & Ha & _ & _ & _ & Hbind).
  destruct (serve_approval_inv _ _ _ _ _ _ _ _ _ Hx2) as [(Hne & _)|[_ Hr2]]; [by destruct Hne|].
  cbv zeta in Hr2. eexists a, _. split; [exact Ha|]. split; [exact Hr2|]. intros Heq.
  rewrite Hr2 in Hx2.
  destruct (Hbind _ _ _ _ _ _ _ Hx2 ltac:(by split_and!) Heq) as [(_ & Hd & _)|Hc]; [done|exact Hc].
Defined.

End Demo.
