(* ===== verification/Policy.v ===== *)
(** * The policy engine's data: module paths, requests and claim sets

    Models [crates/domain/src/safety/policy/]: [validation.rs], [types.rs] and
    [claims.rs]. *)

From S2P Require Import Prelude RustStr Float64 Crates Json Token.
From Stdlib Require Import Sorted.

(** ** Module paths *)

Definition MAX_MODULE_PATH_LEN : nat := 256.
Definition MODULE_PATH_INVALID_CHARSET_REASON : string := "module_path_invalid_charset".

Definition dotted_char (a : ascii) : bool :=
  within 65 90 a || within 97 122 a || within 48 57 a || Ascii.eqb a "_" || Ascii.eqb a ".".
Definition lower_hex_char (a : ascii) : bool := within 48 57 a || within 97 102 a.

Definition is_valid_module_path (s : string) : bool :=
  if is_empty s || (MAX_MODULE_PATH_LEN <? String.length s)%nat then false else
  if string_forall dotted_char s then true else
  if (String.length s =? 64)%nat then string_forall lower_hex_char s else false.

(** ** Requests *)

Inductive ModuleEventKind := Import | Exec | Compile.

Record ModuleAuthorizeRequest := {
  mq_event_kind : ModuleEventKind;
  mq_module_path : string;
  mq_caller_subject : string;
  mq_caller_run_id : string;
  mq_event_fingerprint : string;
  mq_expected_required_patterns : option (list string);
  mq_metadata : option ClaimsMap
}.

Inductive ModuleAuthorizeDecision := MAllow | MDeny | MKernelUnavailable.

Record ModuleRegisterRequest := {
  gq_module_path : string;
  gq_required_patterns_regex_set : list string;
  gq_caller_subject : string
}.

Inductive AuditEventKind :=
| HookInstallViolation
| SubprocessPropagationFailed
| RegistryConsistencyWarning.

Record ModuleAuditEventRequest := {
  eq_event_kind : AuditEventKind;
  eq_subject : string;
  eq_metadata : option ClaimsMap
}.

(** The wire names. *)
Definition module_event_wire (k : ModuleEventKind) : string :=
  match k with Import => "import" | Exec => "exec" | Compile => "compile" end.

Definition decision_wire (d : ModuleAuthorizeDecision) : string :=
  match d with
  | MAllow => "allow"
  | MDeny => "deny"
  | MKernelUnavailable => "kernel_unavailable"
  end.

Definition audit_event_wire (k : AuditEventKind) : string :=
  match k with
  | HookInstallViolation => "hook_install_violation"
  | SubprocessPropagationFailed => "subprocess_propagation_failed"
  | RegistryConsistencyWarning => "registry_consistency_warning"
  end.

(** ** Claim sets *)

Definition POLICY_AUTHORIZE_ACTION : string := "policy_module_authorize".
Definition POLICY_REGISTER_ACTION : string := "policy_module_register".
Definition POLICY_AUTHORIZE_AUD : string := "policy/module/authorize".
Definition POLICY_REGISTER_AUD : string := "policy/module/register".

Record ModuleAuthorizeClaims := {
  mc_aud : string;
  mc_iss : string;
  mc_iat : f64;
  mc_exp : f64;
  mc_subject : string;
  mc_run_id : string;
  mc_event_kind : ModuleEventKind;
  mc_module_path : string;
  mc_event_fingerprint : string;
  mc_decision : ModuleAuthorizeDecision;
  mc_reason : option string;
  mc_nonce : string
}.

Definition reason_value (o : option string) : Value :=
  match o with Some s => Str s | None => Null end.

#[global] Instance ModuleAuthorizeClaims_to_btreemap : ToClaimsMap ModuleAuthorizeClaims := fun c =>
  bt_collect [("action", Str POLICY_AUTHORIZE_ACTION);
              ("aud", Str (mc_aud c));
              ("run_id", Str (mc_run_id c));
              ("subject", Str (mc_subject c));
              ("params_fingerprint", Str (mc_event_fingerprint c));
              ("issued_at", json_f64 (mc_iat c));
              ("expires_at", json_f64 (mc_exp c));
              ("nonce", Str (mc_nonce c));
              ("decision", Str (decision_wire (mc_decision c)));
              ("event_fingerprint", Str (mc_event_fingerprint c));
              ("event_kind", Str (module_event_wire (mc_event_kind c)));
              ("iss", Str (mc_iss c));
              ("module_path", Str (mc_module_path c));
              ("reason", reason_value (mc_reason c))].

Record ModuleRegisterClaims := {
  gc_aud : string;
  gc_iss : string;
  gc_iat : f64;
  gc_exp : f64;
  gc_subject : string;
  gc_run_id : string;
  gc_module_path : string;
  gc_required_patterns_regex_set_fingerprint : string;
  gc_registered_at_unix_ms : Z;
  gc_params_fingerprint : string;
  gc_nonce : string
}.

#[global] Instance ModuleRegisterClaims_to_btreemap : ToClaimsMap ModuleRegisterClaims := fun c =>
  bt_collect [("action", Str POLICY_REGISTER_ACTION);
              ("aud", Str (gc_aud c));
              ("expires_at", json_f64 (gc_exp c));
              ("issued_at", json_f64 (gc_iat c));
              ("iss", Str (gc_iss c));
              ("module_path", Str (gc_module_path c));
              ("nonce", Str (gc_nonce c));
              ("params_fingerprint", Str (gc_params_fingerprint c));
              ("registered_at_unix_ms", i64_value (gc_registered_at_unix_ms c));
              ("required_patterns_regex_set_fingerprint",
               Str (gc_required_patterns_regex_set_fingerprint c));
              ("run_id", Str (gc_run_id c));
              ("subject", Str (gc_subject c))].

(** ** Lemmas *)

Lemma string_forall_weaken (p q : ascii -> bool) s :
  (forall a, p a = true -> q a = true) -> string_forall p s = true -> string_forall q s = true.
Proof.
  intros Hpq. induction s as [|a s IH]; simpl; [done|].
  intros [Ha Hs]%andb_true_iff. by rewrite Hpq, IH.
Qed.

(** The hash form is already a dotted form, so validity is: non-empty, short and
    of the dotted alphabet. *)
Lemma valid_module_path_iff s :
  is_valid_module_path s = true <->
  s <> EmptyString /\ (String.length s <= MAX_MODULE_PATH_LEN)%nat /\
  string_forall dotted_char s = true.
Proof.
  unfold is_valid_module_path.
  destruct s as [|a s]; [simpl; split; [done|]; by intros [? _]|]. cbn [is_empty orb].
  destruct (Nat.ltb_spec MAX_MODULE_PATH_LEN (String.length (String a s))).
  { split; [done|]. intros (_ & ? & _). lia. }
  destruct (string_forall dotted_char (String a s)) eqn:E; [split; [|done]; intros _; split_and!; [done|lia|done]|].
  split; [|by intros (_ & _ & ?)]. destruct (_ =? 64)%nat; [|done]. intros Hh.
  rewrite (string_forall_weaken lower_hex_char dotted_char) in E; [done| |done].
  intros b [Hb|Hb]%orb_true_iff; unfold dotted_char, within in *;
    rewrite Hb || (apply andb_true_iff in Hb as [Hl Hr]; apply N.leb_le in Hl, Hr).
  all: repeat rewrite orb_true_iff; rewrite ?andb_true_iff, ?N.leb_le; naive_solver lia.
Qed.

Lemma module_event_wire_inj a b : module_event_wire a = module_event_wire b -> a = b.
Proof. by destruct a, b. Qed.
