(* ===== verification/PolicyRoutes.v ===== *)
(** * The kernel's policy routes: register, authorize, status, audit-event

    Models [crates/services/safety-kernel/src/routes/policy/]: [register.rs] with
    its ReDoS heuristic, [authorize.rs], [status.rs] and [audit_event.rs].  They
    share the world, the audit call and the [Reading] of [KernelAuthorize]; the
    regex crate is the parameter [RegexCrate]. *)

From S2P Require Import Prelude RustStr Float64 Crates Merkle Json Serde Token Revoke Async Auth PolicyIpc KernelAuthorize Policy.
From stdpp Require Import pretty.

(** ** The [regex] crate *)

Inductive RegexErrorKind := Syntax | CompiledTooBig | Other.

Class RegexCrate := {
  (** [Regex::new]: [None] when the pattern compiles *)
  regex_new : string -> option RegexErrorKind;
  (** [RegexSetBuilder::new(..).dfa_size_limit(n).build()] *)
  regex_set_build : N -> list string -> option RegexErrorKind
}.

Definition error_kind (e : RegexErrorKind) : string :=
  match e with
  | Syntax => "Syntax"
  | CompiledTooBig => "CompiledTooBig"
  | Other => "Other"
  end.

Definition MAX_PATTERN_LENGTH_BYTES : nat := 512.
Definition MAX_PATTERNS_PER_MODULE : nat := 32.
Definition MAX_DFA_SIZE_BYTES : N := (10 * 1024 * 1024)%N.

(** ** The ReDoS heuristic

    The scans keep the indices of the source.  Each step of either loop moves its
    index forward, so [S (length bytes)] steps are enough for both: out of fuel
    is [None], and [nested_quantifier_total] shows it does not happen. *)

Definition LPAR : byte := x28.
Definition RPAR : byte := x29.
Definition STAR : byte := x2a.
Definition PLUS : byte := x2b.
Definition COMMA : byte := x2c.
Definition BACKSLASH : byte := x5c.
Definition LBRACE : byte := x7b.
Definition BAR : byte := x7c.
Definition RBRACE : byte := x7d.

(** The loop over a group's body: the final depth, whether it is vulnerable, and
    the index reached. *)
Fixpoint group_loop (fuel : nat) (bytes : list byte) (depth : nat) (has_vuln : bool) (j : nat)
    : option (nat * bool * nat) :=
  match fuel with
  | O => None
  | S fuel =>
    match bytes !! j with
    | None => Some (depth, has_vuln, j)
    | Some b =>
      if (depth =? 0)%nat then Some (depth, has_vuln, j) else
      if Byte.eqb b BACKSLASH then group_loop fuel bytes depth has_vuln (j + 2) else
      let depth' := if Byte.eqb b LPAR then S depth
                    else if Byte.eqb b RPAR then (depth - 1)%nat else depth in
      let has_vuln :=
        has_vuln || (((Byte.eqb b PLUS || Byte.eqb b STAR) || Byte.eqb b BAR) && (depth =? 1)%nat) in
      if (depth' =? 0)%nat then Some (depth', has_vuln, j)
      else group_loop fuel bytes depth' has_vuln (j + 1)
    end
  end.

(** After a [{]: is there a [}], and a comma before it? *)
Fixpoint brace_loop (bytes : list byte) (has_comma : bool) : bool :=
  match bytes with
  | [] => false
  | b :: bytes =>
    if Byte.eqb b RBRACE then has_comma else brace_loop bytes (has_comma || Byte.eqb b COMMA)
  end.

(** Is the byte at [after] the start of an unbounded quantifier? *)
Definition quantifier_at (bytes : list byte) (after : nat) : bool :=
  match bytes !! after with
  | None => false
  | Some b =>
    if Byte.eqb b PLUS || Byte.eqb b STAR then true
    else if Byte.eqb b LBRACE then brace_loop (drop (after + 1) bytes) false
    else false
  end.

Fixpoint pattern_loop (fuel : nat) (bytes : list byte) (i : nat) : option bool :=
  match fuel with
  | O => None
  | S fuel =>
    match bytes !! i with
    | None => Some false
    | Some b =>
      if Byte.eqb b BACKSLASH then pattern_loop fuel bytes (i + 2) else
      if Byte.eqb b LPAR then
        '(depth, has_vuln, j) ← group_loop (S (length bytes)) bytes 1 false (i + 1);
        if (depth =? 0)%nat && has_vuln && quantifier_at bytes (j + 1) then Some true
        else pattern_loop fuel bytes (j + 1)
      else pattern_loop fuel bytes (i + 1)
    end
  end.

Definition has_nested_quantifier (pattern : string) : bool :=
  let bytes := as_bytes pattern in
  default false (pattern_loop (S (length bytes)) bytes 0).

(** *** Totality *)

Lemma group_loop_total bytes fuel depth v j :
  (length bytes < S fuel + j)%nat ->
  exists d v' j', group_loop (S fuel) bytes depth v j = Some (d, v', j') /\ (j <= j')%nat.
Proof.
  revert depth v j. induction fuel as [|fuel IH]; intros depth v j Hf; [|remember (S fuel) as f];
    cbn [group_loop].
  - rewrite lookup_ge_None_2 by lia. eauto 6.
  - destruct (bytes !! j) as [b|] eqn:Hb; [|eauto 6].
    apply lookup_lt_Some in Hb. destruct (depth =? 0)%nat; [eauto 6|].
    destruct (Byte.eqb b BACKSLASH).
    { destruct (IH depth v (j + 2)%nat) as (d & v' & j' & -> & ?); [lia|]. eauto 6 with lia. }
    destruct (_ =? 0)%nat; [eauto 6|].
    edestruct IH as (d & v' & j' & -> & ?); [|eauto 6 with lia]. lia.
Qed.

Lemma pattern_loop_total bytes fuel i :
  (length bytes < S fuel + i)%nat -> exists b, pattern_loop (S fuel) bytes i = Some b.
Proof.
  revert i. induction fuel as [|fuel IH]; intros i Hf; [|remember (S fuel) as f];
    cbn [pattern_loop].
  - rewrite lookup_ge_None_2 by lia. eauto.
  - destruct (bytes !! i) as [b|] eqn:Hb; [|eauto]. apply lookup_lt_Some in Hb.
    destruct (Byte.eqb b BACKSLASH); [apply IH; lia|].
    destruct (Byte.eqb b LPAR); [|apply IH; lia].
    destruct (group_loop_total bytes (length bytes) 1 false (i + 1)) as (d & v & j & E & ?); [lia|].
    rewrite E. simpl. destruct (_ && _); [eauto|]. apply IH. lia.
Qed.

Lemma pattern_loop_mono fuel extra bytes i b :
  pattern_loop fuel bytes i = Some b -> pattern_loop (fuel + extra) bytes i = Some b.
Proof.
  revert i. induction fuel as [|fuel IH]; intros i; [done|].
  rewrite Nat.add_succ_l. cbn [pattern_loop].
  destruct (bytes !! i) as [c|]; [|done]. destruct (Byte.eqb c BACKSLASH); [apply IH|].
  destruct (Byte.eqb c LPAR); [|apply IH]. destruct (group_loop _ _ _ _ _) as [[[d v] j]|]; cbn [mbind option_bind]; [|done].
  destruct (_ && _); [done|apply IH].
Qed.

(** C27.  The ReDoS guard always ends by itself: one more turn than the pattern has
    bytes is enough for its scan, every group scan in it included, and a longer
    allowance changes no answer, on any pattern, balanced or not. *)
Theorem nested_quantifier_total pattern extra :
  pattern_loop (S (length (as_bytes pattern)) + extra) (as_bytes pattern) 0 =
  Some (has_nested_quantifier pattern).
Proof.
  apply pattern_loop_mono. unfold has_nested_quantifier.
  destruct (pattern_loop_total (as_bytes pattern) (length (as_bytes pattern)) 0) as [b E]; [lia|].
  by rewrite E.
Qed.

(** *** What the heuristic does not see *)

(** The parentheses that are not escaped match, from [depth] open ones on. *)
Fixpoint balanced (depth : nat) (bytes : list byte) : bool :=
  match bytes with
  | [] => (depth =? 0)%nat
  | b :: bytes =>
    if Byte.eqb b BACKSLASH then
      match bytes with
      | [] => false
      | _ :: bytes => balanced depth bytes
      end
    else if Byte.eqb b LPAR then balanced (S depth) bytes
    else if Byte.eqb b RPAR then match depth with O => false | S depth => balanced depth bytes end
    else balanced depth bytes
  end.

(** The scan of a group whose body is balanced ends at its own closing parenthesis. *)
Lemma group_loop_balanced n pre body post d v fuel :
  (length body <= n)%nat -> (length body < fuel)%nat -> balanced d body = true ->
  exists v', group_loop fuel (pre ++ body ++ RPAR :: post) (S d) v (length pre) =
    Some (0%nat, v', (length pre + length body)%nat).
Proof.
  revert pre body d v fuel. induction n as [|n IH]; intros pre [|b body] d v [|fuel] Hn Hf Hb;
    simpl in Hn, Hf; try lia; cbn [group_loop app]; rewrite list_lookup_middle by done.
  1, 2: simpl in Hb; apply Nat.eqb_eq in Hb as ->; cbn; rewrite Nat.add_0_r; eauto.
  cbn [Nat.eqb]. simpl in Hb.
  destruct (Byte.eqb b BACKSLASH) eqn:Eb.
  { destruct body as [|c body]; [done|]. simpl in Hn, Hf.
    destruct (IH (pre ++ [b; c]) body d v fuel) as [v' E]; [lia|lia|done|].
    rewrite length_app in E. simpl in E. rewrite <-app_assoc in E. simpl in E. cbn [app]. rewrite E.
    exists v'. do 2 f_equal. simpl. lia. }
  set (v1 := v || _). clearbody v1.
  assert (forall d', balanced d' body = true -> exists v',
    group_loop fuel (pre ++ b :: body ++ RPAR :: post) (S d') v1 (length pre + 1) =
    Some (0%nat, v', (length pre + length (b :: body))%nat)) as Hstep.
  { intros d' Hd'. destruct (IH (pre ++ [b]) body d' v1 fuel) as [v' E]; [lia|lia|done|].
    rewrite length_app in E. simpl in E. rewrite <-app_assoc in E. simpl in E. cbn [app]. rewrite E.
    exists v'. do 2 f_equal. simpl. lia. }
  destruct (Byte.eqb b LPAR); [by apply Hstep|].
  destruct (Byte.eqb b RPAR); [|by apply Hstep].
  destruct d as [|d]; [done|]. cbn [Nat.sub Nat.eqb]. by apply Hstep.
Qed.

Example redos_tests :
  (has_nested_quantifier <$>
     ["(a+)+b"; "(a*)*b"; "(a|a)*b"; "(?:a*)*b"; "([a-z]+)+y"; "(a+)+\.b"; "(a+){2,}b";
      "(foo|bar)*x"]%string) = [true; true; true; true; true; true; true; true] /\
  (has_nested_quantifier <$>
     ["^pkg\\."; "pkg\\.[a-z_]+"; "(foo|bar)"; "[a-z]+"; "(?:abc)+"; "a+b*"; "(a+)b+";
      "^[A-Za-z0-9_.-]+$"; "\(a+\)+b"]%string) =
    [false; false; false; false; false; false; false; false; false].
Proof. split; vm_compute; reflexivity. Qed.

(** ** Answers *)

Inductive PResponse :=
| PDeny (status : N) (body : KernelErrorResponse)
| PJson (status : N) (body : Value).

Definition invalid_request (reason : string) : PResponse :=
  PJson 400 (jobj [("ok", Bool false); ("error", Str "invalid_request"); ("reason", Str reason)]).

Definition unavailable (status : N) (error : string) (e : IpcError) : PResponse :=
  PDeny status (kernel_with_reason error ("policy_error:" +:+ ipc_kind e)).

(** The fixed part of [AppState] and [Settings] used here. *)
Record PolicyConfig `{Ed25519} := {
  p_signing_key : SigningKey;
  public_key_fingerprint : string;
  build_version : string
}.

Section PolicyRoutes.
Context `{Sha256} `{Ed25519} `{Hex} `{B64Url} `{SerdeJson} `{RegexCrate}.
Context {P T : Type} `{PolicyEngine P}.

Abbreviation handler := (prog (AWorld P T) Empty_set PResponse).

(** One call of the policy engine. *)
Definition engine {A} (op : P -> res IpcError A * P) (w : AWorld P T) : res IpcError A * AWorld P T :=
  let (r, p) := op (policy w) in (r, Build_AWorld p (transparency_client w) (audits w)).

Definition build_iss (cfg : PolicyConfig) : string :=
  "qorch-safety-kernel/" +:+ build_version cfg +:+ "@" +:+ take_chars 16 (public_key_fingerprint cfg).

Definition policy_audit (action_name : string) (request : Value) (allowed : bool) (reason : string)
    (metadata token_sha claims : Value) (error : option string) (s : Reading) : AuditAppendRequest :=
  {| aa_unit_id := "safety_kernel"; aa_action_name := action_name;
     aa_payload := audit_payload request allowed reason metadata token_sha claims;
     aa_success := allowed; aa_error := error; aa_started_at := s_now s; aa_ended_at := s_ended_at s |}.

(** ** [POST /policy/module/register] *)

Definition REGISTER_TOKEN_TTL_S : f64 := f64_of_Z 60.

(** The checks of one pattern. *)
Definition bad_pattern (idx : nat) (pattern : string) : option string :=
  let i := u64_to_string (N.of_nat idx) in
  if (MAX_PATTERN_LENGTH_BYTES <? String.length pattern)%nat then Some ("pattern_too_long:" +:+ i) else
  if has_nested_quantifier pattern
  then Some ("regex_compile_failed:" +:+ i +:+ ":regex_redos_nested_quantifier") else
  match regex_new pattern with
  | Some e => Some ("regex_compile_failed:" +:+ i +:+ ":" +:+ error_kind e)
  | None => None
  end.

Fixpoint first_bad_pattern (idx : nat) (patterns : list string) : option string :=
  match patterns with
  | [] => None
  | p :: patterns =>
    match bad_pattern idx p with
    | Some reason => Some reason
    | None => first_bad_pattern (S idx) patterns
    end
  end.

(** Steps 1 to 3: what is refused before the sidecar is asked. *)
Definition register_refused (caller : string) (body : ModuleRegisterRequest) : option PResponse :=
  if negb (String.eqb caller "worker")
  then Some (PDeny 403 (kernel_with_reason "forbidden" "caller_role_not_worker")) else
  if negb (is_valid_module_path (gq_module_path body))
  then Some (invalid_request MODULE_PATH_INVALID_CHARSET_REASON) else
  let patterns := gq_required_patterns_regex_set body in
  if (MAX_PATTERNS_PER_MODULE <? length patterns)%nat
  then Some (invalid_request ("too_many_patterns:" +:+ u64_to_string (nlen patterns))) else
  match first_bad_pattern 0 patterns with
  | Some reason => Some (invalid_request reason)
  | None =>
    match regex_set_build MAX_DFA_SIZE_BYTES patterns with
    | Some e => Some (invalid_request ("regex_dfa_too_large:" +:+ error_kind e))
    | None => None
    end
  end.

Definition patterns_fingerprint (patterns : list string) : string :=
  sha256_hex (as_bytes (stable_json [("patterns", strs patterns)])).

Definition register_params (body : ModuleRegisterRequest) : Value :=
  jobj [("module_path", Str (gq_module_path body));
        ("required_patterns_regex_set", strs (gq_required_patterns_regex_set body))].

Definition register_claims (cfg : PolicyConfig) (body : ModuleRegisterRequest) (registered_at : Z)
    (s : Reading) : ModuleRegisterClaims :=
  {| gc_aud := POLICY_REGISTER_AUD; gc_iss := build_iss cfg; gc_iat := s_now s;
     gc_exp := f64_add (s_now s) REGISTER_TOKEN_TTL_S; gc_subject := gq_caller_subject body;
     gc_run_id := gq_caller_subject body; gc_module_path := gq_module_path body;
     gc_required_patterns_regex_set_fingerprint :=
       patterns_fingerprint (gq_required_patterns_regex_set body);
     gc_registered_at_unix_ms := registered_at;
     gc_params_fingerprint := params_fingerprint (register_params body);
     gc_nonce := s_nonce s |}.

Definition register_ipc (body : ModuleRegisterRequest) : PolicyModuleRegisterRequest :=
  {| mg_module_path := gq_module_path body;
     mg_required_patterns_regex_set := gq_required_patterns_regex_set body;
     mg_caller_subject := gq_caller_subject body |}.

Definition register (cfg : PolicyConfig) (caller : string) (body : ModuleRegisterRequest)
    (s : Reading) : handler :=
  match register_refused caller body with
  | Some r => Done (Ok r)
  | None =>
  Await false (engine (pe_policy_register (register_ipc body))) (fun r =>
  match r with
  | Panic => Done Panic
  | Err e => Done (Ok (unavailable 503 "kernel_unavailable" e))
  | Ok ipc_resp =>
    let at_ms := mo_registered_at_unix_ms ipc_resp in
    if mo_conflict ipc_resp
    then Done (Ok (PJson 409 (jobj
      [("ok", Bool false); ("error", Str "module_already_registered");
       ("module_path", Str (gq_module_path body)); ("registered_at_unix_ms", i64_value at_ms)])))
    else
    let claims_struct := register_claims cfg body at_ms s in
    let token := sign_kernel_token claims_struct (p_signing_key cfg) in
    let tok_sha := token_sha256 token in
    let claims_map := to_btreemap claims_struct in
    Await false (KernelAuthorize.audit (policy_audit "policy_register"
      (jobj [("module_path", Str (gq_module_path body));
             ("required_patterns_regex_set", strs (gq_required_patterns_regex_set body));
             ("caller_subject", Str (gq_caller_subject body)); ("caller_role", Str caller)])
      true "registered"
      (jobj [("registered_at_unix_ms", i64_value at_ms); ("action", Str POLICY_REGISTER_ACTION)])
      (Str tok_sha) (btree_to_value claims_map) None s)) (fun _ =>
    Done (Ok (PJson 201 (jobj
      [("ok", Bool true); ("module_path", Str (gq_module_path body));
       ("registered_at_unix_ms", i64_value at_ms); ("token", Str token);
       ("token_sha256", Str tok_sha); ("claims", btree_to_value claims_map)]))))
  end)
  end.

(** ** [POST /policy/module/authorize] *)

Definition AUTHORIZE_TOKEN_TTL_S : f64 := f64_of_Z 60.

Definition event_payload (req : ModuleAuthorizeRequest) : Value :=
  jobj [("event_kind", Str (module_event_wire (mq_event_kind req)));
        ("module_path", Str (mq_module_path req));
        ("caller_subject", Str (mq_caller_subject req));
        ("caller_run_id", Str (mq_caller_run_id req))].

Definition recompute_event_fingerprint (req : ModuleAuthorizeRequest) : string :=
  params_fingerprint (event_payload req).

Definition is_64_lowercase_hex (s : string) : bool :=
  (String.length s =? 64)%nat && string_forall lower_hex_char s.

Definition module_refused (caller : string) (body : ModuleAuthorizeRequest) : option PResponse :=
  if negb (String.eqb caller "worker")
  then Some (PDeny 403 (kernel_with_reason "forbidden" "caller_role_not_worker")) else
  if negb (is_valid_module_path (mq_module_path body))
  then Some (invalid_request MODULE_PATH_INVALID_CHARSET_REASON) else
  if negb (is_64_lowercase_hex (mq_event_fingerprint body))
  then Some (invalid_request "event_fingerprint_format") else
  if negb (String.eqb (recompute_event_fingerprint body) (mq_event_fingerprint body))
  then Some (invalid_request "event_fingerprint_invalid") else
  None.

Definition module_ipc (body : ModuleAuthorizeRequest) : PolicyModuleAuthorizeRequest :=
  {| ma_event_kind := module_event_wire (mq_event_kind body);
     ma_module_path := mq_module_path body;
     ma_caller_subject := mq_caller_subject body;
     ma_caller_run_id := mq_caller_run_id body;
     ma_event_fingerprint := recompute_event_fingerprint body;
     ma_expected_required_patterns := mq_expected_required_patterns body;
     ma_metadata := btree_to_value <$> mq_metadata body |}.

(** The verdicts that are signed. *)
Definition signed_verdict (decision : string) : option (ModuleAuthorizeDecision * string * N) :=
  if String.eqb decision "allow" then Some (MAllow, "policy_authorize_allow", 200%N) else
  if String.eqb decision "deny" then Some (MDeny, "policy_authorize_deny", 403%N) else None.

Definition is_allow (d : ModuleAuthorizeDecision) : bool :=
  match d with MAllow => true | _ => false end.
Definition is_deny (d : ModuleAuthorizeDecision) : bool :=
  match d with MDeny => true | _ => false end.

Definition module_claims (cfg : PolicyConfig) (body : ModuleAuthorizeRequest)
    (decision : ModuleAuthorizeDecision) (reason : option string) (s : Reading)
    : ModuleAuthorizeClaims :=
  {| mc_aud := POLICY_AUTHORIZE_AUD; mc_iss := build_iss cfg; mc_iat := s_now s;
     mc_exp := f64_add (s_now s) AUTHORIZE_TOKEN_TTL_S; mc_subject := mq_caller_subject body;
     mc_run_id := mq_caller_run_id body; mc_event_kind := mq_event_kind body;
     mc_module_path := mq_module_path body;
     mc_event_fingerprint := recompute_event_fingerprint body; mc_decision := decision;
     mc_reason := if is_deny decision then Some (default "unspecified" reason) else None;
     mc_nonce := s_nonce s |}.

Definition module_record (caller : string) (body : ModuleAuthorizeRequest)
    (r : PolicyModuleAuthorizeResponseInner) (decision : ModuleAuthorizeDecision)
    (audit_kind : string) (tok_sha : string) (claims_map : ClaimsMap) (s : Reading)
    : AuditAppendRequest :=
  policy_audit audit_kind
    (jobj [("event_kind", Str (module_event_wire (mq_event_kind body)));
           ("module_path", Str (mq_module_path body));
           ("caller_subject", Str (mq_caller_subject body));
           ("caller_run_id", Str (mq_caller_run_id body));
           ("event_fingerprint", Str (mq_event_fingerprint body)); ("caller_role", Str caller);
           ("expected_required_patterns", opt_value strs (mq_expected_required_patterns body));
           ("metadata", opt_value btree_to_value (mq_metadata body))])
    (is_allow decision) (default "" (mi_reason r))
    (jobj [("registered_at_unix_ms", opt_value i64_value (mi_registered_at_unix_ms r));
           ("audit_kind", Str audit_kind)])
    (Str tok_sha) (btree_to_value claims_map)
    (if is_deny decision then mi_reason r else None) s.

Definition module_authorize (cfg : PolicyConfig) (caller : string) (body : ModuleAuthorizeRequest)
    (s : Reading) : handler :=
  match module_refused caller body with
  | Some r => Done (Ok r)
  | None =>
  Await false (engine (pe_policy_authorize (module_ipc body))) (fun r =>
  match r with
  | Panic => Done Panic
  | Err e => Done (Ok (unavailable 503 "kernel_unavailable" e))
  | Ok ipc_resp =>
    if String.eqb (mi_decision ipc_resp) "kernel_unavailable"
    then Done (Ok (PDeny 503 (kernel_with_reason "kernel_unavailable" "sidecar_backend_unavailable")))
    else
    match signed_verdict (mi_decision ipc_resp) with
    | None =>
      Done (Ok (PDeny 503 (kernel_with_reason "kernel_unavailable" "decision_unrecognized")))
    | Some (decision_enum, audit_kind, http_status) =>
      let claims_struct := module_claims cfg body decision_enum (mi_reason ipc_resp) s in
      let token := sign_kernel_token claims_struct (p_signing_key cfg) in
      let tok_sha := token_sha256 token in
      let claims_map := to_btreemap claims_struct in
      Await false (KernelAuthorize.audit
        (module_record caller body ipc_resp decision_enum audit_kind tok_sha claims_map s)) (fun _ =>
      Done (Ok (PJson http_status (jobj
        [("ok", Bool (is_allow decision_enum)); ("decision", Str (decision_wire decision_enum));
         ("token", Str token); ("token_sha256", Str tok_sha);
         ("claims", btree_to_value claims_map); ("reason", opt_value Str (mi_reason ipc_resp))]))))
    end
  end)
  end.

(** ** [GET /policy/module/{module_path}/status] *)

Definition decision_row_value (d : PolicyModuleStatusDecisionRow) : Value :=
  jobj [("ts_unix_ms", i64_value (dr_ts_unix_ms d)); ("decision", Str (dr_decision d));
        ("caller_run_id", Str (dr_caller_run_id d)); ("token_sha256", Str (dr_token_sha256 d))].

Definition status (caller module_path : string) : handler :=
  if negb (String.eqb caller "worker" || String.eqb caller "operator")
  then Done (Ok (PDeny 403 (kernel_with_reason "forbidden" "caller_role_forbidden"))) else
  if negb (is_valid_module_path module_path)
  then Done (Ok (invalid_request MODULE_PATH_INVALID_CHARSET_REASON)) else
  Await false (engine (pe_policy_module_status {| ms_module_path := module_path |})) (fun r =>
  match r with
  | Panic => Done Panic
  | Err e => Done (Ok (unavailable 503 "kernel_unavailable" e))
  | Ok None =>
    Done (Ok (PJson 404 (jobj [("ok", Bool false); ("error", Str "module_not_registered");
                               ("module_path", Str module_path)])))
  | Ok (Some inner) =>
    Done (Ok (PJson 200 (jobj
      [("ok", Bool true); ("module_path", Str (si_module_path inner));
       ("registration", jobj
          [("registered_at_unix_ms", i64_value (si_registered_at_unix_ms inner));
           ("registered_by", Str (si_registered_by inner));
           ("required_patterns_regex_set", strs (si_required_patterns_regex_set inner));
           ("revoked_at_unix_ms", opt_value i64_value (si_revoked_at_unix_ms inner))]);
       ("recent_decisions", Arr (decision_row_value <$> si_recent_decisions inner))])))
  end).

(** ** [POST /policy/audit-event] *)

Definition audit_event (caller : string) (body : ModuleAuditEventRequest) (s : Reading) : handler :=
  if negb (String.eqb caller "worker")
  then Done (Ok (PDeny 403 (kernel_with_reason "forbidden" "caller_role_not_worker"))) else
  if match bt_get "module_path" (default [] (eq_metadata body)) with
     | Some (Str mp) => negb (is_valid_module_path mp)
     | _ => false
     end
  then Done (Ok (invalid_request MODULE_PATH_INVALID_CHARSET_REASON)) else
  Await false (engine (pe_policy_audit_event
    {| ev_event_kind := audit_event_wire (eq_event_kind body); ev_subject := eq_subject body;
       ev_metadata := eq_metadata body |})) (fun r =>
  match r with
  | Panic => Done Panic
  | Err e => Done (Ok (unavailable 502 "audit_event_failed" e))
  | Ok ts_unix_ms =>
    Await false (KernelAuthorize.audit (policy_audit "policy_audit_event"
      (jobj [("event_kind", Str (audit_event_wire (eq_event_kind body)));
             ("subject", Str (eq_subject body)); ("caller_role", Str caller);
             ("metadata", opt_value btree_to_value (eq_metadata body))])
      true "audit_event" (jobj [("ts_unix_ms", i64_value ts_unix_ms)]) Null Null None s)) (fun _ =>
    Done (Ok (PJson 202 (jobj [("ok", Bool true); ("audit_kind", Str "policy_audit_event");
                               ("ts_unix_ms", i64_value ts_unix_ms)]))))
  end).

(** ** What the heuristic lets through *)

Definition wrap (p : string) : string := "(" +:+ p +:+ ")".

Lemma wrap_bytes p : as_bytes (wrap p) = [] ++ LPAR :: as_bytes p ++ [RPAR].
Proof. unfold wrap. rewrite (as_bytes_append "("), (as_bytes_append p). done. Qed.

Lemma wrap_unflagged p : balanced 0 (as_bytes p) = true -> has_nested_quantifier (wrap p) = false.
Proof.
  intros Hb. unfold has_nested_quantifier. rewrite wrap_bytes. set (b := as_bytes p) in *.
  set (bytes := [] ++ LPAR :: b ++ [RPAR]).
  assert (length bytes = S (S (length b))) as Hlen by (unfold bytes; simpl; rewrite length_app; simpl; lia).
  cbn [pattern_loop]. change (bytes !! 0%nat) with (Some LPAR).
  change (Byte.eqb LPAR BACKSLASH) with false. change (Byte.eqb LPAR LPAR) with true. cbn iota.
  destruct (group_loop_balanced (length b) [LPAR] b [] 0 false (S (length bytes))) as [v E];
    [done|lia|done|].
  change (group_loop (S (length bytes)) bytes 1 false (0 + 1)) with
    (group_loop (S (length bytes)) ([LPAR] ++ b ++ [RPAR]) 1 false (length [LPAR])).
  rewrite E. cbn [mbind option_bind].
  change (length [LPAR] + length b + 1)%nat with (S (length b + 1)).
  assert (bytes !! S (length b + 1) = None) as Hnone
    by (apply lookup_ge_None_2; rewrite Hlen; lia).
  unfold quantifier_at. rewrite Hnone, andb_false_r.
  rewrite Hlen. cbn [pattern_loop]. by rewrite Hnone.
Qed.

(** The ReDoS guard stops at the outermost group: whatever a pattern nests,
    one more pair of parentheses around it makes the registration pass the checks
    of the kernel, as soon as the regex crate compiles it. *)
Theorem wrapped_pattern_is_registered path subject p :
  is_valid_module_path path = true -> balanced 0 (as_bytes p) = true ->
  (String.length p <= MAX_PATTERN_LENGTH_BYTES - 2)%nat ->
  regex_new (wrap p) = None -> regex_set_build MAX_DFA_SIZE_BYTES [wrap p] = None ->
  register_refused "worker" {| gq_module_path := path; gq_required_patterns_regex_set := [wrap p];
                               gq_caller_subject := subject |} = None.
Proof.
  intros Hm Hb Hl Hr Hs. unfold register_refused. simpl. rewrite Hm. simpl.
  unfold bad_pattern. rewrite wrap_unflagged, Hr by done.
  assert ((MAX_PATTERN_LENGTH_BYTES <? String.length (wrap p))%nat = false) as ->.
  { apply Nat.ltb_ge. rewrite <-as_bytes_length, wrap_bytes. unfold MAX_PATTERN_LENGTH_BYTES in *.
    simpl. rewrite length_app, as_bytes_length. simpl. lia. }
  by rewrite Hs.
Qed.

(** ** What a module verdict says *)

Context `{!PolicyEngineTotal P}.

Definition event_ok (body : ModuleAuthorizeRequest) : Prop :=
  utf8 (mq_module_path body) = true /\ utf8 (mq_caller_subject body) = true /\
  utf8 (mq_caller_run_id body) = true.

(** The keys in byte order. *)
Lemma event_payload_sorted body :
  event_payload body =
  Obj [("caller_run_id", Str (mq_caller_run_id body)); ("caller_subject", Str (mq_caller_subject body));
       ("event_kind", Str (module_event_wire (mq_event_kind body)));
       ("module_path", Str (mq_module_path body))].
Proof. reflexivity. Qed.

Lemma event_payload_ok body : event_ok body -> json_ok (event_payload body).
Proof.
  intros (? & ? & ?). rewrite event_payload_sorted.
  assert (utf8 (module_event_wire (mq_event_kind body)) = true) by (by destruct (mq_event_kind body)).
  split; [obj_ok|simpl; lia].
Qed.

Lemma event_payload_inj b1 b2 :
  event_payload b1 = event_payload b2 ->
  mq_event_kind b1 = mq_event_kind b2 /\ mq_module_path b1 = mq_module_path b2 /\
  mq_caller_subject b1 = mq_caller_subject b2 /\ mq_caller_run_id b1 = mq_caller_run_id b2.
Proof.
  rewrite !event_payload_sorted. intros E. injection E as ? ? Hk%module_event_wire_inj ?.
  by split_and!.
Qed.

Lemma module_refused_iff caller body :
  module_refused caller body = None <->
  caller = "worker" /\ is_valid_module_path (mq_module_path body) = true /\
  is_64_lowercase_hex (mq_event_fingerprint body) = true /\
  mq_event_fingerprint body = recompute_event_fingerprint body.
Proof.
  unfold module_refused. destruct (String.eqb_spec caller "worker"); [|naive_solver].
  destruct (is_valid_module_path _); [|naive_solver].
  destruct (is_64_lowercase_hex _); [|naive_solver].
  destruct (String.eqb_spec (recompute_event_fingerprint body) (mq_event_fingerprint body));
    naive_solver.
Qed.

(** Answers that carry no verdict: a bad request, a refused caller, an engine that
    failed or said something else. *)
Definition no_verdict (r : PResponse) : Prop :=
  match r with
  | PDeny st _ => st = 403%N \/ st = 503%N
  | PJson st _ => st = 400%N
  end.

Lemma module_refused_no_verdict caller body r :
  module_refused caller body = Some r -> no_verdict r.
Proof. unfold module_refused. repeat case_match; intros [= <-]; simpl; auto. Qed.

(** The signed answer to an event. *)
Definition verdict_answer (cfg : PolicyConfig) (body : ModuleAuthorizeRequest)
    (d : ModuleAuthorizeDecision) (reason : option string) (s : Reading) : PResponse :=
  let claims := module_claims cfg body d reason s in
  let token := sign_kernel_token claims (p_signing_key cfg) in
  PJson (if is_allow d then 200 else 403)
    (jobj [("ok", Bool (is_allow d)); ("decision", Str (decision_wire d)); ("token", Str token);
           ("token_sha256", Str (token_sha256 token)); ("claims", btree_to_value (to_btreemap claims));
           ("reason", opt_value Str reason)]).

Definition verdict_record (cfg : PolicyConfig) (caller : string) (body : ModuleAuthorizeRequest)
    (inner : PolicyModuleAuthorizeResponseInner) (d : ModuleAuthorizeDecision) (s : Reading)
    : AuditAppendRequest :=
  let claims := module_claims cfg body d (mi_reason inner) s in
  module_record caller body inner d
    (if is_allow d then "policy_authorize_allow" else "policy_authorize_deny")
    (token_sha256 (sign_kernel_token claims (p_signing_key cfg))) (to_btreemap claims) s.

Lemma signed_verdict_iff decision d kind st :
  signed_verdict decision = Some (d, kind, st) <->
  decision = decision_wire d /\ d <> MKernelUnavailable /\
  kind = (if is_allow d then "policy_authorize_allow" else "policy_authorize_deny") /\
  st = (if is_allow d then 200%N else 403%N).
Proof.
  unfold signed_verdict.
  destruct (String.eqb_spec decision "allow") as [->|]; [|destruct (String.eqb_spec decision "deny") as [->|]].
  - split; [intros [= <- <- <-]; by split_and!|]. by destruct d; intros (? & ? & -> & ->).
  - split; [intros [= <- <- <-]; by split_and!|]. by destruct d; intros (? & ? & -> & ->).
  - split; [done|]. by destruct d; intros (? & ? & _).
Qed.

(** C22.  A module verdict is the engine's own answer about the event that was
    fingerprinted: however other tasks interleave, an answer of the authorize
    route is unsigned (400, 403 without a verdict, or 503) or it is the signed
    form of an "allow" or "deny" that the engine gave for this event, to a worker,
    for a canonical module path whose supplied fingerprint is the recomputed one,
    and its record went to the audit; and two accepted requests with one
    fingerprint are about one event, unless they show a SHA-256 collision. *)
Theorem module_verdict_binds `{!HexCorrect} `{!SerdeJsonCorrect} env cfg caller body s w r w' :
  exec env (module_authorize cfg caller body s) w r w' -> event_ok body ->
  exists resp, r = Ok resp /\
  (no_verdict resp \/
   exists w1 w2 inner d,
     fst (engine (pe_policy_authorize (module_ipc body)) w1) = Ok inner /\
     mi_decision inner = decision_wire d /\ d <> MKernelUnavailable /\
     resp = verdict_answer cfg body d (mi_reason inner) s /\
     w' = snd (KernelAuthorize.audit (verdict_record cfg caller body inner d s) w2) /\
     caller = "worker" /\ is_valid_module_path (mq_module_path body) = true /\
     mq_event_fingerprint body = recompute_event_fingerprint body /\
     forall body2, module_refused "worker" body2 = None -> event_ok body2 ->
       mq_event_fingerprint body2 = mq_event_fingerprint body ->
       (mq_event_kind body = mq_event_kind body2 /\ mq_module_path body = mq_module_path body2 /\
        mq_caller_subject body = mq_caller_subject body2 /\
        mq_caller_run_id body = mq_caller_run_id body2) \/
       sha_collision (fingerprinted (event_payload body)) (fingerprinted (event_payload body2))).
Proof.
  intros Hx Hok. unfold module_authorize in Hx.
  destruct (module_refused caller body) as [resp|] eqn:Href.
  { apply exec_done_inv in Hx as [-> _]. eauto using module_refused_no_verdict. }
  apply module_refused_iff in Href as (-> & Hpath & _ & Hfp).
  apply exec_await_inv in Hx as (w1 & _ & Hx).
  destruct (fst (engine _ w1)) as [inner|e|] eqn:Eeng.
  - destruct (String.eqb (mi_decision inner) "kernel_unavailable");
      [apply exec_done_inv in Hx as [-> _]; eexists; split; [reflexivity|by left; right]|].
    destruct (signed_verdict (mi_decision inner)) as [[[d kind] st]|] eqn:Ev;
      [|apply exec_done_inv in Hx as [-> _]; eexists; split; [reflexivity|by left; right]].
    apply signed_verdict_iff in Ev as (Hd & Hne & -> & ->).
    apply exec_await_inv in Hx as (w2 & _ & [-> ->]%exec_done_inv).
    eexists. split; [reflexivity|]. right. exists w1, w2, inner, d. split_and!; try done.
    intros body2 (_ & _ & _ & Hfp2)%module_refused_iff Hok2 Heq. rewrite Hfp, Hfp2 in Heq.
    symmetry in Heq. apply params_fingerprint_inj in Heq as [E|Hc]; auto using event_payload_ok.
    left. by apply event_payload_inj.
  - apply exec_done_inv in Hx as [-> _]. eexists. split; [reflexivity|by left; right].
  - exfalso. revert Eeng. unfold engine.
    pose proof (pe_policy_authorize_total (module_ipc body) (policy w1)) as Ht.
    by destruct (pe_policy_authorize _ _).
Qed.

End PolicyRoutes.

(** ** Witnesses *)

Module Demo.
#[local] Existing Instance demo_ed25519.
#[local] Existing Instance demo_hex.
#[local] Existing Instance demo_b64.
#[local] Existing Instance DemoJson.demo_serde.
#[local] Instance sha : Sha256 := fun l => array_of 32 (rev l).

(** A crate that compiles everything. *)
#[local] Instance lenient : RegexCrate := {
  regex_new _ := None;
  regex_set_build _ _ := None
}.

(** The pattern the guard's own test refuses, and its wrapped form. *)
Lemma wrapped_pattern_is_registered_witness :
  has_nested_quantifier "(a+)+b" = true /\
  register_refused "worker" {| gq_module_path := "pkg.mod";
    gq_required_patterns_regex_set := [wrap "(a+)+b"]; gq_caller_subject := "w" |} = None.
Proof.
  split; [reflexivity|].
  apply (wrapped_pattern_is_registered "pkg.mod" "w" "(a+)+b"); [reflexivity..| |reflexivity|reflexivity].
  vm_compute; lia.
Defined.

(** An engine that denies one module, with a reason. *)
#[local] Instance denier : PolicyEngine string := {
  pe_authorize _ p := (Err IpcEof, p);
  pe_audit_append _ p := (Err IpcEof, p);
  pe_policy_authorize req p :=
    (Ok {| mi_decision := if String.eqb (ma_module_path req) p then "deny" else "allow";
           mi_reason := Some "listed"; mi_registered_at_unix_ms := None |}, p);
  pe_policy_register _ p := (Err IpcEof, p);
  pe_policy_audit_event _ p := (Err IpcEof, p);
  pe_policy_module_status _ p := (Err IpcEof, p)
}.

#[local] Instance denier_total : PolicyEngineTotal string.
Proof. by split. Qed.

Definition cfg : PolicyConfig := {|
  p_signing_key := [x01] : @SigningKey demo_ed25519; public_key_fingerprint := "0123456789abcdef01";
  build_version := "1.0" |}.

Definition event (path : string) : ModuleAuthorizeRequest := {|
  mq_event_kind := Import; mq_module_path := path; mq_caller_subject := "w"; mq_caller_run_id := "run-1";
  mq_event_fingerprint := recompute_event_fingerprint {|
    mq_event_kind := Import; mq_module_path := path; mq_caller_subject := "w"; mq_caller_run_id := "run-1";
    mq_event_fingerprint := ""; mq_expected_required_patterns := None; mq_metadata := None |};
  mq_expected_required_patterns := None; mq_metadata := None |}.

Definition reading : Reading := {|
  s_now := f64_of_Z 1000; s_nonce := "n0nce"; s_ended_at := f64_of_Z 1001 |}.

Definition world : AWorld string unit := Build_AWorld "pkg.bad" None [].

Lemma module_verdict_binds_witness : exists resp,
  fst (run (module_authorize cfg "worker" (event "pkg.bad") reading) world) = Ok resp /\
  ~ no_verdict resp /\
  resp = verdict_answer cfg (event "pkg.bad") MDeny (Some "listed") reading.
Proof.
  pose (env := fun (_ : bool) (_ _ : AWorld string unit) => True).
  pose proof (exec_run env ltac:(done) (module_authorize cfg "worker" (event "pkg.bad") reading) world)
    as Hx.
  destruct (module_verdict_binds env cfg "worker" (event "pkg.bad") reading world _ _ Hx
    ltac:(by split_and!)) as (resp & Hr & Hd).
  assert (fst (run (module_authorize cfg "worker" (event "pkg.bad") reading) world) =
    Ok (verdict_answer cfg (event "pkg.bad") MDeny (Some "listed") reading)) as E
    by (vm_compute; reflexivity).
  exists resp. rewrite E in Hr. injection Hr as <-.
  split; [exact E|]. split; [done|].
  destruct Hd as [Hn|(w1 & w2 & inner & d & _ & _ & _ & -> & _)]; [done|reflexivity].
Defined.

End Demo.
