(* ===== verification/KernelRevoke.v ===== *)
(** * The kernel as decider: minting, handing out and clearing revocations

    Models [crates/services/safety-kernel/src/routes/revoke.rs]: the pending
    queue, the grant generations and the four [/kernel/v1/revoke/*] handlers.
    Both stores are process globals behind mutexes and the runtime is
    multi-threaded, so a handler is a [prog] with one step per lock and per
    await; [kstep] is what other requests may do between two steps.  The clock,
    the nonce and the UUID of a request are its [Stamp]. *)

From S2P Require Import Prelude RustStr Float64 Crates Merkle Json Serde Token Revoke Async Auth PolicyIpc TlogClient.

Local Open Scope N_scope.

(** ** The pending queue *)

Record PendingRevoke := {
  pe_run_id : string;
  pe_token : string;
  pe_expires_at : f64
}.

Abbreviation PendingStore := (gmap string (list PendingRevoke)).

Definition live (now : f64) (p : PendingRevoke) : Prop := f64_gt (pe_expires_at p) now = true.
#[global] Instance live_dec now p : Decision (live now p) := bool_eq_dec _ _.

Definition enqueue_pending (instance : string) (entry : PendingRevoke) (now : f64)
    (store : PendingStore) : PendingStore :=
  <[instance := filter (live now) (default [] (store !! instance)) ++ [entry]]> store.

Definition drain_live_tokens (instance : string) (now : f64) (store : PendingStore)
    : list string * PendingStore :=
  match store !! instance with
  | None => ([], store)
  | Some list =>
    let list := filter (live now) list in (pe_token <$> list, <[instance := list]> store)
  end.

Definition not_run (run_id : string) (p : PendingRevoke) : Prop := pe_run_id p <> run_id.
#[global] Instance not_run_dec run_id p : Decision (not_run run_id p) := not_dec _.

Definition clear_pending (run_id : string) (store : PendingStore) : bool * PendingStore :=
  (map_fold (fun _ list cleared =>
     if (length (filter (not_run run_id) list) =? length list)%nat then cleared else true)
     false store,
   filter (not_run run_id) <$> store).

(** ** Grant generations *)

(** The trait, for any store [G]. *)
Class GrantGenerationStore (G : Type) := {
  current : InstanceTarget -> G -> N;
  increment : InstanceTarget -> G -> N * G;
  current_for_instance : string -> G -> N
}.

Abbreviation InMemoryGrantGenerationStore := (gmap InstanceTarget N).

#[global] Instance in_memory_generations : GrantGenerationStore InMemoryGrantGenerationStore := {
  current target m := default 0 (m !! target);
  increment target m :=
    let entry := saturating_add64 (default 0 (m !! target)) 1 in (entry, <[target := entry]> m);
  current_for_instance name m :=
    map_fold (fun t g best => if decide (instance t = name) then N.max g best else best) 0 m
}.

(** ** State *)

(** The process globals, the log client (absent in dev) and the audit requests
    made of the policy engine. *)
Record KWorld (T : Type) := {
  PENDING : PendingStore;
  GENERATIONS : InMemoryGrantGenerationStore;
  transparency : option T;
  audits : list AuditAppendRequest
}.
Arguments PENDING {T}.
Arguments GENERATIONS {T}.
Arguments transparency {T}.
Arguments audits {T}.
Arguments Build_KWorld {T}.

(** The fixed part of [AppState] and [Settings] used here. *)
Record KernelConfig `{Ed25519} := {
  k_signing_key : SigningKey;
  revoke_token_ttl_s : Z
}.

(** What one request reads from the clock, the nonce source and the UUID source. *)
Record Stamp := {
  now : f64;
  nonce : string;
  uuid : string;
  ended_at : f64
}.

Inductive KResponse :=
| KDeny (status : N) (body : KernelErrorResponse)
| KSigned (r : SignedRevokeResponse)
| KNoContent
| KPending (r : PendingRevokeResponse)
| KAcked (r : RevokeAckResponse).

Section KernelRevoke.
Context `{Sha256} `{Ed25519} `{Hex} `{B64Url} `{SerdeJson}.
Context {T : Type} `{TlogClient T}.

Abbreviation handler := (prog (KWorld T) Empty_set KResponse).

Definition with_pending (p : PendingStore) (w : KWorld T) : KWorld T :=
  Build_KWorld p (GENERATIONS w) (transparency w) (audits w).
Definition with_generations (g : InMemoryGrantGenerationStore) (w : KWorld T) : KWorld T :=
  Build_KWorld (PENDING w) g (transparency w) (audits w).
Definition with_transparency (t : T) (w : KWorld T) : KWorld T :=
  Build_KWorld (PENDING w) (GENERATIONS w) (Some t) (audits w).
Definition with_audit (a : AuditAppendRequest) (w : KWorld T) : KWorld T :=
  Build_KWorld (PENDING w) (GENERATIONS w) (transparency w) (audits w ++ [a]).

(** [Err reason] is [inl reason]. *)
Definition append_input_for (token : string) (now : f64) : TransparencyAppendInput :=
  {| ti_idempotency_key := idempotency_key_for_token token;
     ti_payload := as_bytes token;
     ti_occurred_at_epoch_seconds :=
       if f64_is_finite now && f64_ge now (f64_of_Z 0) then f64_as_u64 now else 0 |}.

Definition tlog_append_failclosed (token : string) (now : f64) (w : KWorld T)
    : (string + unit) * KWorld T :=
  match transparency w with
  | None => (inr tt, w)
  | Some t =>
    let (r, t') := tlog_append (append_input_for token now) t in
    (match r with
     | Some (inr _) => inr tt
     | Some (inl TConflict) => inr tt
     | Some (inl e) => inl ("transparency_error:" +:+ kind e)
     | None => inl "transparency_error:timeout"
     end, with_transparency t' w)
  end.

(** Fail-open: the policy engine's answer is ignored. *)
Definition audit_append (action_name : string) (payload : Value) (started_at ended_at : f64)
    (k : handler) : handler :=
  Await false
    (fun w => (tt, with_audit {| aa_unit_id := "safety_kernel"; aa_action_name := action_name;
                                 aa_payload := payload; aa_success := true; aa_error := None;
                                 aa_started_at := started_at; aa_ended_at := ended_at |} w))
    (fun _ => k).

Definition not_operator : handler :=
  Done (Ok (KDeny 403 (kernel_with_reason "forbidden" "caller_role_not_operator"))).

(** What the two minting handlers do once the decision is refused by the log. *)
Definition refuse_unrecorded (action_name : string) (target : InstanceTarget) (caller run_id reason : string)
    (s : Stamp) : handler :=
  audit_append action_name
    (Obj (bt_collect
       [("request", Obj (bt_collect [("target", target_to_value target); ("caller_role", Str caller)]));
        ("run_id", Str run_id); ("refused", Str reason)]))
    (now s) (ended_at s)
    (Done (Ok (KDeny 503 (kernel_with_reason "unavailable" "revoke_not_recorded")))).

(** The claims of a kill, given the generation read. *)
Definition revoke_claims (cfg : KernelConfig) (body : MintRevokeRequest) (s : Stamp) (g : N)
    : RevokeComputeClaims :=
  let run_id := "revoke_" +:+ uuid s in
  let ttl := Z.max (revoke_token_ttl_s cfg) 30 in
  {| rc_aud := REVOKE_COMPUTE_AUD; rc_run_id := run_id; rc_subject := "operator";
     rc_params_fingerprint :=
       revoke_params_fingerprint run_id (mr_target body) g (mr_tier body) (mr_trigger body)
         (mr_reason body);
     rc_issued_at := now s; rc_expires_at := f64_add (now s) (f64_of_Z ttl); rc_nonce := nonce s;
     rc_target := mr_target body; rc_target_generation := g; rc_tier := mr_tier body;
     rc_trigger := mr_trigger body; rc_reason := mr_reason body |}.

(** [POST /kernel/v1/revoke/compute]. *)
Definition mint_revoke (cfg : KernelConfig) (caller : string) (body : MintRevokeRequest) (s : Stamp)
    : handler :=
  if negb (String.eqb caller "operator") then not_operator else
  if negb (bool_decide (mr_tier body = VmStop))
  then Done (Ok (KDeny 422 (kernel_with_reason "unprocessable_entity" "tier_unsupported_phase1")))
  else
  Await false (reading (fun w => current (mr_target body) (GENERATIONS w))) (fun target_generation =>
  let claims := revoke_claims cfg body s target_generation in
  let run_id := rc_run_id claims in
  let token := sign_kernel_token claims (k_signing_key cfg) in
  let tok_sha := token_sha256 token in
  let claims_map := to_btreemap claims in
  Await false (tlog_append_failclosed token (now s)) (fun recorded =>
  match recorded with
  | inl reason =>
    refuse_unrecorded "kernel_revoke_compute_refused" (mr_target body) caller run_id reason s
  | inr _ =>
    Await false
      (fun w => (tt, with_pending
         (enqueue_pending (instance (mr_target body))
            {| pe_run_id := run_id; pe_token := token; pe_expires_at := rc_expires_at claims |}
            (now s) (PENDING w)) w))
      (fun _ =>
    audit_append "kernel_revoke_compute"
      (Obj (bt_collect
         [("request", Obj (bt_collect
             [("target", target_to_value (mr_target body)); ("tier", tier_to_value (mr_tier body));
              ("trigger", trigger_to_value (mr_trigger body)); ("reason", opt_str (mr_reason body));
              ("caller_role", Str caller)]));
          ("token_sha256", Str tok_sha); ("claims", btree_to_value claims_map)]))
      (now s) (ended_at s)
    (Done (Ok (KSigned {| sgr_ok := true; sgr_run_id := run_id; sgr_token := token;
                          sgr_token_sha256 := tok_sha; sgr_claims := claims_map |}))))
  end)).

Definition reaper_or_operator (caller : string) : bool :=
  String.eqb caller "reaper" || String.eqb caller "operator".

Definition not_reaper : handler :=
  Done (Ok (KDeny 403 (kernel_with_reason "forbidden" "caller_role_not_reaper"))).

(** [GET /kernel/v1/revoke/pending?instance=<name>]. *)
Definition pending_revoke (caller name : string) (s : Stamp) : handler :=
  if negb (reaper_or_operator caller) then not_reaper else
  Await false
    (fun w => let (pending, store) := drain_live_tokens name (now s) (PENDING w) in
              (pending, with_pending store w))
    (fun pending =>
  match pending with
  | [] => Done (Ok KNoContent)
  | _ =>
    Await false (reading (fun w => current_for_instance name (GENERATIONS w))) (fun g =>
    Done (Ok (KPending {| pr_ok := true; pr_pending := pending;
                          pr_current_grant_generation := g |})))
  end).

(** [POST /kernel/v1/revoke/ack]. *)
Definition ack_revoke (caller : string) (body : RevokeAckRequest) (s : Stamp) : handler :=
  if negb (reaper_or_operator caller) then not_reaper else
  Await false
    (fun w => let (cleared, store) := clear_pending (ra_run_id body) (PENDING w) in
              (cleared, with_pending store w))
    (fun cleared =>
  audit_append "kernel_revoke_ack"
    (Obj (bt_collect [("run_id", Str (ra_run_id body)); ("outcome", Str (ra_outcome body));
                      ("cleared", Bool cleared); ("caller_role", Str caller)]))
    (now s) (ended_at s)
  (Done (Ok (KAcked {| rk_ok := true; rk_run_id := ra_run_id body; rk_cleared := cleared |})))).

Definition restore_claims (cfg : KernelConfig) (body : RestoreRequest) (s : Stamp) : RestoreClaims :=
  let run_id := "restore_" +:+ uuid s in
  let ttl := Z.max (revoke_token_ttl_s cfg) 30 in
  {| rs_aud := REVOKE_RESTORE_AUD; rs_run_id := run_id; rs_subject := "operator";
     rs_params_fingerprint := restore_params_fingerprint run_id (rr_target body) (rr_reason body);
     rs_issued_at := now s; rs_expires_at := f64_add (now s) (f64_of_Z ttl); rs_nonce := nonce s;
     rs_target := rr_target body; rs_reason := rr_reason body |}.

(** [POST /kernel/v1/revoke/restore]. *)
Definition restore_revoke (cfg : KernelConfig) (caller : string) (body : RestoreRequest) (s : Stamp)
    : handler :=
  if negb (String.eqb caller "operator") then not_operator else
  let claims := restore_claims cfg body s in
  let run_id := rs_run_id claims in
  let token := sign_kernel_token claims (k_signing_key cfg) in
  let tok_sha := token_sha256 token in
  let claims_map := to_btreemap claims in
  Await false (tlog_append_failclosed token (now s)) (fun recorded =>
  match recorded with
  | inl reason =>
    refuse_unrecorded "kernel_revoke_restore_refused" (rr_target body) caller run_id reason s
  | inr _ =>
    Await false
      (fun w => let (g, store) := increment (rr_target body) (GENERATIONS w) in
                (g, with_generations store w))
      (fun new_generation =>
    Await false
      (fun w => (tt, with_pending
         (enqueue_pending (instance (rr_target body))
            {| pe_run_id := run_id; pe_token := token; pe_expires_at := rs_expires_at claims |}
            (now s) (PENDING w)) w))
      (fun _ =>
    audit_append "kernel_revoke_restore"
      (Obj (bt_collect
         [("request", Obj (bt_collect
             [("target", target_to_value (rr_target body)); ("reason", opt_str (rr_reason body));
              ("caller_role", Str caller)]));
          ("token_sha256", Str tok_sha); ("new_grant_generation", Num (PosInt new_generation));
          ("claims", btree_to_value claims_map)]))
      (now s) (ended_at s)
    (Done (Ok (KSigned {| sgr_ok := true; sgr_run_id := run_id; sgr_token := token;
                          sgr_token_sha256 := tok_sha; sgr_claims := claims_map |})))))
  end).

(** ** What a queue entry stands for *)

Context `{!TlogLaws T}.

Definition bound_kill (c : RevokeComputeClaims) : Prop :=
  rc_aud c = REVOKE_COMPUTE_AUD /\ rc_subject c = "operator" /\ rc_tier c = VmStop /\
  rc_params_fingerprint c =
    revoke_params_fingerprint (rc_run_id c) (rc_target c) (rc_target_generation c) (rc_tier c)
      (rc_trigger c) (rc_reason c).

Definition bound_restore (c : RestoreClaims) : Prop :=
  rs_aud c = REVOKE_RESTORE_AUD /\ rs_subject c = "operator" /\
  rs_params_fingerprint c = restore_params_fingerprint (rs_run_id c) (rs_target c) (rs_reason c).

Definition kill_entry (cfg : KernelConfig) (name : string) (e : PendingRevoke)
    (c : RevokeComputeClaims) : Prop :=
  e = {| pe_run_id := rc_run_id c; pe_token := sign_kernel_token c (k_signing_key cfg);
         pe_expires_at := rc_expires_at c |} /\
  instance (rc_target c) = name /\ bound_kill c.

Definition restore_entry (cfg : KernelConfig) (name : string) (e : PendingRevoke)
    (c : RestoreClaims) : Prop :=
  e = {| pe_run_id := rs_run_id c; pe_token := sign_kernel_token c (k_signing_key cfg);
         pe_expires_at := rs_expires_at c |} /\
  instance (rs_target c) = name /\ bound_restore c.

(** The ledger has a row under the token's key (vacuous without a log, in dev). *)
Definition recorded (w : KWorld T) (token : string) : Prop :=
  match transparency w with
  | None => True
  | Some t => exists p, tl_row t (idempotency_key_for_token token) p
  end.

Definition issued (cfg : KernelConfig) (w : KWorld T) (name : string) (e : PendingRevoke) : Prop :=
  recorded w (pe_token e) /\
  ((exists c, kill_entry cfg name e c /\
      rc_target_generation c <= current (rc_target c) (GENERATIONS w)) \/
   (exists c, restore_entry cfg name e c /\ 1 <= current (rs_target c) (GENERATIONS w))).

(** The queue invariant: every pending token is a recorded, operator-issued
    decision for the instance it is queued under, its fingerprint bound, its
    generation no newer than the target's. *)
Definition pending_inv (cfg : KernelConfig) (w : KWorld T) : Prop :=
  forall name es e, PENDING w !! name = Some es -> e ∈ es -> issued cfg w name e.

(** ** Other requests *)

Definition log_ok (w : KWorld T) : Prop :=
  match transparency w with None => True | Some t => tl_ok t end.

Inductive kstep (cfg : KernelConfig) : KWorld T -> KWorld T -> Prop :=
| k_enqueue w name e t :
    issued cfg w name e -> kstep cfg w (with_pending (enqueue_pending name e t (PENDING w)) w)
| k_drain w name t :
    kstep cfg w (with_pending (snd (drain_live_tokens name t (PENDING w))) w)
| k_clear w run_id :
    kstep cfg w (with_pending (snd (clear_pending run_id (PENDING w))) w)
| k_increment w target :
    kstep cfg w (with_generations (snd (increment target (GENERATIONS w))) w)
| k_tlog w t i :
    transparency w = Some t -> tl_ok t ->
    kstep cfg w (with_transparency (snd (tlog_append i t)) w)
| k_audit w a : kstep cfg w (with_audit a w).

(** Between two steps others run, and the log is in good order when it is next
    called. *)
Definition others (cfg : KernelConfig) (held : bool) (w w' : KWorld T) : Prop :=
  rtc (kstep cfg) w w' /\ log_ok w'.

(** ** Monotonicity *)

Lemma current_after (t u : InstanceTarget) (m : InMemoryGrantGenerationStore) :
  current u (snd (increment t m)) =
  if decide (t = u) then saturating_add64 (current u m) 1 else current u m.
Proof.
  cbn [current increment in_memory_generations snd].
  case_decide as Ht; [subst; by rewrite lookup_insert_eq|by rewrite lookup_insert_ne].
Qed.

Definition generations_ok (w : KWorld T) : Prop :=
  forall t, current t (GENERATIONS w) <= u64_max.

Lemma kstep_generations cfg w w' :
  kstep cfg w w' -> generations_ok w ->
  generations_ok w' /\ forall t, current t (GENERATIONS w) <= current t (GENERATIONS w').
Proof.
  intros Hs Hok. destruct Hs; try (by split; [apply Hok|]). cbn [GENERATIONS with_generations].
  split; intros u; specialize (Hok u); cbn [GENERATIONS with_generations]; rewrite current_after;
    case_decide; unfold saturating_add64; lia.
Qed.

Lemma kstep_recorded cfg w w' tok : kstep cfg w w' -> recorded w tok -> recorded w' tok.
Proof.
  unfold recorded. intros [] Hr; simpl; try done.
  match goal with E : transparency _ = Some _ |- _ => rewrite E in Hr end.
  destruct Hr as [p Hp]. exists p. by apply tl_mono.
Qed.

Lemma kstep_issued cfg w w' name e :
  kstep cfg w w' -> generations_ok w -> issued cfg w name e -> issued cfg w' name e.
Proof.
  intros Hs Hok [Hr Hc]. destruct (kstep_generations _ _ _ Hs Hok) as [_ Hg].
  split; [by eapply kstep_recorded|].
  destruct Hc as [(c & He & Hle)|(c & He & Hle)]; [left|right]; exists c; (split; [done|]).
  - etrans; [exact Hle|apply Hg].
  - etrans; [exact Hle|apply Hg].
Qed.

Lemma elem_of_enqueue name e t store name' es e' :
  enqueue_pending name e t store !! name' = Some es -> e' ∈ es ->
  (name' = name /\ e' = e) \/ (exists es0, store !! name' = Some es0 /\ e' ∈ es0).
Proof.
  unfold enqueue_pending. destruct (decide (name = name')) as [<-|Hne].
  - rewrite lookup_insert_eq. intros [= <-] [Hin|Hin]%elem_of_app; [|left; set_solver].
    apply list_elem_of_filter in Hin as [_ Hin]. right.
    destruct (store !! name) as [es0|]; [|by apply elem_of_nil in Hin]. eauto.
  - rewrite lookup_insert_ne by done. eauto.
Qed.

Lemma kstep_inv cfg w w' :
  kstep cfg w w' -> generations_ok w -> pending_inv cfg w -> pending_inv cfg w'.
Proof.
  intros Hs Hok Hinv name es e Hl He.
  assert (issued cfg w name e -> issued cfg w' name e) as Hmono by by apply kstep_issued.
  destruct Hs; simpl in Hl; try (by eapply Hmono, Hinv); apply Hmono; clear Hmono.
  - destruct (elem_of_enqueue _ _ _ _ _ _ _ Hl He) as [[-> ->]|(es0 & Hl0 & Hin)]; [done|].
    by eapply Hinv.
  - unfold drain_live_tokens in Hl. destruct (PENDING w !! name0) as [es0|] eqn:E0;
      simpl in Hl; [|by eapply Hinv].
    destruct (decide (name0 = name)) as [->|Hne].
    + rewrite lookup_insert_eq in Hl. injection Hl as <-.
      apply list_elem_of_filter in He as [_ He]. by eapply Hinv.
    + rewrite lookup_insert_ne in Hl by done. by eapply Hinv.
  - unfold clear_pending in Hl. simpl in Hl. rewrite lookup_fmap in Hl.
    destruct (PENDING w !! name) as [es0|] eqn:E0; simpl in Hl; [|done]. injection Hl as <-.
    apply list_elem_of_filter in He as [_ He]. by eapply Hinv.
Qed.

Lemma ksteps_inv cfg w w' :
  rtc (kstep cfg) w w' -> generations_ok w -> pending_inv cfg w ->
  generations_ok w' /\ pending_inv cfg w' /\
  forall t, current t (GENERATIONS w) <= current t (GENERATIONS w').
Proof.
  induction 1 as [w|w w1 w2 Hs _ IH]; intros Hok Hinv; [done|].
  destruct (kstep_generations _ _ _ Hs Hok) as [Hok1 Hg1].
  destruct (IH Hok1 (kstep_inv _ _ _ Hs Hok Hinv)) as (Hok2 & Hinv2 & Hg2).
  split_and!; [done..|]. intros t. etrans; [apply Hg1|apply Hg2].
Qed.

Lemma ksteps_recorded cfg w w' tok : rtc (kstep cfg) w w' -> recorded w tok -> recorded w' tok.
Proof. induction 1; eauto using kstep_recorded. Qed.

(** ** The handlers among other requests *)

Inductive Request :=
| Mint (caller : string) (body : MintRevokeRequest) (s : Stamp)
| Pull (caller name : string) (s : Stamp)
| Ack (caller : string) (body : RevokeAckRequest) (s : Stamp)
| Restore (caller : string) (body : RestoreRequest) (s : Stamp).

(** The routes of [revoke_routes]. *)
Definition serve (cfg : KernelConfig) (rq : Request) : handler :=
  match rq with
  | Mint caller body s => mint_revoke cfg caller body s
  | Pull caller name s => pending_revoke caller name s
  | Ack caller body s => ack_revoke caller body s
  | Restore caller body s => restore_revoke cfg caller body s
  end.

(** A step of the handler after a stretch of other requests. *)
Lemma others_step cfg held w w1 w2 :
  others cfg held w w1 -> rtc (kstep cfg) w1 w2 -> rtc (kstep cfg) w w2.
Proof. intros [Hs _] Hs'. by etrans. Qed.

Lemma tlog_step cfg token t w :
  log_ok w ->
  let (r, w') := tlog_append_failclosed token t w in
  rtc (kstep cfg) w w' /\ PENDING w' = PENDING w /\ GENERATIONS w' = GENERATIONS w /\
  match r with inr _ => recorded w' token | inl _ => transparency w <> None end.
Proof.
  unfold tlog_append_failclosed, log_ok, recorded.
  destruct (transparency w) as [l|] eqn:Et; [|intros _; rewrite Et; done]. intros Hok.
  pose proof (tl_recorded l (append_input_for token t)) as Hrec.
  pose proof (tl_conflict l (append_input_for token t)) as Hcon.
  pose proof (k_tlog cfg w l (append_input_for token t) Et Hok) as Hst.
  destruct (tlog_append (append_input_for token t) l) as [r l']. simpl in *.
  split_and!; [by apply rtc_once|done..|]. destruct r as [[[]|o]|]; try done.
  - destruct (Hcon Hok eq_refl) as (p & _ & Hp). by exists p.
  - exists (as_bytes token). by eapply Hrec.
Qed.

Lemma audit_step cfg name payload a b (k : handler) w r w' :
  exec (others cfg) (audit_append name payload a b k) w r w' ->
  exists w1, rtc (kstep cfg) w w1 /\ exec (others cfg) k w1 r w'.
Proof.
  intros (w1 & He & Hx)%exec_await_inv. eexists. split; [|exact Hx].
  eapply others_step; [done|]. apply rtc_once, k_audit.
Qed.

Lemma refuse_step cfg name target caller run_id reason s w r w' :
  exec (others cfg) (refuse_unrecorded name target caller run_id reason s) w r w' ->
  rtc (kstep cfg) w w' /\
  r = Ok (KDeny 503 (kernel_with_reason "unavailable" "revoke_not_recorded")).
Proof. intros (w1 & Hs & Hx)%audit_step. by apply exec_done_inv in Hx as [-> ->]. Qed.

(** The kernel's own state is in order. *)
Definition kernel_inv (cfg : KernelConfig) (w : KWorld T) : Prop :=
  generations_ok w /\ pending_inv cfg w.

Definition grants_grow (w w' : KWorld T) : Prop :=
  forall t, current t (GENERATIONS w) <= current t (GENERATIONS w').

Lemma ksteps_kernel_inv cfg w w' :
  rtc (kstep cfg) w w' -> kernel_inv cfg w -> kernel_inv cfg w' /\ grants_grow w w'.
Proof. intros Hs [Hok Hinv]. by destruct (ksteps_inv _ _ _ Hs Hok Hinv) as (? & ? & ?). Qed.

Lemma mint_spec cfg caller body s w r w' :
  kernel_inv cfg w -> exec (others cfg) (mint_revoke cfg caller body s) w r w' ->
  rtc (kstep cfg) w w' /\
  (caller <> "operator" /\
     r = Ok (KDeny 403 (kernel_with_reason "forbidden" "caller_role_not_operator")) \/
   caller = "operator" /\ mr_tier body <> VmStop /\
     r = Ok (KDeny 422 (kernel_with_reason "unprocessable_entity" "tier_unsupported_phase1")) \/
   caller = "operator" /\ mr_tier body = VmStop /\
     r = Ok (KDeny 503 (kernel_with_reason "unavailable" "revoke_not_recorded")) \/
   caller = "operator" /\ mr_tier body = VmStop /\
     exists g, let c := revoke_claims cfg body s g in
       let token := sign_kernel_token c (k_signing_key cfg) in
       current (mr_target body) (GENERATIONS w) <= g /\
       g <= current (mr_target body) (GENERATIONS w') /\ recorded w' token /\
       r = Ok (KSigned {| sgr_ok := true; sgr_run_id := rc_run_id c; sgr_token := token;
                          sgr_token_sha256 := token_sha256 token; sgr_claims := to_btreemap c |})).
Proof.
  intros Hinv Hx. unfold mint_revoke in Hx.
  destruct (String.eqb_spec caller "operator") as [->|Hc]; cbn [negb] in Hx;
    [|apply exec_done_inv in Hx as [-> ->]; split; [done|tauto]].
  case_bool_decide as Ht; cbn [negb] in Hx; [|apply exec_done_inv in Hx as [-> ->]; split; [done|tauto]].
  apply exec_await_inv in Hx as (w1 & [Hs1 _] & Hx). cbn [fst snd reading] in Hx.
  set (g := current _ _) in Hx. set (c := revoke_claims cfg body s g) in Hx.
  apply exec_await_inv in Hx as (w2 & [Hs2 Hlog] & Hx).
  destruct (ksteps_kernel_inv _ _ _ Hs1 Hinv) as [Hinv1 Hg1].
  destruct (ksteps_kernel_inv _ _ _ Hs2 Hinv1) as [Hinv2 Hg2].
  pose proof (tlog_step cfg (sign_kernel_token c (k_signing_key cfg)) (now s) w2 Hlog) as Htl.
  destruct (tlog_append_failclosed _ _ w2) as [[reason|[]] w3]; cbn [fst snd] in Hx;
    destruct Htl as (Hs3 & Hp3 & Hg3 & Hrec).
  { apply refuse_step in Hx as [Hs4 ->]. split; [|auto 8]. by do 3 (etrans; [eassumption|]). }
  apply exec_await_inv in Hx as (w4 & [Hs4 _] & Hx). cbn [fst snd] in Hx.
  apply audit_step in Hx as (w6 & Hs6 & Hx). apply exec_done_inv in Hx as [-> ->].
  destruct (ksteps_kernel_inv _ _ _ Hs3 Hinv2) as [Hinv3 _].
  destruct (ksteps_kernel_inv _ _ _ Hs4 Hinv3) as [Hinv4 Hg4].
  pose proof (ksteps_recorded _ _ _ _ Hs4 Hrec) as Hrec4.
  assert (g <= current (mr_target body) (GENERATIONS w4)) as Hgen.
  { etrans; [apply Hg2|]. rewrite <-Hg3. apply Hg4. }
  match type of Hs6 with rtc _ (with_pending (enqueue_pending ?n ?e ?t _) _) _ =>
    assert (kstep cfg w4 (with_pending (enqueue_pending n e t (PENDING w4)) w4)) as Hs5 end.
  { apply k_enqueue. split; [done|]. left. exists c. by split_and!. }
  destruct (ksteps_kernel_inv _ _ _ (rtc_l _ _ _ _ Hs5 Hs6) Hinv4) as [_ Hg6].
  split; [do 4 (etrans; [eassumption|]); by eapply rtc_l|]. do 3 right. split_and!; [done..|].
  exists g. split_and!; [apply Hg1| |by eapply ksteps_recorded, Hrec4; eapply rtc_l|done].
  etrans; [exact Hgen|apply Hg6].
Qed.

Lemma restore_spec cfg caller body s w r w' :
  kernel_inv cfg w -> exec (others cfg) (restore_revoke cfg caller body s) w r w' ->
  rtc (kstep cfg) w w' /\
  (caller <> "operator" /\
     r = Ok (KDeny 403 (kernel_with_reason "forbidden" "caller_role_not_operator")) \/
   caller = "operator" /\
     r = Ok (KDeny 503 (kernel_with_reason "unavailable" "revoke_not_recorded")) \/
   caller = "operator" /\
     let c := restore_claims cfg body s in
     let token := sign_kernel_token c (k_signing_key cfg) in
     saturating_add64 (current (rr_target body) (GENERATIONS w)) 1 <=
       current (rr_target body) (GENERATIONS w') /\ recorded w' token /\
     r = Ok (KSigned {| sgr_ok := true; sgr_run_id := rs_run_id c; sgr_token := token;
                        sgr_token_sha256 := token_sha256 token; sgr_claims := to_btreemap c |})).
Proof.
  intros Hinv Hx. unfold restore_revoke in Hx.
  destruct (String.eqb_spec caller "operator") as [->|Hc]; cbn [negb] in Hx;
    [|apply exec_done_inv in Hx as [-> ->]; split; [done|tauto]].
  set (c := restore_claims cfg body s) in *.
  apply exec_await_inv in Hx as (w2 & [Hs2 Hlog] & Hx).
  destruct (ksteps_kernel_inv _ _ _ Hs2 Hinv) as [Hinv2 Hg2].
  pose proof (tlog_step cfg (sign_kernel_token c (k_signing_key cfg)) (now s) w2 Hlog) as Htl.
  destruct (tlog_append_failclosed _ _ w2) as [[reason|[]] w3]; cbn [fst snd] in Hx;
    destruct Htl as (Hs3 & Hp3 & Hg3 & Hrec).
  { apply refuse_step in Hx as [Hs4 ->]. split; [|tauto]. by do 2 (etrans; [eassumption|]). }
  destruct (ksteps_kernel_inv _ _ _ Hs3 Hinv2) as [Hinv3 _].
  apply exec_await_inv in Hx as (w4 & [Hs4 _] & Hx). cbn [fst snd increment in_memory_generations] in Hx.
  destruct (ksteps_kernel_inv _ _ _ Hs4 Hinv3) as [Hinv4 Hg4].
  pose proof (k_increment cfg w4 (rr_target body)) as Hs5.
  destruct (ksteps_kernel_inv _ _ _ (rtc_once _ _ Hs5) Hinv4) as [Hinv5 _].
  assert (saturating_add64 (current (rr_target body) (GENERATIONS w)) 1 <=
    current (rr_target body) (snd (increment (rr_target body) (GENERATIONS w4)))) as Hgen.
  { rewrite current_after, decide_True by done. specialize (Hg2 (rr_target body)).
    specialize (Hg4 (rr_target body)). rewrite Hg3 in Hg4. unfold saturating_add64. lia. }
  apply exec_await_inv in Hx as (w6 & [Hs6 _] & Hx). cbn [fst snd] in Hx.
  destruct (ksteps_kernel_inv _ _ _ Hs6 Hinv5) as [Hinv6 Hg6].
  apply audit_step in Hx as (w8 & Hs8 & Hx). apply exec_done_inv in Hx as [-> ->].
  pose proof (ksteps_recorded _ _ _ _ (rtc_l _ _ _ _ Hs5 Hs6) (ksteps_recorded _ _ _ _ Hs4 Hrec))
    as Hrec6.
  match type of Hs8 with rtc _ (with_pending (enqueue_pending ?n ?e ?t _) _) _ =>
    assert (kstep cfg w6 (with_pending (enqueue_pending n e t (PENDING w6)) w6)) as Hs7 end.
  { apply k_enqueue. split; [done|]. right. exists c. split; [by split_and!|].
    etrans; [|apply Hg6]. etrans; [|exact Hgen]. unfold saturating_add64, u64_max. lia. }
  destruct (ksteps_kernel_inv _ _ _ (rtc_l _ _ _ _ Hs7 Hs8) Hinv6) as [_ Hg8].
  split.
  { do 3 (etrans; [eassumption|]). eapply rtc_l; [exact Hs5|]. etrans; [exact Hs6|].
    eapply rtc_l; [exact Hs7|exact Hs8]. }
  do 2 right. split; [done|]. split_and!; [|by eapply ksteps_recorded, Hrec6; eapply rtc_l|done].
  etrans; [exact Hgen|]. etrans; [apply Hg6|apply Hg8].
Qed.

Lemma current_for_instance_max name (m : InMemoryGrantGenerationStore) :
  (forall t, instance t = name -> current t m <= current_for_instance name m) /\
  (current_for_instance name m = 0 \/
   exists t, instance t = name /\ current t m = current_for_instance name m).
Proof.
  cbn [current current_for_instance in_memory_generations].
  apply (map_fold_weak_ind (fun (best : N) m => (forall t, instance t = name -> default 0 (m !! t) <= best) /\
    (best = 0 \/ exists t, instance t = name /\ default 0 (m !! t) = best))).
  - split; [|by left]. intros t _. by rewrite lookup_empty.
  - intros u g m' best Hu [Hle Hex]. split.
    + intros t Ht. specialize (Hle t Ht). destruct (decide (t = u)) as [->|Hne].
      * rewrite lookup_insert_eq, decide_True by done. simpl. lia.
      * rewrite lookup_insert_ne by done. case_decide; lia.
    + case_decide as Hu'.
      * destruct (N.max_spec g best) as [[Hlt ->]|[Hge ->]].
        -- destruct Hex as [->|(t & Ht & E)]; [lia|]. right. exists t. split; [done|].
           rewrite lookup_insert_ne; [done|]. intros <-. by rewrite Hu in E; simpl in E; lia.
        -- right. exists u. by rewrite lookup_insert_eq.
      * destruct Hex as [->|(t & Ht & E)]; [by left|]. right. exists t. split; [done|].
        rewrite lookup_insert_ne; [done|]. by intros <-.
Qed.

Lemma current_for_instance_u64 name w :
  generations_ok w -> u64_ok (current_for_instance name (GENERATIONS w)).
Proof.
  intros Hok. destruct (current_for_instance_max name (GENERATIONS w)) as [_ [->|(t & _ & <-)]];
    [done|exact (Hok t)].
Qed.

Lemma drain_tokens_issued cfg w name t tok :
  pending_inv cfg w -> tok ∈ fst (drain_live_tokens name t (PENDING w)) ->
  exists e, pe_token e = tok /\ live t e /\ issued cfg w name e.
Proof.
  unfold drain_live_tokens. intros Hinv. destruct (PENDING w !! name) as [es|] eqn:E; simpl;
    [|by rewrite elem_of_nil].
  intros (e & -> & [Hl He]%list_elem_of_filter)%list_elem_of_fmap. exists e. split_and!; [done..|].
  by eapply Hinv.
Qed.

Lemma pending_spec cfg caller name s w r w' :
  kernel_inv cfg w -> exec (others cfg) (pending_revoke caller name s) w r w' ->
  rtc (kstep cfg) w w' /\
  (reaper_or_operator caller = false /\
     r = Ok (KDeny 403 (kernel_with_reason "forbidden" "caller_role_not_reaper")) \/
   reaper_or_operator caller = true /\
     (r = Ok KNoContent \/
      exists p, r = Ok (KPending p) /\
        (pr_pending p <> [] /\ pr_ok p = true /\ u64_ok (pr_current_grant_generation p)) /\
        forall tok, tok ∈ pr_pending p ->
          exists e, pe_token e = tok /\ live (now s) e /\ issued cfg w' name e)).
Proof.
  intros Hinv Hx. unfold pending_revoke in Hx.
  destruct (reaper_or_operator caller) eqn:Hc; cbn [negb] in Hx;
    [|apply exec_done_inv in Hx as [-> ->]; split; [done|tauto]].
  apply exec_await_inv in Hx as (w1 & [Hs1 _] & Hx).
  destruct (ksteps_kernel_inv _ _ _ Hs1 Hinv) as [Hinv1 _].
  pose proof (k_drain cfg w1 name (now s)) as Hs2.
  pose proof (fun tok => drain_tokens_issued cfg w1 name (now s) tok (proj2 Hinv1)) as Hd.
  destruct (drain_live_tokens name (now s) (PENDING w1)) as [toks st]. cbn [fst snd] in Hx, Hs2, Hd.
  pose proof (rtc_r _ _ _ Hs1 Hs2) as Hs12.
  destruct toks as [|tok toks].
  { apply exec_done_inv in Hx as [-> ->]. split; [done|]. auto. }
  apply exec_await_inv in Hx as (w3 & [Hs3 _] & Hx). apply exec_done_inv in Hx as [-> ->].
  destruct (ksteps_kernel_inv _ _ _ (rtc_l _ _ _ _ Hs2 Hs3) Hinv1) as [[Hgen _] _].
  split; [by etrans|]. right. split; [done|]. right. eexists. split; [done|].
  split; [split_and!; [done..|by apply current_for_instance_u64]|]. intros tok' Htok'. destruct (Hd _ Htok') as (e & He & Hl & Hi).
  exists e. split_and!; [done..|].
  assert (rtc (kstep cfg) w1 w3) as Hs by by eapply rtc_l.
  clear -Hi Hs Hinv1. induction Hs as [w1|w1 w2 w3 Hst _ IH]; [done|].
  pose proof (ksteps_kernel_inv _ _ _ (rtc_once _ _ Hst) Hinv1) as [Hinv2 _].
  apply IH; [done|]. eapply kstep_issued; [done|apply Hinv1|done].
Qed.

Lemma ack_spec cfg caller body s w r w' :
  exec (others cfg) (ack_revoke caller body s) w r w' ->
  rtc (kstep cfg) w w' /\
  (reaper_or_operator caller = false /\
     r = Ok (KDeny 403 (kernel_with_reason "forbidden" "caller_role_not_reaper")) \/
   reaper_or_operator caller = true /\
     exists cleared, r = Ok (KAcked {| rk_ok := true; rk_run_id := ra_run_id body;
                                       rk_cleared := cleared |})).
Proof.
  intros Hx. unfold ack_revoke in Hx.
  destruct (reaper_or_operator caller) eqn:Hc; cbn [negb] in Hx;
    [|apply exec_done_inv in Hx as [-> ->]; split; [done|tauto]].
  apply exec_await_inv in Hx as (w1 & [Hs1 _] & Hx).
  pose proof (k_clear cfg w1 (ra_run_id body)) as Hs2.
  destruct (clear_pending (ra_run_id body) (PENDING w1)) as [b st]. cbn [fst snd] in Hx, Hs2.
  apply audit_step in Hx as (w3 & Hs3 & Hx). apply exec_done_inv in Hx as [-> ->].
  split; [etrans; [done|]; by eapply rtc_l|]. right. eauto.
Qed.

(** The queue holds only issued decisions: whatever requests run
    concurrently, each of the four handlers keeps the kernel's invariant (every
    pending token is a recorded, fingerprint-bound operator decision for its
    instance) and moves generations only up; a decision is signed only for the
    operator and only once the log has acknowledged it, the queue is read and
    cleared only by the reaper or the operator, and every token handed out is an
    issued one that has not expired. *)
Theorem queue_holds_only_issued_decisions cfg rq w r w' :
  kernel_inv cfg w -> exec (others cfg) (serve cfg rq) w r w' ->
  kernel_inv cfg w' /\ grants_grow w w' /\
  match rq, r with
  | Mint caller body _, Ok (KSigned sg) =>
      caller = "operator" /\ mr_tier body = VmStop /\ recorded w' (sgr_token sg)
  | Restore caller _ _, Ok (KSigned sg) => caller = "operator" /\ recorded w' (sgr_token sg)
  | Mint caller body _, Ok (KDeny status _) =>
      status = 403 /\ caller <> "operator" \/ status = 422 /\ mr_tier body <> VmStop \/ status = 503
  | Restore caller _ _, Ok (KDeny status _) => status = 403 /\ caller <> "operator" \/ status = 503
  | Pull caller _ _, Ok KNoContent => reaper_or_operator caller = true
  | Pull caller name s, Ok (KPending p) =>
      reaper_or_operator caller = true /\
      forall tok, tok ∈ pr_pending p ->
        exists e, pe_token e = tok /\ live (now s) e /\ issued cfg w' name e
  | Ack caller body _, Ok (KAcked a) =>
      reaper_or_operator caller = true /\ rk_run_id a = ra_run_id body
  | Pull caller _ _, Ok (KDeny status _) | Ack caller _ _, Ok (KDeny status _) =>
      status = 403 /\ reaper_or_operator caller = false
  | _, _ => False
  end.
Proof.
  intros Hinv Hx. destruct rq as [caller body s|caller name s|caller body s|caller body s]; simpl in Hx.
  - apply mint_spec in Hx as [Hs Hr]; [|done].
    destruct (ksteps_kernel_inv _ _ _ Hs Hinv) as [? ?]. split_and!; [done..|].
    destruct Hr as [[? ->]|[(? & ? & ->)|[(? & ? & ->)|(? & ? & g & _ & _ & ? & ->)]]]; simpl; tauto.
  - apply pending_spec in Hx as [Hs Hr]; [|done].
    destruct (ksteps_kernel_inv _ _ _ Hs Hinv) as [? ?]. split_and!; [done..|].
    destruct Hr as [[? ->]|[? [->|(p & -> & _ & Hp)]]]; simpl; auto.
  - apply ack_spec in Hx as [Hs Hr].
    destruct (ksteps_kernel_inv _ _ _ Hs Hinv) as [? ?]. split_and!; [done..|].
    destruct Hr as [[? ->]|[? (b & ->)]]; simpl; auto.
  - apply restore_spec in Hx as [Hs Hr]; [|done].
    destruct (ksteps_kernel_inv _ _ _ Hs Hinv) as [? ?]. split_and!; [done..|].
    destruct Hr as [[? ->]|[(? & ->)|(? & _ & ? & ->)]]; simpl; tauto.
Qed.

(** ** The fence across a restore *)

(** C35.  A restore fences what was queued before it: once a restore of a target
    has been granted (its counter not saturated), every entry that was in the
    queue under that instance is a restore or a kill whose stamped generation, if
    it is for that target, is below the generation the reaper will be told. *)
Theorem restore_fences_queued_kills cfg caller body s w sg w' e es :
  kernel_inv cfg w -> current (rr_target body) (GENERATIONS w) < u64_max ->
  exec (others cfg) (restore_revoke cfg caller body s) w (Ok (KSigned sg)) w' ->
  PENDING w !! instance (rr_target body) = Some es -> e ∈ es ->
  (exists c, restore_entry cfg (instance (rr_target body)) e c) \/
  (exists c, kill_entry cfg (instance (rr_target body)) e c /\
     (rc_target c = rr_target body ->
      forall gates, honour_revocation (rc_target_generation c)
        (current_for_instance (instance (rr_target body)) (GENERATIONS w')) gates <> Honour)).
Proof.
  intros Hinv Hsat Hx Hl He.
  destruct (proj2 Hinv _ _ _ Hl He) as [_ [(c & Hc & Hle)|(c & Hc & _)]]; [right|by left; eauto].
  exists c. split; [done|]. intros Ht gates (_ & _ & _ & _ & Hg)%honour_iff.
  apply restore_spec in Hx as [_ Hr]; [|done].
  destruct Hr as [[_ ?]|[(_ & ?)|(_ & Hup & _)]]; [done..|].
  destruct (current_for_instance_max (instance (rr_target body)) (GENERATIONS w')) as [Hmax _].
  specialize (Hmax _ eq_refl). rewrite Ht in Hle. unfold saturating_add64 in Hup. lia.
Qed.

End KernelRevoke.

(** ** Witnesses *)

Module Demo.
#[local] Instance sha : Sha256 := fun l => array_of 32 (rev l).
#[local] Existing Instance demo_ed25519.
#[local] Existing Instance demo_hex.
#[local] Existing Instance demo_b64.
#[local] Existing Instance DemoJson.demo_serde.

(** A log kept as a map from key to payload, always answering. *)
Abbreviation DemoLog := (gmap (array 32) (list byte)).

#[local] Instance demo_log : TlogClient DemoLog := fun i l =>
  match l !! ti_idempotency_key i with
  | Some p => (Some (if decide (p = ti_payload i)
                     then inr {| to_leaf_index := 0; to_idempotent_replay := true |}
                     else inl TConflict), l)
  | None => (Some (inr {| to_leaf_index := 0; to_idempotent_replay := false |}),
             <[ti_idempotency_key i := ti_payload i]> l)
  end.

#[local] Program Instance demo_log_laws : TlogLaws DemoLog :=
  {| tl_ok := fun _ => True; tl_row := fun l k p => (l : DemoLog) !! k = Some p |}.
Next Obligation.
  intros l i k p _ Hk. unfold tlog_append, demo_log. destruct (l !! ti_idempotency_key i) eqn:E; [done|].
  simpl. rewrite lookup_insert_ne; [done|]. intros <-. congruence.
Qed.
Next Obligation.
  intros l i o _. unfold tlog_append, demo_log. destruct (l !! ti_idempotency_key i) eqn:E; simpl.
  - case_decide as Hd; [|done]. by rewrite E, Hd.
  - intros _. by rewrite lookup_insert_eq.
Qed.
Next Obligation.
  intros l i _. unfold tlog_append, demo_log. destruct (l !! ti_idempotency_key i) as [p|] eqn:E; simpl.
  - case_decide as Hd; [done|]. intros _. eauto.
  - done.
Qed.

Definition cfg : KernelConfig :=
  {| k_signing_key := [x07] : @SigningKey demo_ed25519; revoke_token_ttl_s := 120 |}.

Definition fresh : KWorld DemoLog := Build_KWorld ∅ ∅ (Some ∅) [].

Definition kill_body (zone : string) : MintRevokeRequest :=
  {| mr_target := Revoke.Demo.vm zone; mr_tier := VmStop; mr_trigger := OperatorEmergencyStop;
     mr_reason := None |}.
Definition restore_body (zone : string) : RestoreRequest :=
  {| rr_target := Revoke.Demo.vm zone; rr_reason := None |}.
Definition at_time (t : Z) (id : string) : Stamp :=
  {| now := f64_of_Z t; nonce := "nonce-" +:+ id; uuid := id; ended_at := f64_of_Z t |}.

Lemma others_refl : forall held w, others cfg held w w.
Proof. intros held w. split; [apply rtc_refl|]. unfold log_ok. by destruct (transparency w). Qed.

Lemma fresh_inv : kernel_inv cfg fresh.
Proof.
  split; [|intros name es e Hl; unfold fresh in Hl; cbn [PENDING] in Hl; by rewrite lookup_empty in Hl].
  intros t. cbn. rewrite lookup_empty. cbn. unfold u64_max. lia.
Qed.

Definition after_kill : KWorld DemoLog := snd (run (mint_revoke cfg "operator" (kill_body "a") (at_time 1000 "k")) fresh).

Lemma queue_holds_only_issued_decisions_witness : kernel_inv cfg after_kill.
Proof.
  apply (queue_holds_only_issued_decisions cfg (Mint "operator" (kill_body "a") (at_time 1000 "k"))
    fresh _ after_kill fresh_inv (exec_run _ others_refl _ _)).
Defined.

Lemma after_kill_inv : kernel_inv cfg after_kill.
Proof.
  destruct (mint_spec cfg "operator" (kill_body "a") (at_time 1000 "k") fresh _ after_kill fresh_inv
    (exec_run _ others_refl _ _)) as [Hs _].
  by destruct (ksteps_kernel_inv _ _ _ Hs fresh_inv).
Qed.

Definition after_restore : KWorld DemoLog :=
  snd (run (restore_revoke cfg "operator" (restore_body "a") (at_time 1001 "r")) after_kill).

Lemma restore_fences_queued_kills_witness : exists es e,
  PENDING after_kill !! "agent-vm" = Some es /\ e ∈ es /\
  ((exists c, restore_entry cfg "agent-vm" e c) \/
   (exists c, kill_entry cfg "agent-vm" e c /\
     (rc_target c = Revoke.Demo.vm "a" ->
      forall gates, honour_revocation (rc_target_generation c)
        (current_for_instance "agent-vm" (GENERATIONS after_restore)) gates <> Honour))).
Proof.
  assert (exists e, PENDING after_kill !! "agent-vm" = Some [e]) as [e Hl] by (eexists; reflexivity).
  exists [e], e. assert (e ∈ [e]) as He by by apply list_elem_of_singleton.
  split; [exact Hl|]. split; [exact He|].
  assert (exists sg, fst (run (restore_revoke cfg "operator" (restore_body "a") (at_time 1001 "r"))
    after_kill) = Ok (KSigned sg)) as [sg Hsg] by (eexists; reflexivity).
  pose proof (exec_run (others cfg) others_refl
    (restore_revoke cfg "operator" (restore_body "a") (at_time 1001 "r")) after_kill) as Hx.
  rewrite Hsg in Hx.
  exact (restore_fences_queued_kills cfg "operator" (restore_body "a") (at_time 1001 "r")
    after_kill sg after_restore e [e] after_kill_inv ltac:(by vm_compute) Hx Hl He).
Defined.

End Demo.
