(* ===== verification/Executor.v ===== *)
(** * The privileged capability: stopping and starting an instance

    Models [crates/services/safety-kernel-reaper/src/executor.rs]: the executor
    trait, the recording mock, the guarded cloud executor and its live backend.
    The HTTP exchanges of the backend are a stateful [send]. *)

From S2P Require Import Prelude RustStr Float64 Crates Json Serde Token CircuitBreaker Client Revoke.

(** ** Data *)

Record ProtectedCoord := { pc_project : string; pc_instance : string }.

Definition matches (p : ProtectedCoord) (target : InstanceTarget) : bool :=
  String.eqb (pc_project p) (project target) && String.eqb (pc_instance p) (instance target).

Record StopOutcome := {
  so_instance : string;
  so_op_id : string;
  so_prev_state : string
}.

Inductive ExecutorError :=
| ForbiddenTarget (project instance : string)
| LiveArmingGated (op : string)
| NoScratchTarget
| RefusedNonScratchTarget (asked scratch : string)
| Backend (msg : string).

(** [Display]. *)
Definition executor_error_display (e : ExecutorError) : string :=
  match e with
  | ForbiddenTarget p i =>
    "refused: " +:+ i +:+ " in " +:+ p +:+ " is a protected host (never stop/start the box we run on or a configured protected instance)"
  | LiveArmingGated op =>
    "executor disarmed: REAPER_ARMED is not true, live arming is operator-gated; op=" +:+ op
  | NoScratchTarget => "executor armed but no scratch target configured; refusing to act"
  | RefusedNonScratchTarget asked scratch =>
    "refused: target " +:+ asked +:+ " is not the configured scratch instance " +:+ scratch
  | Backend msg => "compute backend error: " +:+ msg
  end.

(** ** The trait

    [X] is whatever the executor acts on. *)
Class ComputeExecutor (X : Type) := {
  ex_stop : InstanceTarget -> X -> (ExecutorError + StopOutcome) * X;
  ex_start : InstanceTarget -> X -> (ExecutorError + StopOutcome) * X
}.

(** ** The mock: two call lists *)

Record MockComputeExecutor := {
  stop_calls : list InstanceTarget;
  start_calls : list InstanceTarget
}.

#[global] Instance mock_executor : ComputeExecutor MockComputeExecutor := {
  ex_stop target m :=
    (inr {| so_instance := instance target; so_op_id := "mock-stop-" +:+ instance target;
            so_prev_state := "RUNNING" |},
     {| stop_calls := stop_calls m ++ [target]; start_calls := start_calls m |});
  ex_start target m :=
    (inr {| so_instance := instance target; so_op_id := "mock-start-" +:+ instance target;
            so_prev_state := "TERMINATED" |},
     {| stop_calls := stop_calls m; start_calls := start_calls m ++ [target] |})
}.

(** ** The live backend *)

Class GceInstanceOps (O : Type) :=
  instance_op : InstanceTarget -> string -> O -> (ExecutorError + StopOutcome) * O.

Definition METADATA_TOKEN_URL : string :=
  "http://metadata.google.internal/computeMetadata/v1/instance/service-accounts/default/token".
Definition COMPUTE_API_ROOT : string := "https://compute.googleapis.com/compute/v1".

Definition instance_op_url (target : InstanceTarget) (op : string) : string :=
  COMPUTE_API_ROOT +:+ "/projects/" +:+ project target +:+ "/zones/" +:+ zone target
  +:+ "/instances/" +:+ instance target +:+ "/" +:+ op.

Section Live.
Context {O : Type} (send : HttpRequest -> O -> (string + Response) * O).
Context (json_error : Value -> string).

(** The decoded [MetadataToken] and [ComputeOpResponse]; a struct may also be
    read from an array of its fields. *)
Definition de_metadata_token (v : Value) : option string :=
  match v with
  | Obj m => bt_get "access_token" m ≫= as_str
  | Arr [Str t] => Some t
  | _ => None
  end.
Definition de_compute_op (v : Value) : option (option string) :=
  match v with
  | Obj m => de_opt_str (bt_get "name" m)
  | Arr [x] => de_opt_str (Some x)
  | _ => None
  end.

Definition fetch_token (o : O) : (ExecutorError + string) * O :=
  let (answer, o) := send {| url := METADATA_TOKEN_URL; headers := [("Metadata-Flavor", "Google")];
                             query := []; json := None |} o in
  (match answer with
   | inl e => inl (Backend ("metadata token fetch: " +:+ e))
   | inr resp =>
     if negb (is_success (status resp))
     then inl (Backend ("metadata token status " +:+ u64_to_string (status resp)))
     else
       match decode_json (fun v => match de_metadata_token v with
                                   | Some t => inr t | None => inl (json_error v) end) resp with
       | inl e => inl (Backend ("metadata token decode: " +:+ e))
       | inr t => inr t
       end
   end, o).

(** [MetadataGceOps::instance_op]. *)
Definition metadata_instance_op (target : InstanceTarget) (op : string) (o : O)
    : (ExecutorError + StopOutcome) * O :=
  let (token, o) := fetch_token o in
  match token with
  | inl e => (inl e, o)
  | inr token =>
    let (answer, o) := send {| url := instance_op_url target op;
                               headers := [("authorization", "Bearer " +:+ token);
                                           ("content-length", "0")];
                               query := []; json := None |} o in
    (match answer with
     | inl e => inl (Backend ("compute " +:+ op +:+ " POST: " +:+ e))
     | inr resp =>
       if negb (is_success (status resp)) then
         inl (Backend ("compute " +:+ op +:+ " returned " +:+ u64_to_string (status resp) +:+ ": "
                       +:+ take_chars 200 (default "" (text resp))))
       else
         let name := match resp_json resp with
                     | inr v => mjoin (de_compute_op v)
                     | inl _ => None
                     end in
         inr {| so_instance := instance target; so_op_id := default (op +:+ "-accepted") name;
                so_prev_state := "UNKNOWN" |}
     end, o)
  end.

End Live.

(** ** The guarded executor *)

Record GcpComputeExecutor := {
  armed : bool;
  scratch : option InstanceTarget;
  self_identity : option ProtectedCoord;
  protected : list ProtectedCoord
}.

Definition disarmed : GcpComputeExecutor :=
  {| armed := false; scratch := None; self_identity := None; protected := [] |}.

(** The builder of [main]. *)
Definition gcp_new (armed : bool) (scratch : option InstanceTarget)
    (self_identity : option ProtectedCoord) (protected : list ProtectedCoord) : GcpComputeExecutor :=
  {| armed := armed; scratch := scratch; self_identity := self_identity; protected := protected |}.

Definition is_protected (e : GcpComputeExecutor) (asked : InstanceTarget) : bool :=
  match self_identity e with
  | Some me => if matches me asked then true else existsb (fun p => matches p asked) (protected e)
  | None => existsb (fun p => matches p asked) (protected e)
  end.

Definition guard (e : GcpComputeExecutor) (asked : InstanceTarget) (op : string)
    : ExecutorError + InstanceTarget :=
  if is_protected e asked then inl (ForbiddenTarget (project asked) (instance asked)) else
  if negb (armed e) then inl (LiveArmingGated op) else
  match scratch e with
  | None => inl NoScratchTarget
  | Some scratch =>
    if negb (bool_decide (asked = scratch))
    then inl (RefusedNonScratchTarget (instance asked) (instance scratch))
    else inr scratch
  end.

Definition guarded_op {O} `{GceInstanceOps O} (e : GcpComputeExecutor) (op : string)
    (target : InstanceTarget) (o : O) : (ExecutorError + StopOutcome) * O :=
  match guard e target op with
  | inl err => (inl err, o)
  | inr scratch => instance_op scratch op o
  end.

Definition gcp_executor {O} `{GceInstanceOps O} (e : GcpComputeExecutor) : ComputeExecutor O :=
  {| ex_stop := guarded_op e "stop"; ex_start := guarded_op e "start" |}.

(** ** Correctness of the guard *)

Lemma matches_spec p t :
  matches p t = true <-> pc_project p = project t /\ pc_instance p = instance t.
Proof. unfold matches. by rewrite andb_true_iff, !String.eqb_eq. Qed.

(** The denylist, whatever the zone. *)
Definition on_denylist (e : GcpComputeExecutor) (t : InstanceTarget) : Prop :=
  exists p, (self_identity e = Some p \/ p ∈ protected e) /\
    pc_project p = project t /\ pc_instance p = instance t.

Lemma is_protected_spec e t : is_protected e t = true <-> on_denylist e t.
Proof.
  unfold is_protected, on_denylist.
  assert (existsb (fun p => matches p t) (protected e) = true <->
    exists p, p ∈ protected e /\ pc_project p = project t /\ pc_instance p = instance t) as Hex.
  { rewrite existsb_exists. setoid_rewrite matches_spec. setoid_rewrite list_elem_of_In. done. }
  destruct (self_identity e) as [me|]; [|rewrite Hex; naive_solver].
  destruct (matches me t) eqn:E.
  - apply matches_spec in E. naive_solver.
  - rewrite Hex. assert (~ (pc_project me = project t /\ pc_instance me = instance t)) as Hme
      by by rewrite <-matches_spec, E. naive_solver.
Qed.

(** The guard is airtight: a stop or a start reaches the backend only when
    the executor is armed, the target is exactly the configured scratch instance
    (project, zone and name) and its project and name are on no denylist, and then
    it is the backend's operation on that very target; every other call leaves
    the cloud untouched and reports the first guard that failed, the denylist
    being first and independent of arming, scratch and zone. *)
Theorem guard_is_airtight {O} `{GceInstanceOps O} e op t (o : O) :
  (armed e = true /\ scratch e = Some t /\ ~ on_denylist e t /\
     guarded_op e op t o = instance_op t op o) \/
  ((armed e = false \/ scratch e <> Some t \/ on_denylist e t) /\
   exists err, guarded_op e op t o = (inl err, o) /\
     (on_denylist e t <-> err = ForbiddenTarget (project t) (instance t)) /\
     (~ on_denylist e t -> armed e = false -> err = LiveArmingGated op)).
Proof.
  unfold guarded_op, guard. destruct (is_protected e t) eqn:Hp.
  { apply is_protected_spec in Hp. right. split; [auto|]. eexists. split; [done|]. done. }
  rewrite <-not_true_iff_false, is_protected_spec in Hp.
  destruct (armed e); simpl; [|right; split; [auto|]; eexists; split; [done|]; by split].
  destruct (scratch e) as [s|]; [|right; split; [auto|]; eexists; split; [done|]; by split].
  case_bool_decide as Hs; simpl; [subst s; by left|].
  right. split; [right; left; congruence|]. eexists; split; [done|]; by split.
Qed.
