(* ===== verification/NonceStore.v ===== *)
(** * The reaper's seen-nonce store

    Models [crates/services/safety-kernel-reaper/src/nonce_store.rs]: the replay
    key and its line form, the store trait, and the file-backed store with its
    replay on construction.  The file is its content (or absent); each append to
    it ends as the file system decides ([WriteOutcome]). *)

From S2P Require Import Prelude RustStr.

#[local] Arguments String.append !_ _ / : simpl nomatch.

Record NonceKey := { nk_nonce : string; nk_run_id : string }.

#[global] Instance NonceKey_eq_dec : EqDecision NonceKey.
Proof. solve_decision. Defined.
#[global] Program Instance NonceKey_countable : Countable NonceKey :=
  inj_countable' (fun k => (nk_nonce k, nk_run_id k))
    (fun p => {| nk_nonce := fst p; nk_run_id := snd p |}) _.
Next Obligation. by intros []. Qed.

Definition tab : ascii := "009"%char.
Definition newline : ascii := "010"%char.
Definition carriage_return : ascii := "013"%char.

Definition to_line (k : NonceKey) : string := nk_nonce k +:+ String tab (nk_run_id k).

(** [splitn(2, c)]: before and after the first [c], or the whole. *)
Fixpoint splitn2 (c : ascii) (s : string) : string * option string :=
  match s with
  | "" => ("", None)
  | String a s =>
    if Ascii.eqb a c then ("", Some s)
    else let (x, y) := splitn2 c s in (String a x, y)
  end.

Definition from_line (line : string) : option NonceKey :=
  match splitn2 tab line with
  | (nonce, Some run_id) =>
    if is_empty nonce || is_empty run_id then None
    else Some {| nk_nonce := nonce; nk_run_id := run_id |}
  | (_, None) => None
  end.

(** ** The trait *)

(** [record] returns [None] on success, or the text of the I/O error. *)
Class SeenNonceStore (N : Type) := {
  is_seen : NonceKey -> N -> bool;
  record : NonceKey -> N -> option string * N
}.

(** What the reaper counts on: a key recorded without error is seen from then
    on, and nothing seen is forgotten. *)
Class SeenNonceLaws (N : Type) `{SeenNonceStore N} : Prop := {
  record_seen k n : fst (record k n) = None -> is_seen k (snd (record k n)) = true;
  record_mono k k' n : is_seen k' n = true -> is_seen k' (snd (record k n)) = true
}.

(** ** The file store *)

(** How opening the file and writing a line to it end: the error may come after
    some bytes were written. *)
Inductive WriteOutcome :=
| Written
| OpenFailed (e : string)
| FailedAfter (n : nat) (e : string).

Record FileNonceStore := {
  file : option string;
  seen : gset NonceKey;
  coming : list WriteOutcome   (* what the next writes will do; [Written] after that *)
}.

Definition append_file (f : option string) (s : string) : option string := Some (default "" f +:+ s).

(** The first [n] bytes. *)
Fixpoint take_bytes (n : nat) (s : string) : string :=
  match n, s with
  | S n, String a s => String a (take_bytes n s)
  | _, _ => ""
  end.

Definition file_record (key : NonceKey) (st : FileNonceStore) : option string * FileNonceStore :=
  if decide (key ∈ seen st) then (None, st) else
  let line := to_line key +:+ String newline "" in
  match hd Written (coming st) with
  | Written => (None, {| file := append_file (file st) line; seen := {[key]} ∪ seen st;
                         coming := tl (coming st) |})
  | OpenFailed e => (Some e, {| file := file st; seen := seen st; coming := tl (coming st) |})
  | FailedAfter n e => (Some e, {| file := append_file (file st) (take_bytes n line);
                                   seen := seen st; coming := tl (coming st) |})
  end.

#[global] Instance file_nonce_store : SeenNonceStore FileNonceStore := {
  is_seen key st := bool_decide (key ∈ seen st);
  record := file_record
}.

(** [BufRead::lines]: the pieces ended by a newline, and the rest if not empty,
    each without a final carriage return. *)
Definition strip_cr (s : string) : string :=
  match string_rev s with
  | String a r => if Ascii.eqb a carriage_return then string_rev r else s
  | "" => s
  end.
Fixpoint drop_last_empty (l : list string) : list string :=
  match l with
  | [] => []
  | [s] => if is_empty s then [] else [s]
  | s :: l => s :: drop_last_empty l
  end.
Definition file_lines (s : string) : list string := strip_cr <$> drop_last_empty (split_on newline s).

(** The keys read back; [None] is the error of a line that is not UTF-8. *)
Fixpoint replay (lines : list string) (seen : gset NonceKey) : option (gset NonceKey) :=
  match lines with
  | [] => Some seen
  | line :: lines =>
    if negb (utf8 line) then None else
    let trimmed := trim line in
    if is_empty trimmed then replay lines seen else
    match from_line trimmed with
    | Some key => replay lines ({[key]} ∪ seen)
    | None => replay lines seen
    end
  end.

(** [FileNonceStore::open]. *)
Definition open (f : option string) (coming : list WriteOutcome) : option FileNonceStore :=
  match f with
  | None => Some {| file := None; seen := ∅; coming := coming |}
  | Some content =>
    seen ← replay (file_lines content) ∅;
    Some {| file := Some content; seen := seen; coming := coming |}
  end.

(** The in-memory store of the tests. *)
#[global] Instance mem_nonce_store : SeenNonceStore (gset NonceKey) := {
  is_seen key st := bool_decide (key ∈ st);
  record key st := (None, {[key]} ∪ st)
}.

(** ** Lines *)

(** The keys the kernel issues: both fields non-empty, no blank and no control
    character (a base64url nonce, [revoke_<uuid>]). *)
Definition key_ok (k : NonceKey) : Prop :=
  nk_nonce k <> "" /\ nk_run_id k <> "" /\
  all_plain (nk_nonce k) = true /\ all_plain (nk_run_id k) = true.

Lemma splitn2_plain s t : all_plain s = true -> splitn2 tab (s +:+ String tab t) = (s, Some t).
Proof.
  induction s as [|a s IH]; [done|]. simpl. rewrite andb_true_iff. intros [Ha Hs].
  rewrite IH by done. destruct (Ascii.eqb_spec a tab) as [->|]; [done|done].
Qed.

Lemma from_to_line k : key_ok k -> from_line (to_line k) = Some k.
Proof.
  intros (Hn & Hr & Hpn & Hpr). unfold from_line, to_line. rewrite splitn2_plain by done.
  destruct k as [n r]; simpl in *. by destruct n, r.
Qed.

(** A tab inside two plain strings is not trimmed away. *)
Lemma trim_to_line k : key_ok k -> trim (to_line k) = to_line k.
Proof.
  intros (Hn & Hr & Hpn & Hpr). unfold trim, trim_start, trim_end, to_line.
  rewrite trim_with_first; [|intros a Ha b c; destruct (plain_ws a Ha) as [_ Hw];
    by destruct (Hw b c) as (? & ? & ? & ?)|done..].
  rewrite string_rev_concat, string_rev_cons, string_app_assoc.
  rewrite trim_with_first; [|intros a Ha b c; destruct (plain_ws a Ha) as [_ Hw];
    by destruct (Hw b c) as (? & ? & ? & ?)|by apply string_rev_nonempty|by rewrite all_plain_rev].
  rewrite !string_rev_concat, !string_rev_involutive. by rewrite string_app_assoc.
Qed.

Lemma to_line_no c k : key_ok k -> c = newline \/ c = carriage_return ->
  string_forall (fun a => negb (Ascii.eqb a c)) (to_line k) = true.
Proof.
  intros (_ & _ & Hn & Hr) Hc. unfold to_line. rewrite string_forall_app. simpl.
  assert (forall s, all_plain s = true -> string_forall (fun a => negb (Ascii.eqb a c)) s = true)
    as Hf.
  { induction s as [|a s IH]; [done|]. simpl. rewrite !andb_true_iff. intros [Ha Hs].
    split; [|by apply IH]. destruct (Ascii.eqb_spec a c) as [->|]; [by destruct Hc as [-> | ->]|done]. }
  rewrite !Hf by done. by destruct Hc as [-> | ->].
Qed.

(** ** Restarting *)

(** The file that holds the lines of [ks]. *)
Fixpoint file_of (ks : list NonceKey) : string :=
  match ks with [] => "" | k :: ks => to_line k +:+ String newline (file_of ks) end.

Lemma file_of_snoc ks k : file_of (ks ++ [k]) = file_of ks +:+ (to_line k +:+ String newline "").
Proof.
  induction ks as [|k' ks IH]; simpl; [done|]. rewrite IH, string_app_assoc. done.
Qed.

Lemma split_on_line l s :
  string_forall (fun a => negb (Ascii.eqb a newline)) l = true ->
  split_on newline (l +:+ String newline s) = l :: split_on newline s.
Proof.
  induction l as [|a l IH]; [done|]. simpl. rewrite andb_true_iff, negb_true_iff.
  intros [Ha Hl]. by rewrite IH, Ha.
Qed.

Lemma strip_cr_absent s :
  string_forall (fun a => negb (Ascii.eqb a carriage_return)) s = true -> strip_cr s = s.
Proof.
  rewrite <-string_forall_rev. unfold strip_cr. destruct (string_rev s) as [|a r]; [done|].
  simpl. rewrite andb_true_iff, negb_true_iff. by intros [-> _].
Qed.

Lemma file_lines_of ks : Forall key_ok ks -> file_lines (file_of ks) = to_line <$> ks.
Proof.
  induction 1 as [|k ks Hk Hks IH]; [done|]. unfold file_lines in *. simpl.
  rewrite split_on_line by (apply to_line_no; auto).
  destruct (split_on_cons newline (file_of ks)) as (p & ps & E). rewrite E in *.
  change (drop_last_empty (to_line k :: p :: ps)) with (to_line k :: drop_last_empty (p :: ps)).
  rewrite !fmap_cons, IH, strip_cr_absent; [done|]. apply to_line_no; auto.
Qed.

Lemma to_line_utf8 k : key_ok k -> utf8 (to_line k) = true.
Proof.
  intros (_ & _ & Hn & Hr). unfold to_line. revert Hn.
  induction (nk_nonce k) as [|a s IH]; intros Hn; simpl.
  - by apply plain_utf8.
  - simpl in Hn. apply andb_true_iff in Hn as [Ha Hn].
    assert (within 0 127 a = true) as ->; [|by apply IH]. unfold plain in Ha. unfold within.
    rewrite !andb_true_iff, !N.leb_le in *. rewrite N.ltb_lt in Ha. lia.
Qed.

Lemma replay_lines ks s0 : Forall key_ok ks ->
  replay (to_line <$> ks) s0 = Some (list_to_set ks ∪ s0).
Proof.
  intros Hks. revert s0. induction Hks as [|k ks Hk Hks IH]; intros s0.
  - simpl. f_equal. set_solver.
  - rewrite fmap_cons. cbn [replay]. rewrite to_line_utf8, trim_to_line, from_to_line by done.
    assert (is_empty (to_line k) = false) as ->.
    { destruct Hk as (Hn & _). unfold to_line. by destruct (nk_nonce k). }
    cbn [negb]. rewrite IH. f_equal. set_solver.
Qed.

(** The store's invariant: the file holds the lines of the keys seen. *)
Definition store_inv (st : FileNonceStore) : Prop :=
  exists ks, Forall key_ok ks /\ default "" (file st) = file_of ks /\ seen st = list_to_set ks.

Definition no_partial (w : WriteOutcome) : Prop := match w with FailedAfter _ _ => False | _ => True end.

Lemma file_record_inv k st :
  key_ok k -> Forall no_partial (coming st) -> store_inv st ->
  store_inv (snd (file_record k st)) /\ Forall no_partial (coming (snd (file_record k st))).
Proof.
  intros Hk Hc (ks & Hks & Hf & Hs). unfold file_record.
  case_decide as Hin; simpl; [by split; [exists ks|]|].
  destruct (coming st) as [|o os]; simpl in *.
  - split; [|done]. exists (ks ++ [k]). simpl. rewrite file_of_snoc, <-Hf, Hs.
    split_and!; [by apply Forall_app; auto|done|set_solver].
  - apply Forall_cons in Hc as [Ho Hos]. destruct o; simpl; [| |done].
    + split; [|done]. exists (ks ++ [k]). simpl. rewrite file_of_snoc, <-Hf, Hs.
      split_and!; [by apply Forall_app; auto|done|set_solver].
    + split; [|done]. by exists ks.
Qed.

Lemma open_inv st script :
  store_inv st -> exists st', open (file st) script = Some st' /\ seen st' = seen st.
Proof.
  intros (ks & Hks & Hf & Hs). destruct (file st) as [content|]; simpl in *.
  - rewrite Hf, file_lines_of, replay_lines by done. eexists. split; [done|]. simpl. set_solver.
  - eexists. split; [done|]. simpl. rewrite Hs. destruct ks; [done|].
    simpl in Hf. unfold to_line in Hf. destruct (nk_nonce n); done.
Qed.

#[global] Instance file_nonce_laws : SeenNonceLaws FileNonceStore.
Proof.
  split; intros k.
  - intros st. simpl. unfold file_record. case_decide as Hin; simpl; [by rewrite bool_decide_true|].
    destruct (hd Written (coming st)); simpl; intros; [|done..].
    apply bool_decide_true. set_solver.
  - intros k' st. simpl. rewrite !bool_decide_eq_true. unfold file_record.
    case_decide; [done|]. destruct (hd Written (coming st)); simpl; set_solver.
Qed.

#[global] Instance mem_nonce_laws : SeenNonceLaws (gset NonceKey).
Proof.
  split; intros k; [intros st _|intros k' st]; simpl; rewrite ?bool_decide_eq_true; set_solver.
Qed.

Definition record_all (ks : list NonceKey) (st : FileNonceStore) : FileNonceStore :=
  foldl (fun st k => snd (record k st)) st ks.

Lemma record_all_inv ks st :
  Forall key_ok ks -> Forall no_partial (coming st) -> store_inv st -> store_inv (record_all ks st).
Proof.
  intros Hks. revert st. induction Hks as [|k ks Hk Hks IH]; intros st Hc Hi; [done|].
  destruct (file_record_inv k st Hk Hc Hi). by apply IH.
Qed.

Lemma record_all_mono k ks st : is_seen k st = true -> is_seen k (record_all ks st) = true.
Proof.
  revert st. induction ks as [|k' ks IH]; intros st Hs; [done|]. simpl. apply IH. exact (record_mono k' k st Hs).
Qed.

(** A restart forgets no kill: record any keys of the kernel's form in any
    order, some of the writes failing outright, and reopen the file; the reopened
    store sees exactly what the running one saw, in particular every key whose
    record reported success. *)
Theorem restart_remembers ks script script' :
  Forall key_ok ks -> Forall no_partial script ->
  let st := record_all ks {| file := None; seen := ∅; coming := script |} in
  exists st', open (file st) script' = Some st' /\ seen st' = seen st /\
    forall ks1 k ks2, ks = ks1 ++ k :: ks2 ->
      fst (record k (record_all ks1 {| file := None; seen := ∅; coming := script |})) = None ->
      is_seen k st' = true.
Proof.
  intros Hks Hsc st. destruct (open_inv st script') as (st' & Ho & Hs).
  { apply record_all_inv; [done..|]. by exists []. }
  exists st'. split_and!; [done..|]. intros ks1 k ks2 -> Hok. simpl. rewrite Hs.
  apply record_seen, (record_all_mono k ks2) in Hok. unfold st. unfold record_all in *.
  rewrite foldl_app. exact Hok.
Qed.

Module Demo.

Definition key (s : string) : NonceKey := {| nk_nonce := s; nk_run_id := "revoke_" +:+ s |}.

Lemma key_is_ok s : s = "a" \/ s = "b" -> key_ok (key s).
Proof. by intros [-> | ->]. Qed.

Lemma restart_remembers_witness :
  exists st', open (file (record_all [key "a"; key "b"]
      {| file := None; seen := ∅; coming := [OpenFailed "disk full"] |})) [] = Some st' /\
    is_seen (key "b") st' = true.
Proof.
  destruct (restart_remembers [key "a"; key "b"] [OpenFailed "disk full"] []) as (st' & Ho & _ & Hk).
  - repeat constructor; done.
  - repeat constructor.
  - exists st'. split; [exact Ho|]. apply (Hk [key "a"] (key "b") []); reflexivity.
Defined.

(** The one failure that breaks it: a write that fails half way leaves a
    line without its newline, the next key is appended to that line, and though
    its record reports success a restart forgets it. *)
Theorem partial_write_loses_the_next_key :
  let st := record_all [key "a"] {| file := None; seen := ∅; coming := [FailedAfter 3 "disk full"] |} in
  fst (record (key "b") st) = None /\ is_seen (key "b") (snd (record (key "b") st)) = true /\
  exists st', open (file (snd (record (key "b") st))) [] = Some st' /\ is_seen (key "b") st' = false.
Proof. split; [done|]. split; [done|]. eexists. split; [done|]. done. Qed.

End Demo.
