(* ===== verification/Adapters.v ===== *)
(** * The clock and the nonce source

    Models [crates/adapters/src/clock.rs] (and the log's copy of it) and
    [crates/adapters/src/nonce.rs]: what is made of a reading of the system clock and
    of sixteen random bytes. *)

From S2P Require Import Prelude RustStr Float64 Crates Revoke NonceStore.
From Stdlib Require Import SpecFloat.

(** [SystemTime::now().duration_since(UNIX_EPOCH)]: the seconds and nanoseconds since
    the epoch, or nothing before it. *)
Record Duration := { secs : N; nanos : N }.

(** [Duration::as_secs_f64]. *)
Definition as_secs_f64 (d : Duration) : f64 :=
  f64_add (f64_of_Z (Z.of_N (secs d))) (SFdiv 53 1024 (f64_of_Z (Z.of_N (nanos d))) (f64_of_Z 1000000000)).

(** [SystemClock::now]. *)
Definition system_clock_now (since_epoch : option Duration) : f64 :=
  match since_epoch with Some d => as_secs_f64 d | None => f64_of_Z 0 end.

Example whole_seconds : system_clock_now (Some {| secs := 1767225600; nanos := 0 |}) = f64_of_Z 1767225600.
Proof. by vm_compute. Qed.

Example half_a_second :
  system_clock_now (Some {| secs := 1767225600; nanos := 500000000 |}) =
  f64_add (f64_of_Z 1767225600) (SFdiv 53 1024 (f64_of_Z 1) (f64_of_Z 2)).
Proof. by vm_compute. Qed.

(** The last nanosecond of a second is already the next one: at the size of today's
    times the reading is rounded to about a quarter of a microsecond. *)
Example last_nanosecond_rounds_up :
  system_clock_now (Some {| secs := 1767225600; nanos := 999999999 |}) = f64_of_Z 1767225601.
Proof. by vm_compute. Qed.

Section Nonce.
Context `{B64Url}.

(** [OsRngNonceSource::nonce_b64], of the bytes the system gave. *)
Definition nonce_b64 (buf : array 16) : string := b64url_encode (arr_bytes buf).

(** Different bytes are different nonces, and each survives the reaper's journal: it is
    not empty and has no blank, tab or line end. *)
Lemma nonce_b64_inj `{!B64UrlCorrect} a b : nonce_b64 a = nonce_b64 b -> a = b.
Proof.
  unfold nonce_b64. intros E. apply array_eq. pose proof (b64url_roundtrip (arr_bytes a)) as Ha.
  rewrite E, b64url_roundtrip in Ha. by injection Ha as ->.
Qed.

Lemma nonce_b64_is_journalled `{!B64UrlCorrect} buf run_id :
  run_id <> EmptyString -> all_plain run_id = true ->
  key_ok {| nk_nonce := nonce_b64 buf; nk_run_id := run_id |}.
Proof.
  intros Hne Hp. split_and!; cbn; [|done|apply b64url_plain|done].
  apply b64url_nonempty. intros E. pose proof (array_length buf) as Hl. by rewrite E in Hl.
Qed.

End Nonce.
