(* ===== verification/Reaper.v ===== *)
(** * The reaper: verify, fence, execute, record

    Models [crates/services/safety-kernel-reaper/src/reaper.rs] and the poll loop
    of its [main.rs].  The reaper is one task: its handlers run one after the
    other.  The executor, the nonce store, the kill recorder and the kernel client
    are what [RWorld] holds; the last two are best-effort, so only what was sent
    to them is kept. *)

From S2P Require Import Prelude RustStr Float64 Crates Merkle Json Serde Token Revoke.
From S2P Require Import TlogClient Executor NonceStore.

(** ** Outcomes *)

Inductive RejectReason :=
| ForgedSignature
| RExpired
| WrongAudience
| MalformedClaims
| ActionMismatch
| FingerprintMismatch
| AlreadyExecuted
| StaleGeneration
| RExecutorError (msg : string).

Inductive Outcome :=
| Executed (run_id : string) (outcome : StopOutcome)
| Restored (run_id : string) (outcome : StopOutcome)
| FailClosed (outcome : StopOutcome)
| Rejected (r : RejectReason).

Inductive LivenessAction :=
| WithinDeadline
| FailedClosed (outcome : Outcome) (advance_liveness : bool).

Definition classify_verify_error (err : KernelTokenError) : RejectReason :=
  match err with
  | Expired _ => RExpired
  | Signature _ => ForgedSignature
  | Claims m => if String.eqb m "invalid_audience" then WrongAudience else MalformedClaims
  | Format _ => MalformedClaims
  end.

(** ** State *)

Record RWorld (X N : Type) := {
  executor : X;
  nonces : N;
  kill_records : list KillRecord;          (* sent to the recorder *)
  acks : list (string * string)            (* (run_id, outcome) sent to the kernel *)
}.
Arguments executor {X N}.
Arguments nonces {X N}.
Arguments kill_records {X N}.
Arguments acks {X N}.
Arguments Build_RWorld {X N}.

Section Reaper.
Context `{Sha256} `{Ed25519} `{Hex} `{B64Url} `{SerdeJson}.
Context {X Ns : Type} `{ComputeExecutor X} `{SeenNonceStore Ns}.

(** The fields of [Reaper] that do not change. *)
Record ReaperConfig := {
  r_verifier : PinnedKeyVerifier;
  r_target : InstanceTarget;
  liveness_deadline_s : f64;
  has_kill_recorder : bool;
  has_kernel_client : bool
}.

Abbreviation World := (RWorld X Ns).

Definition with_executor (x : X) (w : World) : World :=
  Build_RWorld x (nonces w) (kill_records w) (acks w).
Definition with_nonces (n : Ns) (w : World) : World :=
  Build_RWorld (executor w) n (kill_records w) (acks w).

Definition liveness_expired (cfg : ReaperConfig) (last_success_s now_s : f64) : bool :=
  f64_gt (f64_sub now_s last_success_s) (liveness_deadline_s cfg).

(** The map is rebuilt as a [serde_json::Map]. *)
Definition parse_revoke_claims (vc : VerifiedClaims) : option RevokeComputeClaims :=
  de_revoke_claims (bt_collect (vc_claims vc)).
Definition parse_restore_claims (vc : VerifiedClaims) : option RestoreClaims :=
  de_restore_claims (bt_collect (vc_claims vc)).
Definition action_of (vc : VerifiedClaims) : option string := bt_get "action" (vc_claims vc) ≫= as_str.

Definition peek_action (token : string) : option string :=
  payload_b64 ← hd_error (split_on "."%char token);
  match b64url_engine_decode payload_b64 with
  | inl _ => None
  | inr bytes =>
    match serde_from_slice bytes with
    | inr (Obj m) => bt_get "action" m ≫= as_str
    | _ => None
    end
  end.

Definition record_and_ack (cfg : ReaperConfig) (kind run_id nonce token : string)
    (target : InstanceTarget) (outcome : StopOutcome) (now_s : f64) (ack_outcome : string)
    (w : World) : World :=
  let occurred := f64_as_u64 (f64_max now_s (f64_of_Z 0)) in
  let record :=
    {| kr_kind := kind; kr_run_id := run_id; kr_nonce := nonce;
       kr_token_sha256 := token_sha256 token; kr_target := target;
       kr_outcome_instance := so_instance outcome; kr_outcome_op_id := so_op_id outcome;
       kr_outcome_prev_state := so_prev_state outcome; kr_occurred_at_epoch_seconds := occurred |} in
  Build_RWorld (executor w) (nonces w)
    (if has_kill_recorder cfg then kill_records w ++ [record] else kill_records w)
    (if has_kernel_client cfg then acks w ++ [(run_id, ack_outcome)] else acks w).

Definition handle_kill_candidate (cfg : ReaperConfig) (token : string)
    (current_grant_generation : N) (now_s : f64) (w : World) : Outcome * World :=
  match verify_with_aud (r_verifier cfg) token now_s REVOKE_COMPUTE_AUD with
  | Err e => (Rejected (classify_verify_error e), w)
  | Panic => (Rejected MalformedClaims, w)   (* does not happen: [verify_kernel_token_total] *)
  | Ok verified =>
    if negb (bool_decide (action_of verified = Some REVOKE_COMPUTE_ACTION))
    then (Rejected ActionMismatch, w) else
    match parse_revoke_claims verified with
    | None => (Rejected MalformedClaims, w)
    | Some claims =>
      let recomputed :=
        revoke_params_fingerprint (rc_run_id claims) (rc_target claims)
          (rc_target_generation claims) (rc_tier claims) (rc_trigger claims) (rc_reason claims) in
      if negb (String.eqb recomputed (rc_params_fingerprint claims))
      then (Rejected FingerprintMismatch, w) else
      let key := {| nk_nonce := rc_nonce claims; nk_run_id := rc_run_id claims |} in
      if is_seen key (nonces w) then (Rejected AlreadyExecuted, w) else
      let gates := {| signature_verified := true; not_expired := true; nonce_unseen := true;
                      target_matches := true |} in
      match honour_revocation (rc_target_generation claims) current_grant_generation gates with
      | Reject _ => (Rejected StaleGeneration, w)
      | Honour =>
        let (r, x) := ex_stop (rc_target claims) (executor w) in
        let w := with_executor x w in
        match r with
        | inl e => (Rejected (RExecutorError (executor_error_display e)), w)
        | inr outcome =>
          let w := with_nonces (snd (record key (nonces w))) w in
          (Executed (rc_run_id claims) outcome,
           record_and_ack cfg "kill_executed" (rc_run_id claims) (rc_nonce claims) token
             (rc_target claims) outcome now_s "stopped" w)
        end
      end
    end
  end.

Definition handle_restore_candidate (cfg : ReaperConfig) (token : string) (now_s : f64) (w : World)
    : Outcome * World :=
  match verify_with_aud (r_verifier cfg) token now_s REVOKE_RESTORE_AUD with
  | Err e => (Rejected (classify_verify_error e), w)
  | Panic => (Rejected MalformedClaims, w)   (* does not happen *)
  | Ok verified =>
    if negb (bool_decide (action_of verified = Some REVOKE_RESTORE_ACTION))
    then (Rejected ActionMismatch, w) else
    match parse_restore_claims verified with
    | None => (Rejected MalformedClaims, w)
    | Some claims =>
      let recomputed :=
        restore_params_fingerprint (rs_run_id claims) (rs_target claims) (rs_reason claims) in
      if negb (String.eqb recomputed (rs_params_fingerprint claims))
      then (Rejected FingerprintMismatch, w) else
      let key := {| nk_nonce := rs_nonce claims; nk_run_id := rs_run_id claims |} in
      if is_seen key (nonces w) then (Rejected AlreadyExecuted, w) else
      let (r, x) := ex_start (rs_target claims) (executor w) in
      let w := with_executor x w in
      match r with
      | inl e => (Rejected (RExecutorError (executor_error_display e)), w)
      | inr outcome =>
        let w := with_nonces (snd (record key (nonces w))) w in
        (Restored (rs_run_id claims) outcome,
         record_and_ack cfg "restore_executed" (rs_run_id claims) (rs_nonce claims) token
           (rs_target claims) outcome now_s "started" w)
      end
    end
  end.

Definition handle_pending_candidate (cfg : ReaperConfig) (token : string)
    (current_grant_generation : N) (now_s : f64) (w : World) : Outcome * World :=
  if bool_decide (peek_action token = Some REVOKE_RESTORE_ACTION)
  then handle_restore_candidate cfg token now_s w
  else handle_kill_candidate cfg token current_grant_generation now_s w.

Definition fail_closed_stop (cfg : ReaperConfig) (now_s : f64) (w : World) : Outcome * World :=
  let (r, x) := ex_stop (r_target cfg) (executor w) in
  let w := with_executor x w in
  match r with
  | inl e => (Rejected (RExecutorError (executor_error_display e)), w)
  | inr outcome =>
    let synthetic := "liveness_failclosed:" +:+ instance (r_target cfg) in
    (FailClosed outcome,
     record_and_ack cfg "kill_executed_failclosed" ("failclosed_" +:+ instance (r_target cfg))
       "liveness-deadline" synthetic (r_target cfg) outcome now_s "stopped_failclosed" w)
  end.

Definition on_kernel_pull_failure (cfg : ReaperConfig) (last_success_s now_s : f64) (w : World)
    : LivenessAction * World :=
  if negb (liveness_expired cfg last_success_s now_s) then (WithinDeadline, w) else
  let (outcome, w) := fail_closed_stop cfg now_s w in
  let advance_liveness := match outcome with FailClosed _ => true | _ => false end in
  (FailedClosed outcome advance_liveness, w).

(** ** The poll loop of [main]

    What one pull gives, and the clock: [clock n] is the [n]-th reading of the
    iteration. *)
Record PendingPull := { tokens : list string; pull_generation : N }.

Fixpoint process (cfg : ReaperConfig) (ts : list string) (g : N) (clock : nat -> f64) (n : nat)
    (w : World) : list Outcome * World :=
  match ts with
  | [] => ([], w)
  | token :: ts =>
    let (o, w) := handle_pending_candidate cfg token g (clock n) w in
    let (os, w) := process cfg ts g clock (S n) w in
    (o :: os, w)
  end.

(** One iteration: the outcomes, the new [last_success], the world. *)
Definition poll (cfg : ReaperConfig) (pull : option PendingPull) (clock : nat -> f64)
    (last_success : f64) (w : World) : list Outcome * f64 * World :=
  match pull with
  | Some p =>
    let (os, w) := process cfg (tokens p) (pull_generation p) clock 1 w in (os, clock 0%nat, w)
  | None =>
    let now := clock 0%nat in
    match on_kernel_pull_failure cfg last_success now w with
    | (WithinDeadline, w) => ([], last_success, w)
    | (FailedClosed outcome true, w) => ([outcome], now, w)
    | (FailedClosed outcome false, w) => ([outcome], last_success, w)
    end
  end.

(** ** What makes a candidate authorised *)

(** Verified under the pinned key for the kill audience at [now], read back, bound
    by its fingerprint. *)
Definition kill_verified (cfg : ReaperConfig) (token : string) (now_s : f64)
    (c : RevokeComputeClaims) : Prop :=
  exists vc, verify_with_aud (r_verifier cfg) token now_s REVOKE_COMPUTE_AUD = Ok vc /\
    action_of vc = Some REVOKE_COMPUTE_ACTION /\ parse_revoke_claims vc = Some c /\
    revoke_params_fingerprint (rc_run_id c) (rc_target c) (rc_target_generation c) (rc_tier c)
      (rc_trigger c) (rc_reason c) = rc_params_fingerprint c.

Definition restore_verified (cfg : ReaperConfig) (token : string) (now_s : f64) (c : RestoreClaims)
    : Prop :=
  exists vc, verify_with_aud (r_verifier cfg) token now_s REVOKE_RESTORE_AUD = Ok vc /\
    action_of vc = Some REVOKE_RESTORE_ACTION /\ parse_restore_claims vc = Some c /\
    restore_params_fingerprint (rs_run_id c) (rs_target c) (rs_reason c) = rs_params_fingerprint c.

Definition kill_key (c : RevokeComputeClaims) : NonceKey :=
  {| nk_nonce := rc_nonce c; nk_run_id := rc_run_id c |}.
Definition restore_key (c : RestoreClaims) : NonceKey :=
  {| nk_nonce := rs_nonce c; nk_run_id := rs_run_id c |}.

(** The tail of each handler. *)
Definition execute_kill (cfg : ReaperConfig) (token : string) (now_s : f64)
    (c : RevokeComputeClaims) (w : World) : Outcome * World :=
  let (r, x) := ex_stop (rc_target c) (executor w) in
  match r with
  | inl e => (Rejected (RExecutorError (executor_error_display e)), with_executor x w)
  | inr outcome =>
    (Executed (rc_run_id c) outcome,
     record_and_ack cfg "kill_executed" (rc_run_id c) (rc_nonce c) token (rc_target c) outcome now_s
       "stopped" (with_nonces (snd (record (kill_key c) (nonces w))) (with_executor x w)))
  end.

Definition execute_restore (cfg : ReaperConfig) (token : string) (now_s : f64) (c : RestoreClaims)
    (w : World) : Outcome * World :=
  let (r, x) := ex_start (rs_target c) (executor w) in
  match r with
  | inl e => (Rejected (RExecutorError (executor_error_display e)), with_executor x w)
  | inr outcome =>
    (Restored (rs_run_id c) outcome,
     record_and_ack cfg "restore_executed" (rs_run_id c) (rs_nonce c) token (rs_target c) outcome now_s
       "started" (with_nonces (snd (record (restore_key c) (nonces w))) (with_executor x w)))
  end.

Lemma handle_kill_verified cfg token g now_s w c :
  kill_verified cfg token now_s c ->
  handle_kill_candidate cfg token g now_s w =
  if is_seen (kill_key c) (nonces w) then (Rejected AlreadyExecuted, w) else
  if (rc_target_generation c =? g)%N then execute_kill cfg token now_s c w
  else (Rejected StaleGeneration, w).
Proof.
  intros (vc & Hv & Ha & Hp & Hf). unfold handle_kill_candidate.
  rewrite Hv, bool_decide_true by done. cbn [negb]. rewrite Hp, Hf, String.eqb_refl. cbn [negb].
  fold (kill_key c). destruct (is_seen _ _); [done|]. unfold honour_revocation, execute_kill. simpl.
  destruct (_ =? _)%N; simpl; [|done]. by destruct (ex_stop _ _) as [[] ?].
Qed.

Lemma handle_kill_unverified cfg token g now_s w :
  (forall c, ~ kill_verified cfg token now_s c) ->
  exists r, handle_kill_candidate cfg token g now_s w = (Rejected r, w) /\
    (forall m, r <> RExecutorError m).
Proof.
  intros Hn. unfold handle_kill_candidate.
  destruct (verify_with_aud _ _ _ _) as [vc|e|] eqn:Hv;
    [|eexists; split; [done|]; by destruct e; simpl; try case_match|by eexists].
  case_bool_decide as Ha; simpl; [|by eexists].
  destruct (parse_revoke_claims vc) as [c|] eqn:Hp; [|by eexists].
  destruct (String.eqb_spec (revoke_params_fingerprint (rc_run_id c) (rc_target c)
    (rc_target_generation c) (rc_tier c) (rc_trigger c) (rc_reason c)) (rc_params_fingerprint c))
    as [Hf|]; simpl; [|by eexists].
  destruct (Hn c). by exists vc.
Qed.

Lemma handle_restore_verified cfg token now_s w c :
  restore_verified cfg token now_s c ->
  handle_restore_candidate cfg token now_s w =
  if is_seen (restore_key c) (nonces w) then (Rejected AlreadyExecuted, w)
  else execute_restore cfg token now_s c w.
Proof.
  intros (vc & Hv & Ha & Hp & Hf). unfold handle_restore_candidate.
  rewrite Hv, bool_decide_true by done. cbn [negb]. rewrite Hp, Hf, String.eqb_refl. cbn [negb].
  fold (restore_key c). destruct (is_seen _ _); [done|]. unfold execute_restore. simpl.
  by destruct (ex_start _ _) as [[] ?].
Qed.

Lemma handle_restore_unverified cfg token now_s w :
  (forall c, ~ restore_verified cfg token now_s c) ->
  exists r, handle_restore_candidate cfg token now_s w = (Rejected r, w) /\
    (forall m, r <> RExecutorError m).
Proof.
  intros Hn. unfold handle_restore_candidate.
  destruct (verify_with_aud _ _ _ _) as [vc|e|] eqn:Hv;
    [|eexists; split; [done|]; by destruct e; simpl; try case_match|by eexists].
  case_bool_decide as Ha; simpl; [|by eexists].
  destruct (parse_restore_claims vc) as [c|] eqn:Hp; [|by eexists].
  destruct (String.eqb_spec (restore_params_fingerprint (rs_run_id c) (rs_target c) (rs_reason c))
    (rs_params_fingerprint c)) as [Hf|]; simpl; [|by eexists].
  destruct (Hn c). by exists vc.
Qed.

(** Verification is decidable: at most one reading of a token, or none. *)
Lemma kill_verified_dec cfg token now_s :
  (exists c, kill_verified cfg token now_s c) \/ (forall c, ~ kill_verified cfg token now_s c).
Proof.
  destruct (verify_with_aud (r_verifier cfg) token now_s REVOKE_COMPUTE_AUD) as [vc| |] eqn:Hv;
    [|right; intros c (? & ? & _); congruence..].
  destruct (decide (action_of vc = Some REVOKE_COMPUTE_ACTION)) as [Ha|Ha];
    [|right; intros c (? & ? & ? & _); congruence].
  destruct (parse_revoke_claims vc) as [c|] eqn:Hp; [|right; intros c (? & ? & ? & ? & _); congruence].
  destruct (decide (revoke_params_fingerprint (rc_run_id c) (rc_target c)
    (rc_target_generation c) (rc_tier c) (rc_trigger c) (rc_reason c) = rc_params_fingerprint c)) as [Hf|Hf].
  - left. exists c, vc. by split_and!.
  - right. intros c' (? & ? & ? & ? & ?). congruence.
Qed.

Lemma restore_verified_dec cfg token now_s :
  (exists c, restore_verified cfg token now_s c) \/ (forall c, ~ restore_verified cfg token now_s c).
Proof.
  destruct (verify_with_aud (r_verifier cfg) token now_s REVOKE_RESTORE_AUD) as [vc| |] eqn:Hv;
    [|right; intros c (? & ? & _); congruence..].
  destruct (decide (action_of vc = Some REVOKE_RESTORE_ACTION)) as [Ha|Ha];
    [|right; intros c (? & ? & ? & _); congruence].
  destruct (parse_restore_claims vc) as [c|] eqn:Hp;
    [|right; intros c (? & ? & ? & ? & _); congruence].
  destruct (decide (restore_params_fingerprint (rs_run_id c) (rs_target c) (rs_reason c) =
    rs_params_fingerprint c)) as [Hf|Hf].
  - left. exists c, vc. by split_and!.
  - right. intros c' (? & ? & ? & ? & ?). congruence.
Qed.

(** What a candidate can do to the nonce store. *)
Lemma acts_cases cfg token g now_s w :
  let w' := snd (handle_pending_candidate cfg token g now_s w) in
  nonces w' = nonces w \/ (exists k, nonces w' = snd (record k (nonces w))).
Proof.
  unfold handle_pending_candidate. case_bool_decide as Hpeek.
  - destruct (restore_verified_dec cfg token now_s) as [[c Hc]|Hn].
    + rewrite (handle_restore_verified _ _ _ _ c Hc). destruct (is_seen _ _); [by left|].
      unfold execute_restore. destruct (ex_start _ _) as [[e|out] x]; simpl; eauto.
    + destruct (handle_restore_unverified cfg token now_s w Hn) as (r & -> & _). by left.
  - destruct (kill_verified_dec cfg token now_s) as [[c Hc]|Hn].
    + rewrite (handle_kill_verified _ _ _ _ _ c Hc). destruct (is_seen _ _); [by left|].
      destruct (_ =? _)%N; [|by left].
      unfold execute_kill. destruct (ex_stop _ _) as [[e|out] x]; simpl; eauto.
    + destruct (handle_kill_unverified cfg token g now_s w Hn) as (r & -> & _). by left.
Qed.

(** ** Safety *)

(** C36.  The reaper acts only on authorised decisions: processing any string
    either changes nothing at all, reporting a rejection, or is a kill verified
    under the pinned key for the kill audience, bound by its fingerprint, never
    completed before and stamped with the live generation, whose one effect on
    the executor is one stop of the target in the signed claims; or is a restore
    verified likewise under the restore audience, whose one effect is one start.
    A failed stop or start burns no replay key and reports nothing; a successful
    one records the key. *)
Theorem acts_only_on_authorised_decisions cfg token g now_s w :
  let (o, w') := handle_pending_candidate cfg token g now_s w in
  (w' = w /\ exists r, o = Rejected r) \/
  (exists c, kill_verified cfg token now_s c /\ is_seen (kill_key c) (nonces w) = false /\
     rc_target_generation c = g /\ executor w' = snd (ex_stop (rc_target c) (executor w)) /\
     match fst (ex_stop (rc_target c) (executor w)) with
     | inr out => o = Executed (rc_run_id c) out /\ nonces w' = snd (record (kill_key c) (nonces w))
     | inl e => o = Rejected (RExecutorError (executor_error_display e)) /\
                w' = with_executor (executor w') w
     end) \/
  (exists c, restore_verified cfg token now_s c /\ is_seen (restore_key c) (nonces w) = false /\
     executor w' = snd (ex_start (rs_target c) (executor w)) /\
     match fst (ex_start (rs_target c) (executor w)) with
     | inr out => o = Restored (rs_run_id c) out /\ nonces w' = snd (record (restore_key c) (nonces w))
     | inl e => o = Rejected (RExecutorError (executor_error_display e)) /\
                w' = with_executor (executor w') w
     end).
Proof.
  unfold handle_pending_candidate. case_bool_decide as Hpeek.
  - destruct (restore_verified_dec cfg token now_s) as [[c Hc]|Hn].
    + rewrite (handle_restore_verified _ _ _ _ c Hc).
      destruct (is_seen _ _) eqn:Hseen; simpl; [left; eauto|].
      unfold execute_restore. destruct (ex_start _ _) as [[e|out] x] eqn:He; simpl;
        right; right; exists c; by rewrite He.
    + destruct (handle_restore_unverified cfg token now_s w Hn) as (r & -> & _). simpl. left. eauto.
  - destruct (kill_verified_dec cfg token now_s) as [[c Hc]|Hn].
    + rewrite (handle_kill_verified _ _ _ _ _ c Hc).
      destruct (is_seen _ _) eqn:Hseen; simpl; [left; eauto|].
      destruct (N.eqb_spec (rc_target_generation c) g) as [Hg|]; simpl; [|left; eauto].
      unfold execute_kill. destruct (ex_stop _ _) as [[e|out] x] eqn:He; simpl;
        right; left; exists c; by rewrite He.
    + destruct (handle_kill_unverified cfg token g now_s w Hn) as (r & -> & _). simpl. left. eauto.
Qed.

(** ** Over several polls *)

Fixpoint poll_all (cfg : ReaperConfig) (pulls : list (option PendingPull * (nat -> f64)))
    (last_success : f64) (w : World) : list Outcome * f64 * World :=
  match pulls with
  | [] => ([], last_success, w)
  | (pull, clock) :: pulls =>
    let '(os, last_success, w) := poll cfg pull clock last_success w in
    let '(os', last_success, w) := poll_all cfg pulls last_success w in
    (os ++ os', last_success, w)
  end.

(** The executor after [n] stops of [t]. *)
Definition stops (t : InstanceTarget) (n : nat) (x : X) : X :=
  Nat.iter n (fun x => snd (ex_stop t x)) x.

Lemma stops_S t n x : stops t (S n) x = stops t n (snd (ex_stop t x)).
Proof. unfold stops. by rewrite Nat.iter_succ_r. Qed.

Lemma poll_one cfg token g clock last w :
  poll cfg (Some {| tokens := [token]; pull_generation := g |}) clock last w =
  let (o, w') := handle_pending_candidate cfg token g (clock 1%nat) w in ([o], clock 0%nat, w').
Proof. unfold poll. simpl. by destruct (handle_pending_candidate _ _ _ _ _). Qed.

Lemma handle_pending_kill cfg token g now_s w c :
  peek_action token <> Some REVOKE_RESTORE_ACTION -> kill_verified cfg token now_s c ->
  is_seen (kill_key c) (nonces w) = false -> rc_target_generation c = g ->
  handle_pending_candidate cfg token g now_s w = execute_kill cfg token now_s c w.
Proof.
  intros Hpeek Hc Hseen Hg. unfold handle_pending_candidate. rewrite bool_decide_false by done.
  by rewrite (handle_kill_verified _ _ _ _ _ c Hc), Hseen, Hg, N.eqb_refl.
Qed.

(** C37.  At least once: an authorised kill that stays pending is executed by the
    first poll at which the executor succeeds, after exactly one stop per poll;
    no failed attempt burns its replay key, so none of them suppresses it. *)
Theorem kill_is_retried_until_stopped cfg token c clocks last_success w m out :
  peek_action token <> Some REVOKE_RESTORE_ACTION ->
  (forall clock, clock ∈ clocks -> kill_verified cfg token (clock 1%nat) c) ->
  is_seen (kill_key c) (nonces w) = false ->
  length clocks = S m ->
  (forall i, (i < m)%nat -> exists e, fst (ex_stop (rc_target c) (stops (rc_target c) i (executor w))) = inl e) ->
  fst (ex_stop (rc_target c) (stops (rc_target c) m (executor w))) = inr out ->
  let pull := Some {| tokens := [token]; pull_generation := rc_target_generation c |} in
  let '(os, _, w') := poll_all cfg ((fun clock => (pull, clock)) <$> clocks) last_success w in
  length os = S m /\ last os = Some (Executed (rc_run_id c) out) /\
  executor w' = stops (rc_target c) (S m) (executor w) /\
  nonces w' = snd (record (kill_key c) (nonces w)).
Proof.
  intros Hpeek Hall. revert m last_success w Hall.
  induction clocks as [|clock clocks IH]; intros m last_success w Hall Hseen Hlen Hfail Hok; [done|].
  cbv zeta in IH |- *. rewrite fmap_cons. cbn [poll_all]. rewrite poll_one.
  rewrite (handle_pending_kill _ _ _ _ _ c) by (done || apply Hall; set_solver).
  unfold execute_kill. destruct m as [|m].
  - destruct clocks; [|done]. cbn in Hok. destruct (ex_stop _ _) as [[e|o] x] eqn:He; [done|].
    injection Hok as ->. cbn. unfold stops. simpl. by rewrite He.
  - destruct (Hfail 0%nat ltac:(lia)) as [e He]. cbn in He.
    destruct (ex_stop (rc_target c) (executor w)) as [[e'|o] x] eqn:Hst; [|done].
    specialize (IH m (clock 0%nat) (with_executor x w)). cbn [length] in Hlen.
    assert (forall n, stops (rc_target c) (S n) (executor w) = stops (rc_target c) n x) as Hs
      by (intros n; by rewrite stops_S, Hst).
    destruct (poll_all _ _ _ _) as [[os l] w'].
    destruct IH as (Hl & Hlast & Hx & Hn); [set_solver|done|lia| | |].
    + intros i Hi. cbn [executor with_executor]. rewrite <-Hs. apply Hfail. lia.
    + cbn [executor with_executor]. by rewrite <-Hs.
    + rewrite (Hs (S m)). cbn [app length]. split_and!; [lia| |done|done].
      by destruct os.
Qed.

(** ** What a run does, by what its steps do

    A relation that every candidate and every fail-closed stop is in, and that is
    reflexive and transitive, relates the worlds before and after any run. *)
Section Runs.
Context (cfg : ReaperConfig) (R : World -> World -> Prop) (HR : PreOrder R).
Context (Hcandidate : forall token g now_s w, R w (snd (handle_pending_candidate cfg token g now_s w))).
Context (Hstop : forall now_s w, R w (snd (fail_closed_stop cfg now_s w))).

Lemma process_related ts g clock n w : R w (snd (process cfg ts g clock n w)).
Proof.
  revert n w. induction ts as [|t ts IH]; intros n w; [reflexivity|]. simpl.
  pose proof (Hcandidate t g (clock n) w) as Hs.
  destruct (handle_pending_candidate _ _ _ _ _) as [o w']. simpl in Hs.
  specialize (IH (S n) w'). destruct (process _ _ _ _ _ _). by transitivity w'.
Qed.

Lemma poll_related pull clock last w : R w (snd (poll cfg pull clock last w)).
Proof.
  unfold poll. destruct pull as [p|].
  - pose proof (process_related (tokens p) (pull_generation p) clock 1 w) as Hs.
    by destruct (process _ _ _ _ _ _).
  - unfold on_kernel_pull_failure. destruct (negb _); [reflexivity|].
    pose proof (Hstop (clock 0%nat) w) as Hs. by destruct (fail_closed_stop _ _ _) as [[] ?].
Qed.

Lemma poll_all_related pulls last w : R w (snd (poll_all cfg pulls last w)).
Proof.
  revert last w. induction pulls as [|[pull clock] pulls IH]; intros last w; [reflexivity|]. simpl.
  pose proof (poll_related pull clock last w) as Hs.
  destruct (poll _ _ _ _ _) as [[os l] w']. simpl in Hs.
  specialize (IH l w'). destruct (poll_all _ _ _ _) as [[? ?] ?]. by transitivity w'.
Qed.

End Runs.

(** Over any run the executor goes through stops and starts only. *)
Definition acted (x x' : X) : Prop := exists t, x' = snd (ex_stop t x) \/ x' = snd (ex_start t x).

Lemma handle_acted cfg token g now_s w :
  rtc acted (executor w) (executor (snd (handle_pending_candidate cfg token g now_s w))).
Proof.
  unfold handle_pending_candidate. case_bool_decide as Hpeek.
  - destruct (restore_verified_dec cfg token now_s) as [[c Hc]|Hn].
    + rewrite (handle_restore_verified _ _ _ _ c Hc). destruct (is_seen _ _); [done|].
      apply rtc_once. exists (rs_target c). right. unfold execute_restore. by destruct (ex_start _ _) as [[] ?].
    + by destruct (handle_restore_unverified cfg token now_s w Hn) as (r & -> & _).
  - destruct (kill_verified_dec cfg token now_s) as [[c Hc]|Hn].
    + rewrite (handle_kill_verified _ _ _ _ _ c Hc). destruct (is_seen _ _); [done|].
      destruct (_ =? _)%N; [|done].
      apply rtc_once. exists (rc_target c). left. unfold execute_kill. by destruct (ex_stop _ _) as [[] ?].
    + by destruct (handle_kill_unverified cfg token g now_s w Hn) as (r & -> & _).
Qed.

Lemma poll_all_acted cfg pulls last w :
  rtc acted (executor w) (executor (snd (poll_all cfg pulls last w))).
Proof.
  apply (poll_all_related cfg (fun w w' => rtc acted (executor w) (executor w'))).
  - split; [by intros ?|]. intros w1 w2 w3 H12 H23. by etrans.
  - intros. apply handle_acted.
  - intros now_s w1. unfold fail_closed_stop. apply rtc_once. exists (r_target cfg). left.
    by destruct (ex_stop _ _) as [[] ?].
Qed.

(** ** Replays *)

Section Replays.
Context `{!SeenNonceLaws Ns}.

Lemma handle_seen_mono cfg token g now_s k (w : World) :
  is_seen k (nonces w) = true ->
  is_seen k (nonces (snd (handle_pending_candidate cfg token g now_s w))) = true.
Proof.
  intros Hs. destruct (acts_cases cfg token g now_s w) as [->|(k' & ->)]; [done|].
  by apply record_mono.
Qed.

Lemma poll_all_seen_mono cfg pulls last k (w : World) :
  is_seen k (nonces w) = true -> is_seen k (nonces (snd (poll_all cfg pulls last w))) = true.
Proof.
  apply (poll_all_related cfg (fun w w' => is_seen k (nonces w) = true -> is_seen k (nonces w') = true)).
  - split; [by intros ?|]. intros w1 w2 w3 H12 H23. auto.
  - intros. by apply handle_seen_mono.
  - intros now_s w1. unfold fail_closed_stop. by destruct (ex_stop _ _) as [[] ?].
Qed.

(** C38.  Never twice: once a kill has been executed and its key recorded, no
    presentation of any token of the same nonce and id, at any time, with any
    generation claimed live, is ever acted on again, whatever the reaper polls in
    between and across any restart whose reopened store still sees what the
    running one saw. *)
Theorem executed_kill_never_fires_again cfg token c g now_s w run_id out w1 pulls last w3 token' c' g' now' :
  handle_pending_candidate cfg token g now_s w = (Executed run_id out, w1) ->
  kill_verified cfg token now_s c -> fst (record (kill_key c) (nonces w)) = None ->
  (forall k, is_seen k (nonces (snd (poll_all cfg pulls last w1))) = true ->
             is_seen k (nonces w3) = true) ->
  kill_verified cfg token' now' c' -> kill_key c' = kill_key c ->
  handle_kill_candidate cfg token' g' now' w3 = (Rejected AlreadyExecuted, w3).
Proof.
  intros Hx Hc Hrec Hkeep Hc' Hk. rewrite (handle_kill_verified _ _ _ _ _ c' Hc'), Hk.
  rewrite Hkeep; [done|]. apply poll_all_seen_mono.
  unfold handle_pending_candidate in Hx. case_bool_decide as Hpeek.
  - exfalso. destruct (restore_verified_dec cfg token now_s) as [[rc Hrc]|Hn].
    + rewrite (handle_restore_verified _ _ _ _ rc Hrc) in Hx. destruct (is_seen _ _); [done|].
      unfold execute_restore in Hx. by destruct (ex_start _ _) as [[] ?].
    + by destruct (handle_restore_unverified cfg token now_s w Hn) as (r & Hr & _);
        rewrite Hr in Hx.
  - rewrite (handle_kill_verified _ _ _ _ _ c Hc) in Hx. destruct (is_seen _ _); [done|].
    destruct (_ =? _)%N; [|done]. unfold execute_kill in Hx.
    destruct (ex_stop _ _) as [[] ?]; [done|]. injection Hx as _ _ <-. simpl.
    by apply record_seen.
Qed.

End Replays.

(** ** A dark kernel *)

(** C39.  Fail-closed liveness: while pulls keep failing within the deadline
    nothing happens; once the kernel has been dark past the deadline every poll
    stops the configured target, a failed stop leaves the deadline expired so that
    the next poll tries again, and the first stop that succeeds is what resets the
    liveness clock. *)
Theorem dark_kernel_is_failed_closed cfg clocks last_success w m out :
  length clocks = S m ->
  (forall clock, clock ∈ clocks -> liveness_expired cfg last_success (clock 0%nat) = true) ->
  (forall i, (i < m)%nat -> exists e, fst (ex_stop (r_target cfg) (stops (r_target cfg) i (executor w))) = inl e) ->
  fst (ex_stop (r_target cfg) (stops (r_target cfg) m (executor w))) = inr out ->
  (forall early, liveness_expired cfg last_success (early 0%nat) = false ->
     poll cfg None early last_success w = ([], last_success, w)) /\
  let '(os, last_success', w') := poll_all cfg ((fun clock => (None, clock)) <$> clocks) last_success w in
  length os = S m /\ last os = Some (FailClosed out) /\
  executor w' = stops (r_target cfg) (S m) (executor w) /\
  Some last_success' = (fun clock => clock 0%nat) <$> last clocks /\
  nonces w' = nonces w.
Proof.
  intros Hlen Hall Hfail Hok. split.
  { intros early He. unfold poll, on_kernel_pull_failure. by rewrite He. }
  revert m w Hlen Hfail Hok. induction clocks as [|clock clocks IH]; intros m w Hlen Hfail Hok; [done|].
  rewrite fmap_cons. cbn [poll_all].
  unfold poll at 1. unfold on_kernel_pull_failure at 1. rewrite Hall by set_solver. cbn [negb].
  unfold fail_closed_stop. destruct m as [|m].
  - destruct clocks; [|done]. cbn in Hok. destruct (ex_stop _ _) as [[e|o] x] eqn:He; [done|].
    injection Hok as ->. cbn. unfold stops. simpl. by rewrite He.
  - destruct (Hfail 0%nat ltac:(lia)) as [e He]. cbn in He.
    destruct (ex_stop (r_target cfg) (executor w)) as [[e'|o] x] eqn:Hst; [|done].
    specialize (IH ltac:(set_solver) m (with_executor x w)). cbn [length] in Hlen.
    assert (forall n, stops (r_target cfg) (S n) (executor w) = stops (r_target cfg) n x) as Hs
      by (intros n; by rewrite stops_S, Hst).
    destruct (poll_all _ _ _ _) as [[os l] w'].
    destruct IH as (Hl & Hlast & Hx & Hn & Hno); [lia| | |].
    + intros i Hi. cbn [executor with_executor]. rewrite <-Hs. apply Hfail. lia.
    + cbn [executor with_executor]. by rewrite <-Hs.
    + rewrite (Hs (S m)). cbn [app length]. split_and!; [lia| |done| |done].
      * by destruct os.
      * rewrite Hn. by destruct clocks.
Qed.

End Reaper.
