(* ===== verification/EndToEnd.v ===== *)
(** * From the operator's button to the stopped machine

    Composes the kernel's revoke routes ([KernelRevoke]) with the reaper
    ([Reaper]): what happens to a kill from its minting to its execution, and two
    ways in which a legitimate kill comes to nothing. *)

From S2P Require Import Prelude RustStr Float64 Crates Merkle Json Serde Token Revoke Async Auth.
From S2P Require Import TlogClient KernelRevoke Executor NonceStore Reaper.

Local Open Scope N_scope.

Section EndToEnd.
Context `{Sha256} `{Ed25519} `{Hex} `{B64Url} `{SerdeJson}.
Context `{!Ed25519Correct} `{!HexCorrect} `{!B64UrlCorrect} `{!SerdeJsonCorrect}.
Context {T : Type} `{TlogClient T}.
Context {X Ns : Type} `{ComputeExecutor X} `{SeenNonceStore Ns}.

(** ** Signed decisions at the reaper *)

(** The clock is inside the token's window, leeway included. *)
Definition in_window (cfg : ReaperConfig) (iat exp now_s : f64) : Prop :=
  let leeway := f64_max (leeway_seconds (r_verifier cfg)) (f64_of_Z 0) in
  f64_lt (f64_add now_s leeway) iat = false /\ f64_gt (f64_sub now_s leeway) exp = false /\
  f64_le exp iat = false.

Lemma verify_with_aud_signed {C} `{ToClaimsMap C} (c : C) sk v now_s aud :
  pinned_verifying_key v = verifying_key sk ->
  value_ok (Obj (to_btreemap c)) -> (depth (Obj (to_btreemap c)) <= 127)%nat ->
  claims_valid (to_btreemap c) now_s (leeway_seconds v) (Some aud) ->
  exists sig, verify_with_aud v (sign_kernel_token c sk) now_s aud =
    Ok {| vc_token := sign_kernel_token c sk; vc_claims := to_btreemap c; vc_signature_b64 := sig |}.
Proof.
  intros Hpin Hok Hd Hv. unfold verify_with_aud. rewrite Hpin, verify_signed by done.
  apply check_claims_iff in Hv as ->. by eexists.
Qed.

Lemma peek_signed {C} `{ToClaimsMap C} (c : C) sk :
  value_ok (Obj (to_btreemap c)) -> (depth (Obj (to_btreemap c)) <= 127)%nat ->
  peek_action (sign_kernel_token c sk) = bt_get "action" (to_btreemap c) ≫= as_str.
Proof.
  intros Hok Hd. destruct (signed_token_parts c sk) as (_ & Hsplit & _).
  unfold peek_action. rewrite Hsplit. simpl. unfold token_payload.
  rewrite b64url_roundtrip, stable_json_id, serde_roundtrip by done. done.
Qed.

Lemma str_claim_plain m k s :
  bt_get k m = Some (Str s) -> all_plain s = true -> s <> "" -> str_claim m k = Some s.
Proof.
  intros Hk Hp Hne. unfold str_claim. rewrite Hk. simpl. rewrite trim_plain by done.
  by destruct s.
Qed.

(** Claims of the kernel's form: plain, non-empty strings and finite times. *)
Definition issuable (run_id fp nonce : string) (iat exp : f64) : Prop :=
  all_plain run_id = true /\ run_id <> "" /\ all_plain fp = true /\ fp <> "" /\
  all_plain nonce = true /\ nonce <> "" /\ f64_is_finite iat = true /\ f64_is_finite exp = true.

Lemma kill_claims_valid cfg c now_s :
  bound_kill c ->
  issuable (rc_run_id c) (rc_params_fingerprint c) (rc_nonce c) (rc_issued_at c) (rc_expires_at c) ->
  in_window cfg (rc_issued_at c) (rc_expires_at c) now_s ->
  claims_valid (to_btreemap c) now_s (leeway_seconds (r_verifier cfg)) (Some REVOKE_COMPUTE_AUD).
Proof.
  intros (Haud & Hsub & _) (Hr & Hrn & Hf & Hfn & Hn & Hnn & Hi & He) Hw. split_and!.
  - intros k Hk. rewrite !elem_of_cons, elem_of_nil in Hk.
    destruct Hk as [->|[->|[->|[->|[->|[]]]]]]; eexists; apply str_claim_plain;
      try reflexivity; try done; by rewrite Hsub.
  - exists (rc_issued_at c), (rc_expires_at c). split_and!; [| |apply Hw..]; unfold f64_claim.
    + by rewrite <-(json_f64_finite _ Hi).
    + by rewrite <-(json_f64_finite _ He).
  - intros want [= <-]. apply str_claim_plain; try done. by rewrite <-Haud.
Qed.

Lemma restore_claims_valid cfg c now_s :
  bound_restore c ->
  issuable (rs_run_id c) (rs_params_fingerprint c) (rs_nonce c) (rs_issued_at c) (rs_expires_at c) ->
  in_window cfg (rs_issued_at c) (rs_expires_at c) now_s ->
  claims_valid (to_btreemap c) now_s (leeway_seconds (r_verifier cfg)) (Some REVOKE_RESTORE_AUD).
Proof.
  intros (Haud & Hsub & _) (Hr & Hrn & Hf & Hfn & Hn & Hnn & Hi & He) Hw. split_and!.
  - intros k Hk. rewrite !elem_of_cons, elem_of_nil in Hk.
    destruct Hk as [->|[->|[->|[->|[->|[]]]]]]; eexists; apply str_claim_plain;
      try reflexivity; try done; by rewrite Hsub.
  - exists (rs_issued_at c), (rs_expires_at c). split_and!; [| |apply Hw..]; unfold f64_claim.
    + by rewrite <-(json_f64_finite _ Hi).
    + by rewrite <-(json_f64_finite _ He).
  - intros want [= <-]. apply str_claim_plain; try done. by rewrite <-Haud.
Qed.

Lemma signed_kill_verified cfg sk c now_s :
  pinned_verifying_key (r_verifier cfg) = verifying_key sk ->
  revoke_claims_ok c -> bound_kill c ->
  issuable (rc_run_id c) (rc_params_fingerprint c) (rc_nonce c) (rc_issued_at c) (rc_expires_at c) ->
  in_window cfg (rc_issued_at c) (rc_expires_at c) now_s ->
  kill_verified cfg (sign_kernel_token c sk) now_s c /\
  peek_action (sign_kernel_token c sk) <> Some REVOKE_RESTORE_ACTION.
Proof.
  intros Hpin Hok Hb Hi Hw. destruct (revoke_map_ok c Hok) as [Hv Hd]. split.
  - destruct (verify_with_aud_signed c sk _ now_s _ Hpin Hv Hd (kill_claims_valid cfg c now_s Hb Hi Hw))
      as [sig Hsig]. eexists. split; [exact Hsig|]. split; [reflexivity|]. split; [|symmetry; apply Hb].
    unfold parse_revoke_claims. cbn [vc_claims].
    rewrite bt_collect_sorted by by apply value_ok_obj in Hv as [? _].
    apply de_revoke_roundtrip; apply Hi.
  - rewrite peek_signed by done. discriminate.
Qed.

Lemma signed_restore_verified cfg sk c now_s :
  pinned_verifying_key (r_verifier cfg) = verifying_key sk ->
  restore_claims_ok c -> bound_restore c ->
  issuable (rs_run_id c) (rs_params_fingerprint c) (rs_nonce c) (rs_issued_at c) (rs_expires_at c) ->
  in_window cfg (rs_issued_at c) (rs_expires_at c) now_s ->
  restore_verified cfg (sign_kernel_token c sk) now_s c /\
  peek_action (sign_kernel_token c sk) = Some REVOKE_RESTORE_ACTION.
Proof.
  intros Hpin Hok Hb Hi Hw. destruct (restore_map_ok c Hok) as [Hv Hd]. split.
  - destruct (verify_with_aud_signed c sk _ now_s _ Hpin Hv Hd (restore_claims_valid cfg c now_s Hb Hi Hw))
      as [sig Hsig]. eexists. split; [exact Hsig|]. split; [reflexivity|]. split; [|symmetry; apply Hb].
    unfold parse_restore_claims. cbn [vc_claims].
    rewrite bt_collect_sorted by by apply value_ok_obj in Hv as [? _].
    apply de_restore_roundtrip; apply Hi.
  - by rewrite peek_signed.
Qed.

(** ** A kill from minting to polling *)

Lemma fingerprint_issuable v : all_plain (params_fingerprint v) = true /\ params_fingerprint v <> "".
Proof.
  unfold params_fingerprint, sha256_hex. split; [apply hex_plain|]. intros E.
  rewrite <-hex_nil in E. apply (f_equal hex_decode) in E. rewrite !hex_roundtrip in E.
  injection E as E. apply (f_equal length) in E. by rewrite array_length in E.
Qed.

(** What the nonce source (base64url) and the UUID source give, finite times, and
    a well-formed request. *)
Definition stamp_ok (kcfg : KernelConfig) (s : Stamp) : Prop :=
  all_plain (uuid s) = true /\ all_plain (nonce s) = true /\ nonce s <> "" /\
  f64_is_finite (now s) = true /\
  f64_is_finite (f64_add (now s) (f64_of_Z (Z.max (revoke_token_ttl_s kcfg) 30))) = true.

Definition mint_ok (kcfg : KernelConfig) (body : MintRevokeRequest) (s : Stamp) : Prop :=
  mr_tier body = VmStop /\ target_ok (mr_target body) /\ opt_str_ok (mr_reason body) /\
  stamp_ok kcfg s.

Lemma minted_claims_ok kcfg body s g :
  mint_ok kcfg body s -> u64_ok g ->
  let c := revoke_claims kcfg body s g in
  revoke_claims_ok c /\ bound_kill c /\
  issuable (rc_run_id c) (rc_params_fingerprint c) (rc_nonce c) (rc_issued_at c) (rc_expires_at c).
Proof.
  intros (Ht & Htg & Hr & Hu & Hn & Hnn & Hi & He) Hg. cbv zeta.
  destruct (fingerprint_issuable (revoke_payload ("revoke_" +:+ uuid s) (mr_target body) g (mr_tier body)
    (mr_trigger body) (mr_reason body))) as [Hfp Hfn].
  assert (all_plain ("revoke_" +:+ uuid s) = true) as Hrun by by rewrite all_plain_app.
  split_and!; try done.
  split; [|done]. rewrite !Forall_cons. split_and!; try exact (Forall_nil_2 _); try reflexivity;
    by apply plain_utf8.
Qed.

Definition minted_token (kcfg : KernelConfig) (body : MintRevokeRequest) (s : Stamp) (w : KWorld T)
    : string :=
  sign_kernel_token (revoke_claims kcfg body s (current (mr_target body) (GENERATIONS w)))
    (k_signing_key kcfg).

Lemma run_mint kcfg body s (w : KWorld T) :
  mr_tier body = VmStop ->
  fst (tlog_append_failclosed (minted_token kcfg body s w) (now s) w) = inr tt ->
  exists sg w1, run (mint_revoke kcfg "operator" body s) w = (Ok (KSigned sg), w1) /\
    sgr_token sg = minted_token kcfg body s w /\ GENERATIONS w1 = GENERATIONS w /\
    PENDING w1 = enqueue_pending (instance (mr_target body))
      {| pe_run_id := "revoke_" +:+ uuid s; pe_token := minted_token kcfg body s w;
         pe_expires_at := f64_add (now s) (f64_of_Z (Z.max (revoke_token_ttl_s kcfg) 30)) |}
      (now s) (PENDING w).
Proof.
  intros Ht Hlog. unfold mint_revoke. rewrite bool_decide_true by done.
  cbn [negb String.eqb Ascii.eqb Bool.eqb run reading]. unfold minted_token in Hlog.
  change (rc_expires_at (revoke_claims kcfg body s ?g)) with
    (f64_add (now s) (f64_of_Z (Z.max (revoke_token_ttl_s kcfg) 30))).
  assert (PENDING (snd (tlog_append_failclosed (minted_token kcfg body s w) (now s) w)) = PENDING w /\
    GENERATIONS (snd (tlog_append_failclosed (minted_token kcfg body s w) (now s) w)) = GENERATIONS w)
    as [Hp Hg].
  { unfold tlog_append_failclosed. destruct (transparency w); [|done]. by destruct (tlog_append _ _). }
  unfold minted_token in Hp, Hg.
  destruct (tlog_append_failclosed _ _ w) as [[r|[]] w']; [done|]. cbn [fst snd] in *.
  eexists _, _. split; [reflexivity|]. split; [reflexivity|]. simpl. by rewrite Hp, Hg.
Qed.

(** The queue holds exactly the minted kill: the pull hands it out with the
    instance's generation. *)
Lemma pull_minted (body : MintRevokeRequest) s s2 (w w1 : KWorld T) tok exp run_id :
  default [] (PENDING w !! instance (mr_target body)) = [] ->
  PENDING w1 = enqueue_pending (instance (mr_target body))
    {| pe_run_id := run_id; pe_token := tok; pe_expires_at := exp |} (now s) (PENDING w) ->
  f64_gt exp (now s2) = true ->
  exists w2, run (pending_revoke "reaper" (instance (mr_target body)) s2) w1 =
    (Ok (KPending {| pr_ok := true; pr_pending := [tok];
       pr_current_grant_generation := current_for_instance (instance (mr_target body)) (GENERATIONS w1) |}), w2) /\
    PENDING w2 !! instance (mr_target body) =
      Some [{| pe_run_id := run_id; pe_token := tok; pe_expires_at := exp |}].
Proof.
  intros Hempty Hp Hlive. unfold pending_revoke. cbn [reaper_or_operator negb].
  change (negb (reaper_or_operator "reaper")) with false. cbn [run].
  unfold drain_live_tokens. rewrite Hp. unfold enqueue_pending.
  rewrite Hempty, lookup_insert_eq. cbn [filter list_filter app].
  rewrite decide_True by done. eexists. split; [reflexivity|]. simpl. by rewrite lookup_insert_eq.
Qed.

Lemma acked_then_empty run_id name tok exp outcome s3 s4 (w2 : KWorld T) :
  PENDING w2 !! name = Some [{| pe_run_id := run_id; pe_token := tok; pe_expires_at := exp |}] ->
  fst (run (pending_revoke "reaper" name s4)
    (snd (run (ack_revoke "reaper" {| ra_run_id := run_id; ra_outcome := outcome |} s3) w2))) =
  Ok KNoContent.
Proof.
  intros Hp. unfold ack_revoke, pending_revoke. change (negb (reaper_or_operator "reaper")) with false.
  cbn [run clear_pending ra_run_id audit_append snd PENDING with_pending with_audit].
  unfold drain_live_tokens. rewrite lookup_fmap, Hp. simpl. unfold filter. simpl.
  rewrite decide_False by (unfold not_run; simpl; tauto). done.
Qed.

(** The minted kill at the reaper, seen or not, current or not. *)
Lemma poll_minted kcfg rcfg body s clock last g cur (rw : RWorld X Ns) :
  pinned_verifying_key (r_verifier rcfg) = verifying_key (k_signing_key kcfg) ->
  mint_ok kcfg body s -> u64_ok g ->
  in_window rcfg (now s) (f64_add (now s) (f64_of_Z (Z.max (revoke_token_ttl_s kcfg) 30))) (clock 1%nat) ->
  is_seen {| nk_nonce := nonce s; nk_run_id := "revoke_" +:+ uuid s |} (nonces rw) = false ->
  let c := revoke_claims kcfg body s g in
  poll rcfg (Some {| tokens := [sign_kernel_token c (k_signing_key kcfg)]; pull_generation := cur |})
    clock last rw =
  let (o, rw') := if g =? cur
                  then execute_kill rcfg (sign_kernel_token c (k_signing_key kcfg)) (clock 1%nat) c rw
                  else (Rejected StaleGeneration, rw) in
  ([o], clock 0%nat, rw').
Proof.
  intros Hpin Hm Hg Hw Hseen c. destruct (minted_claims_ok kcfg body s g Hm Hg) as (Hok & Hb & Hi).
  destruct (signed_kill_verified rcfg (k_signing_key kcfg) c (clock 1%nat) Hpin Hok Hb Hi Hw) as [Hv Hpeek].
  rewrite poll_one. unfold handle_pending_candidate. rewrite bool_decide_false by done.
  rewrite (handle_kill_verified _ _ _ _ _ c Hv).
  change (kill_key c) with {| nk_nonce := nonce s; nk_run_id := "revoke_" +:+ uuid s |}.
  by rewrite Hseen.
Qed.

(** C40.  The button works: when the operator mints a kill, the log answers, nothing
    else is queued for the instance, and no other instance of the same name has been
    granted more often than the target, the reaper's next pull receives exactly that
    token, and within its window, the key being new and the cloud's stop succeeding, the
    reaper executes exactly one stop of the operator's target and acks it, after which
    the kernel's queue for the instance is empty. *)
Theorem minted_kill_is_executed kcfg rcfg body s s2 s3 s4 clock last (w : KWorld T)
    (rw : RWorld X Ns) out :
  let target := mr_target body in
  let run_id := "revoke_" +:+ uuid s in
  let exp := f64_add (now s) (f64_of_Z (Z.max (revoke_token_ttl_s kcfg) 30)) in
  pinned_verifying_key (r_verifier rcfg) = verifying_key (k_signing_key kcfg) ->
  mint_ok kcfg body s -> u64_ok (current target (GENERATIONS w)) ->
  fst (tlog_append_failclosed (minted_token kcfg body s w) (now s) w) = inr tt ->
  default [] (PENDING w !! instance target) = [] ->
  current target (GENERATIONS w) = current_for_instance (instance target) (GENERATIONS w) ->
  f64_gt exp (now s2) = true -> in_window rcfg (now s) exp (clock 1%nat) ->
  is_seen {| nk_nonce := nonce s; nk_run_id := run_id |} (nonces rw) = false ->
  fst (ex_stop target (executor rw)) = inr out ->
  exists sg w1 p w2 rw',
    run (mint_revoke kcfg "operator" body s) w = (Ok (KSigned sg), w1) /\
    run (pending_revoke "reaper" (instance target) s2) w1 = (Ok (KPending p), w2) /\
    pr_pending p = [sgr_token sg] /\
    poll rcfg (Some {| tokens := pr_pending p; pull_generation := pr_current_grant_generation p |})
      clock last rw = ([Executed run_id out], clock 0%nat, rw') /\
    executor rw' = snd (ex_stop target (executor rw)) /\
    (has_kernel_client rcfg = true -> acks rw' = acks rw ++ [(run_id, "stopped")]) /\
    fst (run (pending_revoke "reaper" (instance target) s4)
      (snd (run (ack_revoke "reaper" {| ra_run_id := run_id; ra_outcome := "stopped" |} s3) w2))) =
    Ok KNoContent.
Proof.
  cbv zeta. intros Hpin Hm Hg Hlog Hempty Hcur Hlive Hw Hseen Hstop.
  destruct (run_mint kcfg body s w (proj1 Hm) Hlog) as (sg & w1 & Hmint & Htok & Hg1 & Hp1).
  destruct (pull_minted body s s2 w w1 _ _ _ Hempty Hp1 Hlive) as (w2 & Hpull & Hp2).
  pose proof (poll_minted kcfg rcfg body s clock last _ (current_for_instance (instance (mr_target body))
    (GENERATIONS w1)) rw Hpin Hm Hg Hw Hseen) as Hpoll. cbv zeta in Hpoll.
  rewrite Hg1, <-Hcur, N.eqb_refl in Hpoll. unfold execute_kill in Hpoll.
  change (rc_target (revoke_claims kcfg body s ?g)) with (mr_target body) in Hpoll.
  destruct (ex_stop (mr_target body) (executor rw)) as [r x] eqn:Hx. simpl in Hstop. subst r.
  eexists sg, w1, _, w2, _. split; [exact Hmint|]. split; [exact Hpull|].
  split; [by rewrite Htok|]. cbn [pr_pending pr_current_grant_generation].
  split; [rewrite Hg1, <-Hcur; exact Hpoll|]. simpl.
  split; [done|]. split; [by intros ->|]. by eapply acked_then_empty.
Qed.

(** A namesake's restores suppress it: if another instance of the same name
    (in another zone or project) has been granted more often than the target, the
    very same kill, freshly minted at the target's current generation and handed
    out, is rejected as stale by every poll, and the executor is never called. *)
Theorem namesake_restore_suppresses_kill kcfg rcfg body s s2 clock last namesake (w : KWorld T)
    (rw : RWorld X Ns) :
  let target := mr_target body in
  let exp := f64_add (now s) (f64_of_Z (Z.max (revoke_token_ttl_s kcfg) 30)) in
  pinned_verifying_key (r_verifier rcfg) = verifying_key (k_signing_key kcfg) ->
  mint_ok kcfg body s -> u64_ok (current target (GENERATIONS w)) ->
  fst (tlog_append_failclosed (minted_token kcfg body s w) (now s) w) = inr tt ->
  default [] (PENDING w !! instance target) = [] ->
  instance namesake = instance target ->
  current target (GENERATIONS w) < current namesake (GENERATIONS w) ->
  f64_gt exp (now s2) = true -> in_window rcfg (now s) exp (clock 1%nat) ->
  is_seen {| nk_nonce := nonce s; nk_run_id := "revoke_" +:+ uuid s |} (nonces rw) = false ->
  exists sg w1 p w2,
    run (mint_revoke kcfg "operator" body s) w = (Ok (KSigned sg), w1) /\
    run (pending_revoke "reaper" (instance target) s2) w1 = (Ok (KPending p), w2) /\
    pr_pending p = [sgr_token sg] /\
    poll rcfg (Some {| tokens := pr_pending p; pull_generation := pr_current_grant_generation p |})
      clock last rw = ([Rejected StaleGeneration], clock 0%nat, rw).
Proof.
  cbv zeta. intros Hpin Hm Hg Hlog Hempty Hname Hlt Hlive Hw Hseen.
  destruct (run_mint kcfg body s w (proj1 Hm) Hlog) as (sg & w1 & Hmint & Htok & Hg1 & Hp1).
  destruct (pull_minted body s s2 w w1 _ _ _ Hempty Hp1 Hlive) as (w2 & Hpull & Hp2).
  pose proof (poll_minted kcfg rcfg body s clock last _ (current_for_instance (instance (mr_target body))
    (GENERATIONS w1)) rw Hpin Hm Hg Hw Hseen) as Hpoll. cbv zeta in Hpoll.
  destruct (current_for_instance_max (instance (mr_target body)) (GENERATIONS w)) as [Hmax _].
  specialize (Hmax _ Hname). rewrite Hg1 in Hpoll.
  destruct (N.eqb_spec (current (mr_target body) (GENERATIONS w))
    (current_for_instance (instance (mr_target body)) (GENERATIONS w))); [lia|].
  eexists sg, w1, _, w2. split; [exact Hmint|]. split; [exact Hpull|].
  split; [by rewrite Htok|]. cbn [pr_pending pr_current_grant_generation]. rewrite Hg1. exact Hpoll.
Qed.

(** ** A restore that is retried *)

(** A retried restore undoes a later kill: a restore is queued, then a kill
    of the same instance at the new generation.  If the start fails on the first
    poll and the stop succeeds, the kill is complete and acked; but the restore
    stays pending, its replay key unburned and no fence applied to it, and the
    next poll starts the machine the operator has just killed. *)
Theorem retried_restore_undoes_kill rcfg rt rc kt kc clock1 clock2 last (rw : RWorld X Ns) e out out' :
  peek_action rt = Some REVOKE_RESTORE_ACTION -> peek_action kt <> Some REVOKE_RESTORE_ACTION ->
  restore_verified rcfg rt (clock1 1%nat) rc -> kill_verified rcfg kt (clock1 2%nat) kc ->
  restore_verified rcfg rt (clock2 1%nat) rc ->
  rs_target rc = rc_target kc ->
  is_seen (restore_key rc) (nonces rw) = false -> is_seen (kill_key kc) (nonces rw) = false ->
  is_seen (restore_key rc) (snd (record (kill_key kc) (nonces rw))) = false ->
  let t := rc_target kc in
  let x1 := snd (ex_start t (executor rw)) in
  let x2 := snd (ex_stop t x1) in
  fst (ex_start t (executor rw)) = inl e -> fst (ex_stop t x1) = inr out ->
  fst (ex_start t x2) = inr out' ->
  let g := rc_target_generation kc in
  let '(os1, last1, rw1) := poll rcfg (Some {| tokens := [rt; kt]; pull_generation := g |}) clock1 last rw in
  let '(os2, _, rw2) := poll rcfg (Some {| tokens := [rt]; pull_generation := g |}) clock2 last1 rw1 in
  os1 = [Rejected (RExecutorError (executor_error_display e)); Executed (rc_run_id kc) out] /\
  os2 = [Restored (rs_run_id rc) out'] /\ executor rw1 = x2 /\
  executor rw2 = snd (ex_start t x2).
Proof.
  cbv zeta. intros Hpr Hpk Hr1 Hk1 Hr2 Htgt Hsr Hsk Hsr' Hst1 Hsp Hst2.
  unfold poll at 1. cbn [tokens pull_generation process].
  unfold handle_pending_candidate at 1. rewrite (bool_decide_true (peek_action rt = _)) by done.
  rewrite (handle_restore_verified _ _ _ _ rc Hr1), Hsr. unfold execute_restore at 1. rewrite Htgt.
  destruct (ex_start (rc_target kc) (executor rw)) as [r x1]. simpl in Hst1. subst r.
  rewrite (handle_pending_kill _ _ _ _ _ kc) by done. unfold execute_kill.
  cbn [executor with_executor]. cbn [snd] in Hsp, Hst2 |- *.
  destruct (ex_stop (rc_target kc) x1) as [r x2]. simpl in Hsp. subst r.
  rewrite poll_one. unfold handle_pending_candidate. rewrite (bool_decide_true (peek_action rt = _)) by done.
  rewrite (handle_restore_verified _ _ _ _ rc Hr2). cbn [nonces executor record_and_ack with_nonces with_executor].
  rewrite Hsr'. unfold execute_restore. rewrite Htgt. cbn [executor record_and_ack with_nonces with_executor].
  cbn [snd] in Hst2. destruct (ex_start (rc_target kc) x2) as [r x3] eqn:E3. simpl in Hst2. subst r.
  split_and!; try done. simpl. by rewrite E3.
Qed.

End EndToEnd.

(** ** Witnesses *)

Module Demo.
#[local] Existing Instance KernelRevoke.Demo.sha.
#[local] Existing Instance demo_ed25519.
#[local] Existing Instance demo_hex.
#[local] Existing Instance demo_b64.
#[local] Existing Instance DemoJson.demo_serde.
#[local] Existing Instance KernelRevoke.Demo.demo_log.
Import KernelRevoke.Demo.

Definition rcfg : ReaperConfig := {|
  r_verifier := {| pinned_verifying_key := verifying_key (k_signing_key cfg); fingerprint := "ab";
                   leeway_seconds := f64_of_Z 5 |};
  r_target := Revoke.Demo.vm "a"; liveness_deadline_s := f64_of_Z 30;
  has_kill_recorder := true; has_kernel_client := true |}.

(** An executor that fails while its script says so. *)
Record ScriptedExecutor := { failures : list bool; calls : list (string * InstanceTarget) }.
Definition scripted_op (op : string) (t : InstanceTarget) (x : ScriptedExecutor)
    : (ExecutorError + StopOutcome) * ScriptedExecutor :=
  (if hd false (failures x) then inl (Backend "503")
   else inr {| so_instance := instance t; so_op_id := op; so_prev_state := "UNKNOWN" |},
   {| failures := tl (failures x); calls := calls x ++ [(op, t)] |}).
#[local] Instance scripted : ComputeExecutor ScriptedExecutor :=
  {| ex_stop := scripted_op "stop"; ex_start := scripted_op "start" |}.

Definition reaper_world (script : list bool) : RWorld ScriptedExecutor (gset NonceKey) :=
  Build_RWorld {| failures := script; calls := [] |} ∅ [] [].

Definition clock_at (t : Z) : nat -> f64 := fun _ => f64_of_Z t.

Lemma kill_mint_ok zone id : utf8 zone = true -> all_plain id = true ->
  mint_ok cfg (kill_body zone) (at_time 1000 id).
Proof.
  intros Hz Hid. split; [done|]. split; [by apply Revoke.Demo.vm_ok|]. split; [done|].
  split; [done|]. split; [by cbn|]. split; [done|]. split; vm_compute; reflexivity.
Qed.

Lemma window_1000 now_s :
  now_s = f64_of_Z 1002 \/ now_s = f64_of_Z 1003 ->
  in_window rcfg (f64_of_Z 1000) (f64_add (f64_of_Z 1000) (f64_of_Z 120)) now_s.
Proof. intros [-> | ->]; split_and!; vm_compute; reflexivity. Qed.

Lemma minted_kill_is_executed_witness : exists sg w1 (rw' : RWorld ScriptedExecutor (gset NonceKey)),
  run (mint_revoke cfg "operator" (kill_body "a") (at_time 1000 "k")) fresh = (Ok (KSigned sg), w1) /\
  executor rw' = {| failures := []; calls := [("stop", Revoke.Demo.vm "a")] |}.
Proof.
  destruct (minted_kill_is_executed cfg rcfg (kill_body "a") (at_time 1000 "k") (at_time 1001 "p")
    (at_time 1004 "q") (at_time 1005 "r") (clock_at 1002) (f64_of_Z 990) fresh (reaper_world [])
    {| so_instance := "agent-vm"; so_op_id := "stop"; so_prev_state := "UNKNOWN" |}) as
    (sg & w1 & p & w2 & rw' & Hm & _ & _ & _ & Hx & _); try reflexivity.
  - apply kill_mint_ok; reflexivity.
  - vm_compute. discriminate.
  - apply window_1000; left; reflexivity.
  - exists sg, w1, rw'. split; [exact Hm|exact Hx].
Defined.

Definition after_namesake : KWorld DemoLog :=
  Build_KWorld ∅ {[ Revoke.Demo.vm "b" := 1 ]} (Some ∅) [].

Lemma namesake_restore_suppresses_kill_witness : exists sg w1 p w2,
  run (mint_revoke cfg "operator" (kill_body "a") (at_time 1000 "k")) after_namesake =
    (Ok (KSigned sg), w1) /\
  run (pending_revoke "reaper" "agent-vm" (at_time 1001 "p")) w1 = (Ok (KPending p), w2) /\
  poll rcfg (Some {| tokens := pr_pending p; pull_generation := pr_current_grant_generation p |})
    (clock_at 1002) (f64_of_Z 990) (reaper_world []) =
  ([Rejected StaleGeneration], f64_of_Z 1002, reaper_world []).
Proof.
  destruct (namesake_restore_suppresses_kill cfg rcfg (kill_body "a") (at_time 1000 "k")
    (at_time 1001 "p") (clock_at 1002) (f64_of_Z 990) (Revoke.Demo.vm "b") after_namesake
    (reaper_world [])) as (sg & w1 & p & w2 & Hm & Hp & _ & Hpoll); try reflexivity.
  - apply kill_mint_ok; reflexivity.
  - vm_compute. discriminate.
  - apply window_1000; left; reflexivity.
  - exists sg, w1, p, w2. split; [exact Hm|]. split; [exact Hp|exact Hpoll].
Defined.

(** The tokens of a restore and of a kill of the same machine. *)
Definition restore_c : RestoreClaims := restore_claims cfg (restore_body "a") (at_time 1000 "r").
Definition kill_c : RevokeComputeClaims := revoke_claims cfg (kill_body "a") (at_time 1000 "k") 1.
Definition restore_tok : string := sign_kernel_token restore_c (k_signing_key cfg).
Definition kill_tok : string := sign_kernel_token kill_c (k_signing_key cfg).

Lemma restore_tok_verified t : t = 1002%Z \/ t = 1003%Z ->
  restore_verified rcfg restore_tok (f64_of_Z t) restore_c /\
  peek_action restore_tok = Some REVOKE_RESTORE_ACTION.
Proof.
  intros Ht. destruct (fingerprint_issuable (restore_payload "restore_r" (Revoke.Demo.vm "a") None))
    as [Hfp Hfn]. apply signed_restore_verified; [done| | | |].
  - split; [|done]. rewrite !Forall_cons. split_and!; try exact (Forall_nil_2 _); try reflexivity.
  - done.
  - split_and!; try done; vm_compute; reflexivity.
  - apply window_1000. destruct Ht as [-> | ->]; [by left|by right].
Qed.

Lemma kill_tok_verified : kill_verified rcfg kill_tok (f64_of_Z 1002) kill_c /\
  peek_action kill_tok <> Some REVOKE_RESTORE_ACTION.
Proof.
  destruct (minted_claims_ok cfg (kill_body "a") (at_time 1000 "k") 1) as (Hok & Hb & Hi).
  { apply kill_mint_ok; reflexivity. } { by vm_compute. }
  apply signed_kill_verified; [done..|]. apply window_1000. by left.
Qed.

Lemma retried_restore_undoes_kill_witness :
  exists rw2 : RWorld ScriptedExecutor (gset NonceKey), calls (executor rw2) =
    [("start", Revoke.Demo.vm "a"); ("stop", Revoke.Demo.vm "a"); ("start", Revoke.Demo.vm "a")].
Proof.
  destruct (restore_tok_verified 1002) as [Hr1 Hp]; [by left|].
  destruct (restore_tok_verified 1003) as [Hr2 _]; [by right|].
  destruct kill_tok_verified as [Hk Hpk].
  pose proof (retried_restore_undoes_kill rcfg restore_tok restore_c kill_tok kill_c
    (clock_at 1002) (clock_at 1003) (f64_of_Z 990) (reaper_world [true; false; false]) (Backend "503")
    {| so_instance := "agent-vm"; so_op_id := "stop"; so_prev_state := "UNKNOWN" |}
    {| so_instance := "agent-vm"; so_op_id := "start"; so_prev_state := "UNKNOWN" |}
    Hp Hpk Hr1 Hk Hr2 eq_refl eq_refl eq_refl ltac:(apply bool_decide_eq_false; by vm_compute)
    eq_refl eq_refl eq_refl) as Hu.
  cbv zeta in Hu. destruct (poll _ _ _ _ _) as [[os1 last1] rw1].
  destruct (poll _ _ _ _ _) as [[os2 last2] rw2]. destruct Hu as (_ & _ & _ & Hx).
  exists rw2. rewrite Hx. reflexivity.
Defined.

(** The same parts witness the reaper's own theorems. *)
Lemma kill_is_retried_until_stopped_witness : exists w' : RWorld ScriptedExecutor (gset NonceKey),
  executor w' = {| failures := []; calls := [("stop", Revoke.Demo.vm "a"); ("stop", Revoke.Demo.vm "a")] |}.
Proof.
  destruct kill_tok_verified as [Hk Hpk].
  pose proof (kill_is_retried_until_stopped rcfg kill_tok kill_c [clock_at 1002; clock_at 1002]
    (f64_of_Z 990) (reaper_world [true; false]) 1
    {| so_instance := "agent-vm"; so_op_id := "stop"; so_prev_state := "UNKNOWN" |} Hpk
    ltac:(intros clock Hc; rewrite !elem_of_cons, elem_of_nil in Hc;
          destruct Hc as [-> | [-> | []]]; exact Hk) eq_refl eq_refl
    ltac:(intros i Hi; assert (i = 0)%nat as -> by lia; eexists; reflexivity) eq_refl) as Hu.
  cbv zeta in Hu. destruct (poll_all _ _ _ _) as [[os l] w']. destruct Hu as (_ & _ & Hx & _).
  exists w'. rewrite Hx. reflexivity.
Defined.

Lemma executed_kill_never_fires_again_witness : exists w1 : RWorld ScriptedExecutor (gset NonceKey),
  handle_kill_candidate rcfg kill_tok 1 (f64_of_Z 1002) w1 = (Rejected AlreadyExecuted, w1).
Proof.
  destruct kill_tok_verified as [Hk Hpk].
  pose proof (handle_pending_kill rcfg kill_tok 1 (f64_of_Z 1002) (reaper_world []) kill_c Hpk Hk
    eq_refl eq_refl) as Hx.
  destruct (execute_kill rcfg kill_tok (f64_of_Z 1002) kill_c (reaper_world [])) as [o w1] eqn:E.
  unfold execute_kill in E. cbn in E. injection E as <- Ew.
  exists w1. eapply (executed_kill_never_fires_again rcfg kill_tok kill_c 1 (f64_of_Z 1002)
    (reaper_world []) _ _ w1 [] (f64_of_Z 1002) w1 kill_tok kill_c 1 (f64_of_Z 1002) Hx Hk eq_refl
    (fun _ H => H) Hk eq_refl).
Defined.

Lemma dark_kernel_is_failed_closed_witness : exists w' : RWorld ScriptedExecutor (gset NonceKey),
  executor w' = {| failures := []; calls := [("stop", Revoke.Demo.vm "a"); ("stop", Revoke.Demo.vm "a")] |}.
Proof.
  pose proof (dark_kernel_is_failed_closed rcfg [clock_at 1040; clock_at 1045] (f64_of_Z 1000)
    (reaper_world [true; false]) 1
    {| so_instance := "agent-vm"; so_op_id := "stop"; so_prev_state := "UNKNOWN" |} eq_refl
    ltac:(intros clock Hc; rewrite !elem_of_cons, elem_of_nil in Hc;
          destruct Hc as [-> | [-> | []]]; reflexivity)
    ltac:(intros i Hi; assert (i = 0)%nat as -> by lia; eexists; reflexivity) eq_refl) as [_ Hu].
  destruct (poll_all _ _ _ _) as [[os l] w']. destruct Hu as (_ & _ & Hx & _).
  exists w'. rewrite Hx. reflexivity.
Defined.

End Demo.
