(* ===== verification/RevokeClients.v ===== *)
(** * The clients of the kernel's revoke routes

    Models the revoke surface of the SDK
    ([crates/adapters/safety_kernel_client/src/client.rs], [revoke_classify] and the
    four calls) and the reaper's own client
    ([crates/services/safety-kernel-reaper/src/kernel_client.rs]), with the reading
    of the answers' types ([crates/domain/src/safety/revoke.rs]).  Both talk through
    [Client.Send]: what building and sending a request gives. *)

From S2P Require Import Prelude RustStr Float64 Crates Merkle Json Serde Token CircuitBreaker Client Revoke.
From S2P Require Import TlogClient Executor NonceStore Reaper.

#[local] Open Scope string_scope.

(** ** The answers read *)

Definition de_signed_response (v : Value) : option SignedRevokeResponse :=
  fs ← de_fields ["ok"; "run_id"; "token"; "token_sha256"; "claims"] v;
  match fs with
  | [ok; run_id; token; sha; claims] =>
    ok ← de_req as_bool ok; run_id ← de_req as_str run_id; token ← de_req as_str token;
    sha ← de_req as_str sha; claims ← de_req de_btreemap claims;
    Some {| sgr_ok := ok; sgr_run_id := run_id; sgr_token := token; sgr_token_sha256 := sha;
            sgr_claims := claims |}
  | _ => None
  end.

(** [#[serde(default)]] on the generation: absent is 0, null is an error. *)
Definition de_pending_response (v : Value) : option PendingRevokeResponse :=
  fs ← de_fields ["ok"; "pending"; "current_grant_generation"] (with_defaults 3 [Num (PosInt 0)] v);
  match fs with
  | [ok; pending; g] =>
    ok ← de_req as_bool ok; pending ← de_req (de_vec as_str) pending;
    g ← match g with None => Some 0%N | Some g => de_u64 g end;
    Some {| pr_ok := ok; pr_pending := pending; pr_current_grant_generation := g |}
  | _ => None
  end.

Definition de_ack_response (v : Value) : option RevokeAckResponse :=
  fs ← de_fields ["ok"; "run_id"; "cleared"] v;
  match fs with
  | [ok; run_id; cleared] =>
    ok ← de_req as_bool ok; run_id ← de_req as_str run_id; cleared ← de_req as_bool cleared;
    Some {| rk_ok := ok; rk_run_id := run_id; rk_cleared := cleared |}
  | _ => None
  end.

(** ** The bodies sent: [json!] of the members *)

Definition mint_body (r : MintRevokeRequest) : Value :=
  jobj [("target", target_to_value (mr_target r)); ("tier", tier_to_value (mr_tier r));
        ("trigger", trigger_to_value (mr_trigger r)); ("reason", opt_str (mr_reason r))].
Definition restore_body (r : RestoreRequest) : Value :=
  jobj [("target", target_to_value (rr_target r)); ("reason", opt_str (rr_reason r))].
Definition ack_body (run_id outcome : string) : Value :=
  jobj [("run_id", Str run_id); ("outcome", Str outcome)].

Section Clients.
Context `{Ed25519} `{Reqwest}.

(** ** The SDK *)

Definition revoke_classify (cfg : ClientConfig) (now : Readings) (what : string) (answer : string + Response)
    (c : Client) : res KernelClientError Response * Client :=
  let fail c := with_breaker c (record_failure (breaker_config cfg) (t_outcome now) (breaker c)) in
  match answer with
  | inl e => (Err (Decision (Unavailable (what +:+ " call failed: " +:+ e))), fail c)
  | inr resp =>
    if is_server_error (status resp)
    then (Err (Decision (Unavailable (what +:+ " returned " +:+ status_display resp))), fail c)
    else
      let c := with_breaker c (record_success (t_outcome now) (breaker c)) in
      if negb (is_success (status resp))
      then (Err (Transport (what +:+ " unexpected status " +:+ status_display resp +:+ ": " +:+
                            default "" (text resp))), c)
      else (Ok resp, c)
  end.

(** A call: the breaker's gate, the headers, the request, the classification. *)
Record RevokeCall := {
  what : string;
  path : string;
  call_query : list (string * string);
  call_body : option Value
}.

Definition call_request (cfg : ClientConfig) (hs : list (string * string)) (k : RevokeCall) : HttpRequest :=
  {| url := endpoint cfg (path k); headers := hs; query := call_query k; json := call_body k |}.

Definition revoke_call (cfg : ClientConfig) (send : Send) (now : Readings) (k : RevokeCall) (c : Client)
    : res KernelClientError Response * Client :=
  let (gate, b) := before_call (breaker_config cfg) (t_gate now) (breaker c) in
  let c := with_breaker c b in
  match gate with
  | Err e => (Err (Decision e), c)
  | Panic => (Panic, c)
  | Ok _ =>
    match build_headers cfg None with
    | Err e => (Err e, c)
    | Panic => (Panic, c)
    | Ok hs => revoke_classify cfg now (what k) (send (call_request cfg hs k)) c
    end
  end.

Definition decoded {A} (de : Value -> option A) (k : RevokeCall)
    (r : res KernelClientError Response * Client) : res KernelClientError A * Client :=
  (let? resp := fst r in
   match read_json de resp with
   | inl e => Err (Decode (what k +:+ " decode failed: " +:+ e))
   | inr a => Ok a
   end, snd r).

Definition mint_call (r : MintRevokeRequest) : RevokeCall :=
  {| what := "revoke compute"; path := "/kernel/v1/revoke/compute"; call_query := [];
     call_body := Some (mint_body r) |}.
Definition pending_call (instance : string) : RevokeCall :=
  {| what := "revoke pending"; path := "/kernel/v1/revoke/pending";
     call_query := [("instance", instance)]; call_body := None |}.
Definition ack_call (r : RevokeAckRequest) : RevokeCall :=
  {| what := "revoke ack"; path := "/kernel/v1/revoke/ack"; call_query := [];
     call_body := Some (ack_body (ra_run_id r) (ra_outcome r)) |}.
Definition restore_call (r : RestoreRequest) : RevokeCall :=
  {| what := "revoke restore"; path := "/kernel/v1/revoke/restore"; call_query := [];
     call_body := Some (restore_body r) |}.

Definition mint_revoke cfg send now (r : MintRevokeRequest) c : res KernelClientError SignedRevokeResponse * Client :=
  decoded de_signed_response (mint_call r) (revoke_call cfg send now (mint_call r) c).

Definition empty_pending : PendingRevokeResponse :=
  {| pr_ok := true; pr_pending := []; pr_current_grant_generation := 0 |}.

(** 204 is the empty queue. *)
Definition pending_revoke cfg send now (instance : string) c
    : res KernelClientError PendingRevokeResponse * Client :=
  let r := revoke_call cfg send now (pending_call instance) c in
  match fst r with
  | Ok resp => if (status resp =? 204)%N then (Ok empty_pending, snd r)
               else decoded de_pending_response (pending_call instance) r
  | _ => decoded de_pending_response (pending_call instance) r
  end.

Definition ack_revoke cfg send now (r : RevokeAckRequest) c : res KernelClientError RevokeAckResponse * Client :=
  decoded de_ack_response (ack_call r) (revoke_call cfg send now (ack_call r) c).

Definition restore_revoke cfg send now (r : RestoreRequest) c
    : res KernelClientError SignedRevokeResponse * Client :=
  decoded de_signed_response (restore_call r) (revoke_call cfg send now (restore_call r) c).

(** ** The reaper's client *)

Inductive ReaperClientError :=
| CUnreachable (detail : string)
| CRejected (status : N) (detail : string)
| CMalformed (detail : string).

Record ReqwestKernelClient := { kc_base_url : string; kc_reaper_api_key : string }.

Definition reaper_request (c : ReqwestKernelClient) (path : string) (q : list (string * string))
    (body : option Value) : HttpRequest :=
  {| url := trim_end_matches "/"%char (kc_base_url c) +:+ path;
     headers := [("x-api-key", kc_reaper_api_key c)]; query := q; json := body |}.

Definition rejected (resp : Response) : ReaperClientError :=
  CRejected (status resp) (truncate (default "" (text resp)) 300).

Definition pull_pending (c : ReqwestKernelClient) (send : Send) (instance : string)
    : ReaperClientError + PendingPull :=
  match send (reaper_request c "/kernel/v1/revoke/pending" [("instance", instance)] None) with
  | inl e => inl (CUnreachable (truncate e 300))
  | inr resp =>
    if (status resp =? 204)%N then inr {| tokens := []; pull_generation := 0 |} else
    if negb (is_success (status resp)) then inl (rejected resp) else
    match read_json de_pending_response resp with
    | inl e => inl (CMalformed (truncate e 300))
    | inr p => inr {| tokens := pr_pending p; pull_generation := pr_current_grant_generation p |}
    end
  end.

Definition ack (c : ReqwestKernelClient) (send : Send) (run_id outcome : string)
    : ReaperClientError + unit :=
  match send (reaper_request c "/kernel/v1/revoke/ack" [] (Some (ack_body run_id outcome))) with
  | inl e => inl (CUnreachable (truncate e 300))
  | inr resp => if negb (is_success (status resp)) then inl (rejected resp) else inr tt
  end.

(** What [main] makes of a pull before it polls. *)
Definition pulled (r : ReaperClientError + PendingPull) : option PendingPull :=
  match r with inl _ => None | inr p => Some p end.

(** ** Fail-closed calls that keep the breaker's probe slot *)

Lemma failure_frees_slot cfg now b : probe_in_flight (record_failure cfg now b) = false.
Proof. unfold record_failure. by case_match. Qed.
Lemma success_frees_slot now b : probe_in_flight (record_success now b) = false.
Proof. unfold record_success. by destruct (current b). Qed.

(** The answer to a call that was let through and whose key is a header value. *)
Lemma revoke_call_sent cfg send now k c hs :
  fst (before_call (breaker_config cfg) (t_gate now) (breaker c)) = Ok tt ->
  build_headers cfg None = Ok hs ->
  revoke_call cfg send now k c =
  revoke_classify cfg now (what k) (send (call_request cfg hs k))
    (with_breaker c (snd (before_call (breaker_config cfg) (t_gate now) (breaker c)))).
Proof.
  intros Hg Hh. unfold revoke_call. destruct (before_call _ _ _) as [gate b]. simpl in *.
  subst gate. by rewrite Hh.
Qed.

Lemma revoke_classify_ok cfg now what answer c resp c' :
  revoke_classify cfg now what answer c = (Ok resp, c') ->
  answer = inr resp /\ is_success (status resp) = true /\ current (breaker c') = Closed.
Proof.
  unfold revoke_classify. destruct answer as [e|r]; [done|].
  destruct (is_server_error (status r)); [done|]. destruct (is_success (status r)) eqn:Hs; [|done].
  intros [= <- <-]. split_and!; [done..|]. unfold record_success. simpl. by destruct (current (breaker c)).
Qed.

(** The SDK's revoke calls fail closed: a decision is returned only if the
    breaker let the call through, the kernel answered it with a success and the body
    decodes to it, and the breaker is then closed; while the breaker refuses, the
    answer is an unavailability that does not depend on the network.  Unlike
    [authorize], no status leaks the probe slot: whatever the network answers a call
    that was sent, the slot is free afterwards, and the audit trail is untouched. *)
Theorem revoke_calls_fail_closed cfg send now r c :
  (forall sg c', mint_revoke cfg send now r c = (Ok sg, c') ->
     exists hs resp,
       fst (before_call (breaker_config cfg) (t_gate now) (breaker c)) = Ok tt /\
       build_headers cfg None = Ok hs /\ send (call_request cfg hs (mint_call r)) = inr resp /\
       is_success (status resp) = true /\ read_json de_signed_response resp = inr sg /\
       current (breaker c') = Closed) /\
  (forall e, fst (before_call (breaker_config cfg) (t_gate now) (breaker c)) = Err e ->
     forall k send', revoke_call cfg send' now k c = (Err (Decision e), c)) /\
  (forall hs k,
     fst (before_call (breaker_config cfg) (t_gate now) (breaker c)) = Ok tt ->
     build_headers cfg None = Ok hs ->
     probe_in_flight (breaker (snd (revoke_call cfg send now k c))) = false /\
     audit (snd (revoke_call cfg send now k c)) = audit c).
Proof.
  split_and!.
  - intros sg c'. unfold mint_revoke, decoded, revoke_call.
    destruct (before_call _ _ _) as [[[]|e|] b]; [|done..]. destruct (build_headers cfg None) as [hs|e|]; [|done..].
    destruct (revoke_classify _ _ _ _ _) as [[resp|e|] c1] eqn:Hc; [|done..]. cbn [fst snd res_bind].
    apply revoke_classify_ok in Hc as (Hs & Hst & Hcur).
    destruct (read_json _ resp) as [e|a] eqn:Hd; [done|]. intros [= -> ->]. by exists hs, resp.
  - intros e He k send'. unfold revoke_call. destruct (before_call _ _ _) as [gate b] eqn:Hg. simpl in He. subst gate.
    unfold before_call in Hg. destruct (gate_decision _ _ _); [done| |done]. injection Hg as _ <-. by destruct c.
  - intros hs k Hg Hh. rewrite (revoke_call_sent _ _ _ _ _ hs Hg Hh). unfold revoke_classify.
    destruct (send _) as [e|resp]; [split; [apply failure_frees_slot|done]|].
    destruct (is_server_error _); [split; [apply failure_frees_slot|done]|].
    destruct (negb _); (split; [apply success_frees_slot|done]).
Qed.

End Clients.
