(* ===== verification/KernelHttp.v ===== *)
(** * The kernel's routes over HTTP: what they share

    How a kernel route meets its client: the error envelope
    ([crates/services/safety-kernel/src/dto.rs]) written as JSON, the body parsed, the
    answer delivered, and what the client reads of it. *)

From S2P Require Import Prelude RustStr Float64 Crates Merkle Json Serde Token CircuitBreaker Client Revoke.
From S2P Require Import Async Auth TlogClient.

#[local] Open Scope string_scope.

(** [reason] is skipped when absent. *)
Definition kernel_error_members (b : KernelErrorResponse) : list (string * Value) :=
  [("ok", Bool (ke_ok b)); ("error", Str (ke_error b))] ++
  match ke_reason b with Some s => [("reason", Str s)] | None => [] end.
Definition kernel_error_value (b : KernelErrorResponse) : Value := Obj (kernel_error_members b).

Section KernelHttp.
Context `{SerdeJson} `{Axum} `{Reqwest}.

(** The body as the service parses it. *)
Definition request_body (req : HttpRequest) : option Value :=
  v ← json req;
  match serde_from_slice (as_bytes (serde_to_string v)) with inl _ => None | inr v => Some v end.

(** What the sender gets: a panic drops the connection. *)
Definition delivered (r : res Empty_set Response) : string + Response :=
  match r with
  | Ok resp => inr resp
  | Err e => match e with end
  | Panic => inl "connection closed before message completed"
  end.

(** A route behind the layer: [extract] reads the request for the role the layer
    gives it, and [handle] answers.  Past the layer a public path carries no role;
    none of the protected routes is public. *)
Definition protected_route {W R} (auth : AuthSettings) (path : string)
    (extract : string -> HttpRequest -> N * string + R) (handle : R -> prog W Empty_set Response)
    (req : HttpRequest) : prog W Empty_set Response :=
  match auth_layer auth path (request_header req "x-api-key") with
  | PublicPath =>
    Done (Ok (text_response 500 "Missing request extension: Extension of type `CallerRole` was not found"))
  | Denied status b => Done (Ok (json_response status (kernel_error_value b)))
  | CallerRole role =>
    match extract role req with
    | inl (status, msg) => Done (Ok (text_response status msg))
    | inr r => handle r
    end
  end.

(** [Json<A>]. *)
Definition json_body {A} (de : Value -> option A) (req : HttpRequest) : N * string + A :=
  match request_body req ≫= de with
  | Some a => inr a
  | None => inl (json_rejection (request_body req))
  end.

Context `{!SerdeJsonCorrect}.

Lemma json_body_sent {A} (de : Value -> option A) req v a :
  json req = Some v -> json_ok v -> de v = Some a -> json_body de req = inr a.
Proof.
  intros Hj [? ?] Hd. unfold json_body, request_body. rewrite Hj. simpl.
  rewrite serde_roundtrip by done. simpl. by rewrite Hd.
Qed.

(** A struct sent, its members in any order. *)
Lemma json_struct_sent {A} (de : Value -> option A) req m a :
  json req = Some (Obj m) -> members_ok m -> de (jobj m) = Some a -> json_body de req = inr a.
Proof.
  intros Hj [? ?] Hd. unfold json_body, request_body. rewrite Hj. cbn [mbind option_bind].
  rewrite serde_struct by done. unfold jobj in Hd. cbn [mbind option_bind]. by rewrite Hd.
Qed.

(** A struct written and read, its members in any order. *)
Lemma read_json_response {A} (de : Value -> option A) status m a :
  members_ok m -> de (jobj m) = Some a -> read_json de (json_response status (Obj m)) = inr a.
Proof.
  intros [? ?] Hd. unfold read_json, decode_json, json_response. cbn [resp_json].
  rewrite serde_struct by done. unfold jobj in Hd. by rewrite Hd.
Qed.

Lemma protected_route_admitted {W R} auth path extract (handle : R -> prog W Empty_set Response) req key role r :
  request_header req "x-api-key" = Some key -> auth_layer auth path (Some key) = CallerRole role ->
  extract role req = inr r ->
  protected_route auth path extract handle req = handle r.
Proof. intros Hk Ha He. unfold protected_route. by rewrite Hk, Ha, He. Qed.

(** The SDK's header. *)
Lemma sdk_header `{Ed25519} cfg tp hs u q b :
  build_headers cfg tp = Ok hs ->
  request_header {| url := u; headers := hs; query := q; json := b |} "x-api-key" = Some (api_key cfg).
Proof. unfold build_headers. destruct (header_value_error _); [done|]. by intros [= <-]. Qed.

End KernelHttp.

(** The token, digest and claims of an answer that was signed. *)
Lemma token_plain `{Sha256} `{Ed25519} `{SerdeJson} `{B64UrlCorrect} {C} `{ToClaimsMap C} (c : C) sk :
  all_plain (sign_kernel_token c sk) = true.
Proof. unfold sign_kernel_token. rewrite !all_plain_app. simpl. by rewrite !b64url_plain. Qed.

Lemma fingerprint_utf8 `{Sha256} `{HexCorrect} `{SerdeJson} v : utf8 (params_fingerprint v) = true.
Proof. apply plain_utf8, hex_plain. Qed.

Lemma claims_roundtrip claims : value_ok (Obj claims) ->
  btree_to_value claims = Obj claims /\ de_btreemap (Obj claims) = Some claims.
Proof.
  intros Hc. pose proof (proj1 (proj1 (value_ok_obj _) Hc)). unfold btree_to_value.
  simpl. by rewrite bt_collect_sorted.
Qed.
