(* ===== verification/RevokeHttp.v ===== *)
(** * The revoke routes over HTTP

    The kernel's side of the four revoke routes as their clients meet them: the
    authentication layer, the reading of the query or the body
    ([crates/domain/src/safety/revoke.rs], the request types), the handler, and the
    writing of its answer ([crates/services/safety-kernel/src/dto.rs]).  The
    theorem composes it with the clients of [RevokeClients]: what the SDK reports is
    what the handler decided. *)

From S2P Require Import Prelude RustStr Float64 Crates Merkle Json Serde Token CircuitBreaker Client Revoke.
From S2P Require Import Async Auth TlogClient Routing KernelHttp KernelRevoke Executor NonceStore Reaper RevokeClients.

#[local] Open Scope string_scope.

(** ** The request types, unknown members refused *)

Definition de_mint_request (v : Value) : option MintRevokeRequest :=
  fs ← de_fields_strict ["target"; "tier"; "trigger"; "reason"] (with_defaults 4 [Null] v);
  match fs with
  | [target; tier; trigger; reason] =>
    target ← de_req de_target target; tier ← de_req (de_unit_variant tier_names) tier;
    trigger ← de_req (de_unit_variant trigger_names) trigger; reason ← de_opt_str reason;
    Some {| mr_target := target; mr_tier := tier; mr_trigger := trigger; mr_reason := reason |}
  | _ => None
  end.

Definition de_restore_request (v : Value) : option RestoreRequest :=
  fs ← de_fields_strict ["target"; "reason"] (with_defaults 2 [Null] v);
  match fs with
  | [target; reason] =>
    target ← de_req de_target target; reason ← de_opt_str reason;
    Some {| rr_target := target; rr_reason := reason |}
  | _ => None
  end.

Definition de_ack_request (v : Value) : option RevokeAckRequest :=
  fs ← de_fields_strict ["run_id"; "outcome"] v;
  match fs with
  | [run_id; outcome] =>
    run_id ← de_req as_str run_id; outcome ← de_req as_str outcome;
    Some {| ra_run_id := run_id; ra_outcome := outcome |}
  | _ => None
  end.

(** [Query<PendingQuery>]: the member given once; others are ignored. *)
Definition query_instance (q : list (string * string)) : option string :=
  query_one "instance" q.

(** ** The answers *)

Definition signed_response_members (r : SignedRevokeResponse) : list (string * Value) :=
  [("ok", Bool (sgr_ok r)); ("run_id", Str (sgr_run_id r)); ("token", Str (sgr_token r));
   ("token_sha256", Str (sgr_token_sha256 r)); ("claims", btree_to_value (sgr_claims r))].
Definition pending_response_members (r : PendingRevokeResponse) : list (string * Value) :=
  [("ok", Bool (pr_ok r)); ("pending", strs (pr_pending r));
   ("current_grant_generation", Num (PosInt (pr_current_grant_generation r)))].
Definition ack_response_members (r : RevokeAckResponse) : list (string * Value) :=
  [("ok", Bool (rk_ok r)); ("run_id", Str (rk_run_id r)); ("cleared", Bool (rk_cleared r))].

Section RevokeHttp.
Context `{Sha256} `{Ed25519} `{Hex} `{B64Url} `{SerdeJson} `{Reqwest} `{Axum} `{!AxumQuery}.
Context {T : Type} `{TlogClient T}.

Definition kresponse (r : KResponse) : Response :=
  match r with
  | KDeny status b => json_response status (kernel_error_value b)
  | KSigned r => json_response 200 (Obj (signed_response_members r))
  | KNoContent => text_response 204 ""
  | KPending r => json_response 200 (Obj (pending_response_members r))
  | KAcked r => json_response 200 (Obj (ack_response_members r))
  end.

(** ** The routes *)

Inductive Route := Compute | PendingRoute | AckRoute | RestoreRoute.

Definition route_path (rt : Route) : string :=
  match rt with
  | Compute => "/kernel/v1/revoke/compute" | PendingRoute => "/kernel/v1/revoke/pending"
  | AckRoute => "/kernel/v1/revoke/ack" | RestoreRoute => "/kernel/v1/revoke/restore"
  end.

Definition extract (rt : Route) (s : Stamp) (caller : string) (req : HttpRequest)
    : N * string + KernelRevoke.Request :=
  let read {A} (de : Value -> option A) (k : A -> KernelRevoke.Request) :=
    match json_body de req with inr a => inr (k a) | inl e => inl e end in
  match rt with
  | Compute => read de_mint_request (fun b => Mint caller b s)
  | PendingRoute =>
    match query_instance (query req) with
    | Some name => inr (Pull caller name s)
    | None => inl (query_rejection (query req))
    end
  | AckRoute => read de_ack_request (fun b => Ack caller b s)
  | RestoreRoute => read de_restore_request (fun b => Restore caller b s)
  end.

Definition revoke_service (auth : AuthSettings) (kcfg : KernelConfig) (rt : Route) (s : Stamp)
    (req : HttpRequest) : prog (KWorld T) Empty_set Response :=
  protected_route auth (route_path rt) (extract rt s) (fun rq => prog_map kresponse (serve kcfg rq)) req.

(** ** The SDK's four calls as one *)

Inductive SdkCall :=
| SMint (r : MintRevokeRequest)
| SPull (instance : string)
| SAck (r : RevokeAckRequest)
| SRestore (r : RestoreRequest).

Definition sdk_route (k : SdkCall) : Route :=
  match k with SMint _ => Compute | SPull _ => PendingRoute | SAck _ => AckRoute | SRestore _ => RestoreRoute end.
Definition sdk_call (k : SdkCall) : RevokeCall :=
  match k with
  | SMint r => mint_call r | SPull i => pending_call i | SAck r => ack_call r | SRestore r => restore_call r
  end.
Definition sdk_request (k : SdkCall) (caller : string) (s : Stamp) : KernelRevoke.Request :=
  match k with
  | SMint r => Mint caller r s | SPull i => Pull caller i s
  | SAck r => Ack caller r s | SRestore r => Restore caller r s
  end.

Definition sdk_run (cfg : ClientConfig) (send : Send) (now : Readings) (k : SdkCall) (c : Client)
    : res KernelClientError KResponse :=
  match k with
  | SMint r => res_map KSigned (fst (RevokeClients.mint_revoke cfg send now r c))
  | SPull i => res_map KPending (fst (RevokeClients.pending_revoke cfg send now i c))
  | SAck r => res_map KAcked (fst (RevokeClients.ack_revoke cfg send now r c))
  | SRestore r => res_map KSigned (fst (RevokeClients.restore_revoke cfg send now r c))
  end.

(** ** Wire round trips *)

Context `{!Ed25519Correct} `{!HexCorrect} `{!B64UrlCorrect} `{!SerdeJsonCorrect} `{!TlogLaws T}.

Definition call_ok (k : SdkCall) : Prop :=
  match k with
  | SMint r => target_ok (mr_target r) /\ opt_str_ok (mr_reason r)
  | SPull i => True
  | SAck r => utf8 (ra_run_id r) = true /\ utf8 (ra_outcome r) = true
  | SRestore r => target_ok (rr_target r) /\ opt_str_ok (rr_reason r)
  end.

Lemma mint_body_ok r : target_ok (mr_target r) -> opt_str_ok (mr_reason r) -> json_ok (mint_body r).
Proof.
  intros Ht Hr. split; [obj_ok|]. simpl. autorewrite with wire. simpl. lia.
Qed.
Lemma de_mint_body r : de_mint_request (mint_body r) = Some r.
Proof. destruct r as [t [] [] [re|]]; by destruct t. Qed.

Lemma restore_body_ok r : target_ok (rr_target r) -> opt_str_ok (rr_reason r) -> json_ok (restore_body r).
Proof. intros Ht Hr. split; [obj_ok|]. simpl. autorewrite with wire. simpl. lia. Qed.
Lemma de_restore_body r : de_restore_request (restore_body r) = Some r.
Proof. destruct r as [t [re|]]; by destruct t. Qed.

Lemma ack_body_ok a b : utf8 a = true -> utf8 b = true -> json_ok (ack_body a b).
Proof. intros Ha Hb. split; [obj_ok|]. simpl. lia. Qed.
Lemma de_ack_body r : de_ack_request (ack_body (ra_run_id r) (ra_outcome r)) = Some r.
Proof. by destruct r. Qed.

(** What the SDK sends is what the handler is given. *)
Lemma extract_sdk cfg hs k role s :
  call_ok k -> extract (sdk_route k) s role (call_request cfg hs (sdk_call k)) = inr (sdk_request k role s).
Proof.
  destruct k as [r|i|r|r]; simpl; [intros [Ht Hr]|done|intros [Hi Ho]|intros [Ht Hr]].
  - by rewrite (json_body_sent _ _ (mint_body r) r) by (done || apply de_mint_body || by apply mint_body_ok).
  - by rewrite (json_body_sent _ _ (ack_body (ra_run_id r) (ra_outcome r)) r)
      by (done || apply de_ack_body || by apply ack_body_ok).
  - by rewrite (json_body_sent _ _ (restore_body r) r)
      by (done || apply de_restore_body || by apply restore_body_ok).
Qed.

(** ** The answers read back *)

Definition signed_ok (r : SignedRevokeResponse) : Prop :=
  utf8 (sgr_run_id r) = true /\ utf8 (sgr_token r) = true /\ utf8 (sgr_token_sha256 r) = true /\
  value_ok (Obj (sgr_claims r)) /\ (depth (Obj (sgr_claims r)) <= 126)%nat.

Lemma read_signed status r :
  signed_ok r -> read_json de_signed_response (json_response status (Obj (signed_response_members r))) = inr r.
Proof.
  intros (Hr & Ht & Hs & Hc & Hd). destruct (claims_roundtrip _ Hc) as [Hb E].
  apply read_json_response; unfold signed_response_members; rewrite Hb.
  - members. simpl in Hd |- *. lia.
  - destruct r as [ok id tok sha claims]. cbn [sgr_claims] in E.
    transitivity (c ← de_btreemap (Obj claims);
      Some {| sgr_ok := ok; sgr_run_id := id; sgr_token := tok; sgr_token_sha256 := sha; sgr_claims := c |});
      [reflexivity|by rewrite E].
Qed.

Lemma strs_ok l : Forall (fun t => utf8 t = true) l -> value_ok (strs l) /\ (depth (strs l) <= 1)%nat.
Proof.
  intros Hl. split; [apply value_ok_arr, Forall_fmap; by eapply Forall_impl|].
  simpl. apply le_n_S, list_max_le, Forall_forall.
  by intros ? (v & -> & (t & -> & _)%list_elem_of_fmap)%list_elem_of_fmap.
Qed.

Lemma read_pending status r :
  Forall (fun t => utf8 t = true) (pr_pending r) -> u64_ok (pr_current_grant_generation r) ->
  read_json de_pending_response (json_response status (Obj (pending_response_members r))) = inr r.
Proof.
  intros [Hv Hd]%strs_ok Hg. apply read_json_response.
  - members. unfold strs in *. simpl in *. lia.
  - assert (de_vec as_str (strs (pr_pending r)) = Some (pr_pending r)) as E
      by (apply de_vec_fmap, Forall_forall; done).
    destruct r as [ok ps g]. cbn [pr_pending] in E.
    transitivity (p ← de_vec as_str (strs ps);
      Some {| pr_ok := ok; pr_pending := p; pr_current_grant_generation := g |});
      [reflexivity|by rewrite E].
Qed.

Lemma read_ack status r :
  utf8 (rk_run_id r) = true ->
  read_json de_ack_response (json_response status (Obj (ack_response_members r))) = inr r.
Proof. intros Hr. apply read_json_response; [members; simpl; lia|by destruct r]. Qed.

(** ** The handler's answers are well-formed *)

(** What the nonce source (base64url) and the UUID source give. *)
Definition stamp_plain (s : Stamp) : Prop := all_plain (uuid s) = true /\ all_plain (nonce s) = true.

Definition answers (k : SdkCall) (r : KResponse) : Prop :=
  match k, r with
  | SMint _, KSigned sg | SRestore _, KSigned sg => signed_ok sg
  | SPull _, KNoContent => True
  | SPull _, KPending p =>
      Forall (fun t => utf8 t = true) (pr_pending p) /\ u64_ok (pr_current_grant_generation p)
  | SAck _, KAcked a => utf8 (rk_run_id a) = true
  | _, KDeny status _ => status ∈ [403; 422; 503]%N
  | _, _ => False
  end.

Lemma signed_answer_ok {C} `{ToClaimsMap C} (c : C) sk run_id :
  all_plain run_id = true -> value_ok (Obj (to_btreemap c)) -> (depth (Obj (to_btreemap c)) <= 126)%nat ->
  signed_ok {| sgr_ok := true; sgr_run_id := run_id; sgr_token := sign_kernel_token c sk;
               sgr_token_sha256 := token_sha256 (sign_kernel_token c sk); sgr_claims := to_btreemap c |}.
Proof.
  intros Hr Hv Hd. split_and!; [by apply plain_utf8|by apply plain_utf8, token_plain| |done|done].
  apply plain_utf8, hex_plain.
Qed.

Lemma minted_answer_ok kcfg body s g :
  target_ok (mr_target body) -> opt_str_ok (mr_reason body) -> stamp_plain s -> u64_ok g ->
  let c := revoke_claims kcfg body s g in
  value_ok (Obj (to_btreemap c)) /\ (depth (Obj (to_btreemap c)) <= 126)%nat.
Proof.
  intros Ht Hr [Hu Hn] Hg. cbv zeta. split.
  - apply revoke_map_ok. split_and!; try done. rewrite !Forall_cons.
    split_and!; try done; try apply fingerprint_utf8; by apply plain_utf8.
  - simpl. autorewrite with wire. simpl. lia.
Qed.

Lemma restored_answer_ok kcfg body s :
  target_ok (rr_target body) -> opt_str_ok (rr_reason body) -> stamp_plain s ->
  let c := restore_claims kcfg body s in
  value_ok (Obj (to_btreemap c)) /\ (depth (Obj (to_btreemap c)) <= 126)%nat.
Proof.
  intros Ht Hr [Hu Hn]. cbv zeta. split.
  - apply restore_map_ok. split_and!; try done. rewrite !Forall_cons.
    split_and!; try done; try apply fingerprint_utf8; by apply plain_utf8.
  - simpl. autorewrite with wire. simpl. lia.
Qed.

Lemma issued_token_utf8 kcfg (w : KWorld T) name e : issued kcfg w name e -> utf8 (pe_token e) = true.
Proof. intros [_ [(c & [-> _] & _)|(c & [-> _] & _)]]; by apply plain_utf8, token_plain. Qed.

Lemma serve_answers kcfg k role s (w : KWorld T) r w' :
  kernel_inv kcfg w -> call_ok k -> stamp_plain s ->
  exec (others kcfg) (serve kcfg (sdk_request k role s)) w r w' ->
  exists a, r = Ok a /\ answers k a.
Proof.
  intros Hinv Hok Hs Hx. pose proof (proj1 Hs : all_plain (uuid s) = true) as Hu. destruct k as [b|i|b|b]; simpl in Hx.
  - apply mint_spec in Hx as [Hst Hr]; [|done]. destruct Hok as [Ht Hre].
    destruct (ksteps_kernel_inv _ _ _ Hst Hinv) as [[Hgen _] _].
    destruct Hr as [[_ ->]|[(_ & _ & ->)|[(_ & _ & ->)|(_ & _ & g & _ & Hg & _ & ->)]]];
      eexists; (split; [done|]); simpl; try set_solver.
    destruct (minted_answer_ok kcfg b s g) as [? ?]; try done; [exact (N.le_trans _ _ _ Hg (Hgen _))|].
    apply signed_answer_ok; try done.
  - apply pending_spec in Hx as [_ Hr]; [|done].
    destruct Hr as [[_ ->]|[_ [->|(p & -> & (_ & _ & Hg) & Hp)]]]; eexists; (split; [done|]); simpl; try set_solver.
    split; [|done]. apply Forall_forall. intros tok (e & <- & _ & He)%Hp. by eapply issued_token_utf8.
  - apply ack_spec in Hx as [_ Hr]. destruct Hok as [Hid _].
    destruct Hr as [[_ ->]|[_ (cleared & ->)]]; eexists; (split; [done|]); simpl; [set_solver|done].
  - apply restore_spec in Hx as [_ Hr]; [|done]. destruct Hok as [Ht Hre].
    destruct Hr as [[_ ->]|[(_ & ->)|(_ & _ & _ & ->)]]; eexists; (split; [done|]); simpl; try set_solver.
    destruct (restored_answer_ok kcfg b s) as [? ?]; try done.
    apply signed_answer_ok; try done.
Qed.

(** ** The clients in front of the kernel *)

(** What the SDK makes of an answer of the handler. *)
Definition sdk_view (k : SdkCall) (a : KResponse) : res KernelClientError KResponse :=
  match a with
  | KDeny status b =>
    let display := status_code_display status in
    if is_server_error status then Err (Decision (Unavailable (what (sdk_call k) +:+ " returned " +:+ display)))
    else Err (Transport (what (sdk_call k) +:+ " unexpected status " +:+ display +:+ ": " +:+
                         serde_to_string (kernel_error_value b)))
  | KNoContent => Ok (KPending empty_pending)
  | a => Ok a
  end.

Lemma sdk_run_view cfg send now k c hs a :
  fst (before_call (breaker_config cfg) (t_gate now) (breaker c)) = Ok tt ->
  build_headers cfg None = Ok hs ->
  send (call_request cfg hs (sdk_call k)) = inr (kresponse a) -> answers k a ->
  sdk_run cfg send now k c = sdk_view k a.
Proof.
  intros Hg Hh Hs Ha.
  destruct k as [b|i|b|b], a as [st e|sg| |p|rk]; simpl in Ha; try done; simpl in Hs;
    unfold sdk_run, RevokeClients.mint_revoke, RevokeClients.pending_revoke, RevokeClients.ack_revoke,
      RevokeClients.restore_revoke, decoded;
    rewrite (revoke_call_sent _ _ _ _ _ hs Hg Hh), Hs; unfold revoke_classify;
    try (rewrite !elem_of_cons, elem_of_nil in Ha; by destruct Ha as [->|[->|[->|[]]]]);
    cbn -[json_response]; cbn [json_response text_response status N.leb N.ltb N.eqb]; cbn -[json_response read_json].
  all: try done.
  all: rewrite ?read_signed, ?read_ack by done; try done.
  by rewrite read_pending by apply Ha.
Qed.

(** The service behind the layer: an admitted request runs the handler. *)
Lemma revoke_service_admitted auth kcfg rt s req key role rq (w : KWorld T) answer w' :
  request_header req "x-api-key" = Some key ->
  auth_layer auth (route_path rt) (Some key) = CallerRole role -> extract rt s role req = inr rq ->
  exec (others kcfg) (revoke_service auth kcfg rt s req) w answer w' ->
  exists r, exec (others kcfg) (serve kcfg rq) w r w' /\ answer = res_map kresponse r.
Proof.
  intros Hk Ha He Hx. unfold revoke_service in Hx.
  rewrite (protected_route_admitted _ _ _ _ _ _ _ _ Hk Ha He) in Hx. by apply exec_map_inv in Hx.
Qed.

(** C30.  The SDK reports what the kernel decided: for each of the four revoke calls,
    when the breaker lets the call through and the kernel's layer gives its key a
    role, the request reaches the handler with exactly the caller's data, among any
    concurrent requests; and what the SDK returns is the handler's answer -- the
    signed decision, the queue, the acknowledgement -- an unavailability for its 503,
    a transport error with the body for its other refusals, the empty queue for
    204; nothing is lost or altered by the two encodings. *)
Theorem sdk_reports_the_decision auth kcfg cfg send now k c s hs role (w : KWorld T) answer w' :
  kernel_inv kcfg w -> call_ok k -> stamp_plain s ->
  fst (before_call (breaker_config cfg) (t_gate now) (breaker c)) = Ok tt ->
  build_headers cfg None = Ok hs ->
  auth_layer auth (route_path (sdk_route k)) (Some (api_key cfg)) = CallerRole role ->
  exec (others kcfg) (revoke_service auth kcfg (sdk_route k) s (call_request cfg hs (sdk_call k))) w answer w' ->
  send (call_request cfg hs (sdk_call k)) = delivered answer ->
  exists a, exec (others kcfg) (serve kcfg (sdk_request k role s)) w (Ok a) w' /\
    sdk_run cfg send now k c = sdk_view k a.
Proof.
  intros Hinv Hok Hs Hg Hh Hauth Hx Hsend.
  apply (revoke_service_admitted _ _ _ _ _ _ _ _ _ _ _ (sdk_header _ _ _ _ _ _ Hh) Hauth (extract_sdk _ _ _ _ _ Hok))
    in Hx as (r & Hx & ->).
  destruct (serve_answers _ _ _ _ _ _ _ Hinv Hok Hs Hx) as (a & -> & Ha).
  exists a. split; [done|]. by eapply sdk_run_view.
Qed.

(** The reaper's pull, likewise: the tokens and the generation of the kernel's
    queue, or no pull at all. *)
Theorem reaper_pulls_the_queue auth kcfg rc send name s role (w : KWorld T) answer w' :
  let req := reaper_request rc "/kernel/v1/revoke/pending" [("instance", name)] None in
  kernel_inv kcfg w -> stamp_plain s ->
  auth_layer auth (route_path PendingRoute) (Some (kc_reaper_api_key rc)) = CallerRole role ->
  exec (others kcfg) (revoke_service auth kcfg PendingRoute s req) w answer w' ->
  send req = delivered answer ->
  exists a, exec (others kcfg) (serve kcfg (Pull role name s)) w (Ok a) w' /\
    pulled (pull_pending rc send name) =
    match a with
    | KNoContent => Some {| tokens := []; pull_generation := 0 |}
    | KPending p => Some {| tokens := pr_pending p; pull_generation := pr_current_grant_generation p |}
    | _ => None
    end.
Proof.
  cbv zeta. intros Hinv Hs Hauth Hx Hsend.
  apply (revoke_service_admitted _ _ _ _ _ (kc_reaper_api_key rc) role (Pull role name s)) in Hx as (r & Hx & ->);
    [|done..].
  destruct (serve_answers _ (SPull name) _ _ _ _ _ Hinv I Hs Hx) as (a & -> & Ha).
  exists a. split; [done|]. unfold pull_pending. rewrite Hsend.
  destruct a as [st e|sg| |p|rk]; simpl in Ha; try done; simpl; try done.
  - rewrite !elem_of_cons, elem_of_nil in Ha. by destruct Ha as [->|[->|[->|[]]]].
  - by rewrite read_pending by apply Ha.
Qed.

End RevokeHttp.

(** ** Witnesses *)

Module Demo.
Import KernelRevoke.Demo.
#[local] Existing Instance sha.
#[local] Existing Instance demo_ed25519.
#[local] Existing Instance demo_hex.
#[local] Existing Instance demo_b64.
#[local] Existing Instance DemoJson.demo_serde.
#[local] Existing Instance demo_log.
#[local] Existing Instance demo_log_laws.
#[local] Existing Instance Client.Demo.reqwest.
#[local] Existing Instance TlogClient.Demo.axum.
#[local] Instance query_errors : AxumQuery := fun _ => (400%N, "missing field").

Definition auth : AuthSettings := {|
  auth_mode := "api_key"; env := "dev"; api_key_worker := Some "w"; api_key_api := Some "a";
  api_key_operator := Some "k"; api_key_reaper := Some "r" |}.

(** The operator mints a kill through the SDK, whose API key is the operator's. *)
Definition kill : SdkCall := SMint (kill_body "a").
Definition sent : HttpRequest := call_request Client.Demo.cfg [("x-api-key", "k")] (sdk_call kill).
Definition answer := fst (run (revoke_service auth cfg Compute (at_time 1000 "k") sent) fresh).

Lemma sdk_reports_the_decision_witness : exists sg w',
  exec (others cfg) (serve cfg (sdk_request kill "operator" (at_time 1000 "k"))) fresh (Ok (KSigned sg)) w' /\
  sdk_run Client.Demo.cfg (fun _ => delivered answer) (Client.Demo.at_time 1000) kill client_new =
    Ok (KSigned sg).
Proof.
  destruct (sdk_reports_the_decision auth cfg Client.Demo.cfg (fun _ => delivered answer)
    (Client.Demo.at_time 1000) kill client_new (at_time 1000 "k") [("x-api-key", "k")] "operator" fresh
    answer _ fresh_inv (conj (Revoke.Demo.vm_ok "a" eq_refl) I) (conj eq_refl eq_refl) ltac:(reflexivity)
    ltac:(reflexivity) ltac:(reflexivity) (exec_run _ others_refl _ _) ltac:(reflexivity)) as (a & Hx & Hr).
  assert (exists sg, sdk_run Client.Demo.cfg (fun _ => delivered answer) (Client.Demo.at_time 1000) kill
    client_new = Ok (KSigned sg)) as (sg & Hsg) by (eexists; vm_compute; reflexivity).
  rewrite Hsg in Hr. destruct a as [st b|sg'| |p|rk]; simpl in Hr; try discriminate Hr.
  - destruct (is_server_error st); discriminate Hr.
  - injection Hr as <-. eexists sg, _. split; [exact Hx|exact Hsg].
Defined.

Definition reaper_client : ReqwestKernelClient := {| kc_base_url := "https://kernel/"; kc_reaper_api_key := "r" |}.

(** The reaper then pulls it. *)
Example reaper_pulls_it :
  match pulled (pull_pending reaper_client
    (fun req => delivered (fst (run (revoke_service auth cfg PendingRoute (at_time 1001 "p") req) after_kill)))
    "agent-vm") with
  | Some p => length (tokens p) = 1%nat /\ pull_generation p = 0%N
  | None => False
  end.
Proof. vm_compute. by split. Qed.

End Demo.
