(* ===== verification/EpisodicChain.v ===== *)
(** * The episodic chain

    Models [crates/domain/src/safety/episodic_chain.rs]: the entries, the bytes
    their hash covers and the verification of a chain.  A 32-bit float is its bit
    pattern, which is all the chain ever looks at. *)

From S2P Require Import Prelude RustStr Crates Merkle MerkleSpec.

Definition GENESIS_PREV_HASH : array 32 := array_of 32 [].

Record EpisodicChainEntry := {
  seq : N;
  tenant_id : string;
  atom_id : string;
  domain : string;
  committed : bool;
  correct : option bool;
  confidence : N;
  ts_utc : string;
  prev_hash : array 32;
  entry_hash : array 32
}.

(** [s.len()] as a [u32], saturating. *)
Definition u32_len (s : string) : N := N.min (nlen (as_bytes s)) u32_max.

Definition len_prefixed (s : string) : list byte := to_le_bytes 4 (u32_len s) ++ as_bytes s.

Definition correct_byte (c : option bool) : byte :=
  match c with None => xff | Some false => x00 | Some true => x01 end.

(** What [compute_entry_hash] feeds the hasher. *)
Definition entry_bytes (e : EpisodicChainEntry) : list byte :=
  to_le_bytes 8 (seq e) ++
  len_prefixed (tenant_id e) ++
  len_prefixed (atom_id e) ++
  len_prefixed (domain e) ++
  [if committed e then x01 else x00] ++
  [correct_byte (correct e)] ++
  to_le_bytes 4 (confidence e) ++
  len_prefixed (ts_utc e) ++
  arr_bytes (prev_hash e).

Section EpisodicChain.
Context `{Sha256}.

Definition compute_entry_hash (e : EpisodicChainEntry) : array 32 := sha256 (entry_bytes e).

(** The loop from index [i] on; [prev] is [entries[i - 1]]. *)
Fixpoint verify_from (i : nat) (prev : option EpisodicChainEntry) (entries : list EpisodicChainEntry)
    : res nat unit :=
  match entries with
  | [] => Ok tt
  | entry :: rest =>
    if bool_decide (compute_entry_hash entry <> entry_hash entry) then Err i else
    if match prev with
       | None => false
       | Some p => bool_decide (prev_hash entry <> entry_hash p)
       end then Err i else
    verify_from (S i) (Some entry) rest
  end.

Definition verify_chain_integrity (entries : list EpisodicChainEntry) : res nat unit :=
  verify_from 0 None entries.

(** ** What the hash covers *)

(** The widths of the Rust types, and strings whose length a [u32] can hold. *)
Definition entry_ok (e : EpisodicChainEntry) : Prop :=
  u64_ok (seq e) /\ (confidence e <= u32_max)%N /\
  Forall (fun s => nlen (as_bytes s) <= u32_max)%N [tenant_id e; atom_id e; domain e; ts_utc e].

Lemma le_bytes_app_inj w a b l l' :
  (a < 256 ^ N.of_nat w)%N -> (b < 256 ^ N.of_nat w)%N ->
  to_le_bytes w a ++ l = to_le_bytes w b ++ l' -> a = b /\ l = l'.
Proof.
  intros Ha Hb [E ->]%app_inj_1; [|by rewrite !length_to_le_bytes].
  by apply to_le_bytes_inj in E.
Qed.

Lemma len_prefixed_app_inj s t l l' :
  (nlen (as_bytes s) <= u32_max)%N -> (nlen (as_bytes t) <= u32_max)%N ->
  len_prefixed s ++ l = len_prefixed t ++ l' -> s = t /\ l = l'.
Proof.
  unfold len_prefixed, u32_len. intros Hs Ht. rewrite !N.min_l, <-!app_assoc by done.
  intros [Hn E]%le_bytes_app_inj; [|unfold u32_max in *; simpl; lia..].
  apply app_inj_1 in E as [E ->]; [|unfold nlen in Hn; lia].
  by apply as_bytes_inj in E.
Qed.

Lemma correct_byte_inj c d : correct_byte c = correct_byte d -> c = d.
Proof. by destruct c as [[]|], d as [[]|]. Qed.

(** Two entries with the same bytes differ in their own hash at most. *)
Lemma entry_bytes_inj e1 e2 :
  entry_ok e1 -> entry_ok e2 -> entry_bytes e1 = entry_bytes e2 -> entry_hash e1 = entry_hash e2 ->
  e1 = e2.
Proof.
  destruct e1 as [q1 t1 a1 d1 c1 r1 f1 u1 p1 h1], e2 as [q2 t2 a2 d2 c2 r2 f2 u2 p2 h2].
  unfold entry_ok, entry_bytes, u64_ok. cbn [seq tenant_id atom_id domain committed correct confidence ts_utc prev_hash entry_hash].
  rewrite !Forall_cons. intros (Hq1 & Hf1 & Ht1 & Ha1 & Hd1 & Hu1 & _) (Hq2 & Hf2 & Ht2 & Ha2 & Hd2 & Hu2 & _).
  intros [-> E]%le_bytes_app_inj; [|unfold u64_max in *; simpl; lia..].
  apply len_prefixed_app_inj in E as [-> E]; [|done..].
  apply len_prefixed_app_inj in E as [-> E]; [|done..].
  apply len_prefixed_app_inj in E as [-> E]; [|done..].
  apply (app_inj_1 [_] [_]) in E as [Ec E]; [|done].
  apply (app_inj_1 [_] [_]) in E as [[= ->%correct_byte_inj] E]; [|done].
  assert (c1 = c2) as -> by (by destruct c1, c2).
  apply (le_bytes_app_inj 4) in E as [-> E]; [|unfold u32_max in *; simpl; lia..].
  apply len_prefixed_app_inj in E as [-> E%array_eq]; [|done..]. by intros ->; subst.
Qed.

(** ** The verdict of a verification *)

(** The entry at [i] hashes to what it says and continues the one before it. *)
Definition sound_at (entries : list EpisodicChainEntry) (i : nat) : Prop :=
  exists e, entries !! i = Some e /\ compute_entry_hash e = entry_hash e /\
    forall j p, i = S j -> entries !! j = Some p -> prev_hash e = entry_hash p.

Lemma verify_from_spec done_ rest :
  (forall j, (j < length done_)%nat -> sound_at (done_ ++ rest) j) ->
  match verify_from (length done_) (last done_) rest with
  | Ok _ => forall i, (i < length (done_ ++ rest))%nat -> sound_at (done_ ++ rest) i
  | Err i => (length done_ <= i < length (done_ ++ rest))%nat /\ ~ sound_at (done_ ++ rest) i /\
             forall j, (j < i)%nat -> sound_at (done_ ++ rest) j
  | Panic => False
  end.
Proof.
  revert done_. induction rest as [|e rest IH]; intros d Hd; simpl.
  { intros i Hi. rewrite app_nil_r in *. by apply Hd. }
  assert ((d ++ e :: rest) !! length d = Some e) as He by (by apply list_lookup_middle).
  assert (forall j p, length d = S j -> (d ++ e :: rest) !! j = Some p <-> last d = Some p) as Hlast.
  { intros j p Hj. rewrite lookup_app_l, last_lookup, Hj by lia. done. }
  case_bool_decide as Hh.
  { split_and!; [lia|rewrite length_app; simpl; lia| |done].
    intros (e' & He' & ? & _). congruence. }
  destruct (match last d with None => _ | Some p => _ end) eqn:Hp.
  - split_and!; [lia|rewrite length_app; simpl; lia| |done].
    intros (e' & He' & _ & Hpre). assert (e' = e) as -> by congruence.
    destruct (last d) as [p|] eqn:Hl; [|done]. apply bool_decide_eq_true in Hp. apply Hp.
    destruct (length d) as [|j] eqn:Hj; [destruct d; [done|simpl in Hj; lia]|].
    apply (Hpre j p eq_refl). by apply Hlast.
  - pose proof (IH (d ++ [e])) as Hr. rewrite last_snoc, <-(app_assoc d), length_app in Hr.
    simpl in Hr. rewrite Nat.add_1_r in Hr.
    assert (sound_at (d ++ e :: rest) (length d)) as Hs.
    { exists e. split_and!; [done..|]. intros j p Hj Hjp. apply (Hlast j p Hj) in Hjp.
      rewrite Hjp in Hp. apply bool_decide_eq_false in Hp. by apply dec_stable in Hp. }
    specialize (Hr ltac:(intros j Hj; destruct (decide (j = length d)) as [->|]; [done|apply Hd; lia])).
    destruct (verify_from _ _ _); [done| |done]. destruct Hr as (? & ? & ?). split_and!; try done; lia.
Qed.

Lemma verify_chain_spec entries :
  match verify_chain_integrity entries with
  | Ok _ => forall i, (i < length entries)%nat -> sound_at entries i
  | Err i => (i < length entries)%nat /\ ~ sound_at entries i /\ forall j, (j < i)%nat -> sound_at entries j
  | Panic => False
  end.
Proof.
  pose proof (verify_from_spec [] entries) as Hs. simpl in Hs.
  specialize (Hs ltac:(intros; lia)). unfold verify_chain_integrity.
  destruct (verify_from _ _ _); [done| |done]. destruct Hs as ([] & ? & ?). by split_and!.
Qed.

Lemma verified_iff entries :
  verify_chain_integrity entries = Ok tt <-> forall i, (i < length entries)%nat -> sound_at entries i.
Proof.
  pose proof (verify_chain_spec entries) as Hs.
  destruct (verify_chain_integrity entries) as [[]|i|]; [done| |done].
  destruct Hs as (Hi & Hn & _). split; [done|]. intros Ha. by apply Ha in Hi.
Qed.

(** The verification names the first entry that is wrong: it never panics, it
    accepts exactly the chains whose every entry hashes to what it says and carries
    the hash of the entry before it, and it otherwise answers the least index at
    which one of the two fails. *)
Theorem chain_verdict_is_exact entries :
  verify_chain_integrity entries <> Panic /\
  (verify_chain_integrity entries = Ok tt <-> forall i, (i < length entries)%nat -> sound_at entries i) /\
  forall i, verify_chain_integrity entries = Err i <->
    (i < length entries)%nat /\ ~ sound_at entries i /\ forall j, (j < i)%nat -> sound_at entries j.
Proof.
  pose proof (verify_chain_spec entries) as Hs. split; [by destruct (verify_chain_integrity _)|].
  split; [apply verified_iff|]. intros i. split; [by intros E; rewrite E in Hs|].
  intros (Hi & Hn & Hlt). destruct (verify_chain_integrity entries) as [[]|k|]; [|f_equal|done].
  - by apply Hs in Hi.
  - destruct Hs as (Hk & Hnk & Hltk). destruct (Nat.lt_trichotomy k i) as [Hki|[->|Hik]]; [|done|].
    + by apply Hlt in Hki.
    + by apply Hltk in Hik.
Qed.

(** ** What a verified chain seals *)

Lemma verified_snoc entries e :
  verify_chain_integrity (entries ++ [e]) = Ok tt ->
  verify_chain_integrity entries = Ok tt /\ compute_entry_hash e = entry_hash e /\
  forall p, last entries = Some p -> prev_hash e = entry_hash p.
Proof.
  rewrite !verified_iff, length_app. simpl. intros Hs. split; [|].
  - intros i Hi. destruct (Hs i ltac:(lia)) as (x & Hx & Hh & Hp). exists x.
    rewrite lookup_app_l in Hx by done. split_and!; [done..|]. intros j p Hj Hl.
    apply (Hp j p Hj). rewrite lookup_app_l by lia. done.
  - destruct (Hs (length entries) ltac:(lia)) as (x & Hx & Hh & Hp).
    rewrite list_lookup_middle in Hx by done. injection Hx as <-. split; [done|]. intros p Hl.
    destruct (length entries) as [|j] eqn:Hj; [by destruct entries|].
    apply (Hp j p eq_refl). rewrite lookup_app_l by lia. by rewrite last_lookup, Hj in Hl.
Qed.

(** Dropping the oldest entries leaves a chain that verifies. *)
Lemma verified_suffix front entries :
  verify_chain_integrity (front ++ entries) = Ok tt -> verify_chain_integrity entries = Ok tt.
Proof.
  rewrite !verified_iff, length_app. intros Hs i Hi.
  destruct (Hs (length front + i)%nat ltac:(lia)) as (x & Hx & Hh & Hp). exists x.
  rewrite lookup_app_r, Nat.add_sub' in Hx by lia. split_and!; [done..|]. intros j p -> Hl.
  apply (Hp (length front + j)%nat p ltac:(lia)). rewrite lookup_app_r by lia.
  by rewrite Nat.add_sub'.
Qed.

(** The hash of its last entry seals a verified chain: another verified chain
    that ends in the same hash has the same entries, field by field, as far back as
    the shorter of the two reaches -- or two of their entries are a SHA-256
    collision.  It seals nothing before that: what is left of a verified chain when
    its oldest entries are dropped verifies too, a genesis not being asked to carry
    the genesis hash or the sequence number 0. *)
Theorem last_hash_seals_the_chain es1 es2 l1 l2 :
  Forall entry_ok es1 -> Forall entry_ok es2 ->
  verify_chain_integrity es1 = Ok tt -> verify_chain_integrity es2 = Ok tt ->
  last es1 = Some l1 -> last es2 = Some l2 -> entry_hash l1 = entry_hash l2 ->
  (es1 `suffix_of` es2 \/ es2 `suffix_of` es1 \/
   exists e1 e2, e1 ∈ es1 /\ e2 ∈ es2 /\ sha_collision (entry_bytes e1) (entry_bytes e2)) /\
  forall k, verify_chain_integrity (drop k es1) = Ok tt.
Proof.
  intros Hok1 Hok2 Hv1 Hv2 Hl1 Hl2 Heq. split; [|intros k].
  2: { apply (verified_suffix (take k es1)). by rewrite take_drop. }
  revert es2 l1 l2 Hok1 Hok2 Hv1 Hv2 Hl1 Hl2 Heq.
  induction es1 as [|e1 es1 IH] using rev_ind; intros es2 l1 l2 Hok1 Hok2 Hv1 Hv2 Hl1 Hl2 Heq; [done|].
  destruct es2 as [|e2 es2 _] using rev_ind; [done|].
  rewrite last_snoc in Hl1, Hl2. injection Hl1 as ->. injection Hl2 as ->.
  apply Forall_app in Hok1 as [Hok1 [Ho1 _]%Forall_cons], Hok2 as [Hok2 [Ho2 _]%Forall_cons].
  apply verified_snoc in Hv1 as (Hv1 & Hh1 & Hp1), Hv2 as (Hv2 & Hh2 & Hp2).
  assert (sha256 (entry_bytes l1) = sha256 (entry_bytes l2)) as Hs.
  { unfold compute_entry_hash in Hh1, Hh2. congruence. }
  apply sha256_inj in Hs as [Hs|Hs]; [|right; right; exists l1, l2; set_solver].
  pose proof (entry_bytes_inj l1 l2 Ho1 Ho2 Hs Heq) as ->.
  destruct (last es1) as [p1|] eqn:E1; [|apply last_None in E1 as ->; left; by exists es2].
  destruct (last es2) as [p2|] eqn:E2; [|apply last_None in E2 as ->; right; left; by exists es1].
  destruct (IH es2 p1 p2) as [Hsf|[Hsf|(x1 & x2 & ? & ? & ?)]]; try done.
  - by rewrite <-(Hp1 p1 eq_refl), <-(Hp2 p2 eq_refl).
  - left. destruct Hsf as [k ->]. exists k. by rewrite app_assoc.
  - right; left. destruct Hsf as [k ->]. exists k. by rewrite app_assoc.
  - right; right. exists x1, x2. set_solver.
Qed.

End EpisodicChain.

(** ** Witnesses *)

Module Demo.
#[local] Instance sha : Sha256 := fun l => array_of 32 l.

Definition sealed (e : EpisodicChainEntry) : EpisodicChainEntry := {|
  seq := seq e; tenant_id := tenant_id e; atom_id := atom_id e; domain := domain e;
  committed := committed e; correct := correct e; confidence := confidence e; ts_utc := ts_utc e;
  prev_hash := prev_hash e; entry_hash := compute_entry_hash e |}.

Definition entry (i : N) (prev : array 32) : EpisodicChainEntry := sealed {|
  seq := i; tenant_id := "shared"; atom_id := "a"; domain := "physics"; committed := true;
  correct := None; confidence := 1056964608; ts_utc := "2026-05-22T18:00:00Z"; prev_hash := prev;
  entry_hash := GENESIS_PREV_HASH |}.

Definition chain : list EpisodicChainEntry :=
  let e0 := entry 0 GENESIS_PREV_HASH in
  let e1 := entry 1 (entry_hash e0) in
  [e0; e1; entry 2 (entry_hash e1)].

(** A chain whose second entry was rewritten is refused there; one whose first entry
    is gone is not. *)
Example tampered_chain_is_refused :
  verify_chain_integrity
    (<[1%nat := sealed {| seq := 1; tenant_id := "shared"; atom_id := "b"; domain := "physics";
        committed := true; correct := Some true; confidence := 0; ts_utc := "";
        prev_hash := GENESIS_PREV_HASH; entry_hash := GENESIS_PREV_HASH |}]> chain) = Err 1%nat /\
  verify_chain_integrity (drop 1 chain) = Ok tt.
Proof. split; vm_compute; reflexivity. Qed.

Lemma last_hash_seals_the_chain_witness :
  verify_chain_integrity (drop 2 chain) = Ok tt /\ length chain = 3%nat.
Proof.
  split; [|reflexivity].
  apply (proj2 (last_hash_seals_the_chain chain chain (entry 2 (entry_hash (entry 1 (entry_hash (entry 0 GENESIS_PREV_HASH)))))
    (entry 2 (entry_hash (entry 1 (entry_hash (entry 0 GENESIS_PREV_HASH))))) ltac:(repeat constructor; by vm_compute)
    ltac:(repeat constructor; by vm_compute) ltac:(vm_compute; reflexivity) ltac:(vm_compute; reflexivity)
    eq_refl eq_refl eq_refl)).
Defined.

End Demo.
