(* ===== verification/McpAudit.v ===== *)
(** * MCP audit records

    Models [crates/domain/src/mcp_audit.rs]: the record of one audit event, the
    projection its hash covers and the hash that links it to its predecessor.  The
    storage of the records is not in the repository: the services only see the
    canonical bytes (see [AuditRoutes]). *)

From S2P Require Import Prelude RustStr Float64 Crates Merkle MerkleSpec Json Serde Token Revoke.

#[local] Open Scope string_scope.

(** ** Data *)

Inductive EventKind := Dispatch | Completion.

Definition event_kind_wire (k : EventKind) : string :=
  match k with Dispatch => "dispatch" | Completion => "completion" end.

Inductive CallerType := HumanViaClaudeAi | AutonomousLoop | Cron | SubAgent.

Definition caller_type_wire (c : CallerType) : string :=
  match c with
  | HumanViaClaudeAi => "human_via_claude_ai"
  | AutonomousLoop => "autonomous_loop"
  | Cron => "cron"
  | SubAgent => "sub_agent"
  end.

Inductive ToolClass := ReadOnly | Mutating | Passthrough.

Definition tool_class_wire (t : ToolClass) : string :=
  match t with ReadOnly => "read_only" | Mutating => "mutating" | Passthrough => "passthrough" end.

Definition fails_closed_on_pg_write_failure (t : ToolClass) : bool :=
  match t with Mutating => true | _ => false end.

Inductive CompletionStatus := Success | Failure | Rejected | Timeout_.

Definition status_wire (s : CompletionStatus) : string :=
  match s with
  | Success => "success" | Failure => "failure" | Rejected => "rejected" | Timeout_ => "timeout"
  end.

Record McpAuditRecord := {
  args_fingerprint : string;
  args_preview : option Value;
  authorizer_verdict : option string;
  caller_type : CallerType;
  completed_at_epoch_seconds : option N;
  error_detail : option string;
  event_kind : EventKind;
  event_id : string;
  extension : option Value;
  job_id : string;
  parent_trace_id : option string;
  principal : option string;
  schema_version : Z;
  received_at_epoch_seconds : N;
  result_pointer : option string;
  result_fingerprint : option string;
  resolved_route : option string;
  session_id : option string;
  sk_token_id : option string;
  sk_verdict : option string;
  source_ip_hash : option string;
  source_ua_hash : option string;
  status : option CompletionStatus;
  subject_pseudonym : option string;
  tool_class : ToolClass;
  tool_name : string;
  tool_risk_tier : option string;
  trace_id : string
}.

(** The record with everything an operator may redact removed. *)
Definition redact (r : McpAuditRecord) : McpAuditRecord := {|
  args_fingerprint := args_fingerprint r; args_preview := None;
  authorizer_verdict := authorizer_verdict r; caller_type := caller_type r;
  completed_at_epoch_seconds := completed_at_epoch_seconds r; error_detail := None;
  event_kind := event_kind r; event_id := event_id r; extension := None; job_id := job_id r;
  parent_trace_id := parent_trace_id r; principal := principal r; schema_version := schema_version r;
  received_at_epoch_seconds := received_at_epoch_seconds r; result_pointer := None;
  result_fingerprint := result_fingerprint r; resolved_route := resolved_route r;
  session_id := session_id r; sk_token_id := sk_token_id r; sk_verdict := sk_verdict r;
  source_ip_hash := source_ip_hash r; source_ua_hash := source_ua_hash r; status := status r;
  subject_pseudonym := subject_pseudonym r; tool_class := tool_class r; tool_name := tool_name r;
  tool_risk_tier := tool_risk_tier r; trace_id := trace_id r |}.

Definition opt_str (v : option string) : Value := opt_value Str v.
Definition opt_u64 (v : option N) : Value := opt_value (fun n => Num (PosInt n)) v.

Section McpAudit.
Context `{Sha256} `{Hex} `{SerdeJson}.

(** The members in the order the code inserts them into its [BTreeMap]. *)
Definition chain_members (r : McpAuditRecord) (prev_hash : option (list byte)) : list (string * Value) :=
  [("args_fingerprint", Str (args_fingerprint r));
   ("authorizer_verdict", opt_str (authorizer_verdict r));
   ("caller_type", Str (caller_type_wire (caller_type r)));
   ("completed_at_epoch_seconds", opt_u64 (completed_at_epoch_seconds r));
   ("event_id", Str (event_id r));
   ("event_kind", Str (event_kind_wire (event_kind r)));
   ("job_id", Str (job_id r));
   ("parent_trace_id", opt_str (parent_trace_id r));
   ("prev_hash", Str (default "" (hex_encode <$> prev_hash)));
   ("principal", opt_str (principal r));
   ("received_at_epoch_seconds", Num (PosInt (received_at_epoch_seconds r)));
   ("resolved_route", opt_str (resolved_route r));
   ("result_fingerprint", opt_str (result_fingerprint r));
   ("schema_version", i64_value (schema_version r));
   ("session_id", opt_str (session_id r));
   ("sk_token_id", opt_str (sk_token_id r));
   ("sk_verdict", opt_str (sk_verdict r));
   ("source_ip_hash", opt_str (source_ip_hash r));
   ("source_ua_hash", opt_str (source_ua_hash r));
   ("status", opt_value (fun s => Str (status_wire s)) (status r));
   ("subject_pseudonym", opt_str (subject_pseudonym r));
   ("tool_class", Str (tool_class_wire (tool_class r)));
   ("tool_name", Str (tool_name r));
   ("tool_risk_tier", opt_str (tool_risk_tier r));
   ("trace_id", Str (trace_id r))].

Definition chain_value (r : McpAuditRecord) (prev_hash : option (list byte)) : Value :=
  jobj (chain_members r prev_hash).

Definition audit_canonical_bytes (r : McpAuditRecord) (prev_hash : option (list byte)) : list byte :=
  as_bytes (serde_to_string (chain_value r prev_hash)).

Definition record_hash (r : McpAuditRecord) (prev_hash : option (list byte)) : array 32 :=
  sha256 (audit_canonical_bytes r prev_hash).

(** The hash of the newest record of a stream, newest first: each record is hashed
    with the hash of the one before it. *)
Fixpoint stream_head (records : list McpAuditRecord) : option (list byte) :=
  match records with
  | [] => None
  | r :: older => Some (arr_bytes (record_hash r (stream_head older)))
  end.


(** ** What the hash covers *)

Context `{!HexCorrect} `{!SerdeJsonCorrect}.

(** The values of the Rust types: strings are UTF-8, numbers have their width. *)
Definition audit_ok (r : McpAuditRecord) : Prop :=
  Forall (fun s => utf8 s = true)
    [args_fingerprint r; event_id r; job_id r; tool_name r; trace_id r] /\
  Forall (fun o => forall s, o = Some s -> utf8 s = true)
    [authorizer_verdict r; parent_trace_id r; principal r; resolved_route r; result_fingerprint r;
     session_id r; sk_token_id r; sk_verdict r; source_ip_hash r; source_ua_hash r;
     subject_pseudonym r; tool_risk_tier r] /\
  (forall n, completed_at_epoch_seconds r = Some n -> u64_ok n) /\
  u64_ok (received_at_epoch_seconds r) /\ (- 2 ^ 31 <= schema_version r < 2 ^ 31)%Z.

Lemma opt_value_ok {A} (f : A -> Value) o :
  (forall a, o = Some a -> value_ok (f a)) -> value_ok (opt_value f o).
Proof. destruct o; simpl; [auto|done]. Qed.

Lemma opt_value_depth {A} (f : A -> Value) o :
  (forall a, depth (f a) = 0%nat) -> depth (opt_value f o) = 0%nat.
Proof. destruct o; simpl; auto. Qed.

Lemma opt_value_inj {A} (f : A -> Value) o1 o2 :
  (forall a b, f a = f b -> a = b) -> (forall a, f a <> Null) ->
  opt_value f o1 = opt_value f o2 -> o1 = o2.
Proof. intros Hf Hn. destruct o1, o2; simpl; intros E; try done; [f_equal; auto|by apply Hn in E|by symmetry in E; apply Hn in E]. Qed.

Lemma audit_opt_str_inj o1 o2 : opt_str o1 = opt_str o2 -> o1 = o2.
Proof. apply opt_value_inj; [by intros a b [= ->]|done]. Qed.

Lemma i64_value_inj z1 z2 : i64_value z1 = i64_value z2 -> z1 = z2.
Proof.
  unfold i64_value. destruct (Z.ltb_spec z1 0), (Z.ltb_spec z2 0); intros [= E]; lia.
Qed.

Lemma i64_value_ok z : (- 2 ^ 31 <= z < 2 ^ 31)%Z -> value_ok (i64_value z).
Proof. intros. unfold i64_value. destruct (Z.ltb_spec z 0); simpl; unfold u64_ok, u64_max; lia. Qed.

(** The members are inserted in order, so they are the map itself. *)
Lemma chain_members_sorted r prev : sorted (chain_members r prev).
Proof. by apply keys_sorted_spec. Qed.

Lemma chain_json_ok r prev : audit_ok r -> json_ok (chain_value r prev).
Proof.
  intros (Hs & Ho & Hc & Hr & Hv). unfold chain_value, jobj.
  rewrite bt_collect_sorted by apply chain_members_sorted. split.
  - apply value_ok_obj. split; [apply chain_members_sorted|]. unfold chain_members.
    rewrite !Forall_cons in *.
    repeat match goal with H : _ /\ _ |- _ => destruct H end.
    split_and!; try (split; [reflexivity|]); cbn [snd]; try done; try by apply opt_value_ok.
    + by destruct (caller_type r).
    + by destruct (event_kind r).
    + destruct prev; [apply plain_utf8, hex_plain|done].
    + by apply i64_value_ok.
    + apply opt_value_ok. by intros [].
    + by destruct (tool_class r).
  - unfold chain_members. simpl. unfold opt_str, opt_u64.
    rewrite !opt_value_depth by done. simpl. lia.
Qed.

Lemma prev_text_inj p1 p2 :
  default "" (hex_encode <$> p1) = default "" (hex_encode <$> p2) -> default [] p1 = default [] p2.
Proof.
  intros E. apply (f_equal hex_decode) in E. rewrite <-hex_nil in E.
  assert (forall p, hex_decode (default (hex_encode []) (hex_encode <$> p)) = inr (default [] p)) as Hd
    by (intros []; apply hex_roundtrip).
  rewrite !Hd in E. by injection E.
Qed.

(** Equal canonical bytes mean equal records up to redaction, and equal links. *)
Lemma audit_canonical_inj r1 p1 r2 p2 :
  audit_ok r1 -> audit_ok r2 ->
  audit_canonical_bytes r1 p1 = audit_canonical_bytes r2 p2 ->
  redact r1 = redact r2 /\ default [] p1 = default [] p2.
Proof.
  intros Hok1%(chain_json_ok _ p1) Hok2%(chain_json_ok _ p2) E%(fingerprinted_inj _ _ Hok1 Hok2).
  unfold chain_value, jobj in E. rewrite !bt_collect_sorted in E by apply chain_members_sorted.
  unfold chain_members in E. injection E as E.
  repeat match goal with
  | H : opt_str _ = opt_str _ |- _ => apply audit_opt_str_inj in H
  | H : opt_u64 _ = opt_u64 _ |- _ => apply opt_value_inj in H; [|by intros ?? [= ->]|done]
  | H : opt_value (fun s => Str (status_wire s)) _ = _ |- _ =>
      apply opt_value_inj in H; [|by intros [] []|done]
  | H : (if _ then _ else _) = (if _ then _ else _) |- _ =>
      apply (f_equal Num), i64_value_inj in H
  end.
  assert (caller_type r1 = caller_type r2) by (by destruct (caller_type r1), (caller_type r2)).
  assert (event_kind r1 = event_kind r2) by (by destruct (event_kind r1), (event_kind r2)).
  assert (tool_class r1 = tool_class r2) by (by destruct (tool_class r1), (tool_class r2)).
  split; [unfold redact; f_equal; assumption|by apply prev_text_inj].
Qed.

Lemma redact_same_bytes r p : audit_canonical_bytes (redact r) p = audit_canonical_bytes r p.
Proof. done. Qed.

Lemma redaction_keeps_head s : stream_head (redact <$> s) = stream_head s.
Proof.
  induction s as [|r s IH]; [done|]. rewrite fmap_cons. cbn [stream_head]. rewrite IH.
  unfold record_hash. by rewrite redact_same_bytes.
Qed.

(** A stream of audit records is sealed by its newest hash, up to redaction:
    two streams with the same newest hash have the same length and agree record by
    record on every field but the four redactable ones -- or records at the same
    depth are a SHA-256 collision -- and redacting any of its records changes no
    hash.  An absent optional field and an empty one are told apart. *)
Theorem audit_stream_is_sealed s1 s2 :
  Forall audit_ok s1 -> Forall audit_ok s2 -> stream_head s1 = stream_head s2 ->
  (redact <$> s1 = redact <$> s2 \/
   exists i r1 r2, s1 !! i = Some r1 /\ s2 !! i = Some r2 /\
     sha_collision (audit_canonical_bytes r1 (stream_head (drop (S i) s1)))
                   (audit_canonical_bytes r2 (stream_head (drop (S i) s2)))) /\
  stream_head (redact <$> s1) = stream_head s1.
Proof.
  intros Hok1 Hok2 Heq. split; [|apply redaction_keeps_head]. revert s2 Hok1 Hok2 Heq.
  induction s1 as [|r1 s1 IH]; intros [|r2 s2] Hok1 Hok2 Heq; try done.
  - by left.
  - apply Forall_cons in Hok1 as [Ho1 Hok1], Hok2 as [Ho2 Hok2]. simpl in Heq.
    injection Heq as Heq%array_eq. unfold record_hash in Heq. apply sha256_inj in Heq as [E|E].
    2: { right. by exists 0%nat, r1, r2. }
    apply audit_canonical_inj in E as [Er Ep]; [|done..].
    destruct (IH s2 Hok1 Hok2) as [Hs|(i & x1 & x2 & H1' & H2' & Hc)].
    { destruct s1, s2; simpl in *; try done;
        (apply (f_equal length) in Ep; rewrite ?array_length in Ep; done) || by rewrite Ep. }
    + left. rewrite !fmap_cons. by rewrite Er, Hs.
    + right. by exists (S i), x1, x2.
Qed.

End McpAudit.

(** ** Witnesses *)

Module Demo.
#[local] Existing Instance demo_hex.
#[local] Existing Instance DemoJson.demo_serde.
#[local] Instance sha : Sha256 := fun l => array_of 32 (rev l).

Definition event (k : EventKind) (preview : option Value) : McpAuditRecord := {|
  args_fingerprint := "ab"; args_preview := preview; authorizer_verdict := Some "allow";
  caller_type := SubAgent; completed_at_epoch_seconds := None; error_detail := None;
  event_kind := k; event_id := "e"; extension := None; job_id := "j"; parent_trace_id := None;
  principal := None; schema_version := (-1)%Z; received_at_epoch_seconds := 7; result_pointer := None;
  result_fingerprint := None; resolved_route := None; session_id := None; sk_token_id := None;
  sk_verdict := None; source_ip_hash := None; source_ua_hash := None; status := None;
  subject_pseudonym := None; tool_class := Mutating; tool_name := "t"; tool_risk_tier := None;
  trace_id := "r" |}.

Definition stream (preview : option Value) : list McpAuditRecord :=
  [event Completion None; event Dispatch preview].

Lemma stream_ok preview : Forall audit_ok (stream preview).
Proof.
  repeat apply Forall_cons_2; [..|apply Forall_nil_2];
    (split_and!; [repeat constructor|repeat (apply Forall_cons_2; [by intros ? [= <-]|]); apply Forall_nil_2
                 |done|by vm_compute|by vm_compute|by vm_compute]).
Qed.

Lemma audit_stream_is_sealed_witness :
  stream_head (redact <$> stream (Some (Str "secret"))) = stream_head (stream (Some (Str "secret"))).
Proof.
  apply (proj2 (audit_stream_is_sealed (stream (Some (Str "secret"))) (stream None)
    (stream_ok _) (stream_ok _) ltac:(vm_compute; reflexivity))).
Defined.

End Demo.
