(* ===== verification/WaveContext.v ===== *)
(** * Waves: the context, gate surfaces and roles

    Models [crates/domain/src/wave/context.rs], [gate_surface.rs] and [roles.rs].
    A [HashSet] is a [gset]; the order in which Rust iterates over it is not fixed
    and is the parameter [HashSetOrder].  A [BTreeSet] is a [gset] read in the order
    of its elements ([btree_elems]). *)

From S2P Require Import Prelude RustStr Float64 Crates Merkle Json Serde.

#[local] Open Scope string_scope.

(** ** Gate surfaces *)

Inductive GateSurface :=
| SafetyKernel
| Dispatcher
| McpBridge
| GitHooks
| TransparencyLog
| CogcoreLanes
| PersistenceSchema.

#[global] Instance GateSurface_eq_dec : EqDecision GateSurface.
Proof. solve_decision. Defined.

Definition surface_index (s : GateSurface) : nat :=
  match s with
  | SafetyKernel => 0
  | Dispatcher => 1
  | McpBridge => 2
  | GitHooks => 3
  | TransparencyLog => 4
  | CogcoreLanes => 5
  | PersistenceSchema => 6
  end.

(** [GateSurface::all], in the derived order. *)
Definition all_surfaces : list GateSurface :=
  [SafetyKernel; Dispatcher; McpBridge; GitHooks; TransparencyLog; CogcoreLanes; PersistenceSchema].

#[global] Program Instance GateSurface_countable : Countable GateSurface :=
  inj_countable surface_index (fun n => all_surfaces !! n) _.
Next Obligation. by intros []. Qed.

Definition path_prefixes (s : GateSurface) : list string :=
  match s with
  | SafetyKernel => ["crates/safety-kernel/"; "crates/domain/src/safety"; "python/safety_kernel/"]
  | Dispatcher => ["packages/aara/dispatch"; "crates/application/src/dispatch"]
  | McpBridge => ["packages/mcp/"; "crates/adapters/src/mcp"]
  | GitHooks => [".claude/hooks/"; ".githooks/"]
  | TransparencyLog => ["crates/domain/src/transparency"; "crates/adapters/src/transparency"]
  | CogcoreLanes => ["packages/autonomy/cogcore/"; "crates/application/src/lanes"]
  | PersistenceSchema => ["alembic/"]
  end.

Definition path_suffixes (s : GateSurface) : list string :=
  match s with
  | PersistenceSchema => ["_store.py"]
  | _ => []
  end.

Definition wire_name (s : GateSurface) : string :=
  match s with
  | SafetyKernel => "SafetyKernel"
  | Dispatcher => "Dispatcher"
  | McpBridge => "McpBridge"
  | GitHooks => "GitHooks"
  | TransparencyLog => "TransparencyLog"
  | CogcoreLanes => "CogcoreLanes"
  | PersistenceSchema => "PersistenceSchema"
  end.

(** [raw.replace('\\', "/")]. *)
Fixpoint normalise (s : string) : string :=
  match s with
  | EmptyString => EmptyString
  | String a s => String (if Ascii.eqb a "\"%char then "/"%char else a) (normalise s)
  end.

Definition ends_with (suffix s : string) : bool := starts_with (string_rev suffix) (string_rev s).

(** Does a path, its separators normalised, touch a surface? *)
Definition touches (path : string) (s : GateSurface) : bool :=
  existsb (fun p => starts_with p path) (path_prefixes s) ||
  existsb (fun p => ends_with p path) (path_suffixes s).

Definition detect_gate_surfaces (paths : list string) : gset GateSurface :=
  foldl (fun out raw =>
    let path := normalise raw in
    foldl (fun out surface => if touches path surface then {[surface]} ∪ out else out) out all_surfaces)
    ∅ paths.

(** The elements of a [BTreeSet<GateSurface>], in order. *)
Definition btree_elems (s : gset GateSurface) : list GateSurface :=
  filter (fun x => x ∈ s) all_surfaces.

Definition surface_names : list (string * GateSurface) :=
  (fun s => (wire_name s, s)) <$> all_surfaces.

(** ** Roles *)

Inductive WaveRole := PLANNER | DECOMPOSER | DEVELOPER | TESTER | PURPLE_TEAMER | UAT_REVIEWER | RELEASER.

Definition all_roles : list WaveRole :=
  [PLANNER; DECOMPOSER; DEVELOPER; TESTER; PURPLE_TEAMER; UAT_REVIEWER; RELEASER].

Definition tool_allow_list (r : WaveRole) : list string :=
  match r with
  | PLANNER => ["aara.plan"; "aara.read_doc"; "aara.search_code"]
  | DECOMPOSER => ["aara.team_decompose"; "aara.role_assign"; "aara.read_doc"]
  | DEVELOPER => ["aara.edit_file"; "aara.write_file"; "aara.run_cargo"; "aara.run_pytest";
                  "aara.search_code"; "aara.read_doc"]
  | TESTER => ["aara.run_cargo_test"; "aara.run_pytest"; "aara.write_fixture";
               "aara.sign_adversarial_record"]
  | PURPLE_TEAMER => ["aara.threat_model"; "aara.run_attack"; "aara.read_doc";
                      "aara.sign_purple_team_record"]
  | UAT_REVIEWER => ["aara.read_acceptance_criteria"; "aara.rederive_evidence"; "aara.sign_uat_record"]
  | RELEASER => ["aara.compose_release_commit"; "aara.sign_closeout_record"; "aara.run_release_gate"]
  end.

Definition role_wire (r : WaveRole) : string :=
  match r with
  | PLANNER => "PLANNER"
  | DECOMPOSER => "DECOMPOSER"
  | DEVELOPER => "DEVELOPER"
  | TESTER => "TESTER"
  | PURPLE_TEAMER => "PURPLE_TEAMER"
  | UAT_REVIEWER => "UAT_REVIEWER"
  | RELEASER => "RELEASER"
  end.

Record WaveRoleAssignment := { ra_role : WaveRole; ra_agent_id : string }.

(** ** The context *)

Inductive UatOutcome := UatPass | UatFail | UatPartial | UatNotTested.

Record UatVerdict := { uv_criterion_id : string; uv_outcome : UatOutcome; uv_evidence : string }.

Inductive WaveDomain :=
| Biotech | Telco | OilGas | PharmaManufacturing | Defense | Regulatory | DrugEfficacy | Platform.

(** The name [Debug] and [serde] give a domain. *)
Definition domain_wire (d : WaveDomain) : string :=
  match d with
  | Biotech => "Biotech"
  | Telco => "Telco"
  | OilGas => "OilGas"
  | PharmaManufacturing => "PharmaManufacturing"
  | Defense => "Defense"
  | Regulatory => "Regulatory"
  | DrugEfficacy => "DrugEfficacy"
  | Platform => "Platform"
  end.

Definition all_domains : list WaveDomain :=
  [Biotech; Telco; OilGas; PharmaManufacturing; Defense; Regulatory; DrugEfficacy; Platform].

Definition uat_wire (o : UatOutcome) : string :=
  match o with
  | UatPass => "Pass"
  | UatFail => "Fail"
  | UatPartial => "Partial"
  | UatNotTested => "NotTested"
  end.

Record WavePhase := { ph_id : string; ph_summary : string }.

(** The identifiers are newtypes over [String]. *)
Record WaveId := { wid : string }.
Record AdversarialSessionId := { aid : string }.
Record PurpleTeamSessionId := { pid : string }.

Record WaveContext := {
  wave_id : WaveId;
  linear_issue : string;
  domain : WaveDomain;
  goal_summary : string;
  phases : list WavePhase;
  gate_surfaces : gset GateSurface;
  created_at_epoch : N
}.

Definition requires_purple_team (ctx : WaveContext) : bool :=
  negb (bool_decide (gate_surfaces ctx = ∅)).

(** ** The order of a [HashSet] *)

(** The iteration order of [HashSet<GateSurface>]: some enumeration of the set. *)
Class HashSetOrder := {
  hs_iter : gset GateSurface -> list GateSurface;
  hs_iter_perm : forall s, hs_iter s ≡ₚ elements s
}.

(** ** Wire form *)

Definition phase_to_value (p : WavePhase) : Value :=
  jobj [("id", Str (ph_id p)); ("summary", Str (ph_summary p))].

Definition de_phase (v : Value) : option WavePhase :=
  match de_fields ["id"; "summary"] v with
  | Some [i; s] =>
    i ← de_req as_str i; s ← de_req as_str s; Some {| ph_id := i; ph_summary := s |}
  | _ => None
  end.

Definition verdict_to_value (u : UatVerdict) : Value :=
  jobj [("criterion_id", Str (uv_criterion_id u)); ("outcome", Str (uat_wire (uv_outcome u)));
        ("evidence", Str (uv_evidence u))].

Definition de_verdict (v : Value) : option UatVerdict :=
  match de_fields ["criterion_id"; "outcome"; "evidence"] v with
  | Some [c; o; e] =>
    c ← de_req as_str c;
    o ← de_req (de_unit_variant
          ((fun o => (uat_wire o, o)) <$> [UatPass; UatFail; UatPartial; UatNotTested])) o;
    e ← de_req as_str e;
    Some {| uv_criterion_id := c; uv_outcome := o; uv_evidence := e |}
  | _ => None
  end.

Definition assignment_to_value (a : WaveRoleAssignment) : Value :=
  jobj [("role", Str (role_wire (ra_role a))); ("agent_id", Str (ra_agent_id a))].

Definition de_assignment (v : Value) : option WaveRoleAssignment :=
  match de_fields ["role"; "agent_id"] v with
  | Some [r; a] =>
    r ← de_req (de_unit_variant ((fun r => (role_wire r, r)) <$> all_roles)) r;
    a ← de_req as_str a;
    Some {| ra_role := r; ra_agent_id := a |}
  | _ => None
  end.

Definition context_to_value `{HashSetOrder} (c : WaveContext) : Value :=
  jobj [("wave_id", Str (wid (wave_id c))); ("linear_issue", Str (linear_issue c));
        ("domain", Str (domain_wire (domain c))); ("goal_summary", Str (goal_summary c));
        ("phases", Arr (phase_to_value <$> phases c));
        ("gate_surfaces", Arr ((fun s => Str (wire_name s)) <$> hs_iter (gate_surfaces c)));
        ("created_at_epoch", Num (PosInt (created_at_epoch c)))].

Definition de_surface (v : Value) : option GateSurface := de_unit_variant surface_names v.

Definition de_context (v : Value) : option WaveContext :=
  match de_fields ["wave_id"; "linear_issue"; "domain"; "goal_summary"; "phases"; "gate_surfaces";
                   "created_at_epoch"] v with
  | Some [w; l; d; g; p; s; c] =>
    w ← de_req as_str w;
    l ← de_req as_str l;
    d ← de_req (de_unit_variant ((fun d => (domain_wire d, d)) <$> all_domains)) d;
    g ← de_req as_str g;
    p ← de_req (de_vec de_phase) p;
    s ← de_req (de_vec de_surface) s;
    c ← de_req de_u64 c;
    Some {| wave_id := {| wid := w |}; linear_issue := l; domain := d; goal_summary := g;
            phases := p; gate_surfaces := list_to_set s; created_at_epoch := c |}
  | _ => None
  end.

(** ** Lemmas *)

Lemma elem_of_all_surfaces s : s ∈ all_surfaces.
Proof. destruct s; set_solver. Qed.

Lemma elem_of_btree_elems x s : x ∈ btree_elems s <-> x ∈ s.
Proof.
  unfold btree_elems. rewrite list_elem_of_filter. pose proof (elem_of_all_surfaces x). tauto.
Qed.

Lemma surface_scan path l (out : gset GateSurface) x :
  x ∈ foldl (fun out s => if touches path s then {[s]} ∪ out else out) out l <->
  x ∈ out \/ (x ∈ l /\ touches path x = true).
Proof.
  revert out. induction l as [|s l IH]; intros out; simpl; [pose proof (not_elem_of_nil x); tauto|].
  rewrite IH, elem_of_cons.
  destruct (touches path s) eqn:E; [rewrite elem_of_union, elem_of_singleton|];
    intuition (subst; auto; congruence).
Qed.

(** The detector reports a surface exactly when some path touches it. *)
Lemma elem_of_detect x paths :
  x ∈ detect_gate_surfaces paths <-> Exists (fun raw => touches (normalise raw) x = true) paths.
Proof.
  unfold detect_gate_surfaces.
  assert (forall (out : gset GateSurface), x ∈ foldl (fun out raw =>
      foldl (fun out s => if touches (normalise raw) s then {[s]} ∪ out else out) out all_surfaces)
      out paths <-> x ∈ out \/ Exists (fun raw => touches (normalise raw) x = true) paths) as Hgen.
  { induction paths as [|raw paths IH]; intros out; cbn [foldl]; [rewrite Exists_nil; tauto|].
    rewrite IH, surface_scan, Exists_cons. pose proof (elem_of_all_surfaces x). tauto. }
  rewrite Hgen. pose proof (not_elem_of_empty (C := gset GateSurface) x). tauto.
Qed.

Lemma detect_app p q :
  detect_gate_surfaces (p ++ q) = detect_gate_surfaces p ∪ detect_gate_surfaces q.
Proof. apply set_eq. intros x. by rewrite elem_of_union, !elem_of_detect, Exists_app. Qed.

Lemma de_phase_to_value p : de_phase (phase_to_value p) = Some p.
Proof. by destruct p. Qed.

Lemma de_verdict_to_value u : de_verdict (verdict_to_value u) = Some u.
Proof. by destruct u as [c [] e]. Qed.

Lemma de_assignment_to_value a : de_assignment (assignment_to_value a) = Some a.
Proof. by destruct a as [[] i]. Qed.

Lemma de_surface_wire s : de_surface (Str (wire_name s)) = Some s.
Proof. by destruct s. Qed.

Lemma list_to_set_hs_iter `{HashSetOrder} s : list_to_set (hs_iter s) = s.
Proof. apply set_eq. intros x. rewrite elem_of_list_to_set, hs_iter_perm. apply elem_of_elements. Qed.

Lemma de_vec_surfaces l : de_vec de_surface (Arr ((fun s => Str (wire_name s)) <$> l)) = Some l.
Proof. apply de_vec_fmap, Forall_forall. intros s _. apply de_surface_wire. Qed.

Lemma de_vec_phases l : de_vec de_phase (Arr (phase_to_value <$> l)) = Some l.
Proof. apply de_vec_fmap, Forall_forall. intros p _. apply de_phase_to_value. Qed.

Lemma de_vec_verdicts l : de_vec de_verdict (Arr (verdict_to_value <$> l)) = Some l.
Proof. apply de_vec_fmap, Forall_forall. intros p _. apply de_verdict_to_value. Qed.

Lemma de_vec_assignments l : de_vec de_assignment (Arr (assignment_to_value <$> l)) = Some l.
Proof. apply de_vec_fmap, Forall_forall. intros p _. apply de_assignment_to_value. Qed.

Lemma de_context_to_value `{HashSetOrder} c : de_context (context_to_value c) = Some c.
Proof.
  destruct c as [[w] l d g p s t]. unfold de_context.
  change (de_fields _ _) with (Some
    [Some (Str w); Some (Str l); Some (Str (domain_wire d)); Some (Str g);
     Some (Arr (phase_to_value <$> p)); Some (Arr ((fun s => Str (wire_name s)) <$> hs_iter s));
     Some (Num (PosInt t))]).
  cbn [de_req mbind option_bind as_str de_u64]. rewrite de_vec_phases, de_vec_surfaces.
  cbn [mbind option_bind]. rewrite list_to_set_hs_iter. by destruct d.
Qed.

(** The sources of the kernel service itself lie under none of the prefixes. *)
Example kernel_service_is_not_a_surface :
  detect_gate_surfaces ["crates/services/safety-kernel/src/routes/authorize.rs";
                        "crates/services/transparency-log/src/routes/append.rs"] = ∅.
Proof. reflexivity. Qed.

(** Only the releaser may sign a closeout. *)
Lemma closeout_signer r : In "aara.sign_closeout_record" (tool_allow_list r) <-> r = RELEASER.
Proof. split; [destruct r; simpl; intuition discriminate|intros ->; simpl; auto]. Qed.
