(* ===== verification/Wave.v ===== *)
(** * Waves: the type-state pipeline, its wire form and the learning record

    Models [crates/domain/src/wave/mod.rs], [verifier.rs] and [learning.rs].  The
    type parameter of [Wave<S>] is an index of the record [Wave]; the transition
    methods are typed by it, so that a pipeline that skips a stage is not a term.
    [built] is how a value of the type comes to be in safe code that does not write
    to its public fields: the transitions and the hand-written [Deserialize]. *)

From S2P Require Import Prelude RustStr Float64 Crates Merkle Json Serde WaveContext.

#[local] Open Scope string_scope.

Inductive WaveState := Planned | Decomposed | Tested | PurpleTeamed | Accepted | Closed.

Record Wave (S : WaveState) := {
  ctx : WaveContext;
  role_assignments : list WaveRoleAssignment;
  adversarial_session : option AdversarialSessionId;
  purple_team_session : option PurpleTeamSessionId;
  uat_verdicts : option (list UatVerdict)
}.
Arguments Build_Wave {S}.
Arguments ctx {S}.
Arguments role_assignments {S}.
Arguments adversarial_session {S}.
Arguments purple_team_session {S}.
Arguments uat_verdicts {S}.

(** ** Transitions *)

Definition wave_new (c : WaveContext) : Wave Planned := Build_Wave c [] None None None.

Definition decompose (w : Wave Planned) (roles : list WaveRoleAssignment) : Wave Decomposed :=
  Build_Wave (ctx w) roles (adversarial_session w) (purple_team_session w) (uat_verdicts w).

Definition run_adversarial_suite (w : Wave Decomposed) (session_id : AdversarialSessionId)
    : Wave Tested :=
  Build_Wave (ctx w) (role_assignments w) (Some session_id) (purple_team_session w) (uat_verdicts w).

Definition run_purple_team (w : Wave Tested) (session_id : PurpleTeamSessionId) : Wave PurpleTeamed :=
  Build_Wave (ctx w) (role_assignments w) (adversarial_session w) (Some session_id) (uat_verdicts w).

(** [GateSurfacePresent] gives the wave back. *)
Definition skip_purple_team_if_no_gate_surface (w : Wave Tested) : res (Wave Tested) (Wave PurpleTeamed) :=
  if requires_purple_team (ctx w) then Err w
  else Ok (Build_Wave (ctx w) (role_assignments w) (adversarial_session w) None (uat_verdicts w)).

Definition run_user_acceptance (w : Wave PurpleTeamed) (verdicts : list UatVerdict) : Wave Accepted :=
  Build_Wave (ctx w) (role_assignments w) (adversarial_session w) (purple_team_session w) (Some verdicts).

(** ** The learning record *)

Record WavePhaseRecord := {
  pr_phase_id : string;
  pr_summary : string;
  pr_nano_model_ids : list string;
  pr_duration_seconds : N
}.

Inductive AdversarialSeverity := Low | Medium | High | Critical.

Record AdversarialFinding := {
  af_fixture_id : string;
  af_description : string;
  af_gate_id : string;
  af_gate_rejected : bool;
  af_severity : AdversarialSeverity;
  af_responsible_model_ids : list string
}.

Inductive PurpleTeamVerdict := PtPass | PtFinding | PtBlocker.

Record PurpleTeamFinding := {
  pf_finding_id : string;
  pf_surface : string;
  pf_verdict : PurpleTeamVerdict;
  pf_description : string
}.

Record GateVerdictSummary := {
  gv_passed : N;
  gv_findings : N;
  gv_blockers : N;
  gv_gate_ids_fired : list string
}.

Record ConstraintLayerResult := {
  cl_accepted : bool;
  cl_constraints_checked : list string;
  cl_constraints_violated : list string;
  cl_note : string
}.

Inductive WaveOutcome := Pass | Partial | Fail.

Definition to_fsrs_u8 (o : WaveOutcome) : N :=
  match o with Pass => 2 | Partial => 1 | Fail => 0 end.

Record WaveLearningRecord := {
  wl_wave_id : WaveId;
  wl_linear_issue : string;
  wl_domain : WaveDomain;
  wl_goal_summary : string;
  wl_adversarial_session : AdversarialSessionId;
  wl_purple_team_session : option PurpleTeamSessionId;
  wl_phases_executed : list WavePhaseRecord;
  wl_gate_verdicts : GateVerdictSummary;
  wl_adversarial_findings : list AdversarialFinding;
  wl_purple_team_findings : list PurpleTeamFinding;
  wl_uat_verdicts : list UatVerdict;
  wl_constraint_layer_result : ConstraintLayerResult;
  wl_outcome : WaveOutcome;
  wl_duration_seconds : N;
  wl_closed_at_epoch : N
}.

#[global] Instance UatOutcome_eq_dec : EqDecision UatOutcome.
Proof. solve_decision. Defined.
#[global] Instance PurpleTeamVerdict_eq_dec : EqDecision PurpleTeamVerdict.
Proof. solve_decision. Defined.

(** The outcome derived by [build_from_closeout]. *)
Definition derive_outcome (gates : GateVerdictSummary) (pt : list PurpleTeamFinding)
    (uat : list UatVerdict) (constraints : ConstraintLayerResult) : WaveOutcome :=
  let has_blocker := ((0 <? gv_blockers gates)%N
    || existsb (fun f => bool_decide (pf_verdict f = PtBlocker)) pt)
    || negb (cl_accepted constraints) in
  let has_uat_fail := existsb (fun v => bool_decide (uv_outcome v = UatFail)) uat in
  let has_partial := (0 <? gv_findings gates)%N
    || existsb (fun v => bool_decide (uv_outcome v = UatPartial)) uat in
  if has_blocker || has_uat_fail then Fail else if has_partial then Partial else Pass.

Definition build_from_closeout (wave_id : WaveId) (linear_issue : string) (domain : WaveDomain)
    (goal_summary : string) (adversarial : AdversarialSessionId)
    (purple : option PurpleTeamSessionId) (phases_executed : list WavePhaseRecord)
    (gates : GateVerdictSummary) (adversarial_findings : list AdversarialFinding)
    (purple_team_findings : list PurpleTeamFinding) (uat : list UatVerdict)
    (constraints : ConstraintLayerResult) (duration_seconds closed_at_epoch : N)
    : WaveLearningRecord :=
  {| wl_wave_id := wave_id; wl_linear_issue := linear_issue; wl_domain := domain;
     wl_goal_summary := goal_summary; wl_adversarial_session := adversarial;
     wl_purple_team_session := purple; wl_phases_executed := phases_executed;
     wl_gate_verdicts := gates; wl_adversarial_findings := adversarial_findings;
     wl_purple_team_findings := purple_team_findings; wl_uat_verdicts := uat;
     wl_constraint_layer_result := constraints;
     wl_outcome := derive_outcome gates purple_team_findings uat constraints;
     wl_duration_seconds := duration_seconds; wl_closed_at_epoch := closed_at_epoch |}.

(** [u32::try_from(n).unwrap_or(u32::MAX)]. *)
Definition u32_or_max (n : N) : N := if (n <=? u32_max)%N then n else u32_max.

Section Closeout.
Context `{HashSetOrder}.

Definition closeout (w : Wave Accepted) (closed_at_epoch : N) : Wave Closed * WaveLearningRecord :=
  let adversarial := default {| aid := "" |} (adversarial_session w) in
  let phases_executed :=
    (fun p => {| pr_phase_id := ph_id p; pr_summary := ph_summary p; pr_nano_model_ids := [];
                 pr_duration_seconds := 0 |}) <$> phases (ctx w) in
  let gates := {| gv_passed := u32_or_max (N.of_nat (size (gate_surfaces (ctx w))));
                  gv_findings := 0; gv_blockers := 0;
                  gv_gate_ids_fired := wire_name <$> hs_iter (gate_surfaces (ctx w)) |} in
  let constraints := {| cl_accepted := true; cl_constraints_checked := [];
                        cl_constraints_violated := [];
                        cl_note := "domain-layer closeout; constraints evaluated by adapter" |} in
  let record := build_from_closeout (wave_id (ctx w)) (linear_issue (ctx w)) (domain (ctx w))
    (goal_summary (ctx w)) adversarial (purple_team_session w) phases_executed gates [] []
    (default [] (uat_verdicts w)) constraints (closed_at_epoch - created_at_epoch (ctx w))
    closed_at_epoch in
  (Build_Wave (ctx w) (role_assignments w) (adversarial_session w) (purple_team_session w)
     (uat_verdicts w), record).

End Closeout.

(** ** The audit-fields predicate ([verifier.rs]) *)

Inductive WaveAuditFieldsError :=
| MissingAdversarialSession
| MissingPurpleTeamSession
| MissingUatVerdicts.

Definition finding_code (e : WaveAuditFieldsError) : string :=
  match e with
  | MissingAdversarialSession => "FINDING-D3"
  | MissingPurpleTeamSession => "FINDING-D1"
  | MissingUatVerdicts => "FINDING-D4"
  end.

Definition require_adversarial_session (a : option AdversarialSessionId) : res WaveAuditFieldsError unit :=
  match a with None => Err MissingAdversarialSession | Some _ => Ok tt end.

Definition require_purple_team_if_gate_surface (c : WaveContext) (p : option PurpleTeamSessionId)
    : res WaveAuditFieldsError unit :=
  if requires_purple_team c && match p with None => true | Some _ => false end
  then Err MissingPurpleTeamSession else Ok tt.

Definition require_uat_verdicts (u : option (list UatVerdict)) : res WaveAuditFieldsError unit :=
  match u with None => Err MissingUatVerdicts | Some _ => Ok tt end.

(** One implementation per state. *)
Definition validate_wire_fields (S : WaveState) (c : WaveContext) (a : option AdversarialSessionId)
    (p : option PurpleTeamSessionId) (u : option (list UatVerdict)) : res WaveAuditFieldsError unit :=
  match S with
  | Planned | Decomposed => Ok tt
  | Tested => require_adversarial_session a
  | PurpleTeamed =>
    let? _ := require_adversarial_session a in require_purple_team_if_gate_surface c p
  | Accepted | Closed =>
    let? _ := require_adversarial_session a in
    let? _ := require_purple_team_if_gate_surface c p in
    require_uat_verdicts u
  end.

Definition verify_wave_audit_fields {S} (w : Wave S) : res WaveAuditFieldsError unit :=
  validate_wire_fields S (ctx w) (adversarial_session w) (purple_team_session w) (uat_verdicts w).

(** ** Wire form *)

(** A failed [serde_json::from_value::<Wave<S>>]. *)
Inductive WaveDeError :=
| Malformed
| Elided (e : WaveAuditFieldsError).

Definition wave_to_value `{HashSetOrder} {S} (w : Wave S) : Value :=
  jobj [("ctx", context_to_value (ctx w));
        ("role_assignments", Arr (assignment_to_value <$> role_assignments w));
        ("adversarial_session", opt_value (fun a => Str (aid a)) (adversarial_session w));
        ("purple_team_session", opt_value (fun p => Str (pid p)) (purple_team_session w));
        ("uat_verdicts", opt_value (fun l => Arr (verdict_to_value <$> l)) (uat_verdicts w));
        ("_state", Null)].

Record WaveWireForm := {
  wf_ctx : WaveContext;
  wf_role_assignments : list WaveRoleAssignment;
  wf_adversarial_session : option AdversarialSessionId;
  wf_purple_team_session : option PurpleTeamSessionId;
  wf_uat_verdicts : option (list UatVerdict)
}.

Definition de_aid (v : Value) : option AdversarialSessionId := Build_AdversarialSessionId <$> as_str v.
Definition de_pid (v : Value) : option PurpleTeamSessionId := Build_PurpleTeamSessionId <$> as_str v.

Definition de_wire_form (v : Value) : option WaveWireForm :=
  match de_fields ["ctx"; "role_assignments"; "adversarial_session"; "purple_team_session";
                   "uat_verdicts"] v with
  | Some [c; r; a; p; u] =>
    c ← de_req de_context c;
    r ← de_req (de_vec de_assignment) r;
    a ← de_option de_aid a;
    p ← de_option de_pid p;
    u ← de_option (de_vec de_verdict) u;
    Some {| wf_ctx := c; wf_role_assignments := r; wf_adversarial_session := a;
            wf_purple_team_session := p; wf_uat_verdicts := u |}
  | _ => None
  end.

(** [Deserialize for Wave<S>]. *)
Definition de_wave (S : WaveState) (v : Value) : res WaveDeError (Wave S) :=
  let? wire := ok_or Malformed (de_wire_form v) in
  let? _ := map_err Elided (validate_wire_fields S (wf_ctx wire) (wf_adversarial_session wire)
                              (wf_purple_team_session wire) (wf_uat_verdicts wire)) in
  Ok (Build_Wave (wf_ctx wire) (wf_role_assignments wire) (wf_adversarial_session wire)
        (wf_purple_team_session wire) (wf_uat_verdicts wire)).

(** ** Summaries of a record *)

Definition LTP_SUMMARY_MAX_CHARS : nat := 200.

(** Phases in order, ids in order, each kept the first time it is seen. *)
Definition all_nano_model_ids (r : WaveLearningRecord) : list string :=
  snd (foldl (fun st phase =>
    foldl (fun '(seen, out) id =>
      if bool_decide (id ∈ seen) then (seen, out) else ({[id]} ∪ seen, (out ++ [id])%list))
      st (pr_nano_model_ids phase)) (∅ : gset string, []) (wl_phases_executed r)).

(** [s.chars().count()]. *)
Fixpoint char_count (s : string) : nat :=
  match s with
  | EmptyString => 0
  | String a s => if cont a then char_count s else S (char_count s)
  end.

Definition truncate_chars (s : string) (max_chars : nat) : string :=
  if (char_count s <=? max_chars)%nat then s else take_chars max_chars s.

(** A line break at the head of a string: its length in bytes, 0 if there is none.
    LF, VT, FF and CR; then U+0085; then U+2028 and U+2029. *)
Definition break_here (s : string) : nat :=
  match s with
  | EmptyString => 0
  | String a s =>
    if within 10 13 a then 1 else
    match s with
    | EmptyString => 0
    | String b s =>
      if ((code a =? 194) && (code b =? 133))%N then 2 else
      match s with
      | EmptyString => 0
      | String c _ =>
        if ((code a =? 226) && (code b =? 128) && ((code c =? 168) || (code c =? 169)))%N then 3 else 0
      end
    end
  end.

(** [skip] counts the bytes of the break that are still to be passed over. *)
Fixpoint sanitize_from (skip : nat) (s : string) : string :=
  match s with
  | EmptyString => EmptyString
  | String a s' =>
    match skip with
    | S skip => sanitize_from skip s'
    | O =>
      match break_here s with
      | O => String a (sanitize_from 0 s')
      | S n => String " " (sanitize_from n s')
      end
    end
  end.

Definition sanitize_inline (s : string) : string := sanitize_from 0 s.

Definition outcome_word (o : WaveOutcome) : string :=
  match o with Pass => "PASS" | Partial => "PARTIAL" | Fail => "FAIL" end.

Definition ltp_raw (r : WaveLearningRecord) : string :=
  "- " +:+ wid (wl_wave_id r) +:+ " [" +:+ domain_wire (wl_domain r) +:+ "] " +:+
  outcome_word (wl_outcome r) +:+ ": " +:+ sanitize_inline (wl_goal_summary r) +:+
  " (gates p/f/b=" +:+ u64_to_string (gv_passed (wl_gate_verdicts r)) +:+ "/" +:+
  u64_to_string (gv_findings (wl_gate_verdicts r)) +:+ "/" +:+
  u64_to_string (gv_blockers (wl_gate_verdicts r)) +:+ ")".

Definition to_ltp_summary (r : WaveLearningRecord) : string :=
  truncate_chars (ltp_raw r) LTP_SUMMARY_MAX_CHARS.

(** ** How a [Wave<S>] comes to be *)

Section Built.
Context `{HashSetOrder}.

Inductive built : forall S, Wave S -> Prop :=
| built_new c : built Planned (wave_new c)
| built_decompose w roles : built Planned w -> built Decomposed (decompose w roles)
| built_tested w sid : built Decomposed w -> built Tested (run_adversarial_suite w sid)
| built_purple w sid : built Tested w -> built PurpleTeamed (run_purple_team w sid)
| built_skip w w' : built Tested w -> skip_purple_team_if_no_gate_surface w = Ok w' ->
                    built PurpleTeamed w'
| built_accepted w verdicts : built PurpleTeamed w -> built Accepted (run_user_acceptance w verdicts)
| built_closed w t : built Accepted w -> built Closed (fst (closeout w t))
| built_read S v w : de_wave S v = Ok w -> built S w.

Definition stage (S : WaveState) : nat :=
  match S with
  | Planned => 0
  | Decomposed => 1
  | Tested => 2
  | PurpleTeamed => 3
  | Accepted => 4
  | Closed => 5
  end.

(** The evidence of the stages that a state implies. *)
Definition evidence (S : WaveState) (c : WaveContext) (a : option AdversarialSessionId)
    (p : option PurpleTeamSessionId) (u : option (list UatVerdict)) : Prop :=
  ((stage Tested <= stage S)%nat -> is_Some a) /\
  ((stage PurpleTeamed <= stage S)%nat -> gate_surfaces c <> ∅ -> is_Some p) /\
  ((stage Accepted <= stage S)%nat -> is_Some u).

Lemma requires_purple_team_iff c : requires_purple_team c = true <-> gate_surfaces c <> ∅.
Proof. unfold requires_purple_team. by rewrite negb_true_iff, bool_decide_eq_false. Qed.

Lemma require_purple_iff c p :
  require_purple_team_if_gate_surface c p = Ok tt <-> (gate_surfaces c <> ∅ -> is_Some p).
Proof.
  unfold require_purple_team_if_gate_surface. rewrite <-requires_purple_team_iff.
  destruct (requires_purple_team c), p; simpl; split; try done.
  intros [? ?]; done.
Qed.

Lemma and_then_ok (r k : res WaveAuditFieldsError unit) :
  res_bind r (fun _ => k) = Ok tt <-> r = Ok tt /\ k = Ok tt.
Proof. destruct r as [[]|e|]; simpl; naive_solver. Qed.

Lemma require_adversarial_iff a : require_adversarial_session a = Ok tt <-> is_Some a.
Proof. destruct a; simpl; split; (eauto || by inversion 1). Qed.

Lemma require_uat_iff u : require_uat_verdicts u = Ok tt <-> is_Some u.
Proof. destruct u; simpl; split; (eauto || by inversion 1). Qed.

Lemma validate_iff S c a p u : validate_wire_fields S c a p u = Ok tt <-> evidence S c a p u.
Proof.
  unfold evidence. rewrite <-require_purple_iff, <-require_adversarial_iff, <-require_uat_iff.
  destruct S; cbn [validate_wire_fields stage]; rewrite ?and_then_ok;
    generalize (require_adversarial_session a = Ok tt), (require_uat_verdicts u = Ok tt),
      (require_purple_team_if_gate_surface c p = Ok tt).
  all: intros A U P'; split; [intros HA; split_and!; intros ?; tauto || lia|intros (H1 & H2 & H3)].
  all: repeat match goal with
    | Hx : (_ <= _)%nat -> _ |- _ => first [specialize (Hx ltac:(lia)) | clear Hx]
    end; tauto.
Qed.

Definition audited {S} (w : Wave S) : Prop :=
  evidence S (ctx w) (adversarial_session w) (purple_team_session w) (uat_verdicts w).

Lemma verify_iff {S} (w : Wave S) : verify_wave_audit_fields w = Ok tt <-> audited w.
Proof. apply validate_iff. Qed.

Lemma evidence_weaken S S' c a p u :
  (stage S' <= stage S)%nat -> evidence S c a p u -> evidence S' c a p u.
Proof. intros Hle (Ha & Hp & Hu). split_and!; intros ?; [apply Ha|apply Hp|apply Hu]; lia. Qed.

(** The same data under another state. *)
Definition retag {S} (S' : WaveState) (w : Wave S) : Wave S' :=
  Build_Wave (ctx w) (role_assignments w) (adversarial_session w) (purple_team_session w)
    (uat_verdicts w).

Lemma de_wave_audited S v w : de_wave S v = Ok w -> audited w.
Proof.
  unfold de_wave. destruct (de_wire_form v) as [wire|]; [|done]. simpl.
  destruct (validate_wire_fields _ _ _ _ _) as [[]|e|] eqn:E; [|done|done].
  intros [= <-]. by apply validate_iff.
Qed.

Lemma de_wire_form_to_value {S} (w : Wave S) :
  de_wire_form (wave_to_value w) = Some
    {| wf_ctx := ctx w; wf_role_assignments := role_assignments w;
       wf_adversarial_session := adversarial_session w;
       wf_purple_team_session := purple_team_session w; wf_uat_verdicts := uat_verdicts w |}.
Proof.
  unfold de_wire_form.
  change (de_fields _ _) with (Some
    [Some (context_to_value (ctx w)); Some (Arr (assignment_to_value <$> role_assignments w));
     Some (opt_value (fun a => Str (aid a)) (adversarial_session w));
     Some (opt_value (fun p => Str (pid p)) (purple_team_session w));
     Some (opt_value (fun l => Arr (verdict_to_value <$> l)) (uat_verdicts w))]).
  cbn [de_req mbind option_bind]. rewrite de_context_to_value, de_vec_assignments.
  cbn [mbind option_bind]. unfold opt_value.
  rewrite (de_option_map (fun a => Str (aid a))) by (by intros []).
  rewrite (de_option_map (fun p => Str (pid p))) by (by intros []).
  rewrite (de_option_map (fun l => Arr (verdict_to_value <$> l)))
    by (intros l _; split; [apply de_vec_verdicts|done]).
  done.
Qed.

Lemma de_wave_to_value {S} S' (w : Wave S) :
  de_wave S' (wave_to_value w) =
  res_bind (map_err Elided (validate_wire_fields S' (ctx w) (adversarial_session w)
                              (purple_team_session w) (uat_verdicts w))) (fun _ => Ok (retag S' w)).
Proof. unfold de_wave. by rewrite de_wire_form_to_value. Qed.

Lemma de_wave_iff {S} S' (w : Wave S) :
  de_wave S' (wave_to_value w) = Ok (retag S' w) <-> audited (retag S' w).
Proof.
  rewrite de_wave_to_value, <-verify_iff. unfold verify_wave_audit_fields. simpl.
  by destruct (validate_wire_fields _ _ _ _ _) as [[]|e|].
Qed.

Lemma built_audited S (w : Wave S) : built S w -> audited w.
Proof.
  intros Hb.
  induction Hb as [c|w roles _ IH|w sid _ IH|w sid _ (IH & _ & _)|w w' _ (IH & _ & _) Hskip|
                   w v _ (IHa & IHp & _)|w t _ IH|S v w Hde].
  - split_and!; simpl; intros; lia.
  - split_and!; simpl; intros; lia.
  - split_and!; simpl; intros; [eauto|lia..].
  - split_and!; simpl; intros; [apply IH; simpl; lia|eauto|lia].
  - unfold skip_purple_team_if_no_gate_surface in Hskip.
    destruct (requires_purple_team (ctx w)) eqn:E; [done|]. injection Hskip as <-.
    split_and!; simpl; [intros _; apply IH; simpl; lia| |lia].
    intros _ Hne. exfalso. apply requires_purple_team_iff in Hne. congruence.
  - split_and!; simpl; [intros _; apply IHa; simpl; lia|intros _; apply IHp; simpl; lia|eauto].
  - destruct IH as (Ha & Hp & Hu).
    split_and!; simpl in *; intros ?; [apply Ha|apply Hp|apply Hu]; lia.
  - by eapply de_wave_audited.
Qed.

(** C23.  No stage can be skipped: however a wave of some state came to be -- through
    the transitions or read from JSON -- it carries an adversarial session from
    Tested on, a purple-team session from PurpleTeamed on unless it touches no gate
    surface, and user-acceptance verdicts from Accepted on; it passes its own audit;
    and the record of its closeout names those sessions and verdicts. *)
Theorem no_stage_is_skipped S (w : Wave S) :
  built S w ->
  verify_wave_audit_fields w = Ok tt /\
  ((stage Tested <= stage S)%nat -> is_Some (adversarial_session w)) /\
  ((stage PurpleTeamed <= stage S)%nat ->
     is_Some (purple_team_session w) \/ requires_purple_team (ctx w) = false) /\
  ((stage Accepted <= stage S)%nat -> is_Some (uat_verdicts w)) /\
  forall a t, built Accepted a ->
    let r := snd (closeout a t) in
    adversarial_session a = Some (wl_adversarial_session r) /\
    purple_team_session a = wl_purple_team_session r /\
    uat_verdicts a = Some (wl_uat_verdicts r).
Proof.
  intros Hb%built_audited. split; [by apply verify_iff|]. destruct Hb as (Ha & Hp & Hu).
  split_and!; [done| |done|].
  - intros Hs. destruct (requires_purple_team (ctx w)) eqn:E; [left|by right].
    apply Hp; [done|]. by apply requires_purple_team_iff.
  - intros a t (Haa & _ & Hua)%built_audited. simpl.
    destruct Haa as [x ->]; [simpl; lia|]. destruct Hua as [u ->]; [simpl; lia|]. done.
Qed.

(** The wire form is faithful and no more: reading back what a wave was
    written as, under its own state, gives the wave; under another state it succeeds
    exactly when the data carry the evidence of that state, and otherwise names the
    first stage that is missing.  So an accepted wave reads back as a closed one,
    equal to what [closeout] returns, without a closeout. *)
Theorem wave_wire_roundtrip S (w : Wave S) :
  (built S w -> de_wave S (wave_to_value w) = Ok w) /\
  (forall S', de_wave S' (wave_to_value w) = Ok (retag S' w) <-> audited (retag S' w)) /\
  (forall S', (stage Tested <= stage S')%nat -> adversarial_session w = None ->
    de_wave S' (wave_to_value w) = Err (Elided MissingAdversarialSession)) /\
  (forall t (a : Wave Accepted), built Accepted a ->
    de_wave Closed (wave_to_value a) = Ok (fst (closeout a t))).
Proof.
  split_and!.
  - intros Hb. pose proof (built_audited S w Hb) as Ha.
    rewrite (proj2 (de_wave_iff S w)); [by destruct w|done].
  - intros S'. apply (de_wave_iff S' w).
  - intros S' Hle Hn. rewrite de_wave_to_value, Hn. by destruct S'; simpl in Hle; try lia.
  - intros t a Hb. pose proof (built_audited _ a Hb) as Ha.
    rewrite (proj2 (de_wave_iff Closed a)); [done|].
    destruct Ha as (H1 & H2 & H3). split_and!; simpl in *; intros; [apply H1|apply H2|apply H3]; auto; lia.
Qed.

Lemma existsb_outcome o (l : list UatVerdict) :
  existsb (fun v => bool_decide (uv_outcome v = o)) l = true <-> Exists (fun v => uv_outcome v = o) l.
Proof.
  induction l as [|v l IH]; simpl; [rewrite Exists_nil; done|].
  by rewrite orb_true_iff, bool_decide_eq_true, Exists_cons, IH.
Qed.

Lemma no_fail_no_partial (l : list UatVerdict) :
  Forall (fun v => uv_outcome v = UatPass \/ uv_outcome v = UatNotTested) l <->
  ~ Exists (fun v => uv_outcome v = UatFail) l /\ ~ Exists (fun v => uv_outcome v = UatPartial) l.
Proof.
  induction l as [|v l IH]; [rewrite Forall_nil, !Exists_nil; tauto|].
  rewrite Forall_cons, !Exists_cons, IH. destruct (uv_outcome v); intuition discriminate.
Qed.

(** The grade of a closeout is that of the user acceptance alone: Fail exactly
    when some verdict failed, Partial when none did and some was partial, Pass when
    every verdict passed or was not tested at all -- none included; the constraint
    layer counts as accepted; the gates listed are the wave's surfaces, each once, and
    the duration saturates at zero. *)
Theorem closeout_grades w t :
  let r := snd (closeout w t) in
  let verdicts := default [] (uat_verdicts w) in
  (wl_outcome r = Fail <-> Exists (fun v => uv_outcome v = UatFail) verdicts) /\
  (wl_outcome r = Pass <->
     Forall (fun v => uv_outcome v = UatPass \/ uv_outcome v = UatNotTested) verdicts) /\
  cl_accepted (wl_constraint_layer_result r) = true /\
  gv_gate_ids_fired (wl_gate_verdicts r) ≡ₚ (wire_name <$> elements (gate_surfaces (ctx w))) /\
  (wl_duration_seconds r + N.min t (created_at_epoch (ctx w)) = t)%N.
Proof.
  cbv zeta. set (l := default [] (uat_verdicts w)).
  assert (wl_outcome (snd (closeout w t)) =
    if existsb (fun v => bool_decide (uv_outcome v = UatFail)) l then Fail
    else if existsb (fun v => bool_decide (uv_outcome v = UatPartial)) l then Partial else Pass)
    as -> by reflexivity.
  rewrite no_fail_no_partial, <-!existsb_outcome.
  split_and!; [|by repeat destruct (existsb _ _); naive_solver..|done| |].
  - by repeat destruct (existsb _ _).
  - simpl. by rewrite hs_iter_perm.
  - simpl. lia.
Qed.

End Built.

(** ** The one-line summary *)

Lemma char_count_take n s : (char_count (take_chars n s) <= n)%nat.
Proof.
  revert n. induction s as [|a s IH]; intros n; simpl; [lia|].
  destruct (cont a) eqn:E; [simpl; rewrite E; apply IH|].
  destruct n; simpl; [lia|]. rewrite E. specialize (IH n). lia.
Qed.

(** Some line break somewhere in the string. *)
Fixpoint has_break (s : string) : bool :=
  match s with
  | EmptyString => false
  | String a s' => negb (break_here s =? 0)%nat || has_break s'
  end.

#[local] Arguments String.append !_ _ / : simpl nomatch.

Definition ascii_inline (a : ascii) : bool := (code a <? 128)%N && negb (within 10 13 a).

Ltac codes := repeat match goal with
  | H : andb _ _ = true |- _ => apply andb_true_iff in H as [? ?]
  | H : negb _ = true |- _ => apply negb_true_iff in H
  | H : (_ <? _)%N = true |- _ => apply N.ltb_lt in H
  end.

(** An ASCII character that is no break neither starts nor continues one. *)
Lemma ascii_inline_spec a : ascii_inline a = true ->
  within 10 13 a = false /\ (code a =? 194)%N = false /\ (code a =? 226)%N = false /\
  (code a =? 133)%N = false /\ (code a =? 128)%N = false /\
  (code a =? 168)%N = false /\ (code a =? 169)%N = false.
Proof. unfold ascii_inline. intros H. codes. split_and!; [done|apply N.eqb_neq; lia..]. Qed.

Lemma break_here_cons a t : ascii_inline a = true -> break_here (String a t) = 0%nat.
Proof.
  intros (E1 & E2 & E3 & _)%ascii_inline_spec. cbn [break_here]. rewrite E1, E2, E3.
  by destruct t as [|b [|c t]].
Qed.

Lemma break_here_app x s a t : ascii_inline a = true ->
  break_here (String x s +:+ String a t) = break_here (String x s).
Proof.
  intros (_ & _ & _ & E4 & E5 & E6 & E7)%ascii_inline_spec.
  destruct s as [|y [|z s]]; simpl; rewrite ?E4, ?E5, ?E6, ?E7, ?andb_false_r; simpl.
  - destruct (within 10 13 x); [done|]. by destruct t.
  - done.
  - done.
Qed.

(** A break is in the string before an ASCII character or in the one after it. *)
Lemma has_break_app s a t :
  ascii_inline a = true -> has_break (s +:+ String a t) = has_break s || has_break t.
Proof.
  intros Ha. induction s as [|x s IH].
  - change (has_break (String a t) = has_break t). cbn [has_break]. by rewrite break_here_cons.
  - pose proof (break_here_app x s a t Ha) as E. simpl in *. by rewrite E, IH, orb_assoc.
Qed.

Lemma has_break_cons a t : ascii_inline a = true -> has_break (String a t) = has_break t.
Proof. apply (has_break_app EmptyString). Qed.

Lemma plain_inline s : all_plain s = true -> has_break s = false.
Proof.
  induction s as [|a s IH]; [done|]. intros [Ha Hs]%andb_true_iff.
  rewrite has_break_cons; [by apply IH|]. unfold plain, ascii_inline, within in *. codes.
  apply andb_true_iff. split; [apply N.ltb_lt; lia|].
  apply negb_true_iff, andb_false_iff. right. apply N.leb_gt.
  match goal with H : (_ <=? _)%N = true |- _ => apply N.leb_le in H end. lia.
Qed.

Lemma sanitize_head a s :
  break_here (String a s) = 0%nat -> break_here (String a (sanitize_from 0 s)) = 0%nat.
Proof.
  destruct s as [|b s]; [done|]. cbn [sanitize_from].
  destruct (break_here (String b s)) as [|n] eqn:Eb; cbn [break_here];
    (destruct (within 10 13 a); [done|]).
  - destruct ((code a =? 194) && (code b =? 133))%N; [done|].
    destruct s as [|c s]; [done|]. cbn [sanitize_from].
    destruct (break_here (String c s)); [done|]. intros _.
    change (code " "%char) with 32%N. cbn. by rewrite andb_false_r.
  - intros _. change (code " "%char =? 133)%N with false. change (code " "%char =? 128)%N with false.
    rewrite !andb_false_r. by destruct (sanitize_from n s).
Qed.

Lemma sanitized k s : has_break (sanitize_from k s) = false.
Proof.
  revert k. induction s as [|a s IH]; intros k; [done|]. cbn [sanitize_from].
  destruct k as [|k]; [|apply IH]. destruct (break_here (String a s)) as [|n] eqn:E.
  - cbn [has_break]. by rewrite sanitize_head, IH.
  - by rewrite has_break_cons, IH.
Qed.

Lemma break_here_prefix p q : break_here p <> 0%nat -> break_here (p +:+ q) = break_here p.
Proof.
  destruct p as [|x [|y [|z p]]]; simpl; repeat case_match; try done.
Qed.

Lemma has_break_prefix p q : has_break (p +:+ q) = false -> has_break p = false.
Proof.
  induction p as [|a p IH]; [done|].
  change (has_break (String a (p +:+ q)) = false -> has_break (String a p) = false).
  cbn [has_break]. intros [Hh Ht]%orb_false_iff. apply orb_false_iff. split; [|by apply IH].
  apply negb_false_iff, Nat.eqb_eq in Hh. apply negb_false_iff, Nat.eqb_eq.
  destruct (decide (break_here (String a p) = 0%nat)) as [|Hne]; [done|].
  apply (break_here_prefix _ q) in Hne as E.
  change (break_here (String a (p +:+ q)) = break_here (String a p)) in E. congruence.
Qed.

Lemma take_chars_prefix n s : exists q, s = take_chars n s +:+ q.
Proof.
  revert n. induction s as [|a s IH]; intros n; simpl; [by exists EmptyString|].
  destruct (cont a); [destruct (IH n) as [q E]|destruct n as [|n]; [|destruct (IH n) as [q E]]].
  - exists q. simpl. by f_equal.
  - by exists (String a s).
  - exists q. simpl. by f_equal.
Qed.

Definition gates_in_range (g : GateVerdictSummary) : Prop :=
  (gv_passed g <= u32_max /\ gv_findings g <= u32_max /\ gv_blockers g <= u32_max)%N.

Lemma u32_inline n : (n <= u32_max)%N -> has_break (u64_to_string n) = false.
Proof. intros Hn. apply plain_inline, u64_to_string_plain. unfold u32_max, u64_max in *. lia. Qed.

Lemma has_break_lead sep t : string_forall ascii_inline sep = true -> has_break (sep +:+ t) = has_break t.
Proof.
  induction sep as [|a sep IH]; [done|]. intros [Ha Hs]%andb_true_iff.
  change (has_break (String a (sep +:+ t)) = has_break t). by rewrite has_break_cons, IH.
Qed.

(** Inline separators keep the breaks of what they separate apart. *)
Lemma has_break_sep s a sep t : string_forall ascii_inline (String a sep) = true ->
  has_break (s +:+ (String a sep +:+ t)) = has_break s || has_break t.
Proof.
  intros [Ha Hs]%andb_true_iff. change (String a sep +:+ t) with (String a (sep +:+ t)).
  by rewrite has_break_app, has_break_lead.
Qed.

Lemma ltp_raw_breaks r :
  gates_in_range (wl_gate_verdicts r) -> has_break (ltp_raw r) = has_break (wid (wl_wave_id r)).
Proof.
  intros (Hp & Hf & Hb). unfold ltp_raw.
  rewrite has_break_lead by reflexivity. rewrite !has_break_sep by reflexivity.
  rewrite (has_break_app _ ")"%char EmptyString) by reflexivity.
  rewrite !u32_inline by done. unfold sanitize_inline. rewrite sanitized.
  destruct (wl_domain r), (wl_outcome r); by rewrite ?orb_false_r.
Qed.

(** The LTP entry fits its index: it is never longer than 200 characters, and
    it is one line exactly when the wave's identifier is -- whatever the goal holds,
    when it need not be cut.  Only the goal is sanitised, so an identifier with a
    line break writes a second line of its own choosing into the index. *)
Theorem ltp_summary_fits r :
  gates_in_range (wl_gate_verdicts r) ->
  (char_count (to_ltp_summary r) <= LTP_SUMMARY_MAX_CHARS)%nat /\
  (has_break (wid (wl_wave_id r)) = false -> has_break (to_ltp_summary r) = false) /\
  ((char_count (ltp_raw r) <= LTP_SUMMARY_MAX_CHARS)%nat ->
   has_break (to_ltp_summary r) = has_break (wid (wl_wave_id r))).
Proof.
  intros Hg. pose proof (ltp_raw_breaks r Hg) as E. unfold to_ltp_summary, truncate_chars.
  destruct (Nat.leb_spec (char_count (ltp_raw r)) LTP_SUMMARY_MAX_CHARS) as [Hle|Hgt].
  - by rewrite E.
  - split_and!; [apply char_count_take| |lia].
    intros Hw. rewrite Hw in E.
    destruct (take_chars_prefix LTP_SUMMARY_MAX_CHARS (ltp_raw r)) as [q Eq].
    rewrite Eq in E. by apply has_break_prefix in E.
Qed.

(** ** Witnesses *)

Module Demo.

#[local] Instance by_elements : HashSetOrder.
Proof. by refine {| hs_iter s := elements s |}. Defined.

Definition kernel_ctx (id : string) (surfaces : gset GateSurface) : WaveContext := {|
  wave_id := {| wid := id |}; linear_issue := "K-1"; domain := Platform; goal_summary := "harden";
  phases := [{| ph_id := "p1"; ph_summary := "build" |}]; gate_surfaces := surfaces;
  created_at_epoch := 100 |}.

Definition verdict (o : UatOutcome) : UatVerdict := {|
  uv_criterion_id := "AC1"; uv_outcome := o; uv_evidence := "log" |}.

Definition tested (id : string) (surfaces : gset GateSurface) : Wave Tested :=
  run_adversarial_suite (decompose (wave_new (kernel_ctx id surfaces)) []) {| aid := "adv-1" |}.

Definition accepted : Wave Accepted :=
  run_user_acceptance (run_purple_team (tested "w-1" {[SafetyKernel]}) {| pid := "pt-1" |})
    [verdict UatNotTested].

Lemma accepted_built : built Accepted accepted.
Proof. repeat constructor. Qed.

(** The derived serialiser writes the type-state's witness too; reading ignores it. *)
Example state_is_written_as_null :
  match wave_to_value accepted with Obj m => bt_get "_state" m | _ => None end = Some Null.
Proof. vm_compute. reflexivity. Qed.

(** The purple team cannot be skipped here, the closed wave carries all three
    sessions, and a verdict that was not tested closes as a pass. *)
Lemma no_stage_is_skipped_witness :
  skip_purple_team_if_no_gate_surface (tested "w-1" {[SafetyKernel]}) =
    Err (tested "w-1" {[SafetyKernel]}) /\
  verify_wave_audit_fields (fst (closeout accepted 160)) = Ok tt /\
  is_Some (adversarial_session (fst (closeout accepted 160))) /\
  wl_outcome (snd (closeout accepted 160)) = Pass.
Proof.
  destruct (no_stage_is_skipped Closed (fst (closeout accepted 160))
    (built_closed _ 160 accepted_built)) as (Hv & Ha & _).
  split; [vm_compute; reflexivity|]. split; [exact Hv|]. split; [|vm_compute; reflexivity].
  apply Ha. simpl. lia.
Defined.

(** An accepted wave becomes a closed one by way of JSON; a planned one does not. *)
Lemma wave_wire_roundtrip_witness :
  de_wave Accepted (wave_to_value accepted) = Ok accepted /\
  de_wave Closed (wave_to_value accepted) = Ok (fst (closeout accepted 160)) /\
  de_wave Closed (wave_to_value (wave_new (kernel_ctx "w-2" ∅))) =
    Err (Elided MissingAdversarialSession).
Proof.
  destruct (wave_wire_roundtrip Accepted accepted) as (H1 & _ & _ & H4).
  destruct (wave_wire_roundtrip Planned (wave_new (kernel_ctx "w-2" ∅))) as (_ & _ & H3 & _).
  split; [exact (H1 accepted_built)|]. split; [exact (H4 160%N accepted accepted_built)|].
  apply H3; [simpl; lia|reflexivity].
Defined.

(** The record of a wave whose identifier holds a line feed. *)
Definition smuggled : WaveLearningRecord :=
  snd (closeout (run_user_acceptance (run_purple_team
    (tested ("w" +:+ String "010"%char "- forged entry") ∅) {| pid := "pt-1" |}) []) 160).

Lemma ltp_summary_fits_witness :
  has_break (to_ltp_summary smuggled) = true /\
  (char_count (to_ltp_summary smuggled) <= LTP_SUMMARY_MAX_CHARS)%nat.
Proof.
  destruct (ltp_summary_fits smuggled) as (Hc & _ & Hb); [vm_compute; repeat split; discriminate|].
  split; [|exact Hc]. rewrite Hb by (vm_compute; lia). reflexivity.
Defined.

End Demo.
