(* ===== verification/WaveSession.v ===== *)
(** * Wave session records

    Models [crates/domain/src/wave/stage.rs] and [session_record.rs]: the record of
    one ceremony stage, its canonical bytes, the idempotency key the ledger indexes
    on, and the completeness predicate of a wave's chain. *)

From S2P Require Import Prelude RustStr Float64 Crates Merkle Json Serde Token Revoke WaveContext.

#[local] Open Scope string_scope.

(** ** Stages and outcomes *)

Inductive WaveStage := Planned | Decomposed | Tested | PurpleTeamed | Accepted | Closed.

Inductive WaveOutcome := Pass | Fail | Partial | NotTested.

#[global] Instance WaveStage_eq_dec : EqDecision WaveStage.
Proof. solve_decision. Defined.

(** The derived order. *)
Definition stage_index (s : WaveStage) : nat :=
  match s with
  | Planned => 0
  | Decomposed => 1
  | Tested => 2
  | PurpleTeamed => 3
  | Accepted => 4
  | Closed => 5
  end.

Definition all_stages : list WaveStage := [Planned; Decomposed; Tested; PurpleTeamed; Accepted; Closed].

Definition unconditionally_required : list WaveStage := [Tested; Accepted; Closed].

Definition stage_wire_name (s : WaveStage) : string :=
  match s with
  | Planned => "PLANNED"
  | Decomposed => "DECOMPOSED"
  | Tested => "TESTED"
  | PurpleTeamed => "PURPLE_TEAMED"
  | Accepted => "ACCEPTED"
  | Closed => "CLOSED"
  end.

Definition outcome_wire_name (o : WaveOutcome) : string :=
  match o with
  | Pass => "PASS"
  | Fail => "FAIL"
  | Partial => "PARTIAL"
  | NotTested => "NOT_TESTED"
  end.

(** ** The record *)

Record WaveSessionRecord := {
  ws_evidence : string;
  ws_gate_surfaces : gset GateSurface;
  ws_linear_issue : string;
  ws_occurred_at_epoch_seconds : N;
  ws_outcome : WaveOutcome;
  ws_session_id : string;
  ws_stage : WaveStage;
  ws_wave_id : WaveId;
  ws_written_by : string
}.

Definition session_to_value (r : WaveSessionRecord) : Value :=
  Obj [("evidence", Str (ws_evidence r));
       ("gate_surfaces", Arr ((fun s => Str (wire_name s)) <$> btree_elems (ws_gate_surfaces r)));
       ("linear_issue", Str (ws_linear_issue r));
       ("occurred_at_epoch_seconds", Num (PosInt (ws_occurred_at_epoch_seconds r)));
       ("outcome", Str (outcome_wire_name (ws_outcome r)));
       ("session_id", Str (ws_session_id r));
       ("stage", Str (stage_wire_name (ws_stage r)));
       ("wave_id", Str (wid (ws_wave_id r)));
       ("written_by", Str (ws_written_by r))].

Definition outcome_names : list (string * WaveOutcome) :=
  (fun o => (outcome_wire_name o, o)) <$> [Pass; Fail; Partial; NotTested].
Definition stage_names : list (string * WaveStage) := (fun s => (stage_wire_name s, s)) <$> all_stages.

(** Unknown members are refused. *)
Definition de_session (v : Value) : option WaveSessionRecord :=
  match de_fields_strict ["evidence"; "gate_surfaces"; "linear_issue"; "occurred_at_epoch_seconds";
                          "outcome"; "session_id"; "stage"; "wave_id"; "written_by"] v with
  | Some [e; g; l; t; o; i; s; w; b] =>
    e ← de_req as_str e;
    g ← de_req (de_vec de_surface) g;
    l ← de_req as_str l;
    t ← de_req de_u64 t;
    o ← de_req (de_unit_variant outcome_names) o;
    i ← de_req as_str i;
    s ← de_req (de_unit_variant stage_names) s;
    w ← de_req as_str w;
    b ← de_req as_str b;
    Some {| ws_evidence := e; ws_gate_surfaces := list_to_set g; ws_linear_issue := l;
            ws_occurred_at_epoch_seconds := t; ws_outcome := o; ws_session_id := i; ws_stage := s;
            ws_wave_id := {| wid := w |}; ws_written_by := b |}
  | _ => None
  end.

(** ** Completeness of a chain *)

Definition all_required_stages_present (records : list WaveSessionRecord) : bool :=
  let present s := existsb (fun r => bool_decide (ws_stage r = s)) records in
  if negb (forallb present unconditionally_required) then false else
  let any_gate_surface := existsb (fun r => negb (bool_decide (ws_gate_surfaces r = ∅))) records in
  if any_gate_surface && negb (present PurpleTeamed) then false else true.

Definition US : ascii := "031"%char.

Section Session.
Context `{Sha256} `{SerdeJson}.

Definition canonical_bytes (r : WaveSessionRecord) : list byte :=
  as_bytes (serde_to_string (session_to_value r)).

(** What is hashed: the three parts with a unit separator between them. *)
Definition key_text (wave_id : string) (stage : WaveStage) (session_id : string) : string :=
  wave_id +:+ String US (stage_wire_name stage +:+ String US session_id).

Definition idempotency_key (wave_id : WaveId) (stage : WaveStage) (session_id : string) : digest :=
  sha256 (as_bytes (key_text (wid wave_id) stage session_id)).

Definition record_idempotency_key (r : WaveSessionRecord) : digest :=
  idempotency_key (ws_wave_id r) (ws_stage r) (ws_session_id r).

(** ** Lemmas *)

Lemma btree_elems_set s : list_to_set (btree_elems s) = s.
Proof. apply set_eq. intros x. by rewrite elem_of_list_to_set, elem_of_btree_elems. Qed.

Lemma de_session_to_value r : de_session (session_to_value r) = Some r.
Proof.
  destruct r as [e g l t o i s [w] b]. unfold de_session.
  change (de_fields_strict _ _) with (Some
    [Some (Str e); Some (Arr ((fun s => Str (wire_name s)) <$> btree_elems g)); Some (Str l);
     Some (Num (PosInt t)); Some (Str (outcome_wire_name o)); Some (Str i);
     Some (Str (stage_wire_name s)); Some (Str w); Some (Str b)]).
  cbn [de_req mbind option_bind as_str de_u64]. rewrite de_vec_surfaces.
  cbn [mbind option_bind]. rewrite btree_elems_set. by destruct o, s.
Qed.

(** The strings of a record are Rust strings and its time is a [u64]. *)
Definition session_ok (r : WaveSessionRecord) : Prop :=
  utf8 (ws_evidence r) = true /\ utf8 (ws_linear_issue r) = true /\
  u64_ok (ws_occurred_at_epoch_seconds r) /\ utf8 (ws_session_id r) = true /\
  utf8 (wid (ws_wave_id r)) = true /\ utf8 (ws_written_by r) = true.

Lemma surfaces_value_ok l : value_ok (Arr ((fun s => Str (wire_name s)) <$> l)).
Proof. apply value_ok_arr, Forall_fmap, Forall_forall. by intros []. Qed.

Lemma surfaces_depth l : depth (Arr ((fun s => Str (wire_name s)) <$> l)) = 1%nat.
Proof. simpl. f_equal. induction l as [|s l IH]; [done|]. exact IH. Qed.

Lemma session_json_ok r : session_ok r -> json_ok (session_to_value r).
Proof.
  intros (? & ? & ? & ? & ? & ?).
  assert (utf8 (outcome_wire_name (ws_outcome r)) = true) by (by destruct (ws_outcome r)).
  assert (utf8 (stage_wire_name (ws_stage r)) = true) by (by destruct (ws_stage r)).
  pose proof (surfaces_value_ok (btree_elems (ws_gate_surfaces r))).
  pose proof (surfaces_depth (btree_elems (ws_gate_surfaces r))) as Hd.
  assert (value_ok (Num (PosInt (ws_occurred_at_epoch_seconds r)))) by done.
  split; [unfold session_to_value; obj_ok|].
  cbn [depth] in Hd. unfold session_to_value. cbn [depth list_max fmap list_fmap snd foldr]. lia.
Qed.

Lemma canonical_bytes_inj `{!SerdeJsonCorrect} r1 r2 :
  session_ok r1 -> session_ok r2 -> canonical_bytes r1 = canonical_bytes r2 -> r1 = r2.
Proof.
  intros Hok1%session_json_ok Hok2%session_json_ok Heq%(fingerprinted_inj _ _ Hok1 Hok2).
  apply (f_equal de_session) in Heq. rewrite !de_session_to_value in Heq. by injection Heq.
Qed.

#[local] Arguments String.append !_ _ / : simpl nomatch.

(** The parts of a key text can be read back when the first part has no separator. *)
Lemma key_text_split w1 w2 t1 t2 :
  string_forall (fun a => negb (Ascii.eqb a US)) w1 = true ->
  string_forall (fun a => negb (Ascii.eqb a US)) w2 = true ->
  w1 +:+ String US t1 = w2 +:+ String US t2 -> w1 = w2 /\ t1 = t2.
Proof.
  revert w2. induction w1 as [|a w1 IH]; intros [|b w2]; simpl; intros Hw1 Hw2 Heq.
  - by injection Heq.
  - injection Heq as <- _. by rewrite Ascii.eqb_refl in Hw2.
  - injection Heq as -> _. by rewrite Ascii.eqb_refl in Hw1.
  - injection Heq as -> Heq. apply andb_true_iff in Hw1 as [_ Hw1], Hw2 as [_ Hw2].
    by destruct (IH w2 Hw1 Hw2 Heq) as [-> ->].
Qed.

Lemma stage_wire_no_separator s :
  string_forall (fun a => negb (Ascii.eqb a US)) (stage_wire_name s) = true.
Proof. by destruct s. Qed.

Lemma stage_wire_name_inj s1 s2 : stage_wire_name s1 = stage_wire_name s2 -> s1 = s2.
Proof. by destruct s1, s2. Qed.

(** The idempotency key names one session of one stage of one wave, as long as
    wave identifiers hold no unit separator: two triples with one key are the same
    or exhibit a SHA-256 collision.  With a separator inside an identifier, two
    different sessions do share a key, so that recording the first makes the ledger
    refuse the second as a conflict. *)
Theorem idempotency_key_binds w1 s1 i1 w2 s2 i2 :
  idempotency_key w1 s1 i1 = idempotency_key w2 s2 i2 ->
  (string_forall (fun a => negb (Ascii.eqb a US)) (wid w1) = true ->
   string_forall (fun a => negb (Ascii.eqb a US)) (wid w2) = true ->
   (w1 = w2 /\ s1 = s2 /\ i1 = i2) \/
   sha_collision (as_bytes (key_text (wid w1) s1 i1)) (as_bytes (key_text (wid w2) s2 i2))) /\
  forall w i s i',
    idempotency_key {| wid := w +:+ String US (stage_wire_name s1 +:+ String US i) |} s i' =
    idempotency_key {| wid := w |} s1 (i +:+ String US (stage_wire_name s +:+ String US i')).
Proof.
  intros Heq. split.
  - intros Hw1 Hw2. destruct (decide (key_text (wid w1) s1 i1 = key_text (wid w2) s2 i2)) as [E|Hne].
    + left. unfold key_text in E. apply key_text_split in E as [Ew E]; [|done..].
      apply key_text_split in E as [Es Ei]; [|apply stage_wire_no_separator..].
      split_and!; [|by apply stage_wire_name_inj|done]. destruct w1, w2. simpl in Ew. by subst.
    + right. split; [by intros ?%as_bytes_inj|done].
  - intros w i s i'. unfold idempotency_key, key_text. cbn [wid]. do 2 f_equal.
    rewrite string_app_assoc. f_equal. simpl. f_equal. rewrite string_app_assoc. by simpl.
Qed.

(** The verdict on a chain looks at the stages and at the surfaces, and at nothing
    else: not at the outcomes, not at whose records they are. *)
Lemma all_required_iff records :
  all_required_stages_present records = true <->
  (forall s, s = Tested \/ s = Accepted \/ s = Closed -> Exists (fun r => ws_stage r = s) records) /\
  (Exists (fun r => ws_gate_surfaces r <> ∅) records -> Exists (fun r => ws_stage r = PurpleTeamed) records).
Proof.
  assert (forall s, existsb (fun r => bool_decide (ws_stage r = s)) records = true <->
                    Exists (fun r => ws_stage r = s) records) as Hp.
  { intros s. induction records as [|r l IH]; simpl; [by rewrite Exists_nil|].
    by rewrite orb_true_iff, bool_decide_eq_true, Exists_cons, IH. }
  assert (existsb (fun r => negb (bool_decide (ws_gate_surfaces r = ∅))) records = true <->
          Exists (fun r => ws_gate_surfaces r <> ∅) records) as Hg.
  { clear Hp. induction records as [|r l IH]; simpl; [by rewrite Exists_nil|].
    by rewrite orb_true_iff, negb_true_iff, bool_decide_eq_false, Exists_cons, IH. }
  unfold all_required_stages_present. cbn [forallb unconditionally_required].
  rewrite <-Hg, <-(Hp PurpleTeamed).
  transitivity ((existsb (fun r => bool_decide (ws_stage r = Tested)) records = true /\
    existsb (fun r => bool_decide (ws_stage r = Accepted)) records = true /\
    existsb (fun r => bool_decide (ws_stage r = Closed)) records = true) /\
    (existsb (fun r => negb (bool_decide (ws_gate_surfaces r = ∅))) records = true ->
     existsb (fun r => bool_decide (ws_stage r = PurpleTeamed)) records = true)).
  - repeat destruct (existsb _ _); simpl; naive_solver.
  - rewrite !Hp. naive_solver.
Qed.

End Session.

(** ** Witness *)

Module Demo.
#[local] Existing Instance DemoJson.demo_serde.
#[local] Instance sha : Sha256 := fun l => array_of 32 (rev l).

Lemma idempotency_key_binds_witness :
  idempotency_key {| wid := "w" +:+ String US ("TESTED" +:+ String US "a") |} Closed "b" =
  idempotency_key {| wid := "w" |} Tested ("a" +:+ String US ("CLOSED" +:+ String US "b")).
Proof.
  exact (proj2 (idempotency_key_binds {| wid := "w" |} Tested "x" {| wid := "w" |} Tested "x" eq_refl)
    "w" "a" Closed "b").
Defined.

End Demo.
