(* ===== verification/WaveRoutes.v ===== *)
(** * The transparency log's wave-session surface

    Models, of [crates/services/transparency-log/src/], [per_skill_keys.rs] (with
    [env_source.rs]'s [trimmed_non_empty]), the wave-session part of [state.rs],
    [wave_session_detail.rs] and [routes/wave_session.rs].  Every lock, store call
    and [spawn_blocking] is an await of its handler.  HMAC, the LRU cache and SQLite
    are parameters with the behaviour their documentation gives. *)

From S2P Require Import Prelude RustStr Float64 Crates Merkle MerkleSpec Store Json Serde Token Revoke.
From S2P Require Import Async HashTree Sth Tlog Auth WaveContext WaveSession.

#[local] Open Scope string_scope.

(** ** The crates *)

(** [HmacSha256::new_from_slice(key)] then [update] and [finalize]; a refused key
    carries the [Display] text of the error. *)
Class HmacSha256 := hmac_sha256 : list byte -> list byte -> string + array 32.

(** [lru::LruCache]: what is cached is the finite map [lru_view]; a [get] reorders,
    a [put] may evict other entries. *)
Class LruCache (V C : Type) := {
  lru_get : N -> C -> option V * C;
  lru_put : N -> V -> C -> C;
  lru_view : C -> gmap N V
}.

Class LruLaws (V C : Type) `{LruCache V C} : Prop := {
  lru_get_law : forall i c, fst (lru_get i c) = lru_view c !! i /\ lru_view (snd (lru_get i c)) = lru_view c;
  lru_put_law : forall i v c, lru_view (lru_put i v c) !! i = Some v;
  lru_put_other : forall i j v w c, j <> i -> lru_view (lru_put i v c) !! j = Some w -> lru_view c !! j = Some w
}.

(** A row of [wave_session_detail]. *)
Record DetailRow := { dr_detail_json : string; dr_size_bytes : Z; dr_created_at_unix_ms : Z }.

(** The SQLite connection: [INSERT .. ON CONFLICT DO NOTHING] and [SELECT] by primary
    key; a failed statement carries its text. *)
Class SqliteTable (D : Type) := {
  sql_insert : string -> DetailRow -> D -> (string + unit) * D;
  sql_select : string -> D -> string + option DetailRow
}.

(** ** Per-skill keys *)

Definition ENV_KEY_TEST : string := "QORCH_TRANSPARENCY_KEY_TEST".
Definition ENV_KEY_PURPLE_TEAM : string := "QORCH_TRANSPARENCY_KEY_PURPLE_TEAM".
Definition ENV_KEY_USER_ACCEPTANCE : string := "QORCH_TRANSPARENCY_KEY_USER_ACCEPTANCE".
Definition ENV_KEY_CLOSEOUT : string := "QORCH_TRANSPARENCY_KEY_CLOSEOUT".

(** [EnvSource::get]. *)
Abbreviation Env := (string -> option string).

Definition trimmed_non_empty (env : Env) (key : string) : option string :=
  value ← env key;
  let trimmed := trim value in
  if is_empty trimmed then None else Some trimmed.

(** A [BTreeMap<WaveStage, String>]: sorted by stage. *)
Abbreviation PerSkillKeys := (list (WaveStage * string)).

Fixpoint with_key (stage : WaveStage) (key : string) (t : PerSkillKeys) : PerSkillKeys :=
  match t with
  | [] => [(stage, key)]
  | (s, k) :: t' =>
    if (stage_index stage <? stage_index s)%nat then (stage, key) :: t
    else if bool_decide (stage = s) then (stage, key) :: t'
    else (s, k) :: with_key stage key t'
  end.

Fixpoint stage_key (t : PerSkillKeys) (stage : WaveStage) : option string :=
  match t with
  | [] => None
  | (s, k) :: t => if bool_decide (stage = s) then Some k else stage_key t stage
  end.

(** [PerSkillKeys::matches]. *)
Definition key_matches (t : PerSkillKeys) (stage : WaveStage) (supplied : string) : bool :=
  match stage_key t stage with
  | None => false
  | Some expected => constant_time_eq (as_bytes expected) (as_bytes supplied)
  end.

Definition from_env_source (env : Env) : option PerSkillKeys :=
  let step st '(stage, env_name) :=
    match trimmed_non_empty env env_name with
    | Some trimmed => (with_key stage trimmed (fst st), true)
    | None => st
    end in
  let (table, any_set) := foldl step ([], false)
    [(Tested, ENV_KEY_TEST); (PurpleTeamed, ENV_KEY_PURPLE_TEAM);
     (Accepted, ENV_KEY_USER_ACCEPTANCE); (Closed, ENV_KEY_CLOSEOUT)] in
  if any_set : bool then Some table else None.

Definition public_fingerprints `{Sha256} `{Hex} (t : PerSkillKeys) : list (string * string) :=
  foldl (fun out '(stage, key) =>
    bt_insert (stage_wire_name stage) (sha256_hex (as_bytes key)) out) [] t.

(** ** Wire data *)

Inductive SignatureType := SigHmac | SigEd25519.

Definition as_wire (t : SignatureType) : string :=
  match t with SigHmac => "hmac" | SigEd25519 => "ed25519" end.

Record AppendWaveSessionRequest := {
  aw_ed25519_public_key_hex : option string;
  aw_ed25519_signature_hex : option string;
  aw_kernel_hmac_hex : string;
  aw_kernel_key_fingerprint_sha256 : string;
  aw_record : WaveSessionRecord;
  aw_signature_type : option SignatureType
}.

Record AppendWaveSessionResponse := {
  as_idempotent_replay : bool;
  as_leaf_hash_hex : string;
  as_leaf_index : N;
  as_ok : bool
}.

Record WaveSessionChainEntry := {
  ce_ed25519_signature_hex : option string;
  ce_key_fingerprint_hex : string;
  ce_kernel_hmac_hex : string;
  ce_leaf_index : N;
  ce_record : WaveSessionRecord;
  ce_signature_type : SignatureType
}.

Record VerifyWaveSessionResponse := {
  vw_all_required_stages_present : bool;
  vw_chain : list WaveSessionChainEntry;
  vw_kernel_key_fingerprint_sha256 : string;
  vw_ok : bool;
  vw_transparency_log_ed25519_key_fingerprint_sha256 : option string;
  vw_wave_id : string
}.

Record TransparencyKeyResponse := {
  tk_algorithm : string;
  tk_generated_at_epoch_seconds : N;
  tk_key_fingerprint_sha256_hex : string;
  tk_per_skill_fingerprints : option (list (string * string));
  tk_public_key_hex : string
}.

Record WaveSessionLeafSide := {
  ls_record : WaveSessionRecord;
  ls_kernel_hmac : array 32;
  ls_ed25519_signature : option (array 64);
  ls_signature_type : SignatureType;
  ls_key_fingerprint_hex : string
}.

(** ** State *)

(** The fixed fields of [AppState] this surface reads. *)
Record WaveConfig := {
  wc_kernel_key_fingerprint_hex : string;
  wc_kernel_hmac_key : list byte;
  wc_ed25519_public_key_hex : option string;
  wc_ed25519_key_fingerprint_hex : option string;
  wc_ed25519_generated_at_epoch_s : N;
  wc_per_skill_keys : option PerSkillKeys
}.

(** The fields it changes, each behind its own lock. *)
Record WWorld (St C D : Type) := {
  w_store : St;
  wave_session_index : gmap string (list N);
  unreadable_wave_index : gmap string (list N);
  wave_session_payloads : C;
  wave_session_leaf_hashes : gmap N string;
  wave_session_detail_store : option D
}.
Arguments w_store {St C D}.
Arguments wave_session_index {St C D}.
Arguments unreadable_wave_index {St C D}.
Arguments wave_session_payloads {St C D}.
Arguments wave_session_leaf_hashes {St C D}.
Arguments wave_session_detail_store {St C D}.
Arguments Build_WWorld {St C D}.

(** [entry.or_default()] then a push unless present. *)
Definition index_leaf (wave_id : string) (leaf_index : N) (idx : gmap string (list N))
    : gmap string (list N) :=
  let entry := default [] (idx !! wave_id) in
  <[wave_id := if bool_decide (leaf_index ∈ entry) then entry else (entry ++ [leaf_index])%list]> idx.

(** [entry(..).or_insert(..)]. *)
Definition or_insert (leaf_index : N) (h : string) (m : gmap N string) : gmap N string :=
  match m !! leaf_index with Some _ => m | None => <[leaf_index := h]> m end.

(** ** Leaf framing *)

Definition build_leaf_payload (record_bytes : list byte) (hmac_bytes : array 32) : list byte :=
  let n := N.min (nlen record_bytes) u64_max in
  (to_be_bytes 8 n ++ record_bytes ++ arr_bytes hmac_bytes)%list.

(** The sum wraps around, as [u64] arithmetic does in the release profile; a build
    with overflow checks stops there instead, for [n] within 40 of the top. *)
Definition split_leaf_payload (payload : list byte) : res ServiceError (list byte * array 32) :=
  if (length payload <? 8 + 32)%nat then Err (Backend "wave-session leaf payload too short") else
  let n := from_be_bytes (take 8 payload) in
  if negb (((8 + n + 32) mod 2 ^ 64) =? nlen payload)%N
  then Err (Backend "wave-session leaf payload length mismatch") else
  Ok (ntake n (drop 8 payload), array_of 32 (drop (8 + N.to_nat n) payload)).

Section WaveRoutes.
Context `{Sha256} `{Ed25519} `{Hex} `{SerdeJson} `{HmacSha256}.
Context {St C D : Type} `{TransparencyStore St} `{LruCache WaveSessionLeafSide C} `{SqliteTable D}.

Abbreviation handler A := (prog (WWorld St C D) ServiceError A).
Abbreviation WorldT := (WWorld St C D).

(** ** The detail table *)

Definition detail_to_value (side : WaveSessionLeafSide) : Value :=
  Obj [("kernel_hmac_hex", Str (hex_encode (arr_bytes (ls_kernel_hmac side))));
       ("ed25519_signature_hex",
        opt_value (fun s => Str (hex_encode (arr_bytes s))) (ls_ed25519_signature side));
       ("signature_type", Str (as_wire (ls_signature_type side)));
       ("key_fingerprint_hex", Str (ls_key_fingerprint_hex side));
       ("record", session_to_value (ls_record side))].

Inductive SideTableError := SideBackend (msg : string) | IntegrityMismatch (leaf_hash_hex : string).

(** Hex of exactly [n] bytes. *)
Definition hex_exact (n : nat) (what len_what s : string) : res SideTableError (array n) :=
  match hex_decode (trim s) with
  | inl e => Err (SideBackend (what +:+ e))
  | inr raw =>
    if negb (length raw =? n)%nat
    then Err (SideBackend (len_what +:+ u64_to_string (nlen raw))) else Ok (array_of n raw)
  end.

(** [serde_json::from_value::<DetailPayload>] and [DetailPayload::into_side];
    [row_error] and [record_error] are the texts of a failed read. *)
Definition de_any (v : option Value) : option Value := v.

Definition into_side (row_error record_error : string) (v : Value) : res SideTableError WaveSessionLeafSide :=
  match de_fields ["kernel_hmac_hex"; "ed25519_signature_hex"; "signature_type";
                   "key_fingerprint_hex"; "record"] v with
  | Some [h; e; t; f; r] =>
    match de_req as_str h, de_option as_str e, de_req as_str t, de_req as_str f, de_any r with
    | Some h, Some e, Some t, Some f, Some r =>
      let? kernel_hmac := hex_exact 32 "hmac hex decode: " "hmac must be 32 bytes, got " h in
      let? sig :=
        match e with
        | None => Ok None
        | Some e =>
          let? a := hex_exact 64 "ed25519 hex: " "ed25519 sig must be 64 bytes, got " e in Ok (Some a)
        end in
      let? ty :=
        if String.eqb t "hmac" then Ok SigHmac
        else if String.eqb t "ed25519" then Ok SigEd25519
        else Err (SideBackend ("unknown signature_type: " +:+ t)) in
      let? record := ok_or (SideBackend ("record decode: " +:+ record_error)) (de_session r) in
      Ok {| ls_record := record; ls_kernel_hmac := kernel_hmac; ls_ed25519_signature := sig;
            ls_signature_type := ty; ls_key_fingerprint_hex := f |}
    | _, _, _, _, _ => Err (SideBackend ("row decode: " +:+ row_error))
    end
  | _ => Err (SideBackend ("row decode: " +:+ row_error))
  end.

Definition detail_row (side : WaveSessionLeafSide) (created_at_unix_ms : Z) : DetailRow :=
  let json := serde_to_string (detail_to_value side) in
  {| dr_detail_json := json; dr_size_bytes := Z.min (Z.of_nat (String.length json)) (2 ^ 63 - 1);
     dr_created_at_unix_ms := created_at_unix_ms |}.

(** [SideTable::insert]. *)
Definition side_insert (leaf_hash_hex : string) (side : WaveSessionLeafSide) (created_at_unix_ms : Z)
    (d : D) : res SideTableError unit * D :=
  let (r, d) := sql_insert leaf_hash_hex (detail_row side created_at_unix_ms) d in
  (match r with inl e => Err (SideBackend e) | inr _ => Ok tt end, d).

(** [SideTable::lookup]; the texts of decode errors never leave it. *)
Definition side_lookup (leaf_hash_hex : string) (d : D) : res SideTableError (option WaveSessionLeafSide) :=
  match sql_select leaf_hash_hex d with
  | inl e => Err (SideBackend e)
  | inr None => Ok None
  | inr (Some row) =>
    match serde_from_slice (as_bytes (dr_detail_json row)) with
    | inl e => Err (SideBackend ("row decode: " +:+ e))
    | inr v => let? side := into_side "" "" v in Ok (Some side)
    end
  end.

(** [SideTable::lookup_with_integrity_check]. *)
Definition lookup_with_integrity_check (leaf_hash_hex expected_record_sha256_hex : string) (d : D)
    : res SideTableError (option WaveSessionLeafSide) :=
  let? found := side_lookup leaf_hash_hex d in
  match found with
  | None => Ok None
  | Some side =>
    let derived := sha256_hex (canonical_bytes (ls_record side)) in
    if negb (constant_time_eq (as_bytes derived) (as_bytes expected_record_sha256_hex))
    then Err (IntegrityMismatch leaf_hash_hex) else Ok (Some side)
  end.

(** ** [AppState]'s indices and caches *)

Definition set_index (f : gmap string (list N) -> gmap string (list N)) (w : WorldT) : WorldT :=
  Build_WWorld (w_store w) (f (wave_session_index w)) (unreadable_wave_index w)
    (wave_session_payloads w) (wave_session_leaf_hashes w) (wave_session_detail_store w).
Definition set_unreadable (f : gmap string (list N) -> gmap string (list N)) (w : WorldT) : WorldT :=
  Build_WWorld (w_store w) (wave_session_index w) (f (unreadable_wave_index w))
    (wave_session_payloads w) (wave_session_leaf_hashes w) (wave_session_detail_store w).
Definition set_payloads (c : C) (w : WorldT) : WorldT :=
  Build_WWorld (w_store w) (wave_session_index w) (unreadable_wave_index w) c
    (wave_session_leaf_hashes w) (wave_session_detail_store w).
Definition set_hashes (m : gmap N string) (w : WorldT) : WorldT :=
  Build_WWorld (w_store w) (wave_session_index w) (unreadable_wave_index w)
    (wave_session_payloads w) m (wave_session_detail_store w).
Definition set_detail (d : option D) (w : WorldT) : WorldT :=
  Build_WWorld (w_store w) (wave_session_index w) (unreadable_wave_index w)
    (wave_session_payloads w) (wave_session_leaf_hashes w) d.

Definition record_wave_session_leaf (wave_id : string) (i : N) (w : WorldT) : unit * WorldT :=
  (tt, set_index (index_leaf wave_id i) w).
Definition record_unreadable_wave_leaf (wave_id : string) (i : N) (w : WorldT) : unit * WorldT :=
  (tt, set_unreadable (index_leaf wave_id i) w).
Definition wave_session_leaves (wave_id : string) (w : WorldT) : list N :=
  default [] (wave_session_index w !! wave_id).
Definition unreadable_wave_leaves (wave_id : string) (w : WorldT) : list N :=
  default [] (unreadable_wave_index w !! wave_id).

(** [p.get(..).is_none()] then [p.put(..)], under one lock. *)
Definition cache_if_absent (i : N) (side : WaveSessionLeafSide) (w : WorldT) : unit * WorldT :=
  let (hit, c) := lru_get i (wave_session_payloads w) in
  (tt, set_payloads (match hit with Some _ => c | None => lru_put i side c end) w).

Definition register_wave_session_leaf_hash (i : N) (h : string) (w : WorldT) : unit * WorldT :=
  (tt, set_hashes (or_insert i h (wave_session_leaf_hashes w)) w).

(** The error of the insertion is discarded. *)
Definition insert_detail (h : string) (side : WaveSessionLeafSide) (now_ms : Z) (w : WorldT)
    : unit * WorldT :=
  (tt, set_detail ((fun d => snd (side_insert h side now_ms d)) <$> wave_session_detail_store w) w).

(** The clock as whole milliseconds, saturated. *)
Definition created_ms (now : f64) : Z :=
  let ms := f64_mul now (f64_of_Z 1000) in
  if f64_is_finite ms && f64_ge ms (f64_of_Z 0) && f64_lt ms (f64_of_Z (2 ^ 63))
  then Z.of_N (f64_as_u64 ms) else (2 ^ 63 - 1)%Z.

(** [record_wave_session_payload(..).await], then [k]. *)
Definition record_wave_session_payload {A} (now : f64) (i : N) (h : string) (side : WaveSessionLeafSide)
    (k : handler A) : handler A :=
  Await false (cache_if_absent i side) (fun _ =>
  Await false (register_wave_session_leaf_hash i h) (fun _ =>
  Await false (insert_detail h side (created_ms now)) (fun _ => k))).

(** [lookup_wave_session_payload(..).await], then [k] on its answer. *)
Definition lookup_wave_session_payload {A} (i : N) (k : option WaveSessionLeafSide -> handler A)
    : handler A :=
  Await false (fun w => let (hit, c) := lru_get i (wave_session_payloads w) in (hit, set_payloads c w))
    (fun hit =>
  match hit with
  | Some side => k (Some side)
  | None =>
    Await false (reading (fun w => match wave_session_detail_store w with
                                   | None => None
                                   | Some _ => wave_session_leaf_hashes w !! i
                                   end)) (fun key =>
    match key with
    | None => k None
    | Some key =>
      Await false (reading (fun w => match wave_session_detail_store w with
                                     | None => None
                                     | Some d => match side_lookup key d with Ok r => r | _ => None end
                                     end)) (fun found =>
      match found with
      | None => k None
      | Some side =>
        Await false (fun w => (tt, set_payloads (lru_put i side (wave_session_payloads w)) w))
          (fun _ => k (Some side))
      end)
    end)
  end).

(** ** Signatures *)

Definition verify_kernel_hmac (record_bytes : list byte) (supplied_hmac : array 32) (key : list byte)
    : res ServiceError unit :=
  if bool_decide (key = []) then Err (Backend "kernel HMAC key not configured") else
  match hmac_sha256 key record_bytes with
  | inl e => Err (Backend ("invalid HMAC key length: " +:+ e))
  | inr mac => if bool_decide (mac = supplied_hmac) then Ok tt else Err KernelHmacMismatch
  end.

Definition written_by_matches_stage (written_by : string) (stage : WaveStage) : bool :=
  let normalized := to_ascii_lowercase (drop_while_eq "/"%char (trim written_by)) in
  let named := String.eqb normalized in
  match stage with
  | Planned => named "plan" || named "planner"
  | Decomposed => named "team" || named "planner" || named "plan" || named "architect"
  | Tested => named "test"
  | PurpleTeamed => named "purple-team" || named "purple_team"
  | Accepted => named "user-acceptance" || named "user_acceptance" || named "uat"
  | Closed => named "closeout"
  end.

Definition hex_bytes (what s : string) : res ServiceError (list byte) :=
  match hex_decode (trim s) with
  | inl e => Err (BadRequest (what +:+ e))
  | inr raw => Ok raw
  end.

Definition verify_ed25519_signature (record_bytes : list byte)
    (announced_pk_hex signature_hex expected_fingerprint_hex : string) : res ServiceError unit :=
  let? announced_pk_raw := hex_bytes "ed25519 pk hex decode: " announced_pk_hex in
  if negb (length announced_pk_raw =? 32)%nat
  then Err (BadRequest ("ed25519 public key must be 32 bytes, got " +:+
                        u64_to_string (nlen announced_pk_raw))) else
  let announced_fpr := sha256_hex announced_pk_raw in
  if negb (constant_time_eq (as_bytes announced_fpr) (as_bytes expected_fingerprint_hex))
  then Err Ed25519KeyFingerprintMismatch else
  let? sig_raw := hex_bytes "ed25519 sig hex decode: " signature_hex in
  if negb (length sig_raw =? 64)%nat
  then Err (BadRequest ("ed25519 signature must be 64 bytes, got " +:+ u64_to_string (nlen sig_raw))) else
  match verifying_key_from_bytes (array_of 32 announced_pk_raw) with
  | inl _ => Err Ed25519SignatureMismatch
  | inr vk =>
    if ed_verify vk record_bytes (array_of 64 sig_raw) then Ok tt else Err Ed25519SignatureMismatch
  end.

(** ** [POST /v1/wave/session] *)

(** What the two signing paths establish: the fingerprint stored with the leaf and
    the Ed25519 signature, if that is how it was signed. *)
Definition check_signature (cfg : WaveConfig) (body : AppendWaveSessionRequest)
    (record_bytes : list byte) (supplied_hmac : array 32)
    : res ServiceError (string * option (array 64)) :=
  match default SigHmac (aw_signature_type body) with
  | SigHmac =>
    let? _ := verify_kernel_hmac record_bytes supplied_hmac (wc_kernel_hmac_key cfg) in
    Ok (wc_kernel_key_fingerprint_hex cfg, None)
  | SigEd25519 =>
    let? expected_fpr_hex := ok_or Ed25519NotConfigured (wc_ed25519_key_fingerprint_hex cfg) in
    let? pk_hex := ok_or Ed25519MissingFields (aw_ed25519_public_key_hex body) in
    let? sig_hex := ok_or Ed25519MissingFields (aw_ed25519_signature_hex body) in
    let? _ := verify_ed25519_signature record_bytes pk_hex sig_hex expected_fpr_hex in
    let? sig_bytes := hex_bytes "ed25519 sig hex decode: " sig_hex in
    Ok (expected_fpr_hex, Some (array_of 64 sig_bytes))
  end.

(** Steps 1 to 5: everything before the store. *)
Definition session_input (cfg : WaveConfig) (x_api_key : option string) (body : AppendWaveSessionRequest)
    : res ServiceError (AppendInput * WaveSessionLeafSide) :=
  let supplied_fpr := to_ascii_lowercase (trim (aw_kernel_key_fingerprint_sha256 body)) in
  let expected_fpr := to_ascii_lowercase (wc_kernel_key_fingerprint_hex cfg) in
  if negb (String.eqb supplied_fpr expected_fpr) then Err KernelFingerprintMismatch else
  let? supplied_hmac := hex_to_32 (aw_kernel_hmac_hex body) in
  let record := aw_record body in
  if negb (written_by_matches_stage (ws_written_by record) (ws_stage record))
  then Err StageWrittenByMismatch else
  let stage_key_ok :=
    match wc_per_skill_keys cfg with
    | None => true
    | Some table =>
      match default SigHmac (aw_signature_type body) with
      | SigHmac => key_matches table (ws_stage record) (default "" x_api_key)
      | SigEd25519 => true
      end
    end in
  if negb stage_key_ok then Err StageKeyMismatch else
  let record_bytes := canonical_bytes record in
  let? signed := check_signature cfg body record_bytes supplied_hmac in
  Ok ({| ai_idempotency_key := record_idempotency_key record;
         ai_payload := build_leaf_payload record_bytes supplied_hmac;
         ai_occurred_at_epoch_seconds := ws_occurred_at_epoch_seconds record |},
      {| ls_record := record; ls_kernel_hmac := supplied_hmac;
         ls_ed25519_signature := snd signed;
         ls_signature_type := default SigHmac (aw_signature_type body);
         ls_key_fingerprint_hex := fst signed |}).

Definition store_append (inp : AppendInput) (w : WorldT) : res ServiceError AppendOutcome * WorldT :=
  let (r, s) := ts_append (w_store w) inp in
  (map_err service_of_store r,
   Build_WWorld s (wave_session_index w) (unreadable_wave_index w) (wave_session_payloads w)
     (wave_session_leaf_hashes w) (wave_session_detail_store w)).

Definition append_session (cfg : WaveConfig) (now : f64) (x_api_key : option string)
    (body : AppendWaveSessionRequest) : handler (N * AppendWaveSessionResponse) :=
  match session_input cfg x_api_key body with
  | Err e => Done (Err e)
  | Panic => Done Panic
  | Ok (inp, side) =>
    await_q false (store_append inp) (fun outcome =>
    let h := hex_encode (arr_bytes (ao_leaf_hash outcome)) in
    Await false (record_wave_session_leaf (wid (ws_wave_id (aw_record body))) (ao_leaf_index outcome))
      (fun _ =>
    record_wave_session_payload now (ao_leaf_index outcome) h side
      (let idempotent_replay := negb (ao_created outcome) in
       Done (Ok (if idempotent_replay then 200%N else 201%N,
                 {| as_idempotent_replay := idempotent_replay; as_leaf_hash_hex := h;
                    as_leaf_index := ao_leaf_index outcome; as_ok := true |})))))
  end.

(** ** [GET /v1/keys/transparency] *)

Definition transparency_key (cfg : WaveConfig) : res ServiceError TransparencyKeyResponse :=
  let? pk_hex := ok_or Ed25519NotConfigured (wc_ed25519_public_key_hex cfg) in
  let? fpr_hex := ok_or Ed25519NotConfigured (wc_ed25519_key_fingerprint_hex cfg) in
  Ok {| tk_algorithm := "Ed25519"; tk_generated_at_epoch_seconds := wc_ed25519_generated_at_epoch_s cfg;
        tk_key_fingerprint_sha256_hex := fpr_hex;
        tk_per_skill_fingerprints := public_fingerprints <$> wc_per_skill_keys cfg;
        tk_public_key_hex := pk_hex |}.

(** ** [GET /v1/wave/{wave_id}/verify] *)

Definition chain_entry (i : N) (side : WaveSessionLeafSide) : WaveSessionChainEntry :=
  {| ce_ed25519_signature_hex := (fun s => hex_encode (arr_bytes s)) <$> ls_ed25519_signature side;
     ce_key_fingerprint_hex := ls_key_fingerprint_hex side;
     ce_kernel_hmac_hex := hex_encode (arr_bytes (ls_kernel_hmac side));
     ce_leaf_index := i; ce_record := ls_record side; ce_signature_type := ls_signature_type side |}.

Definition entry_le (a b : WaveSessionChainEntry) : bool :=
  let sa := stage_index (ws_stage (ce_record a)) in
  let sb := stage_index (ws_stage (ce_record b)) in
  (sa <? sb)%nat || ((sa =? sb)%nat && (ce_leaf_index a <=? ce_leaf_index b)%N).

(** [entries.sort_by(..)], a stable sort. *)
Fixpoint insert_entry (e : WaveSessionChainEntry) (l : list WaveSessionChainEntry)
    : list WaveSessionChainEntry :=
  match l with
  | [] => [e]
  | x :: l' => if entry_le e x then e :: l else x :: insert_entry e l'
  end.
Definition sort_entries (l : list WaveSessionChainEntry) : list WaveSessionChainEntry :=
  foldr insert_entry [] l.

Fixpoint fetch_entries (leaves : list N) (acc : list WaveSessionChainEntry)
    (k : list WaveSessionChainEntry -> handler VerifyWaveSessionResponse)
    : handler VerifyWaveSessionResponse :=
  match leaves with
  | [] => k acc
  | i :: leaves =>
    lookup_wave_session_payload i (fun side =>
    match side with
    | None => Done (Err (Backend ("wave-session payload missing for leaf " +:+ u64_to_string i)))
    | Some side => fetch_entries leaves (acc ++ [chain_entry i side])%list k
    end)
  end.

Definition verify_session (cfg : WaveConfig) (wave_id : string) : handler VerifyWaveSessionResponse :=
  Await false (reading (wave_session_leaves wave_id)) (fun leaves =>
  match leaves with
  | [] =>
    Await false (reading (unreadable_wave_leaves wave_id)) (fun unreadable =>
    match unreadable with
    | [] => Done (Err NotFound)
    | _ => Done (Err EntryUnreadable)
    end)
  | _ =>
    fetch_entries leaves [] (fun entries =>
    let entries := sort_entries entries in
    Done (Ok {| vw_all_required_stages_present := all_required_stages_present (ce_record <$> entries);
                vw_chain := entries;
                vw_kernel_key_fingerprint_sha256 := wc_kernel_key_fingerprint_hex cfg;
                vw_ok := true;
                vw_transparency_log_ed25519_key_fingerprint_sha256 := wc_ed25519_key_fingerprint_hex cfg;
                vw_wave_id := wave_id |}))
  end).

(** ** Boot: the indices rebuilt from the ledger *)

(** What a leaf is to the loop.  The text is read as a [Value] first, so a record
    text that names a member twice, which the strict reader refuses, is left out. *)
Inductive LeafKind :=
| SessionLeaf (record : WaveSessionRecord) (hmac : array 32)
| UnreadableLeaf (wave_id : string)
| OtherLeaf.

Definition leaf_kind (payload : list byte) : LeafKind :=
  match split_leaf_payload payload with
  | Ok (record_bytes, hmac) =>
    match serde_from_slice record_bytes with
    | inl _ => OtherLeaf
    | inr v =>
      match de_session v with
      | Some record => SessionLeaf record hmac
      | None =>
        match v with
        | Obj map =>
          match bt_get "wave_id" map with
          | Some (Str w) => if is_empty w then OtherLeaf else UnreadableLeaf w
          | _ => OtherLeaf
          end
        | _ => OtherLeaf
        end
      end
    end
  | _ => OtherLeaf
  end.

Definition rebuilt_side (cfg : WaveConfig) (record : WaveSessionRecord) (hmac : array 32)
    : WaveSessionLeafSide :=
  {| ls_record := record; ls_kernel_hmac := hmac; ls_ed25519_signature := None;
     ls_signature_type := SigHmac; ls_key_fingerprint_hex := wc_kernel_key_fingerprint_hex cfg |}.

Fixpoint rebuild (cfg : WaveConfig) (now : f64) (payloads : list LeafPayloadRecord) (recovered : N)
    : handler N :=
  match payloads with
  | [] => Done (Ok recovered)
  | lp :: payloads =>
    match leaf_kind (lp_payload lp) with
    | OtherLeaf => rebuild cfg now payloads recovered
    | UnreadableLeaf w =>
      Await false (record_unreadable_wave_leaf w (lp_leaf_index lp)) (fun _ =>
      rebuild cfg now payloads recovered)
    | SessionLeaf record hmac =>
      Await false (record_wave_session_leaf (wid (ws_wave_id record)) (lp_leaf_index lp)) (fun _ =>
      let h := hex_encode (arr_bytes (lp_leaf_hash lp)) in
      Await false (register_wave_session_leaf_hash (lp_leaf_index lp) h) (fun _ =>
      lookup_wave_session_payload (lp_leaf_index lp) (fun found =>
      match found with
      | Some _ => rebuild cfg now payloads (recovered + 1)
      | None =>
        record_wave_session_payload now (lp_leaf_index lp) h (rebuilt_side cfg record hmac)
          (rebuild cfg now payloads (recovered + 1))
      end)))
    end
  end.

Definition reconstruct_wave_sessions_from_ledger (cfg : WaveConfig) (now : f64) : handler N :=
  await_q false (reading (fun w => map_err service_of_store (ts_load_all_payloads (w_store w))))
    (fun payloads => rebuild cfg now payloads 0%N).

End WaveRoutes.
