(* ===== verification/WaveTheorems.v ===== *)
(** * The wave-session surface: what an accepted session is, and what a reboot keeps

    Theorems about [WaveRoutes]: the leaf framing, what the route establishes before
    it records a session, how the shared key and the per-skill keys combine, and
    which sessions the boot reconstruction finds in the ledger. *)

From S2P Require Import Prelude RustStr Float64 Crates Merkle MerkleSpec Store Json Serde Token Revoke.
From S2P Require Import Async HashTree Sth Tlog Auth WaveContext WaveSession WaveRoutes.

#[local] Open Scope string_scope.
#[local] Open Scope list_scope.

(** ** Framing *)

Lemma nlen_drop {A} n (l : list A) : nlen (drop n l) = (nlen l - N.of_nat n)%N.
Proof. unfold nlen. rewrite length_drop. lia. Qed.

Lemma pow_256_8 : (256 ^ N.of_nat 8 = 2 ^ 64)%N.
Proof. reflexivity. Qed.

Lemma leaf_payload_length rb h : nlen (build_leaf_payload rb h) = (nlen rb + 40)%N.
Proof.
  unfold build_leaf_payload, nlen. rewrite !length_app. autorewrite with bytes. lia.
Qed.

(** The framing is unambiguous: a payload that fits in memory parses into a
    record text and an HMAC exactly when it is the framing of the two; so the leaf
    hash commits to both, and nothing else parses. *)
Theorem framing_roundtrip payload rb h :
  (nlen payload <= u64_max)%N ->
  split_leaf_payload payload = Ok (rb, h) <-> payload = build_leaf_payload rb h.
Proof.
  intros Hmax. unfold split_leaf_payload. split.
  - destruct (Nat.ltb_spec (length payload) (8 + 32)) as [|Hlen]; [done|].
    set (n := from_be_bytes (take 8 payload)).
    assert (to_be_bytes 8 n = take 8 payload) as Hn.
    { unfold n. rewrite <-(to_from_be_bytes (take 8 payload)) at 2.
      by rewrite length_take, Nat.min_l by lia. }
    assert (n < 2 ^ 64)%N as Hb.
    { pose proof (from_be_bytes_bound (take 8 payload)) as Hb.
      by rewrite length_take, Nat.min_l, pow_256_8 in Hb by lia. }
    destruct (N.eqb_spec ((8 + n + 32) mod 2 ^ 64) (nlen payload)) as [E|]; [|done].
    assert (8 + n + 32 = nlen payload)%N as E'.
    { unfold u64_max, nlen in *. pose proof (N.div_mod (8 + n + 32) (2 ^ 64) ltac:(done)).
      assert ((8 + n + 32) / 2 ^ 64 < 2)%N by (apply N.Div0.div_lt_upper_bound; lia).
      assert ((8 + n + 32) / 2 ^ 64 = 0 \/ (8 + n + 32) / 2 ^ 64 = 1)%N as [Hq|Hq] by lia;
        rewrite Hq in *; lia. }
    simpl. intros [= <- <-]. unfold build_leaf_payload.
    assert (nlen (ntake n (drop 8 payload)) = n) as Htn.
    { rewrite nlen_ntake; [done|]. rewrite nlen_drop. lia. }
    rewrite Htn, N.min_l, Hn by (unfold u64_max in *; lia).
    rewrite array_of_bytes by (rewrite length_drop; unfold nlen in *; lia).
    rewrite <-(take_drop 8 payload) at 1. f_equal.
    rewrite <-(ntake_ndrop n (drop 8 payload)) at 1. f_equal. unfold ndrop. by rewrite drop_drop.
  - intros ->. rewrite leaf_payload_length in Hmax.
    pose proof (leaf_payload_length rb h) as Hlen.
    destruct (Nat.ltb_spec (length (build_leaf_payload rb h)) (8 + 32)) as [Hlt|_];
      [unfold nlen in *; lia|].
    unfold build_leaf_payload in *. rewrite N.min_l in * by lia.
    rewrite take_app_length' by (by auto with bytes).
    rewrite from_to_be_bytes by (rewrite pow_256_8; unfold u64_max in *; lia).
    rewrite Hlen, N.mod_small by (unfold u64_max in *; lia).
    destruct (N.eqb_spec (8 + nlen rb + 32) (nlen rb + 40)) as [_|]; [|lia]. cbn [negb].
    rewrite (drop_app_length' (to_be_bytes 8 (nlen rb)) _ 8) by (by auto with bytes).
    f_equal. f_equal.
    + unfold ntake, nlen. by rewrite Nat2N.id, take_app_length.
    + rewrite app_assoc, drop_app_length'; [apply array_of_id|].
      rewrite length_app, length_to_be_bytes. unfold nlen. lia.
Qed.

Section WaveTheorems.
Context `{Sha256} `{Ed25519} `{Hex} `{SerdeJson} `{HmacSha256}.
Context {St C D : Type} `{TransparencyStore St} `{!StoreLaws St}.
Context `{LruCache WaveSessionLeafSide C} `{SqliteTable D}.

Abbreviation WorldT := (WWorld St C D).

(** The leaf of a session record is read back as that record. *)
Lemma leaf_kind_session `{!SerdeJsonCorrect} r h :
  session_ok r -> (nlen (canonical_bytes r) + 40 <= u64_max)%N ->
  leaf_kind (build_leaf_payload (canonical_bytes r) h) = SessionLeaf r h.
Proof.
  intros [Hok Hd]%session_json_ok Hmax. unfold leaf_kind.
  rewrite (proj2 (framing_roundtrip _ (canonical_bytes r) h ltac:(by rewrite leaf_payload_length)) eq_refl).
  unfold canonical_bytes. by rewrite serde_roundtrip, de_session_to_value.
Qed.

(** ** What the route establishes *)

Lemma verify_kernel_hmac_iff rb mac key :
  verify_kernel_hmac rb mac key = Ok tt <-> key <> [] /\ hmac_sha256 key rb = inr mac.
Proof.
  unfold verify_kernel_hmac. case_bool_decide as E1; [naive_solver|].
  destruct (hmac_sha256 key rb) as [e|m]; [naive_solver|].
  case_bool_decide; naive_solver.
Qed.

Lemma hex_bytes_ok what s raw : hex_bytes what s = Ok raw <-> hex_decode (trim s) = inr raw.
Proof. unfold hex_bytes. destruct (hex_decode (trim s)); naive_solver. Qed.

(** Signed under a key with the published fingerprint. *)
Definition ed25519_signed (fpr pk_hex sig_hex : string) (msg : list byte) : Prop :=
  exists pk sig vk, hex_decode (trim pk_hex) = inr (arr_bytes pk) /\
    hex_decode (trim sig_hex) = inr (arr_bytes sig) /\ sha256_hex (arr_bytes pk) = fpr /\
    verifying_key_from_bytes pk = inr vk /\ ed_verify vk msg sig = true.

Lemma verify_ed25519_ok msg pk_hex sig_hex fpr :
  verify_ed25519_signature msg pk_hex sig_hex fpr = Ok tt -> ed25519_signed fpr pk_hex sig_hex msg.
Proof.
  unfold verify_ed25519_signature. intros (pk & Hpk%hex_bytes_ok & Hv)%res_bind_Ok.
  destruct (Nat.eqb_spec (length pk) 32) as [Hlp|]; [|done]. simpl in Hv.
  destruct (constant_time_eq _ _) eqn:Hf; [|done]. apply constant_time_eq_str in Hf. simpl in Hv.
  step Hv as (sig & Hsig%hex_bytes_ok & Hv).
  destruct (Nat.eqb_spec (length sig) 64) as [Hls|]; [|done]. simpl in Hv.
  destruct (verifying_key_from_bytes _) as [|vk] eqn:Hk; [done|].
  destruct (ed_verify _ _ _) eqn:Hver; [|done].
  exists (array_of 32 pk), (array_of 64 sig), vk. by rewrite !array_of_bytes.
Qed.

(** The identity behind a session: the stage's writer, and a signature over the
    record under the key the log trusts for its kind. *)
Definition authenticated (cfg : WaveConfig) (x_api_key : option string) (body : AppendWaveSessionRequest)
    : Prop :=
  let r := aw_record body in
  written_by_matches_stage (ws_written_by r) (ws_stage r) = true /\
  match default SigHmac (aw_signature_type body) with
  | SigHmac =>
    wc_kernel_hmac_key cfg <> [] /\
    (exists mac, hex_to_32 (aw_kernel_hmac_hex body) = Ok mac /\
       hmac_sha256 (wc_kernel_hmac_key cfg) (canonical_bytes r) = inr mac) /\
    (forall table, wc_per_skill_keys cfg = Some table ->
       stage_key table (ws_stage r) = Some (default "" x_api_key))
  | SigEd25519 =>
    exists fpr pk_hex sig_hex, wc_ed25519_key_fingerprint_hex cfg = Some fpr /\
      aw_ed25519_public_key_hex body = Some pk_hex /\ aw_ed25519_signature_hex body = Some sig_hex /\
      ed25519_signed fpr pk_hex sig_hex (canonical_bytes r)
  end.

Lemma key_matches_ok table stage supplied :
  key_matches table stage supplied = true <-> stage_key table stage = Some supplied.
Proof.
  unfold key_matches. destruct (stage_key table stage) as [k|]; [|naive_solver].
  rewrite constant_time_eq_str. naive_solver.
Qed.

Lemma ok_or_Ok {E A} (e : E) (o : option A) a : ok_or e o = Ok a <-> o = Some a.
Proof. destruct o; simpl; naive_solver. Qed.

Lemma session_input_ok cfg key body inp side :
  session_input cfg key body = Ok (inp, side) ->
  authenticated cfg key body /\
  exists mac, hex_to_32 (aw_kernel_hmac_hex body) = Ok mac /\
    ai_payload inp = build_leaf_payload (canonical_bytes (aw_record body)) mac /\
    ai_idempotency_key inp = record_idempotency_key (aw_record body) /\
    ls_record side = aw_record body /\ ls_kernel_hmac side = mac.
Proof.
  unfold session_input. destruct (String.eqb _ _); [|done]. simpl.
  intros (mac & Hmac & Hi)%res_bind_Ok.
  destruct (written_by_matches_stage _ _) eqn:Hw; [|done]. simpl in Hi.
  destruct (match wc_per_skill_keys cfg with Some _ => _ | None => _ end) eqn:Hkey; [|done].
  simpl in Hi. step Hi as ([fpr sig] & Hsig & [= <- <-]).
  split; [|by exists mac]. split; [done|]. unfold check_signature in Hsig.
  destruct (default SigHmac (aw_signature_type body)) eqn:Ety.
  - step Hsig as ([] & [Hk Hh]%verify_kernel_hmac_iff & _).
    split_and!; [done|by exists mac|].
    intros table Ht. rewrite Ht in Hkey. by apply key_matches_ok.
  - step Hsig as (f & Hf%ok_or_Ok & Hsig).
    step Hsig as (pk & Hpk%ok_or_Ok & Hsig).
    step Hsig as (sg & Hsg%ok_or_Ok & Hsig).
    step Hsig as ([] & Hv%verify_ed25519_ok & _).
    by exists f, pk, sg.
Qed.

(** What other requests may do: the ledger only grows, and stays within [u64]. *)
Definition ledger_grows (env : bool -> WorldT -> WorldT -> Prop) : Prop :=
  forall held w w' es, env held w w' -> ts_holds (w_store w) es ->
  exists es', ts_holds (w_store w') es' /\ es `prefix_of` es' /\
    ((nlen es < u64_max)%N -> (nlen es' < u64_max)%N).

Lemma store_append_ok inp (w : WorldT) es o :
  ts_holds (w_store w) es -> (nlen es < u64_max)%N -> fst (store_append inp w) = Ok o ->
  exists es', ts_holds (w_store (snd (store_append inp w))) es' /\ es `prefix_of` es' /\
    exists e, es' !! N.to_nat (ao_leaf_index o) = Some e /\ ai_payload e = ai_payload inp.
Proof.
  intros Hh Hmax. destruct (ts_append_law (w_store w) es inp Hh ltac:(lia)) as [Hf Hs].
  unfold store_append. destruct (ts_append (w_store w) inp) as [ro s']. simpl in *.
  destruct ro as [o'|e|]; [|by destruct e|done]. intros [= ->].
  destruct (ledger_append es inp) as [r es'] eqn:Hla. simpl in *. subst r.
  destruct (ledger_append_entry _ _ _ _ Hla) as (_ & Hp & _ & e & He & _ & Hep). eauto 8.
Qed.

(** The bookkeeping after the store accepted a leaf leaves the ledger to the others. *)
Lemma exec_bookkeeping env held B A (op : WorldT -> B * WorldT) (k : B -> prog WorldT ServiceError A)
    w r w' es :
  ledger_grows env -> ts_holds (w_store w) es -> (forall w, w_store (snd (op w)) = w_store w) ->
  exec env (Await held op k) w r w' ->
  exists b w1 es1, exec env (k b) w1 r w' /\ ts_holds (w_store w1) es1 /\ es `prefix_of` es1.
Proof.
  intros Hg Hh Hop (w1 & He & Hx)%exec_await_inv.
  destruct (Hg _ _ _ _ He Hh) as (es1 & Hh1 & Hp1 & _).
  exists (fst (op w1)), (snd (op w1)), es1. by rewrite Hop.
Qed.

Lemma insert_detail_store h side ms (w : WorldT) :
  w_store (snd (insert_detail h side ms w)) = w_store w.
Proof. done. Qed.

Lemma cache_if_absent_store i side (w : WorldT) : w_store (snd (cache_if_absent i side w)) = w_store w.
Proof. unfold cache_if_absent. by destruct (lru_get _ _). Qed.

(** C24.  A session is recorded only for its writer: whatever other requests
    interleave, the route answers with success only when the record was written by
    the skill of its stage and signed -- by the kernel's HMAC key, under the API key of
    the stage if the per-skill table is armed, or by an Ed25519 key with the published
    fingerprint -- and then the ledger holds, at the index it names, the framing of
    that record's canonical bytes. *)
Theorem session_append_is_authenticated env cfg now key body (w : WorldT) st resp w' es :
  ledger_grows env -> ts_holds (w_store w) es -> (nlen es < u64_max)%N ->
  exec env (append_session cfg now key body) w (Ok (st, resp)) w' ->
  authenticated cfg key body /\
  exists es' e mac, ts_holds (w_store w') es' /\ es `prefix_of` es' /\
    es' !! N.to_nat (as_leaf_index resp) = Some e /\
    hex_to_32 (aw_kernel_hmac_hex body) = Ok mac /\
    ai_payload e = build_leaf_payload (canonical_bytes (aw_record body)) mac.
Proof.
  intros Hg Hh Hmax Hx. unfold append_session in Hx.
  destruct (session_input cfg key body) as [[inp side]|e|] eqn:Hin;
    [|by apply exec_done_inv in Hx as [? _]..].
  apply session_input_ok in Hin as (Hauth & mac & Hmac & Hpay & _). split; [done|].
  apply exec_await_q_inv in Hx as (w1 & He & Hx).
  destruct (Hg _ _ _ _ He Hh) as (es1 & Hh1 & Hp1 & Hm1).
  destruct (fst (store_append inp w1)) as [o|e|] eqn:Ho; [|by destruct Hx..].
  destruct (store_append_ok inp w1 es1 o Hh1 (Hm1 Hmax) Ho) as (es2 & Hh2 & Hp2 & e & Hl & Hep).
  unfold record_wave_session_payload in Hx.
  apply (exec_bookkeeping env _ _ _ _ _ _ _ _ es2 Hg Hh2) in Hx as (? & w3 & es3 & Hx & Hh3 & Hp3); [|done].
  apply (exec_bookkeeping env _ _ _ _ _ _ _ _ es3 Hg Hh3) in Hx as (? & w4 & es4 & Hx & Hh4 & Hp4);
    [|intros; apply cache_if_absent_store].
  apply (exec_bookkeeping env _ _ _ _ _ _ _ _ es4 Hg Hh4) in Hx as (? & w5 & es5 & Hx & Hh5 & Hp5); [|done].
  apply (exec_bookkeeping env _ _ _ _ _ _ _ _ es5 Hg Hh5) in Hx as (? & w6 & es6 & Hx & Hh6 & Hp6); [|done].
  apply exec_done_inv in Hx as [[= _ ->] ->].
  assert (es2 `prefix_of` es6) as Hp26 by (by repeat (etrans; [eassumption|])).
  exists es6, e, mac. split_and!; [done|by etrans; [apply Hp1|]; etrans|..|done|by rewrite Hep].
  eapply prefix_lookup_Some; [exact Hl|done].
Qed.

(** The shared key and the stage keys are one header: with a per-skill table
    armed, an HMAC session can be recorded only for a stage whose own key is the
    shared key -- distinct keys per skill lock out every stage but one -- because the
    layer in front of the route compares the same [x-api-key] with the shared key. *)
Theorem stage_keys_must_be_the_shared_key env cfg now configured key body (w : WorldT) r w' table :
  wc_per_skill_keys cfg = Some table -> default SigHmac (aw_signature_type body) = SigHmac ->
  tlog_auth_layer configured "/v1/wave/session" key = None ->
  exec env (append_session cfg now key body) w r w' ->
  (stage_key table (ws_stage (aw_record body)) = Some configured) \/
  (w' = w /\ exists e, r = Err e /\ (e = StageKeyMismatch \/
     e = KernelFingerprintMismatch \/ e = StageWrittenByMismatch \/
     exists m, e = BadRequest m)).
Proof.
  intros Ht Ety Hl Hx.
  assert (default "" key = configured) as Hkey.
  { unfold tlog_auth_layer in Hl. simpl in Hl. destruct (is_empty configured); [done|].
    destruct (is_empty (default "" key)); [done|].
    destruct (constant_time_eq _ _) eqn:E; [|done]. by apply constant_time_eq_str in E. }
  destruct (key_matches table (ws_stage (aw_record body)) configured) eqn:Hm.
  { left. by apply key_matches_ok. }
  right. unfold append_session, session_input in Hx. rewrite Ht, Ety, Hkey, Hm in Hx.
  destruct (String.eqb _ _); simpl in Hx; [|apply exec_done_inv in Hx as [-> ->]; eauto 10].
  destruct (hex_to_32 (aw_kernel_hmac_hex body)) as [mac|e|] eqn:Eh; simpl in Hx.
  - destruct (written_by_matches_stage _ _); simpl in Hx; apply exec_done_inv in Hx as [-> ->]; eauto 10.
  - apply exec_done_inv in Hx as [-> ->]. split; [done|]. exists e. split; [done|].
    unfold hex_to_32 in Eh. repeat case_match; simplify_eq; eauto 10.
  - unfold hex_to_32 in Eh. repeat case_match; simplify_eq.
Qed.

(** ** Boot *)

(** The wave a leaf is indexed under, readable or not. *)
Definition session_wave (payload : list byte) : option string :=
  match leaf_kind payload with SessionLeaf r _ => Some (wid (ws_wave_id r)) | _ => None end.
Definition unreadable_wave (payload : list byte) : option string :=
  match leaf_kind payload with UnreadableLeaf w => Some w | _ => None end.

(** The positions, in order, of the leaves [f] puts under a wave. *)
Definition leaves_under (f : list byte -> option string) (wave_id : string)
    (lps : list LeafPayloadRecord) : list N :=
  lp_leaf_index <$> filter (fun lp => f (lp_payload lp) = Some wave_id) lps.

(** Same ledger, same indices: only the caches differ. *)
Definition same_indices (w w' : WorldT) : Prop :=
  w_store w' = w_store w /\ wave_session_index w' = wave_session_index w /\
  unreadable_wave_index w' = unreadable_wave_index w.

Lemma lookup_frame {A} i (k : option WaveSessionLeafSide -> prog WorldT ServiceError A) w :
  exists found w', run (lookup_wave_session_payload i k) w = run (k found) w' /\ same_indices w w'.
Proof.
  unfold lookup_wave_session_payload. cbn [run]. destruct (lru_get i (wave_session_payloads w)) as [[hit|] c].
  - by eexists _, _.
  - cbn [run reading]. destruct (match wave_session_detail_store _ with None => _ | Some _ => _ end);
      [|by eexists _, _].
    cbn [run reading]. destruct (match wave_session_detail_store _ with None => _ | Some _ => _ end);
      by eexists _, _.
Qed.

Lemma payload_frame {A} now i h side (k : prog WorldT ServiceError A) w :
  exists w', run (record_wave_session_payload now i h side k) w = run k w' /\ same_indices w w'.
Proof.
  unfold record_wave_session_payload. cbn [run]. unfold cache_if_absent.
  destruct (lru_get i (wave_session_payloads w)) as [hit c]. by eexists _.
Qed.

(** Adding positions to an entry, each at most once. *)
Definition push_all (entry ps : list N) : list N :=
  foldl (fun l i => if bool_decide (i ∈ l) then l else l ++ [i]) entry ps.

Lemma index_leaf_lookup idx w0 i w :
  default [] (index_leaf w0 i idx !! w) =
  push_all (default [] (idx !! w)) (if decide (w0 = w) then [i] else []).
Proof.
  unfold index_leaf. destruct (decide (w0 = w)) as [->|Hne].
  - by rewrite lookup_insert_eq.
  - by rewrite lookup_insert_ne.
Qed.

Lemma push_all_app entry ps qs : push_all entry (ps ++ qs) = push_all (push_all entry ps) qs.
Proof. apply foldl_app. Qed.

Lemma push_all_nodup ps : NoDup ps -> push_all [] ps = ps.
Proof.
  intros Hnd. assert (forall entry, (forall i, i ∈ ps -> i ∉ entry) -> push_all entry ps = entry ++ ps)
    as Hgen; [|by rewrite Hgen by set_solver].
  induction Hnd as [|i ps Hi _ IH]; intros entry Hne; simpl; [by rewrite app_nil_r|].
  rewrite bool_decide_false by (apply Hne; set_solver).
  rewrite IH, <-app_assoc; [done|]. intros j Hj [Hje|Hje%list_elem_of_singleton]%elem_of_app; [|by subst].
  eapply Hne; [|done]. set_solver.
Qed.

Lemma leaves_under_cons f w lp lps :
  leaves_under f w (lp :: lps) =
  (if decide (f (lp_payload lp) = Some w) then [lp_leaf_index lp] else []) ++ leaves_under f w lps.
Proof. unfold leaves_under. rewrite filter_cons. by case_decide. Qed.

Definition sessions_in (lps : list LeafPayloadRecord) : N :=
  nlen (omap (fun lp => session_wave (lp_payload lp)) lps).

Lemma rebuild_spec cfg now lps n (w : WorldT) :
  exists w', run (rebuild cfg now lps n) w = (Ok (n + sessions_in lps)%N, w') /\
    w_store w' = w_store w /\
    forall wave, wave_session_leaves wave w' =
        push_all (wave_session_leaves wave w) (leaves_under session_wave wave lps) /\
      unreadable_wave_leaves wave w' =
        push_all (unreadable_wave_leaves wave w) (leaves_under unreadable_wave wave lps).
Proof.
  revert n w. induction lps as [|lp lps IH]; intros n w; cbn [rebuild].
  { exists w. simpl. by rewrite N.add_0_r. }
  unfold sessions_in. cbn [omap list_omap]. setoid_rewrite leaves_under_cons.
  setoid_rewrite push_all_app.
  assert (session_wave (lp_payload lp) =
    match leaf_kind (lp_payload lp) with SessionLeaf r _ => Some (wid (ws_wave_id r)) | _ => None end)
    as Hs by done.
  assert (unreadable_wave (lp_payload lp) =
    match leaf_kind (lp_payload lp) with UnreadableLeaf w => Some w | _ => None end) as Hu by done.
  destruct (leaf_kind (lp_payload lp)) as [record mac|wv|] eqn:Ek; rewrite Hs, Hu; clear Hs Hu.
  - cbn [run record_wave_session_leaf register_wave_session_leaf_hash fst snd].
    match goal with |- context [run (lookup_wave_session_payload ?i ?k) ?w1] =>
      destruct (lookup_frame i k w1) as (found & w2 & -> & Hs2 & Hi2 & Hu2) end.
    assert (exists w3, run (match found with
        | Some _ => rebuild cfg now lps (n + 1)
        | None => record_wave_session_payload now (lp_leaf_index lp)
            (hex_encode (arr_bytes (lp_leaf_hash lp))) (rebuilt_side cfg record mac)
            (rebuild cfg now lps (n + 1)) end) w2 = run (rebuild cfg now lps (n + 1)) w3 /\
        same_indices w2 w3) as (w3 & -> & Hs3 & Hi3 & Hu3)
      by (destruct found; [by exists w2|apply payload_frame]).
    destruct (IH (n + 1)%N w3) as (w' & -> & Hst & Hix). exists w'.
    split; [f_equal; f_equal; unfold sessions_in, nlen; simpl; lia|].
    split; [by rewrite Hst, Hs3, Hs2|]. intros wave. destruct (Hix wave) as [-> ->].
    unfold wave_session_leaves, unreadable_wave_leaves. rewrite Hi3, Hu3, Hi2, Hu2. simpl.
    rewrite index_leaf_lookup. split; [|first [done|by rewrite decide_False]].
    f_equal. f_equal. by repeat case_decide; simplify_eq.
  - cbn [run record_unreadable_wave_leaf].
    match goal with |- context [run (rebuild cfg now lps n) ?w1] =>
      destruct (IH n w1) as (w' & -> & Hst & Hix) end.
    exists w'. split; [done|]. split; [by rewrite Hst|]. intros wave. destruct (Hix wave) as [-> ->].
    unfold wave_session_leaves, unreadable_wave_leaves. simpl.
    rewrite index_leaf_lookup. split; [first [done|by rewrite decide_False]|].
    f_equal. f_equal. by repeat case_decide; simplify_eq.
  - destruct (IH n w) as (w' & -> & Hst & Hix). exists w'. split; [done|]. split; [done|].
    intros wave. by destruct (Hix wave) as [-> ->].
Qed.

(** A boot: a new process over the durable ledger. *)
Definition booted (w : WorldT) (es : list AppendInput) : Prop :=
  ts_holds (w_store w) es /\ wave_session_index w = ∅ /\ unreadable_wave_index w = ∅.

Lemma ledger_records_index es i lp :
  ledger_records es !! i = Some lp -> lp_leaf_index lp = N.of_nat i /\
    exists e, es !! i = Some e /\ lp_payload lp = ai_payload e.
Proof.
  unfold ledger_records. rewrite list_lookup_imap. destruct (es !! i) as [e|]; [|done].
  intros [= <-]. eauto.
Qed.

Lemma ledger_records_inj es i j x y :
  ledger_records es !! i = Some x -> ledger_records es !! j = Some y ->
  lp_leaf_index x = lp_leaf_index y -> i = j.
Proof. intros [Ei _]%ledger_records_index [Ej _]%ledger_records_index E. lia. Qed.

Lemma ledger_records_nodup f wave es : NoDup (leaves_under f wave (ledger_records es)).
Proof.
  unfold leaves_under. apply NoDup_fmap_2_strong.
  - intros x y [_ [i Hi]%list_elem_of_lookup]%list_elem_of_filter
      [_ [j Hj]%list_elem_of_lookup]%list_elem_of_filter E.
    rewrite (ledger_records_inj _ _ _ _ _ Hi Hj E) in Hi. congruence.
  - apply NoDup_filter, NoDup_alt. intros i j x Hi Hj. by apply (ledger_records_inj es i j x x).
Qed.

(** A reboot finds every session in the ledger and nothing that is not there:
    the reconstruction succeeds and afterwards each wave lists, in ledger order,
    exactly the leaves that read as its session records -- the unreadable ones apart
    -- so a session the route ever recorded is listed again.  It does not look at a
    signature: any leaf that reads as a record is taken for one. *)
Theorem reboot_reindexes_the_ledger `{!SerdeJsonCorrect} cfg now (w : WorldT) es :
  booted w es ->
  exists w', run (reconstruct_wave_sessions_from_ledger cfg now) w =
      (Ok (sessions_in (ledger_records es)), w') /\
    w_store w' = w_store w /\
    (forall wave,
       wave_session_leaves wave w' = leaves_under session_wave wave (ledger_records es) /\
       unreadable_wave_leaves wave w' = leaves_under unreadable_wave wave (ledger_records es)) /\
    (forall i e r mac, es !! i = Some e -> session_ok r ->
       (nlen (canonical_bytes r) + 40 <= u64_max)%N ->
       ai_payload e = build_leaf_payload (canonical_bytes r) mac ->
       N.of_nat i ∈ wave_session_leaves (wid (ws_wave_id r)) w').
Proof.
  intros (Hh & Hi & Hu). unfold reconstruct_wave_sessions_from_ledger, await_q.
  cbn [run reading]. rewrite (ts_load_all_payloads_law _ _ Hh). cbn [map_err].
  destruct (rebuild_spec cfg now (ledger_records es) 0 w) as (w' & -> & Hst & Hix).
  assert (forall wave,
       wave_session_leaves wave w' = leaves_under session_wave wave (ledger_records es) /\
       unreadable_wave_leaves wave w' = leaves_under unreadable_wave wave (ledger_records es)) as Hidx.
  { intros wave. destruct (Hix wave) as [-> ->]. unfold wave_session_leaves, unreadable_wave_leaves.
    rewrite Hi, Hu, !lookup_empty. simpl. by rewrite !push_all_nodup by apply ledger_records_nodup. }
  exists w'. split; [done|]. split; [done|]. split; [done|].
  intros i e r mac He Hok Hlen Hpay. rewrite (proj1 (Hidx _)). unfold leaves_under.
  apply list_elem_of_fmap.
  exists {| lp_leaf_index := N.of_nat i; lp_leaf_hash := leaf_hash (ai_payload e);
            lp_payload := ai_payload e |}.
  split; [done|]. apply list_elem_of_filter. split.
  - simpl. unfold session_wave. by rewrite Hpay, leaf_kind_session.
  - apply list_elem_of_lookup_2 with i. unfold ledger_records. by rewrite list_lookup_imap, He.
Qed.

End WaveTheorems.

(** ** Witnesses *)

Module Demo.
#[local] Existing Instance demo_ed25519.
#[local] Existing Instance demo_hex.
#[local] Existing Instance DemoJson.demo_serde.
#[local] Instance sha : Sha256 := fun l => array_of 32 (rev l).
#[local] Instance keyed : HmacSha256 := fun key msg => inr (array_of 32 (key ++ rev msg)).

(** A cache that evicts nothing and a table that never fails. *)
#[local] Instance map_cache : LruCache WaveSessionLeafSide (gmap N WaveSessionLeafSide) := {
  lru_get i c := (c !! i, c);
  lru_put i v c := <[i := v]> c;
  lru_view c := c
}.

#[local] Instance map_table : SqliteTable (gmap string DetailRow) := {
  sql_insert k row d := (inr tt, match d !! k with Some _ => d | None => <[k := row]> d end);
  sql_select k d := inr (d !! k)
}.

Definition record (stage : WaveStage) (by_ : string) : WaveSessionRecord := {|
  ws_evidence := "log"; ws_gate_surfaces := ∅; ws_linear_issue := "K-1";
  ws_occurred_at_epoch_seconds := 100; ws_outcome := Pass; ws_session_id := "s-1"; ws_stage := stage;
  ws_wave_id := {| wid := "w-1" |}; ws_written_by := by_ |}.

Definition cfg : WaveConfig := {|
  wc_kernel_key_fingerprint_hex := "ab"; wc_kernel_hmac_key := [x07];
  wc_ed25519_public_key_hex := None; wc_ed25519_key_fingerprint_hex := None;
  wc_ed25519_generated_at_epoch_s := 0;
  wc_per_skill_keys := Some [(Tested, "k-test"); (Closed, "k-close")] |}.

Definition body (r : WaveSessionRecord) : AppendWaveSessionRequest := {|
  aw_ed25519_public_key_hex := None; aw_ed25519_signature_hex := None;
  aw_kernel_hmac_hex := hex_encode (arr_bytes (array_of 32 (x07 :: rev (canonical_bytes r))));
  aw_kernel_key_fingerprint_sha256 := "AB"; aw_record := r; aw_signature_type := None |}.

Abbreviation DemoWorld := (WWorld Inner (gmap N WaveSessionLeafSide) (gmap string DetailRow)).

Definition fresh (st : Inner) : DemoWorld := Build_WWorld st ∅ ∅ ∅ ∅ (Some ∅).

Definition alone (_ : bool) (w w' : DemoWorld) : Prop := w' = w.

Lemma alone_grows : ledger_grows alone.
Proof. intros held w w' es -> Hh. by exists es. Qed.

Lemma session_append_is_authenticated_witness : exists resp w',
  run (append_session cfg (f64_of_Z 5) (Some "k-test") (body (record Tested "/test"))) (fresh mem_new) =
    (Ok (201%N, resp), w') /\
  authenticated cfg (Some "k-test") (body (record Tested "/test")) /\
  as_leaf_index resp = 0%N.
Proof.
  pose proof (exec_run alone ltac:(done)
    (append_session cfg (f64_of_Z 5) (Some "k-test") (body (record Tested "/test"))) (fresh mem_new)) as Hx.
  destruct (run (append_session cfg (f64_of_Z 5) (Some "k-test") (body (record Tested "/test")))
    (fresh mem_new)) as [r w'] eqn:E.
  assert (exists resp, r = Ok (201%N, resp) /\ as_leaf_index resp = 0%N) as (resp & -> & Hi).
  { apply (f_equal fst) in E. vm_compute in E. simpl in E. rewrite <-E. eexists. by split. }
  exists resp, w'. split; [done|]. split; [|done].
  assert (ts_holds (w_store (fresh mem_new)) []) as H0 by apply mem_holds_new.
  apply (session_append_is_authenticated alone cfg (f64_of_Z 5) (Some "k-test") (body (record Tested "/test"))
    (fresh mem_new) 201%N resp w' [] alone_grows H0 ltac:(done) Hx).
Defined.

(** The closeout key cannot be used, the test key being the shared one. *)
Lemma stage_keys_must_be_the_shared_key_witness : exists e,
  run (append_session cfg (f64_of_Z 5) (Some "k-test") (body (record Closed "/closeout")))
    (fresh mem_new) = (Err e, fresh mem_new) /\
  tlog_auth_layer "k-test" "/v1/wave/session" (Some "k-close") <> None.
Proof.
  pose proof (exec_run alone ltac:(done)
    (append_session cfg (f64_of_Z 5) (Some "k-test") (body (record Closed "/closeout")))
    (fresh mem_new)) as Hx.
  destruct (run (append_session cfg (f64_of_Z 5) (Some "k-test") (body (record Closed "/closeout")))
    (fresh mem_new)) as [r w'] eqn:E.
  destruct (stage_keys_must_be_the_shared_key alone cfg (f64_of_Z 5) "k-test" (Some "k-test")
    (body (record Closed "/closeout")) (fresh mem_new) r w' _ eq_refl eq_refl eq_refl Hx) as [Hk|(-> & e & -> & _)].
  - vm_compute in Hk. discriminate Hk.
  - exists e. split; [reflexivity|vm_compute; discriminate].
Defined.

(** A leaf that nobody signed. *)
Definition planted : AppendInput := {|
  ai_idempotency_key := array_of 32 [x01];
  ai_payload := build_leaf_payload (canonical_bytes (record Closed "/closeout")) (array_of 32 []);
  ai_occurred_at_epoch_seconds := 0 |}.

Lemma reboot_reindexes_the_ledger_witness : exists w',
  run (reconstruct_wave_sessions_from_ledger cfg (f64_of_Z 5))
    (fresh (snd (mem_append mem_new planted))) = (Ok 1%N, w') /\
  0%N ∈ wave_session_leaves "w-1" w'.
Proof.
  destruct (reboot_reindexes_the_ledger cfg (f64_of_Z 5) (fresh (snd (mem_append mem_new planted))) [planted])
    as (w' & Hr & _ & _ & Hin).
  { split; [apply (proj2 (mem_append_holds mem_new [] planted mem_holds_new ltac:(done)))|done]. }
  exists w'. split; [rewrite Hr; f_equal; f_equal; vm_compute; reflexivity|].
  apply (Hin 0%nat planted (record Closed "/closeout") (array_of 32 [])); [reflexivity| | |reflexivity].
  - by split_and!.
  - vm_compute. discriminate.
Defined.

Lemma framing_roundtrip_witness :
  split_leaf_payload (build_leaf_payload [x41; x42] (array_of 32 [x07])) =
  Ok ([x41; x42], array_of 32 [x07]).
Proof. apply framing_roundtrip; [vm_compute; discriminate|reflexivity]. Defined.

End Demo.
