(* ===== verification/SideTable.v ===== *)
(** * The wave-session detail table

    Models the rest of [crates/services/transparency-log/src/wave_session_detail.rs]
    (rows, insertion and the two lookups are in [WaveRoutes]): the schema, opening,
    dropping and rebuilding the table, and its two counters.  [SqliteLaws] is what
    the SQLite documentation says of the statements of the file on that table: a
    statement that reports an error has changed nothing, except that a schema batch
    may have stopped after the table.

    The table is a shelf that keeps what was first put under a leaf hash until it is
    dropped ([side_table_refines]).  The integrity check binds the record of a row and
    nothing else of it ([integrity_check_covers_the_record]), and the verify route does
    not make it: with a cold cache it serves the rows ([verify_serves_the_rows]). *)

From S2P Require Import Prelude RustStr Float64 Crates Merkle MerkleSpec Store Json Serde Token Revoke.
From S2P Require Import Async HashTree Sth Tlog Auth WaveContext WaveSession WaveRoutes WaveTheorems.

#[local] Open Scope string_scope.

(** ** SQLite *)

(** [Connection::open], [pragma_update], the two schema batches and the two counting
    queries. *)
Class SqliteSchema (D : Type) := {
  sql_open : string -> string + D;
  sql_pragma : string -> string -> D -> (string + unit) * D;
  sql_create : D -> (string + unit) * D;
  sql_drop : D -> (string + unit) * D;
  sql_count : D -> string + Z;
  sql_sum_sizes : D -> string + Z
}.

Definition total_size (rows : gmap string DetailRow) : Z :=
  map_fold (fun _ r n => dr_size_bytes r + n)%Z 0%Z rows.

(** [INSERT .. ON CONFLICT DO NOTHING]. *)
Definition keep_first {A} (k : string) (a : A) (m : gmap string A) : gmap string A :=
  match m !! k with Some _ => m | None => <[k := a]> m end.

(** A batch of statements: done, or stopped on the way. *)
Definition batch {V} (answer : string + unit) (before after done_ : V) : Prop :=
  after = done_ \/ (exists e, answer = inl e) /\ after = before.

(** [sql_view] is the table, if there is one. *)
Class SqliteLaws (D : Type) `{SqliteTable D} `{SqliteSchema D} := {
  sql_view : D -> option (gmap string DetailRow);
  sql_pragma_law p v d : sql_view (snd (sql_pragma p v d)) = sql_view d;
  sql_create_law d : let (r, d') := sql_create d in
    batch r (sql_view d) (sql_view d') (Some (default ∅ (sql_view d)));
  sql_drop_law d : let (r, d') := sql_drop d in batch r (sql_view d) (sql_view d') None;
  sql_insert_law k row d : let (r, d') := sql_insert k row d in
    match r with
    | inl _ => sql_view d' = sql_view d
    | inr _ => exists m, sql_view d = Some m /\ sql_view d' = Some (keep_first k row m)
    end;
  sql_select_law k d o : sql_select k d = inr o -> exists m, sql_view d = Some m /\ o = m !! k;
  sql_count_law d n : sql_count d = inr n -> exists m, sql_view d = Some m /\ n = Z.of_nat (size m);
  sql_sum_law d n : sql_sum_sizes d = inr n -> exists m, sql_view d = Some m /\ n = total_size m
}.

(** ** The table *)

Section SideTable.
Context `{Sha256} `{Hex} `{SerdeJson} {D : Type} `{SqliteTable D} `{SqliteSchema D}.

(** [?] on a [rusqlite::Error]. *)
Definition sql_error {A} (x : string + A) : res SideTableError A :=
  match x with inl e => Err (SideBackend e) | inr a => Ok a end.

Definition ensure_schema (d : D) : res SideTableError unit * D :=
  let (r, d) := sql_create d in (sql_error r, d).

Definition drop_schema_with_conn (d : D) : res SideTableError unit * D :=
  let (r, d) := sql_drop d in (sql_error r, d).

(** [SideTable::drop_schema] and [rebuild_schema], under the connection's lock. *)
Definition drop_schema (d : D) : res SideTableError unit * D := drop_schema_with_conn d.
Definition rebuild_schema (d : D) : res SideTableError unit * D := ensure_schema d.

(** [SideTable::open]; the two pragmas may fail unnoticed. *)
Definition side_open (path : string) : res SideTableError D :=
  let? conn := sql_error (sql_open path) in
  let (r, conn) := ensure_schema conn in
  let? _ := r in
  let (_, conn) := sql_pragma "journal_mode" "WAL" conn in
  let (_, conn) := sql_pragma "synchronous" "NORMAL" conn in
  Ok conn.

Definition side_in_memory : res SideTableError D := side_open ":memory:".

(** [u64::try_from(n).unwrap_or(0)]. *)
Definition row_count (d : D) : res SideTableError N :=
  let? n := sql_error (sql_count d) in Ok (Z.to_N n).
Definition total_bytes (d : D) : res SideTableError N :=
  let? n := sql_error (sql_sum_sizes d) in Ok (Z.to_N n).

(** *** A row is read back as what was put in it *)

(** The strings of a leaf's side are Rust strings. *)
Definition side_ok (side : WaveSessionLeafSide) : Prop :=
  session_ok (ls_record side) /\ utf8 (ls_key_fingerprint_hex side) = true.

Lemma hex_exact_encode `{!HexCorrect} n a w1 w2 :
  hex_exact n w1 w2 (hex_encode (arr_bytes a)) = Ok (a : array n).
Proof.
  unfold hex_exact. rewrite trim_plain, hex_roundtrip, array_length, Nat.eqb_refl by apply hex_plain.
  simpl. by rewrite array_of_id.
Qed.

(** The text of a row, parsed. *)
Definition detail_members (side : WaveSessionLeafSide) : list (string * Value) :=
  [("ed25519_signature_hex", opt_value (fun s => Str (hex_encode (arr_bytes s))) (ls_ed25519_signature side));
   ("kernel_hmac_hex", Str (hex_encode (arr_bytes (ls_kernel_hmac side))));
   ("key_fingerprint_hex", Str (ls_key_fingerprint_hex side));
   ("record", session_to_value (ls_record side)); ("signature_type", Str (as_wire (ls_signature_type side)))].

Lemma detail_parses `{!SerdeJsonCorrect} `{!HexCorrect} side : side_ok side ->
  serde_from_slice (as_bytes (serde_to_string (detail_to_value side))) = inr (Obj (detail_members side)).
Proof.
  intros [Hs Hf]. pose proof (session_json_ok _ Hs) as [Hv _].
  assert (utf8 (hex_encode (arr_bytes (ls_kernel_hmac side))) = true) by apply plain_utf8, hex_plain.
  assert (value_ok (opt_value (fun s => Str (hex_encode (arr_bytes s))) (ls_ed25519_signature side)))
    by (destruct (ls_ed25519_signature side); [apply plain_utf8, hex_plain|done]).
  assert (utf8 (as_wire (ls_signature_type side)) = true) by by destruct (ls_signature_type side).
  pose proof (surfaces_depth (btree_elems (ws_gate_surfaces (ls_record side)))) as Hd.
  assert (exists m, detail_to_value side = Obj m /\ members_ok m /\ bt_collect m = detail_members side)
    as (m & -> & [Hm Hdm] & <-); [|by rewrite serde_struct].
  eexists. split; [reflexivity|]. split; [members|done].
  cbn [depth] in Hd. unfold session_to_value. destruct (ls_ed25519_signature side);
    cbn [opt_value depth list_max fmap list_fmap snd foldr]; lia.
Qed.

Lemma into_side_members `{!HexCorrect} row_error record_error side :
  into_side row_error record_error (Obj (detail_members side)) = Ok side.
Proof.
  destruct side as [r h s t f]. unfold into_side, detail_members.
  change (de_fields _ _) with (Some
    [Some (Str (hex_encode (arr_bytes h))); Some (opt_value (fun s => Str (hex_encode (arr_bytes s))) s);
     Some (Str (as_wire t)); Some (Str f); Some (session_to_value r)]).
  destruct s as [s|]; cbn [opt_value de_req de_option de_any mbind option_bind as_str fmap option_fmap option_map];
    rewrite !hex_exact_encode; cbn [res_bind]; destruct t; cbn [as_wire String.eqb];
    simpl; by rewrite de_session_to_value.
Qed.

Lemma row_is_read_back `{!SerdeJsonCorrect} `{!HexCorrect} side ms k d : side_ok side ->
  sql_select k d = inr (Some (detail_row side ms)) -> side_lookup k d = Ok (Some side).
Proof.
  intros Hok Hs. unfold side_lookup. rewrite Hs. simpl. by rewrite detail_parses, into_side_members.
Qed.

(** ** The shelf *)

(** What was put under each leaf hash, with the time; [None] without a table. *)
Abbreviation Shelf := (option (gmap string (WaveSessionLeafSide * Z))).

Inductive SideOp :=
| Insert (leaf_hash_hex : string) (side : WaveSessionLeafSide) (created_at_unix_ms : Z)
| DropSchema
| RebuildSchema.

Definition side_step (op : SideOp) (d : D) : res SideTableError unit * D :=
  match op with
  | Insert h side ms => side_insert h side ms d
  | DropSchema => drop_schema d
  | RebuildSchema => rebuild_schema d
  end.

Definition side_run (ops : list SideOp) (d : D) : D := foldl (fun d op => snd (side_step op d)) d ops.

(** What an operation promises to do, if it does anything. *)
Definition shelve (op : SideOp) (s : Shelf) : Shelf :=
  match op with
  | Insert h side ms => keep_first h (side, ms) <$> s
  | DropSchema => None
  | RebuildSchema => Some (default ∅ s)
  end.

Inductive shelf_run : list SideOp -> Shelf -> Shelf -> Prop :=
| shelf_end s : shelf_run [] s s
| shelf_did op ops s s' : shelf_run ops (shelve op s) s' -> shelf_run (op :: ops) s s'
| shelf_failed op ops s s' : shelf_run ops s s' -> shelf_run (op :: ops) s s'.

Definition op_ok (op : SideOp) : Prop := match op with Insert _ side _ => side_ok side | _ => True end.

Definition shelf_ok (s : Shelf) : Prop := forall m h p, s = Some m -> m !! h = Some p -> side_ok (fst p).

Lemma keep_first_fmap {A B} (f : A -> B) k a (m : gmap string A) :
  keep_first k (f a) (f <$> m) = f <$> keep_first k a m.
Proof. unfold keep_first. rewrite lookup_fmap. destruct (m !! k); [done|]. by rewrite fmap_insert. Qed.

Lemma keep_first_inv {A} k (a : A) m h b : keep_first k a m !! h = Some b -> b = a \/ m !! h = Some b.
Proof.
  unfold keep_first. destruct (m !! k); [by right|]. rewrite lookup_insert_Some. naive_solver.
Qed.

Lemma shelve_ok op s : op_ok op -> shelf_ok s -> shelf_ok (shelve op s).
Proof.
  intros Ho Hs m h p Hm Hp. destruct op; simpl in *; [|done|].
  - apply fmap_Some in Hm as (m0 & -> & ->). apply keep_first_inv in Hp as [->|Hp]; [done|]. by eapply Hs.
  - injection Hm as <-. destruct s as [m|]; simpl in Hp; [by eapply Hs|by rewrite lookup_empty in Hp].
Qed.

Definition row_of_entry (p : WaveSessionLeafSide * Z) : DetailRow := detail_row (fst p) (snd p).
Definition rows_of (m : gmap string (WaveSessionLeafSide * Z)) : gmap string DetailRow := row_of_entry <$> m.

Context `{!SqliteLaws D}.

Definition shelved (d : D) (s : Shelf) : Prop := sql_view d = rows_of <$> s.

(** An operation does what it promises, or reports an error and does nothing -- but a
    schema batch that fails may have been carried out. *)
Lemma side_step_refines op d s : shelved d s ->
  let (r, d') := side_step op d in
  r <> Panic /\ (shelved d' (shelve op s) \/ (exists e, r = Err e) /\ shelved d' s).
Proof.
  unfold shelved. intros Hv. destruct op as [h side ms| |]; simpl.
  - unfold side_insert. pose proof (sql_insert_law h (detail_row side ms) d) as Hl.
    destruct (sql_insert _ _ d) as [[e|[]] d']; (split; [done|]); [right; split; [eauto|congruence]|left].
    destruct Hl as (m & Hm & ->). rewrite Hv in Hm. apply fmap_Some in Hm as (m0 & -> & ->). simpl.
    unfold rows_of.
    by rewrite <-(keep_first_fmap row_of_entry h (side, ms)).
  - unfold drop_schema, drop_schema_with_conn. pose proof (sql_drop_law d) as Hl.
    destruct (sql_drop d) as [[e|[]] d']; (split; [done|]);
      destruct Hl as [->|[[e' He] ->]]; try done; [by left|right; by eauto|by left].
  - unfold rebuild_schema, ensure_schema. pose proof (sql_create_law d) as Hl.
    destruct (sql_create d) as [[e|[]] d']; (split; [done|]);
      destruct Hl as [->|[[e' He] ->]]; try done; [left|right; by eauto|left];
      rewrite Hv; destruct s; simpl; unfold rows_of; by rewrite ?fmap_empty.
Qed.

Lemma side_run_refines ops d s : Forall op_ok ops -> shelved d s -> shelf_ok s ->
  exists s', shelf_run ops s s' /\ shelved (side_run ops d) s' /\ shelf_ok s'.
Proof.
  intros Ho. revert d s. induction Ho as [|op ops Hop _ IH]; intros d s Hv Hs.
  - exists s. split; [apply shelf_end|done].
  - pose proof (side_step_refines op d s Hv) as Hst. simpl. destruct (side_step op d) as [r d']. simpl.
    destruct Hst as [_ [Hv'|[_ Hv']]].
    + destruct (IH d' (shelve op s)) as (s' & Hr & Hrest); [done|by apply shelve_ok|].
      exists s'. split; [by apply shelf_did|done].
    + destruct (IH d' s) as (s' & Hr & Hrest); [done..|]. exists s'. split; [by apply shelf_failed|done].
Qed.

Lemma shelved_lookup `{!SerdeJsonCorrect} `{!HexCorrect} d s h o : shelved d s -> shelf_ok s ->
  side_lookup h d = Ok o -> exists m, s = Some m /\ o = fst <$> m !! h.
Proof.
  intros Hv Hs Hl. destruct (sql_select h d) as [e|row] eqn:Hsel; [by unfold side_lookup in Hl; rewrite Hsel in Hl|].
  pose proof (sql_select_law _ _ _ Hsel) as (rows & Hr & ->). rewrite Hv in Hr.
  apply fmap_Some in Hr as (m & -> & ->). exists m. split; [done|].
  unfold rows_of in Hsel. rewrite lookup_fmap in Hsel. destruct (m !! h) as [[side ms]|] eqn:Hm.
  - rewrite (row_is_read_back side ms) in Hl; [by injection Hl|by eapply (Hs m h (side, ms))|exact Hsel].
  - unfold side_lookup in Hl. rewrite Hsel in Hl. by injection Hl.
Qed.

Lemma total_size_pos (m : gmap string (WaveSessionLeafSide * Z)) : (0 <= total_size (rows_of m))%Z.
Proof.
  unfold total_size, rows_of. rewrite map_fold_fmap.
  apply (map_fold_weak_ind (fun n _ => (0 <= n)%Z)); [done|]. intros i [side ms] m' n _ Hn. simpl. lia.
Qed.

(** The table refines the shelf: after any run of insertions, drops and rebuilds,
    whatever failed on the way, it holds what the shelf does -- what was first put
    under each hash since the table was last dropped.  A lookup that answers gives that
    side back whole, the integrity check that side or, if the digest is not its
    record's, a mismatch, and the two counters the number of rows and the bytes of
    their text. *)
Theorem side_table_refines `{!SerdeJsonCorrect} `{!HexCorrect} ops d0 s0 :
  Forall op_ok ops -> shelved d0 s0 -> shelf_ok s0 ->
  let d := side_run ops d0 in
  exists s, shelf_run ops s0 s /\ shelved d s /\
  (forall h o, side_lookup h d = Ok o -> exists m, s = Some m /\ o = fst <$> m !! h) /\
  (forall h sha o, lookup_with_integrity_check h sha d = Ok o ->
     exists m, s = Some m /\ o = fst <$> m !! h /\
       forall side, o = Some side -> sha256_hex (canonical_bytes (ls_record side)) = sha) /\
  (forall n, row_count d = Ok n -> exists m, s = Some m /\ n = N.of_nat (size m)) /\
  (forall n, total_bytes d = Ok n -> exists m, s = Some m /\ Z.of_N n = total_size (rows_of m)).
Proof.
  intros Ho Hv Hs d. destruct (side_run_refines ops d0 s0 Ho Hv Hs) as (s & Hr & Hv' & Hs'). fold d in Hv'.
  exists s. split_and!; [done|done|by intros; eapply shelved_lookup|..].
  - intros h sha o (found & Hl & Ho')%res_bind_Ok.
    destruct (shelved_lookup d s h found Hv' Hs' Hl) as (m & -> & Hf). exists m. split; [done|].
    destruct found as [side|]; [|injection Ho' as <-; by split].
    cbv zeta in Ho'. destruct (constant_time_eq _ _) eqn:Hc in Ho'; [|done]. apply constant_time_eq_str in Hc.
    injection Ho' as <-. split; [done|]. by intros ? [= <-].
  - unfold row_count. intros n (z & Hz & [= <-])%res_bind_Ok.
    destruct (sql_count d) eqn:Hq; [done|]. injection Hz as ->. apply sql_count_law in Hq as (rows & Hrows & ->).
    rewrite Hv' in Hrows. apply fmap_Some in Hrows as (m & -> & ->). exists m. split; [done|].
    unfold rows_of. rewrite map_size_fmap. lia.
  - unfold total_bytes. intros n (z & Hz & [= <-])%res_bind_Ok.
    destruct (sql_sum_sizes d) eqn:Hq; [done|]. injection Hz as ->. apply sql_sum_law in Hq as (rows & Hrows & ->).
    rewrite Hv' in Hrows. apply fmap_Some in Hrows as (m & -> & ->). exists m. split; [done|].
    pose proof (total_size_pos m). lia.
Qed.

(** A table just opened holds what the file held. *)
Lemma side_open_view path d : side_open path = Ok d ->
  exists conn, sql_open path = inr conn /\ sql_view d = Some (default ∅ (sql_view conn)).
Proof.
  unfold side_open, ensure_schema. destruct (sql_open path) as [|conn]; [done|]. intros Ho. exists conn.
  split; [done|]. simpl in Ho. pose proof (sql_create_law conn) as Hl.
  destruct (sql_create conn) as [[e|[]] d1]; [done|]. simpl in Ho.
  pose proof (sql_pragma_law "journal_mode" "WAL" d1) as H1'.
  destruct (sql_pragma "journal_mode" "WAL" d1) as [r1 d2].
  pose proof (sql_pragma_law "synchronous" "NORMAL" d2) as H2'.
  destruct (sql_pragma "synchronous" "NORMAL" d2) as [r2 d3]. injection Ho as <-. simpl in *.
  rewrite H2', H1'. by destruct Hl as [->|[[e' He] _]].
Qed.

End SideTable.

(** ** What the integrity check covers, and who makes it *)

Section Integrity.
Context `{Sha256} `{Ed25519} `{Hex} `{SerdeJson} `{HmacSha256} {St C D : Type} `{TransparencyStore St}.
Context `{LruLaws WaveSessionLeafSide C} `{SqliteTable D}.

Abbreviation WorldT := (WWorld St C D).

(** Against the digest of the record the ledger committed to, the integrity check
    accepts a row, whatever was done to it, only if it holds that record, unless two
    texts collide under SHA-256; and it accepts every row that does, whatever HMAC,
    signature, kind and key fingerprint are beside the record. *)
Theorem integrity_check_covers_the_record `{!SerdeJsonCorrect} `{!HexCorrect} h d r side :
  session_ok r -> session_ok (ls_record side) -> side_lookup h d = Ok (Some side) ->
  match lookup_with_integrity_check h (sha256_hex (canonical_bytes r)) d with
  | Ok (Some side') => side' = side /\
      (ls_record side = r \/ sha_collision (canonical_bytes (ls_record side)) (canonical_bytes r))
  | Err (IntegrityMismatch h') => h' = h /\ ls_record side <> r
  | _ => False
  end.
Proof.
  intros Hr Hs Hl. unfold lookup_with_integrity_check. rewrite Hl. cbn [res_bind].
  destruct (constant_time_eq _ _) eqn:Hc; cbn [negb].
  - apply constant_time_eq_str in Hc. split; [done|]. unfold sha256_hex in Hc.
    apply (f_equal hex_decode) in Hc. rewrite !hex_roundtrip in Hc. injection Hc as Hc%array_eq.
    destruct (sha256_inj _ _ Hc) as [Hb|?]; [left; by apply canonical_bytes_inj|by right].
  - split; [done|]. intros Heq. rewrite Heq, (proj2 (constant_time_eq_str _ _) eq_refl) in Hc. done.
Qed.

(** A row for [i], and nothing else cached for it. *)
Definition kept (w : WorldT) (row : N -> WaveSessionLeafSide) (i : N) : Prop :=
  (forall side, lru_view (wave_session_payloads w) !! i = Some side -> side = row i) /\
  exists d h, wave_session_detail_store w = Some d /\ wave_session_leaf_hashes w !! i = Some h /\
    side_lookup h d = Ok (Some (row i)).

Lemma lookup_kept {A} i (k : option WaveSessionLeafSide -> prog WorldT ServiceError A) w row : kept w row i ->
  exists w', run (lookup_wave_session_payload i k) w = run (k (Some (row i))) w' /\
    w_store w' = w_store w /\ forall j, kept w row j -> kept w' row j.
Proof.
  intros (Hc & d & h & Hd & Hh & Hl). unfold lookup_wave_session_payload. cbn [run].
  pose proof (lru_get_law i (wave_session_payloads w)) as [Hg Hv].
  destruct (lru_get i (wave_session_payloads w)) as [hit c]. simpl in Hg, Hv.
  cbn [fst snd]. destruct hit as [side|].
  { rewrite (Hc side) by done. eexists. split; [reflexivity|]. split; [done|].
    intros j (Hcj & Hrest). split; [|done]. cbn [set_payloads wave_session_payloads]. by rewrite Hv. }
  cbn [run reading fst snd set_payloads wave_session_detail_store wave_session_leaf_hashes].
  rewrite Hd, Hh. cbn [run reading fst snd set_payloads wave_session_detail_store]. rewrite Hd, Hl.
  cbn [run fst snd]. eexists. split; [reflexivity|]. split; [done|].
  intros j (Hcj & Hrest). split; [|done]. cbn [set_payloads wave_session_payloads].
  destruct (decide (j = i)) as [->|Hj]; [rewrite lru_put_law; by intros ? [= <-]|].
  intros side E. apply Hcj. rewrite <-Hv. by eapply lru_put_other.
Qed.

Lemma fetch_kept leaves acc k (w : WorldT) row : (forall i, i ∈ leaves -> kept w row i) ->
  exists w', run (fetch_entries leaves acc k) w =
    run (k (acc ++ ((fun i => chain_entry i (row i)) <$> leaves)))%list w' /\ w_store w' = w_store w.
Proof.
  revert acc w. induction leaves as [|i leaves IH]; intros acc w Hc; cbn [fetch_entries].
  - exists w. by rewrite app_nil_r.
  - destruct (lookup_kept i (fun side => match side with
      | None => Done (Err (Backend ("wave-session payload missing for leaf " +:+ u64_to_string i)))
      | Some side => fetch_entries leaves (acc ++ [chain_entry i side])%list k end) w row)
      as (w1 & -> & Hst & Hkept); [apply Hc; set_solver|].
    destruct (IH (acc ++ [chain_entry i (row i)])%list w1) as (w' & -> & Hst').
    { intros j Hj. apply Hkept, Hc. set_solver. }
    exists w'. split; [by rewrite <-app_assoc|congruence].
Qed.

(** Verification serves the rows: as long as what is cached is what they hold -- after
    a reboot nothing is -- [verify_session] answers with exactly the records the detail
    table holds for the wave's leaves, in stage order, whatever the ledger says of
    those leaves, and counts the stages of those records as present. *)
Theorem verify_serves_the_rows cfg wave_id leaves (w : WorldT) row :
  wave_session_leaves wave_id w = leaves -> leaves <> [] -> (forall i, i ∈ leaves -> kept w row i) ->
  exists resp w', run (verify_session cfg wave_id) w = (Ok resp, w') /\ w_store w' = w_store w /\
    vw_chain resp = sort_entries ((fun i => chain_entry i (row i)) <$> leaves) /\
    vw_all_required_stages_present resp = all_required_stages_present (ce_record <$> vw_chain resp).
Proof.
  intros Hl Hne Hc. unfold verify_session. cbn [run reading fst snd]. rewrite Hl.
  destruct leaves as [|i leaves]; [done|].
  edestruct (fetch_kept (i :: leaves) []) as (w' & -> & Hst); [exact Hc|].
  cbn [run]. do 2 eexists. split; [reflexivity|]. by split_and!.
Qed.

End Integrity.

(** ** Witnesses *)

Module Demo.
Import WaveTheorems.Demo.
#[local] Existing Instance demo_ed25519.
#[local] Existing Instance demo_hex.
#[local] Existing Instance DemoJson.demo_serde.
(** A digest in which every byte counts. *)
#[local] Instance sha : Sha256 := fun l =>
  array_of 32 (to_be_bytes 32 (foldl (fun n b => (n * 65599 + Byte.to_N b) mod 2 ^ 256)%N 7%N l)).
#[local] Existing Instance WaveTheorems.Demo.keyed.
#[local] Existing Instance WaveTheorems.Demo.map_cache.

(** A database that never fails; [None] is a file without the table. *)
Abbreviation Db := (option (gmap string DetailRow)).

#[local] Instance demo_table : SqliteTable Db := {
  sql_insert k row d := match d with
                        | None => (inl "no such table", None)
                        | Some m => (inr tt, Some (keep_first k row m))
                        end;
  sql_select k d := match d with None => inl "no such table" | Some m => inr (m !! k) end
}.

Definition schema_over (files : string -> Db) : SqliteSchema Db := {|
  sql_open path := inr (files path);
  sql_pragma _ _ d := (inr tt, d);
  sql_create d := (inr tt, Some (default ∅ d));
  sql_drop _ := (inr tt, None);
  sql_count d := match d with None => inl "no such table" | Some m => inr (Z.of_nat (size m)) end;
  sql_sum_sizes d := match d with None => inl "no such table" | Some m => inr (total_size m) end
|}.

#[program]
Definition laws_over (files : string -> Db) : @SqliteLaws Db _ (schema_over files) := {| sql_view d := d |}.
Next Obligation. done. Qed.
Next Obligation. by left. Qed.
Next Obligation. by left. Qed.
Next Obligation. intros files k row [m|]; [by exists m|done]. Qed.
Next Obligation. intros files k [m|] o; [intros [= <-]; by exists m|done]. Qed.
Next Obligation. intros files [m|] n; [intros [= <-]; by exists m|done]. Qed.
Next Obligation. intros files [m|] n; [intros [= <-]; by exists m|done]. Qed.

(** No file has the table. *)
#[local] Instance demo_schema : SqliteSchema Db := schema_over (fun _ => None).
#[local] Instance demo_laws : SqliteLaws Db := laws_over (fun _ => None).

#[local] Instance map_cache_laws : LruLaws WaveSessionLeafSide (gmap N WaveSessionLeafSide).
Proof.
  split; simpl.
  - done.
  - intros i v c. apply lookup_insert_eq.
  - intros i j v w c Hne. by rewrite lookup_insert_ne by done.
Qed.

Definition side (r : WaveSessionRecord) : WaveSessionLeafSide := {|
  ls_record := r; ls_kernel_hmac := array_of 32 [x07]; ls_ed25519_signature := None;
  ls_signature_type := SigHmac; ls_key_fingerprint_hex := "ab" |}.

Definition with_outcome (o : WaveOutcome) (r : WaveSessionRecord) : WaveSessionRecord := {|
  ws_evidence := ws_evidence r; ws_gate_surfaces := ws_gate_surfaces r; ws_linear_issue := ws_linear_issue r;
  ws_occurred_at_epoch_seconds := ws_occurred_at_epoch_seconds r; ws_outcome := o;
  ws_session_id := ws_session_id r; ws_stage := ws_stage r; ws_wave_id := ws_wave_id r;
  ws_written_by := ws_written_by r |}.

Definition passed : WaveSessionRecord := record Tested "/test".
Definition failed : WaveSessionRecord := with_outcome Fail passed.

Lemma side_of_ok o : side_ok (side (with_outcome o passed)).
Proof. by split_and!. Qed.

(** A second record under a hash is ignored until the table is dropped and rebuilt. *)
Lemma side_table_refines_witness :
  let ops := [RebuildSchema; Insert "h" (side failed) 1; Insert "h" (side passed) 2] in
  side_lookup "h" (side_run ops (None : Db)) = Ok (Some (side failed)) /\
  side_lookup "h" (side_run (ops ++ [DropSchema; RebuildSchema])%list (None : Db)) = Ok None /\
  exists s, shelf_run ops None s /\ s <> None.
Proof.
  intros ops. split; [apply (row_is_read_back (side failed) 1); [apply (side_of_ok Fail)|vm_compute; reflexivity]|].
  split; [vm_compute; reflexivity|].
  assert (Forall op_ok ops) as Hok
    by (repeat constructor; simpl; apply (side_of_ok Fail) || apply (side_of_ok Pass)).
  destruct (side_table_refines (SqliteLaws0 := demo_laws) ops (None : Db) None Hok eq_refl ltac:(done)) as (s & Hr & _ & _ & _ & Hn & _).
  exists s. split; [exact Hr|]. intros ->.
  destruct (Hn 1%N ltac:(vm_compute; reflexivity)) as (m & Hm & _). discriminate Hm.
Defined.

(** The row of a failed session, rewritten as a pass. *)
Definition tampered : Db := Some {["h" := detail_row (side passed) 1]}.

Lemma tampered_reads : side_lookup "h" tampered = Ok (Some (side passed)).
Proof. apply (row_is_read_back (side passed) 1); [apply (side_of_ok Pass)|vm_compute; reflexivity]. Qed.

Lemma integrity_check_covers_the_record_witness :
  lookup_with_integrity_check "h" (sha256_hex (canonical_bytes failed)) tampered = Err (IntegrityMismatch "h") /\
  side_lookup "h" tampered = Ok (Some (side passed)) /\ passed <> failed.
Proof.
  pose proof tampered_reads as Hl.
  pose proof (integrity_check_covers_the_record "h" tampered failed (side passed)
    (proj1 (side_of_ok Fail)) (proj1 (side_of_ok Pass)) Hl) as Hc.
  assert (lookup_with_integrity_check "h" (sha256_hex (canonical_bytes failed)) tampered =
          Err (IntegrityMismatch "h")) as E by (vm_compute; reflexivity).
  rewrite E in Hc. split; [exact E|]. split; [exact Hl|apply Hc].
Defined.

(** The route serves the pass. *)
Definition rebooted : WWorld Inner (gmap N WaveSessionLeafSide) Db :=
  Build_WWorld mem_new {["w-1" := [0%N]]} ∅ ∅ {[0%N := "h"]} (Some tampered).

Lemma verify_serves_the_rows_witness : exists resp w',
  run (verify_session cfg "w-1") rebooted = (Ok resp, w') /\
  (ce_record <$> vw_chain resp) = [passed].
Proof.
  destruct (verify_serves_the_rows cfg "w-1" [0%N] rebooted (fun _ => side passed)) as (resp & w' & Hr & _ & Hc & _).
  - vm_compute. reflexivity.
  - discriminate.
  - intros i ->%list_elem_of_singleton. split; [intros ? [=]|]. exists tampered, "h".
    split; [reflexivity|]. split; [vm_compute; reflexivity|apply tampered_reads].
  - exists resp, w'. split; [exact Hr|]. rewrite Hc. reflexivity.
Defined.

End Demo.
