(* ===== verification/WaveReboot.v ===== *)
(** * What verification serves after a reboot

    The composition of the boot reconstruction and the verify route of [WaveRoutes] with
    the detail table of [SideTable]: the ledger and the table's file survive a restart,
    the indices, the cache and the map of leaf hashes do not.  A session is then served
    as the table's row for its leaf if there is one, and otherwise as what can be read
    off the leaf, which is its record and HMAC, labelled as HMAC-signed under the
    kernel's key ([reboot_serves_the_rows_or_the_leaves]). *)

From S2P Require Import Prelude RustStr Float64 Crates Merkle MerkleSpec Store Json Serde Token Revoke.
From S2P Require Import Async HashTree Sth Tlog PgStore Auth WaveContext WaveSession WaveRoutes WaveTheorems SideTable.

#[local] Open Scope string_scope.

Section Reboot.
Context `{Sha256} `{Ed25519} `{Hex} `{SerdeJson} `{HmacSha256} {St C D : Type} `{TransparencyStore St}.
Context `{LruLaws WaveSessionLeafSide C} `{SqliteTable D} `{SqliteSchema D} `{!SqliteLaws D}.
Context `{!SerdeJsonCorrect} `{!HexCorrect}.

Abbreviation WorldT := (WWorld St C D).
Abbreviation Rows := (gmap string (WaveSessionLeafSide * Z)).

Definition lp_hash (lp : LeafPayloadRecord) : string := hex_encode (arr_bytes (lp_leaf_hash lp)).

(** What is served for a leaf once the indices are rebuilt over the rows [m0]. *)
Definition kept_side (cfg : WaveConfig) (m0 : Rows) (lp : LeafPayloadRecord) : option WaveSessionLeafSide :=
  match leaf_kind (lp_payload lp) with
  | SessionLeaf r mac =>
    Some (match m0 !! lp_hash lp with Some p => fst p | None => rebuilt_side cfg r mac end)
  | _ => None
  end.

(** The table's statements succeed on it. *)
Class SqliteReliable : Prop := {
  sql_select_ok : forall k d m, sql_view d = Some m -> sql_select k d = inr (m !! k);
  sql_insert_ok : forall k row d m, sql_view d = Some m -> fst (sql_insert k row d) = inr tt
}.

Context `{!SqliteReliable}.

Lemma shelved_lookup_ok d (m : Rows) h : shelved d (Some m) -> shelf_ok (Some m) ->
  side_lookup h d = Ok (fst <$> m !! h).
Proof.
  intros Hv Hs. pose proof (sql_select_ok h d _ Hv) as Hsel. unfold rows_of in Hsel. rewrite lookup_fmap in Hsel.
  destruct (m !! h) as [[side ms]|] eqn:Hm.
  - apply (row_is_read_back side ms); [by eapply (Hs m h (side, ms))|done].
  - unfold side_lookup. by rewrite Hsel.
Qed.

Lemma shelved_insert_ok d (m : Rows) h side ms : shelved d (Some m) ->
  shelved (snd (side_insert h side ms d)) (Some (keep_first h (side, ms) m)).
Proof.
  intros Hv. pose proof (side_step_refines (Insert h side ms) d _ Hv) as Hst.
  pose proof (sql_insert_ok h (detail_row side ms) d _ Hv) as Hok. simpl in Hst. unfold side_insert in *.
  destruct (sql_insert _ _ d) as [r d']. simpl in Hok. subst r. by destruct Hst as [_ [?|[[e He] _]]].
Qed.

Section Rebuild.
Variables (cfg : WaveConfig) (m0 : Rows) (all : list LeafPayloadRecord).
Hypothesis Hidx : forall x y, x ∈ all -> y ∈ all -> lp_leaf_index x = lp_leaf_index y -> x = y.
Hypothesis Hcol : forall x y, x ∈ all -> y ∈ all -> lp_leaf_hash x = lp_leaf_hash y -> lp_payload x = lp_payload y.
Hypothesis Hses : forall x r mac, x ∈ all -> leaf_kind (lp_payload x) = SessionLeaf r mac -> session_ok r.
Hypothesis Hfpr : utf8 (wc_kernel_key_fingerprint_hex cfg) = true.
Hypothesis Hm0 : shelf_ok (Some m0).

Lemma lp_hash_inj x y : lp_hash x = lp_hash y -> lp_leaf_hash x = lp_leaf_hash y.
Proof.
  intros E%(f_equal hex_decode). unfold lp_hash in E. rewrite !hex_roundtrip in E. by injection E as E%array_eq.
Qed.

Lemma kept_side_hash x y : x ∈ all -> y ∈ all -> lp_hash x = lp_hash y -> kept_side cfg m0 x = kept_side cfg m0 y.
Proof.
  intros Hx Hy E. unfold kept_side. by rewrite (Hcol x y Hx Hy (lp_hash_inj _ _ E)), E.
Qed.

Lemma kept_side_ok x side : x ∈ all -> kept_side cfg m0 x = Some side -> side_ok side.
Proof.
  intros Hx. unfold kept_side. destruct (leaf_kind _) as [r mac| |] eqn:Ek; [|done..]. intros [= <-].
  destruct (m0 !! lp_hash x) as [p|] eqn:Hp; [by eapply Hm0|]. split; [by eapply Hses|done].
Qed.

(** After the leaves [ps]: the table has grown by the sides of leaves without a row,
    every session among [ps] has its hash and its row, and what is cached is what is
    kept. *)
Definition rebuilt (ps : list LeafPayloadRecord) (cache : gmap N WaveSessionLeafSide) (hs : gmap N string)
    (d : D) (m : Rows) : Prop :=
  shelved d (Some m) /\
  (forall h p, m0 !! h = Some p -> m !! h = Some p) /\
  (forall h p, m !! h = Some p -> m0 !! h = Some p \/
     exists x, x ∈ all /\ lp_hash x = h /\ kept_side cfg m0 x = Some (fst p)) /\
  (forall x side, x ∈ ps -> kept_side cfg m0 x = Some side ->
     hs !! lp_leaf_index x = Some (lp_hash x) /\ is_Some (m !! lp_hash x)) /\
  (forall i h, hs !! i = Some h -> exists x, x ∈ all /\ lp_leaf_index x = i /\ h = lp_hash x) /\
  (forall i side, cache !! i = Some side ->
     exists x, x ∈ ps /\ x ∈ all /\ lp_leaf_index x = i /\ kept_side cfg m0 x = Some side).

(** The rows of the table at that point. *)
Lemma grown_row (m : Rows) x p side :
  (forall h p, m !! h = Some p -> m0 !! h = Some p \/
     exists x, x ∈ all /\ lp_hash x = h /\ kept_side cfg m0 x = Some (fst p)) ->
  x ∈ all -> m !! lp_hash x = Some p -> kept_side cfg m0 x = Some side -> fst p = side.
Proof.
  intros Hgr Hx Hp Hk. destruct (Hgr _ _ Hp) as [Hp0|(y & Hy & E & Hky)].
  - unfold kept_side in Hk. rewrite Hp0 in Hk. destruct (leaf_kind _); [by injection Hk|done..].
  - rewrite (kept_side_hash y x) in Hky by done. congruence.
Qed.

Lemma grown_ok (m : Rows) :
  (forall h p, m !! h = Some p -> m0 !! h = Some p \/
     exists x, x ∈ all /\ lp_hash x = h /\ kept_side cfg m0 x = Some (fst p)) -> shelf_ok (Some m).
Proof.
  intros Hgr ? h p [= <-] Hp. destruct (Hgr _ _ Hp) as [Hp0|(x & Hx & _ & Hk)]; [by eapply Hm0|by eapply kept_side_ok].
Qed.

Lemma rebuilt_row ps cache hs d m x side : rebuilt ps cache hs d m -> x ∈ ps -> x ∈ all ->
  kept_side cfg m0 x = Some side ->
  hs !! lp_leaf_index x = Some (lp_hash x) /\ side_lookup (lp_hash x) d = Ok (Some side).
Proof.
  intros (Hv & _ & Hgr & Hps & _) Hx Hax Hk. destruct (Hps x side Hx Hk) as (Hh & p & Hp). split; [done|].
  rewrite (shelved_lookup_ok d m) by (try apply grown_ok; done). rewrite Hp. simpl.
  by rewrite (grown_row m x p side).
Qed.

(** The hash of the next leaf is registered. *)
Lemma rebuilt_register ps cache hs d m x : rebuilt ps cache hs d m -> x ∈ all ->
  rebuilt ps cache (or_insert (lp_leaf_index x) (lp_hash x) hs) d m /\
  or_insert (lp_leaf_index x) (lp_hash x) hs !! lp_leaf_index x = Some (lp_hash x).
Proof.
  intros (Hv & Hm & Hgr & Hps & Hhs & Hc) Hx. unfold or_insert.
  destruct (hs !! lp_leaf_index x) as [h|] eqn:E.
  - destruct (Hhs _ _ E) as (y & Hy & Ei & ->). assert (y = x) as -> by by apply Hidx. split; [|done].
    by split_and!.
  - split; [|apply lookup_insert_eq]. split_and!; [done..| | |done].
    + intros y side Hy Hk. destruct (Hps y side Hy Hk) as [Hh Hr]. split; [|done].
      rewrite lookup_insert_ne; [done|]. intros Ei. by rewrite <-Ei, E in Hh.
    + intros i h [[<- <-]|[_ Hi]]%lookup_insert_Some; [by exists x|by apply Hhs].
Qed.

(** The side of the next leaf is kept, in the table and perhaps in the cache. *)
Lemma rebuilt_next ps cache cache' hs d d' m x side ms :
  rebuilt ps cache hs d m -> x ∈ all -> kept_side cfg m0 x = Some side ->
  hs !! lp_leaf_index x = Some (lp_hash x) ->
  (forall i s, cache' !! i = Some s -> cache !! i = Some s \/ i = lp_leaf_index x /\ s = side) ->
  shelved d' (Some (keep_first (lp_hash x) (side, ms) m)) ->
  rebuilt (x :: ps) cache' hs d' (keep_first (lp_hash x) (side, ms) m).
Proof.
  intros (_ & Hm & Hgr & Hps & Hhs & Hc) Hx Hk Hh Hc' Hv'.
  assert (forall h p, m !! h = Some p -> keep_first (lp_hash x) (side, ms) m !! h = Some p) as Hkeep.
  { intros h p Hp. unfold keep_first. destruct (m !! lp_hash x) eqn:E; [done|].
    rewrite lookup_insert_ne; [done|]. intros <-. congruence. }
  split_and!; [done|by eauto| | |done|].
  - intros h p Hp. unfold keep_first in Hp. destruct (m !! lp_hash x) eqn:E; [by apply Hgr|].
    apply lookup_insert_Some in Hp as [[<- <-]|[_ Hp]]; [right; by exists x|by apply Hgr].
  - intros y s [->|Hy]%elem_of_cons Hky.
    + split; [done|]. unfold keep_first. destruct (m !! lp_hash x) eqn:E; [by rewrite E|].
      by rewrite lookup_insert_eq.
    + destruct (Hps y s Hy Hky) as [? [p Hp]]. split; [done|]. exists p. by apply Hkeep.
  - intros i s [Hi|[-> ->]]%Hc'.
    + destruct (Hc _ _ Hi) as (y & Hy & Hrest). exists y. split; [by right|done].
    + exists x. split_and!; [by left|done..].
Qed.

(** A leaf that is no session leaves nothing to keep. *)
Lemma rebuilt_skip ps cache hs d m x : rebuilt ps cache hs d m -> kept_side cfg m0 x = None ->
  rebuilt (x :: ps) cache hs d m.
Proof.
  intros (Hv & Hm & Hgr & Hps & Hhs & Hc) Hk. split_and!; [done..| |done|].
  - intros y s [->|Hy]%elem_of_cons Hky; [congruence|by eapply Hps].
  - intros i s (y & Hy & Hrest)%Hc. exists y. split; [by right|done].
Qed.

(** *** The loop *)

Definition rebuilt_in (ps : list LeafPayloadRecord) (w : WorldT) : Prop :=
  exists d m, wave_session_detail_store w = Some d /\
    rebuilt ps (lru_view (wave_session_payloads w)) (wave_session_leaf_hashes w) d m.

Lemma keep_first_present {A} k (a b : A) m : m !! k = Some b -> keep_first k a m = m.
Proof. unfold keep_first. by intros ->. Qed.

Lemma put_only i j side s (c : C) : lru_view (lru_put i side c) !! j = Some s ->
  lru_view c !! j = Some s \/ j = i /\ s = side.
Proof.
  destruct (decide (j = i)) as [->|Hne]; [rewrite lru_put_law; intros [= <-]; by right|].
  intros Hp. left. by eapply lru_put_other.
Qed.

(** The lookup of a leaf whose hash is registered, and what the loop does with it. *)
Lemma rebuild_lookup now x r mac ps (w : WorldT) (k : prog WorldT ServiceError N) :
  rebuilt_in ps w -> x ∈ all -> leaf_kind (lp_payload x) = SessionLeaf r mac ->
  wave_session_leaf_hashes w !! lp_leaf_index x = Some (lp_hash x) ->
  exists w', run (lookup_wave_session_payload (lp_leaf_index x) (fun found =>
    match found with
    | Some _ => k
    | None => record_wave_session_payload now (lp_leaf_index x) (lp_hash x) (rebuilt_side cfg r mac) k
    end)) w = run k w' /\ rebuilt_in (x :: ps) w'.
Proof.
  intros (d & m & Hd & Hr) Hx Hkd Hh. pose proof Hr as (Hv & Hm & Hgr & Hps & _ & Hc).
  assert (exists side, kept_side cfg m0 x = Some side) as [side Hk] by (unfold kept_side; rewrite Hkd; eauto).
  unfold lookup_wave_session_payload. cbn [run].
  pose proof (lru_get_law (lp_leaf_index x) (wave_session_payloads w)) as [Hg Hview].
  destruct (lru_get (lp_leaf_index x) (wave_session_payloads w)) as [hit c]. simpl in Hg, Hview.
  cbn [fst snd]. destruct hit as [s|].
  { destruct (Hc _ s (eq_sym Hg)) as (y & Hy & Hay & Ei & Hky). assert (y = x) as -> by by apply Hidx.
    destruct (Hps x side Hy Hk) as [_ [p Hp]]. eexists. split; [reflexivity|]. exists d, m. split; [done|].
    cbn [set_payloads wave_session_payloads wave_session_leaf_hashes]. rewrite Hview.
    rewrite <-(keep_first_present _ (side, 0%Z) _ m Hp).
    eapply (rebuilt_next _ _ _ _ d); [done..|by left|by rewrite (keep_first_present _ _ _ m Hp)]. }
  cbn [run reading fst snd set_payloads wave_session_detail_store wave_session_leaf_hashes].
  rewrite Hd, Hh. cbn [run reading fst snd set_payloads wave_session_detail_store].
  rewrite Hd, (shelved_lookup_ok d m) by (try apply grown_ok; done).
  destruct (m !! lp_hash x) as [p|] eqn:Hp; cbn [fmap option_fmap option_map run fst snd].
  - rewrite (grown_row m x p side) by done. eexists. split; [reflexivity|]. exists d, m. split; [done|].
    cbn [set_payloads wave_session_payloads wave_session_leaf_hashes].
    rewrite <-(keep_first_present _ (side, 0%Z) _ m Hp).
    eapply (rebuilt_next _ _ _ _ d); [done..| |by rewrite (keep_first_present _ _ _ m Hp)].
    intros i s Hs%put_only. by rewrite Hview in Hs.
  - assert (side = rebuilt_side cfg r mac) as ->.
    { unfold kept_side in Hk. rewrite Hkd in Hk. destruct (m0 !! lp_hash x) as [p|] eqn:E; [|by injection Hk].
      apply Hm in E. congruence. }
    unfold record_wave_session_payload. cbn [run cache_if_absent].
    unfold cache_if_absent. cbn [set_payloads wave_session_payloads].
    pose proof (lru_get_law (lp_leaf_index x) c) as [Hg' Hview'].
    destruct (lru_get (lp_leaf_index x) c) as [hit' c']. simpl in Hg', Hview'. rewrite Hview in Hg'.
    rewrite Hg', <-Hg. cbn [fst snd run register_wave_session_leaf_hash insert_detail].
    eexists. split; [reflexivity|].
    unfold insert_detail, register_wave_session_leaf_hash, set_detail, set_hashes, set_payloads.
    cbn [fst snd wave_session_detail_store wave_session_payloads wave_session_leaf_hashes w_store].
    rewrite Hd. cbn [fmap option_fmap option_map]. do 2 eexists. split; [reflexivity|].
    unfold or_insert. rewrite Hh.
    eapply (rebuilt_next _ _ _ _ d); [done..| |by apply shelved_insert_ok].
    intros i s Hs%put_only. by rewrite Hview', Hview in Hs.
Qed.

Lemma rebuild_keeps now lps ps n (w : WorldT) : rebuilt_in ps w -> (forall x, x ∈ lps -> x ∈ all) ->
  exists n' w', run (rebuild cfg now lps n) w = (Ok n', w') /\ rebuilt_in (reverse lps ++ ps)%list w'.
Proof.
  revert ps n w. induction lps as [|x lps IH]; intros ps n w Hw Hall; cbn [rebuild]; [by exists n, w|].
  rewrite reverse_cons, <-app_assoc. cbn [app].
  assert (forall y, y ∈ lps -> y ∈ all) as Hall' by (intros y Hy; apply Hall; by right).
  assert (x ∈ all) as Hx by (apply Hall; by left).
  assert (kept_side cfg m0 x = None -> rebuilt_in (x :: ps) w) as Hskip.
  { intros Hk. destruct Hw as (d & m & Hd & Hr). exists d, m. split; [done|]. by apply rebuilt_skip. }
  destruct (leaf_kind (lp_payload x)) as [r mac|wv|] eqn:Ek.
  - cbn [run record_wave_session_leaf register_wave_session_leaf_hash fst snd].
    match goal with |- context [run (lookup_wave_session_payload _ _) ?w1] => set (w1' := w1) end.
    assert (rebuilt_in ps w1' /\ wave_session_leaf_hashes w1' !! lp_leaf_index x = Some (lp_hash x)) as [Hw1 Hh].
    { destruct Hw as (d & m & Hd & Hr). destruct (rebuilt_register _ _ _ _ _ x Hr Hx) as [Hr' Hh].
      split; [|exact Hh]. by exists d, m. }
    destruct (rebuild_lookup now x r mac ps w1' (rebuild cfg now lps (n + 1)) Hw1 Hx Ek Hh) as (w2 & Hrun & Hw2).
    change (hex_encode (arr_bytes (lp_leaf_hash x))) with (lp_hash x). rewrite Hrun. by apply IH.
  - cbn [run record_unreadable_wave_leaf]. apply IH; [|done].
    apply Hskip. unfold kept_side. by rewrite Ek.
  - apply IH; [|done]. apply Hskip. unfold kept_side. by rewrite Ek.
Qed.

Lemma rebuilt_kept ps (w : WorldT) x side : rebuilt_in ps w -> x ∈ ps -> x ∈ all ->
  kept_side cfg m0 x = Some side ->
  forall row, row (lp_leaf_index x) = side -> kept w row (lp_leaf_index x).
Proof.
  intros (d & m & Hd & Hr) Hx Hax Hk row Hrow. split.
  - intros s Hs. destruct Hr as (_ & _ & _ & _ & _ & Hc). destruct (Hc _ _ Hs) as (y & _ & Hy & Ei & Hky).
    assert (y = x) as -> by by apply Hidx. congruence.
  - destruct (rebuilt_row _ _ _ _ _ _ _ Hr Hx Hax Hk) as [Hh Hl]. exists d, (lp_hash x). by rewrite Hrow.
Qed.

End Rebuild.

(** The wave's sessions in the ledger. *)
Definition sessions_of (wave_id : string) (lps : list LeafPayloadRecord) : list LeafPayloadRecord :=
  filter (fun lp => session_wave (lp_payload lp) = Some wave_id) lps.

(** What a store lists: an index per leaf, and the leaf's hash. *)
Definition well_listed (lps : list LeafPayloadRecord) : Prop :=
  NoDup (lp_leaf_index <$> lps) /\ Forall (fun lp => lp_leaf_hash lp = leaf_hash (lp_payload lp)) lps.

Lemma well_listed_inj lps x y : well_listed lps -> x ∈ lps -> y ∈ lps ->
  lp_leaf_index x = lp_leaf_index y -> x = y.
Proof.
  intros [Hnd _] [i Hi]%list_elem_of_lookup [j Hj]%list_elem_of_lookup E.
  assert (i = j) as ->; [|congruence].
  eapply NoDup_lookup; [exact Hnd|by rewrite list_lookup_fmap, Hi|by rewrite list_lookup_fmap, Hj, E].
Qed.

Lemma leaves_nodup f wave lps : well_listed lps -> NoDup (leaves_under f wave lps).
Proof.
  intros Hw. unfold leaves_under. apply NoDup_fmap_2_strong.
  - intros x y [_ Hx]%list_elem_of_filter [_ Hy]%list_elem_of_filter. by apply (well_listed_inj lps).
  - apply NoDup_filter. eapply NoDup_fmap_1, Hw.
Qed.

Lemma served_chain cfg m0 row lps :
  Forall (fun lp => kept_side cfg m0 lp = Some (row (lp_leaf_index lp))) lps ->
  (fun i => chain_entry i (row i)) <$> (lp_leaf_index <$> lps) =
  omap (fun lp => chain_entry (lp_leaf_index lp) <$> kept_side cfg m0 lp) lps.
Proof. induction 1 as [|lp lps Hlp _ IH]; [done|]. simpl. rewrite Hlp. simpl. by f_equal. Qed.

Lemma sessions_kept cfg m0 wave_id lps : well_listed lps -> sessions_of wave_id lps <> [] ->
  exists row, Forall (fun lp => kept_side cfg m0 lp = Some (row (lp_leaf_index lp))) (sessions_of wave_id lps).
Proof.
  intros Hw Hne. assert (forall lp, lp ∈ sessions_of wave_id lps -> is_Some (kept_side cfg m0 lp)) as Hk.
  { intros lp [Hs _]%list_elem_of_filter. unfold session_wave in Hs. unfold kept_side.
    destruct (leaf_kind (lp_payload lp)); [by eexists|done..]. }
  destruct (sessions_of wave_id lps) as [|lp0 lps0] eqn:E; [done|]. rewrite <-E in *.
  destruct (Hk lp0) as [s0 _]; [rewrite E; by left|].
  exists (fun i => default s0 ((snd <$> list_find (fun lp => lp_leaf_index lp = i) lps) ≫= kept_side cfg m0)).
  apply Forall_forall. intros lp Hlp. destruct (Hk lp Hlp) as [s Hs].
  apply list_elem_of_filter in Hlp as [_ Hlp].
  destruct (list_find_elem_of (fun x => lp_leaf_index x = lp_leaf_index lp) lps lp Hlp eq_refl) as [[j y] Hy].
  rewrite Hy. apply list_find_Some in Hy as (Hj & Ej & _). apply list_elem_of_lookup_2 in Hj.
  rewrite (well_listed_inj lps y lp Hw Hj Hlp Ej). simpl. by rewrite Hs.
Qed.

(** After a reboot every session in the ledger is served, as the row the table kept
    for it or else as what its leaf says, which loses an Ed25519 signature: over a store
    that lists its leaves -- the memory store and the Postgres one do, whatever their
    indices -- without a collision of leaf hashes, the reconstruction succeeds whatever
    rows the file of the table still has, and then verification answers for every wave
    with a session, with one entry per session leaf, in stage order. *)
Theorem reboot_serves_the_rows_or_the_leaves cfg now (w : WorldT) lps d (m0 : Rows) :
  wave_session_index w = ∅ -> lru_view (wave_session_payloads w) = ∅ -> wave_session_leaf_hashes w = ∅ ->
  ts_load_all_payloads (w_store w) = Ok lps -> well_listed lps ->
  wave_session_detail_store w = Some d -> shelved d (Some m0) -> shelf_ok (Some m0) ->
  utf8 (wc_kernel_key_fingerprint_hex cfg) = true ->
  (forall x r mac, x ∈ lps -> leaf_kind (lp_payload x) = SessionLeaf r mac -> session_ok r) ->
  (forall x y, x ∈ lps -> y ∈ lps -> leaf_hash (lp_payload x) = leaf_hash (lp_payload y) ->
     lp_payload x = lp_payload y) ->
  exists n w', run (reconstruct_wave_sessions_from_ledger cfg now) w = (Ok n, w') /\
  forall wave_id, sessions_of wave_id lps <> [] ->
    exists resp w'', run (verify_session cfg wave_id) w' = (Ok resp, w'') /\
      vw_chain resp = sort_entries
        (omap (fun lp => chain_entry (lp_leaf_index lp) <$> kept_side cfg m0 lp) (sessions_of wave_id lps)).
Proof.
  intros Hi Hc Hhs Hload Hlist Hd Hv Hok Hfpr Hses Hcol.
  unfold reconstruct_wave_sessions_from_ledger, await_q. cbn [run reading].
  rewrite Hload. cbn [map_err fst snd].
  assert (forall x y, x ∈ lps -> y ∈ lps -> lp_leaf_hash x = lp_leaf_hash y -> lp_payload x = lp_payload y) as Hcol'.
  { intros x y Hx Hy. destruct Hlist as [_ Hf]. rewrite Forall_forall in Hf. rewrite (Hf x Hx), (Hf y Hy). by apply Hcol. }
  destruct (rebuild_keeps cfg m0 lps (fun x y => well_listed_inj lps x y Hlist) Hcol' Hses Hfpr Hok now lps [] 0 w)
    as (n & w' & Hrun & Hw'); [|done|].
  { exists d, m0. split; [done|]. rewrite Hc, Hhs. split_and!; [done|done|by left|set_solver|..].
    - intros i h. by rewrite lookup_empty.
    - intros i side. by rewrite lookup_empty. }
  exists n, w'. split; [exact Hrun|]. intros wave_id Hne.
  destruct (rebuild_spec cfg now lps 0 w) as (w1 & Hrun1 & _ & Hix). rewrite Hrun in Hrun1.
  injection Hrun1 as -> <-. destruct (Hix wave_id) as [Hl _].
  unfold wave_session_leaves at 2 in Hl. rewrite Hi, lookup_empty in Hl. simpl in Hl.
  rewrite push_all_nodup in Hl by by apply leaves_nodup.
  destruct (sessions_kept cfg m0 wave_id lps Hlist Hne) as [row Hrow].
  destruct (verify_serves_the_rows cfg wave_id _ w' row Hl) as (resp & w'' & Hr & _ & Hch & _).
  - unfold leaves_under. intros E. by apply fmap_nil_inv in E.
  - intros i (lp & -> & Hlp)%list_elem_of_fmap. rewrite Forall_forall in Hrow. pose proof (Hrow lp Hlp) as Hk.
    apply list_elem_of_filter in Hlp as [_ Hlp].
    eapply (rebuilt_kept cfg m0 lps); try done; [by intros; apply (well_listed_inj lps)|].
    rewrite app_nil_r. by apply elem_of_reverse.
  - exists resp, w''. split; [exact Hr|]. rewrite Hch. f_equal. by apply served_chain.
Qed.

End Reboot.

(** ** Both stores list their leaves *)

Lemma memory_lists `{Sha256} {St} `{StoreLaws St} s es : ts_holds s es ->
  ts_load_all_payloads s = Ok (ledger_records es) /\ well_listed (ledger_records es).
Proof.
  intros Hs. split; [by apply ts_load_all_payloads_law|]. split.
  - apply NoDup_alt. intros i j x. rewrite !list_lookup_fmap.
    destruct (ledger_records es !! i) as [a|] eqn:Ea, (ledger_records es !! j) as [b|] eqn:Eb; try done.
    intros [= <-] [= Eab]. by apply (ledger_records_inj es i j a b).
  - apply Forall_lookup. intros i lp Hlp. unfold ledger_records in Hlp. rewrite list_lookup_imap in Hlp.
    destruct (es !! i); [by injection Hlp as <-|done].
Qed.

Lemma postgres_lists `{Sha256} {P} `{PostgresLaws P} (t : P) lps : pg_valid t ->
  pg_load_all_payloads t = Ok lps -> well_listed lps.
Proof.
  intros Hv Hl. eapply or_backend_Ok in Hl; [|by apply pg_load_all_payloads_spec]. injection Hl as <-.
  destruct Hv as (_ & Hs & _ & Ho). split; [|by apply Forall_fmap, Forall_forall].
  rewrite <-list_fmap_compose. induction Ho as [|r rows (Hr & _) Ho IH]; [constructor|].
  rewrite fmap_cons in Hs. apply Sorted.StronglySorted_inv in Hs as [Hs Hlt]. rewrite fmap_cons. constructor; [|by apply IH].
  intros (r' & E & Hr')%list_elem_of_fmap. rewrite Forall_fmap, Forall_forall in Hlt. rewrite Forall_forall in Ho.
  specialize (Hlt r' Hr'). destruct (Ho r' Hr') as (? & _). simpl in *. lia.
Qed.

(** ** Witness *)

Module Demo.
Import WaveTheorems.Demo SideTable.Demo.
#[local] Existing Instance demo_ed25519.
#[local] Existing Instance demo_hex.
#[local] Existing Instance DemoJson.demo_serde.
#[local] Existing Instance SideTable.Demo.sha.
#[local] Existing Instance WaveTheorems.Demo.keyed.
#[local] Existing Instance WaveTheorems.Demo.map_cache.
#[local] Existing Instance SideTable.Demo.map_cache_laws.
#[local] Existing Instance SideTable.Demo.demo_table.
#[local] Existing Instance SideTable.Demo.demo_schema.
#[local] Existing Instance SideTable.Demo.demo_laws.
#[local] Existing Instance PgStore.Demo.table_pg.
#[local] Existing Instance PgStore.Demo.table_laws.

#[local] Instance demo_reliable : SqliteReliable (D := Db).
Proof. split; [intros k d m Hv|intros k row d m Hv]; change (d = Some m) in Hv; by subst d. Qed.

(** A leaf as an Ed25519 session leaves it, and its row. *)
Definition leaf : AppendInput := {|
  ai_idempotency_key := array_of 32 [x01];
  ai_payload := build_leaf_payload (canonical_bytes passed) (array_of 32 [x07]);
  ai_occurred_at_epoch_seconds := 100 |}.

Definition signed : WaveSessionLeafSide := {|
  ls_record := passed; ls_kernel_hmac := array_of 32 [x07]; ls_ed25519_signature := Some (array_of 64 [x09]);
  ls_signature_type := SigEd25519; ls_key_fingerprint_hex := "cd" |}.

Definition leaf_key : string := hex_encode (arr_bytes (leaf_hash (ai_payload leaf))).

Lemma leaf_is_session : leaf_kind (ai_payload leaf) = SessionLeaf passed (array_of 32 [x07]).
Proof. apply leaf_kind_session; [apply (proj1 (side_of_ok Pass))|vm_compute; discriminate]. Qed.

(** The production ledger, and its list of one leaf, at index 1. *)
Definition ledger : PgStore.Demo.PgTable := snd (pg_append PgStore.Demo.migrated leaf).
Definition listed : list LeafPayloadRecord :=
  [{| lp_leaf_index := 1; lp_leaf_hash := leaf_hash (ai_payload leaf); lp_payload := ai_payload leaf |}].

Lemma one_row inp : (Z.of_N (ai_occurred_at_epoch_seconds inp) <= i64_max)%Z ->
  pg_load_all_payloads (snd (pg_append PgStore.Demo.migrated inp)) =
  Ok [{| lp_leaf_index := 1; lp_leaf_hash := leaf_hash (ai_payload inp); lp_payload := ai_payload inp |}].
Proof.
  intros Ho. unfold pg_append, try_i64. rewrite (proj2 (Z.leb_le _ _) Ho).
  generalize (leaf_hash (ai_payload inp)). intros h. cbn [pg_begin PgStore.Demo.table_pg].
  unfold pg_load_all_payloads. cbn -[try_hash arr_bytes array_of]. by rewrite try_hash_ok.
Qed.

Lemma ledger_lists : pg_load_all_payloads ledger = Ok listed /\ well_listed listed.
Proof.
  assert (pg_load_all_payloads ledger = Ok listed) as E by (apply one_row; discriminate).
  split; [exact E|]. apply (postgres_lists ledger); [|exact E].
  pose proof (pg_append_spec _ leaf (pg_fresh_valid _ PgStore.Demo.migrated_fresh)) as Ha. unfold ledger.
  destruct (pg_append _ _) as [r d']. apply Ha.
Qed.

(** A process just started over the ledger and the file of rows [m0]. *)
Definition started (m0 : gmap string (WaveSessionLeafSide * Z)) :
    WWorld PgStore.Demo.PgTable (gmap N WaveSessionLeafSide) Db :=
  Build_WWorld ledger ∅ ∅ ∅ ∅ (Some (Some (rows_of m0))).

Definition types (r : res ServiceError VerifyWaveSessionResponse) : option (list (string * SignatureType)) :=
  match r with
  | Ok resp => Some ((fun e => (ce_key_fingerprint_hex e, ce_signature_type e)) <$> vw_chain resp)
  | _ => None
  end.

Lemma signed_ok : shelf_ok (Some {[leaf_key := (signed, 1%Z)]}).
Proof.
  intros ? h p [= <-] [_ <-]%lookup_singleton_Some. split; [apply (proj1 (side_of_ok Pass))|reflexivity].
Qed.

Lemma none_ok : shelf_ok (Some ∅).
Proof. intros ? h p [= <-]. by rewrite lookup_empty. Qed.

Lemma reboot_serves_the_rows_or_the_leaves_witness :
  let served m0 :=
    let (_, w) := run (reconstruct_wave_sessions_from_ledger cfg (f64_of_Z 5)) (started m0) in
    types (fst (run (verify_session cfg "w-1") w)) in
  served {[leaf_key := (signed, 1%Z)]} = Some [("cd", SigEd25519)] /\ served ∅ = Some [("ab", SigHmac)].
Proof.
  assert (forall m0, shelf_ok (Some m0) -> let (_, w) :=
      run (reconstruct_wave_sessions_from_ledger cfg (f64_of_Z 5)) (started m0) in
    exists resp w', run (verify_session cfg "w-1") w = (Ok resp, w') /\
      vw_chain resp = sort_entries
        (omap (fun lp => chain_entry (lp_leaf_index lp) <$> kept_side cfg m0 lp) (sessions_of "w-1" listed)))
    as Hserve.
  { intros m0 Hok.
    destruct (reboot_serves_the_rows_or_the_leaves cfg (f64_of_Z 5) (started m0) listed (Some (rows_of m0)) m0)
      as (n & w & Hr & Hw).
    - reflexivity.
    - reflexivity.
    - reflexivity.
    - exact (proj1 ledger_lists).
    - exact (proj2 ledger_lists).
    - reflexivity.
    - reflexivity.
    - exact Hok.
    - reflexivity.
    - intros x r mac ->%list_elem_of_singleton. cbn [lp_payload]. rewrite leaf_is_session. intros [= <- _].
      apply (proj1 (side_of_ok Pass)).
    - by intros x y ->%list_elem_of_singleton ->%list_elem_of_singleton.
    - rewrite Hr. apply Hw. vm_compute. discriminate. }
  cbv zeta. split.
  - specialize (Hserve _ signed_ok). destruct (run _ _) as [n w]. destruct Hserve as (resp & w' & -> & Hc).
    simpl. rewrite Hc. vm_compute. reflexivity.
  - specialize (Hserve _ none_ok). destruct (run _ _) as [n w]. destruct Hserve as (resp & w' & -> & Hc).
    simpl. rewrite Hc. vm_compute. reflexivity.
Defined.

End Demo.
