(* ===== verification/AuditRoutes.v ===== *)
(** * The transparency log's audit routes

    Models [routes/audit_mcp.rs] and [routes/drift.rs] of the transparency log: the
    framing the two share, and [POST /v1/audit/mcp] and [POST /v1/audit/drift], which
    differ in the pinned key only.  The record itself is opaque to the log. *)

From S2P Require Import Prelude RustStr Float64 Crates Merkle MerkleSpec Store Json Serde Token Revoke.
From S2P Require Import Async HashTree Sth Tlog Auth WaveContext WaveSession WaveRoutes WaveTheorems.

#[local] Open Scope string_scope.

Record AppendMcpAuditRequest := {
  am_canonical_bytes_hex : string;
  am_ed25519_public_key_hex : string;
  am_ed25519_signature_hex : string;
  am_idempotency_key_hex : string;
  am_occurred_at_epoch_seconds : N
}.

Record AppendMcpAuditResponse := {
  amr_idempotent_replay : bool;
  amr_leaf_hash_hex : string;
  amr_leaf_index : N;
  amr_ok : bool
}.

Definition build_audit_leaf_payload (record_bytes : list byte) (sig : array 64) : list byte :=
  let n := N.min (nlen record_bytes) u64_max in
  (to_be_bytes 8 n ++ record_bytes ++ arr_bytes sig)%list.

Section AuditRoutes.
Context `{Sha256} `{Ed25519} `{Hex}.
Context {St : Type} `{TransparencyStore St}.

(** Steps 1 to 3 and the start of step 4: everything before the store. *)
Definition audit_input (expected_fpr : option string) (body : AppendMcpAuditRequest)
    : res ServiceError AppendInput :=
  let? expected_fpr := ok_or Ed25519NotConfigured expected_fpr in
  let? announced_pk_raw := hex_bytes "ed25519 pk hex decode: " (am_ed25519_public_key_hex body) in
  if negb (length announced_pk_raw =? 32)%nat
  then Err (BadRequest ("ed25519 public key must be 32 bytes, got " +:+
                        u64_to_string (nlen announced_pk_raw))) else
  let announced_fpr := sha256_hex announced_pk_raw in
  if negb (constant_time_eq (as_bytes announced_fpr) (as_bytes (to_ascii_lowercase expected_fpr)))
  then Err Ed25519KeyFingerprintMismatch else
  let? record_bytes := hex_bytes "canonical_bytes hex decode: " (am_canonical_bytes_hex body) in
  if bool_decide (record_bytes = []) then Err (BadRequest "canonical_bytes empty") else
  let? sig_raw := hex_bytes "ed25519 sig hex decode: " (am_ed25519_signature_hex body) in
  if negb (length sig_raw =? 64)%nat
  then Err (BadRequest ("ed25519 signature must be 64 bytes, got " +:+ u64_to_string (nlen sig_raw))) else
  let sig_arr := array_of 64 sig_raw in
  let? vk := match verifying_key_from_bytes (array_of 32 announced_pk_raw) with
             | inl _ => Err Ed25519SignatureMismatch
             | inr vk => Ok vk
             end in
  if negb (ed_verify vk record_bytes sig_arr) then Err Ed25519SignatureMismatch else
  let? idempotency_key := hex_to_32 (am_idempotency_key_hex body) in
  Ok {| ai_idempotency_key := idempotency_key;
        ai_payload := build_audit_leaf_payload record_bytes sig_arr;
        ai_occurred_at_epoch_seconds := am_occurred_at_epoch_seconds body |}.

(** The handler with the pinned fingerprint [expected_fpr]. *)
Definition append_audit (expected_fpr : option string) (body : AppendMcpAuditRequest)
    : prog St ServiceError (N * AppendMcpAuditResponse) :=
  match audit_input expected_fpr body with
  | Err e => Done (Err e)
  | Panic => Done Panic
  | Ok inp =>
    await_q false (fun s => let (r, s) := ts_append s inp in (map_err service_of_store r, s))
      (fun outcome =>
    let idempotent_replay := negb (ao_created outcome) in
    Done (Ok (if idempotent_replay then 200%N else 201%N,
              {| amr_idempotent_replay := idempotent_replay;
                 amr_leaf_hash_hex := hex_encode (arr_bytes (ao_leaf_hash outcome));
                 amr_leaf_index := ao_leaf_index outcome; amr_ok := true |})))
  end.

(** The keys of the two routes, as [AppState] holds them. *)
Record AuditKeys := {
  mcp_audit_ed25519_key_fingerprint_hex : option string;
  reconciler_drift_ed25519_key_fingerprint_hex : option string
}.

Definition append_mcp_audit (keys : AuditKeys) := append_audit (mcp_audit_ed25519_key_fingerprint_hex keys).
Definition append_reconciler_drift (keys : AuditKeys) :=
  append_audit (reconciler_drift_ed25519_key_fingerprint_hex keys).

(** ** Lemmas *)

(** The body carries [record] and [sig], a signature of it under a key with the
    fingerprint [fpr]. *)
Definition audit_signed (fpr : string) (body : AppendMcpAuditRequest) (record : list byte)
    (sig : array 64) : Prop :=
  record <> [] /\ hex_decode (trim (am_canonical_bytes_hex body)) = inr record /\
  hex_decode (trim (am_ed25519_signature_hex body)) = inr (arr_bytes sig) /\
  exists pk vk, hex_decode (trim (am_ed25519_public_key_hex body)) = inr (arr_bytes pk) /\
    sha256_hex (arr_bytes pk) = to_ascii_lowercase fpr /\
    verifying_key_from_bytes pk = inr vk /\ ed_verify vk record sig = true.

Lemma audit_input_ok expected body inp :
  audit_input expected body = Ok inp ->
  exists fpr record sig, expected = Some fpr /\ audit_signed fpr body record sig /\
    hex_to_32 (am_idempotency_key_hex body) = Ok (ai_idempotency_key inp) /\
    ai_payload inp = build_audit_leaf_payload record sig.
Proof.
  unfold audit_input. intros (fpr & Hf%ok_or_Ok & Hi)%res_bind_Ok.
  step Hi as (pk & Hpk%hex_bytes_ok & Hi).
  destruct (Nat.eqb_spec (length pk) 32) as [Hlp|]; [|done]. simpl in Hi.
  destruct (constant_time_eq _ _) eqn:Hc; [|done]. apply constant_time_eq_str in Hc. simpl in Hi.
  step Hi as (rb & Hrb%hex_bytes_ok & Hi). case_bool_decide as Hne; [done|].
  step Hi as (sig & Hsig%hex_bytes_ok & Hi).
  destruct (Nat.eqb_spec (length sig) 64) as [Hls|]; [|done]. simpl in Hi.
  step Hi as (vk & Hvk & Hi).
  destruct (verifying_key_from_bytes _) as [|vk'] eqn:Hk; [done|]. injection Hvk as ->.
  destruct (ed_verify _ _ _) eqn:Hv; [|done]. simpl in Hi.
  step Hi as (key & Hkey & [= <-]).
  exists fpr, rb, (array_of 64 sig). split; [done|]. split; [|done].
  split; [done|]. split; [done|]. rewrite array_of_bytes by done. split; [done|].
  exists (array_of 32 pk), vk. by rewrite array_of_bytes.
Qed.

(** The two trailers have different lengths: an audit leaf is never read as a wave
    session, whatever its record. *)
Lemma audit_leaf_is_no_session `{SerdeJson} record sig :
  (nlen record + 72 <= u64_max)%N -> leaf_kind (build_audit_leaf_payload record sig) = OtherLeaf.
Proof.
  intros Hmax. unfold leaf_kind, split_leaf_payload.
  assert (nlen (build_audit_leaf_payload record sig) = nlen record + 72)%N as Hlen.
  { unfold build_audit_leaf_payload, nlen. rewrite !length_app. autorewrite with bytes. lia. }
  destruct (Nat.ltb_spec (length (build_audit_leaf_payload record sig)) (8 + 32)); [done|].
  rewrite Hlen. unfold build_audit_leaf_payload. rewrite N.min_l by lia.
  rewrite take_app_length' by (by auto with bytes).
  rewrite from_to_be_bytes by (rewrite pow_256_8; unfold u64_max in *; lia).
  rewrite N.mod_small by (unfold u64_max in *; lia).
  destruct (N.eqb_spec (8 + nlen record + 32) (nlen record + 72)); [lia|done].
Qed.

Lemma audit_payload_inj r1 s1 r2 s2 :
  (nlen r1 <= u64_max)%N -> (nlen r2 <= u64_max)%N ->
  build_audit_leaf_payload r1 s1 = build_audit_leaf_payload r2 s2 -> r1 = r2 /\ s1 = s2.
Proof.
  unfold build_audit_leaf_payload. intros Hr1 Hr2. rewrite !N.min_l by done.
  intros [_ E]%app_inj_1; [|by autorewrite with bytes].
  apply app_inj_2 in E as [-> E%array_eq]; [done|by autorewrite with bytes].
Qed.

Context `{!StoreLaws St}.

(** Other requests only extend the ledger, and leave it room. *)
Definition store_grows (env : bool -> St -> St -> Prop) : Prop :=
  forall held s s' es, env held s s' -> ts_holds s es ->
  exists es', ts_holds s' es' /\ es `prefix_of` es' /\
    ((nlen es < u64_max)%N -> (nlen es' < u64_max)%N).

(** An audit leaf is recorded only for the holder of the pinned key: whatever
    other requests interleave, each of the two routes answers with success only when
    its own key is configured and the body carries a signature of a non-empty record
    under a key with that fingerprint; then the ledger holds the framing of exactly
    that record and signature at the index the answer names, the leaf hash and the
    status (200 on a replay, 201 otherwise) are the entry's, and no later reading
    takes that leaf for a wave session.  The two keys do not stand in for each other. *)
Theorem audit_append_is_signed `{SerdeJson} env keys (drift : bool) body s es st resp s' :
  let route := if drift then append_reconciler_drift keys else append_mcp_audit keys in
  store_grows env -> ts_holds s es -> (nlen es < u64_max)%N ->
  exec env (route body) s (Ok (st, resp)) s' ->
  exists fpr record sig es' e,
    (if drift then reconciler_drift_ed25519_key_fingerprint_hex keys
     else mcp_audit_ed25519_key_fingerprint_hex keys) = Some fpr /\
    audit_signed fpr body record sig /\
    ts_holds s' es' /\ es `prefix_of` es' /\ es' !! N.to_nat (amr_leaf_index resp) = Some e /\
    ai_payload e = build_audit_leaf_payload record sig /\
    hex_to_32 (am_idempotency_key_hex body) = Ok (ai_idempotency_key e) /\
    amr_leaf_hash_hex resp = hex_encode (arr_bytes (leaf_hash (ai_payload e))) /\
    st = (if amr_idempotent_replay resp then 200 else 201)%N /\
    ((nlen record + 72 <= u64_max)%N -> leaf_kind (ai_payload e) = OtherLeaf).
Proof.
  cbv zeta. intros Hg Hh Hmax Hx.
  assert (exec env (append_audit (if drift then reconciler_drift_ed25519_key_fingerprint_hex keys
     else mcp_audit_ed25519_key_fingerprint_hex keys) body) s (Ok (st, resp)) s') as Hx' by (by destruct drift).
  clear Hx. unfold append_audit in Hx'.
  destruct (audit_input _ body) as [inp|e|] eqn:Hin; [|by apply exec_done_inv in Hx' as [? _]..].
  apply audit_input_ok in Hin as (fpr & record & sig & Hf & Hsig & Hkey & Hpay).
  apply exec_await_q_inv in Hx' as (s1 & He & Hx).
  destruct (Hg _ _ _ _ He Hh) as (es1 & Hh1 & Hp1 & Hm1). specialize (Hm1 Hmax).
  destruct (ts_append_law s1 es1 inp Hh1 ltac:(lia)) as [Hr Hs].
  destruct (ts_append s1 inp) as [ro s2]. simpl in *. subst ro.
  destruct (ledger_append es1 inp) as [[o|e|] es2] eqn:Hla; simpl in *; [|by destruct Hx..].
  apply exec_done_inv in Hx as [[= -> ->] ->].
  destruct (ledger_append_entry _ _ _ _ Hla) as (Hlh & Hp & _ & e & He' & Hek & Hep).
  exists fpr, record, sig, es2, e. simpl. split; [done|]. split; [done|]. split; [done|].
  split; [by etrans|]. rewrite Hep, Hek, Hlh, Hpay. split_and!; try done.
  intros. by apply audit_leaf_is_no_session.
Qed.

End AuditRoutes.

(** ** Witnesses *)

Module Demo.
Import WaveTheorems.Demo.
#[local] Existing Instance demo_ed25519.
#[local] Existing Instance demo_hex.
#[local] Existing Instance DemoJson.demo_serde.
#[local] Existing Instance sha.

Definition drift_pk : array 32 := array_of 32 [x05].

Definition keys : AuditKeys := {|
  mcp_audit_ed25519_key_fingerprint_hex := None;
  reconciler_drift_ed25519_key_fingerprint_hex := Some (sha256_hex (arr_bytes drift_pk)) |}.

Definition body : AppendMcpAuditRequest := {|
  am_canonical_bytes_hex := "7b7d"; am_ed25519_public_key_hex := hex_encode (arr_bytes drift_pk);
  am_ed25519_signature_hex := hex_encode (arr_bytes (array_of 64 (arr_bytes drift_pk ++ [x7b; x7d])%list));
  am_idempotency_key_hex := hex_encode (arr_bytes (array_of 32 [x09])); am_occurred_at_epoch_seconds := 7 |}.

Definition still (_ : bool) (s s' : Inner) : Prop := s' = s.

Lemma still_grows : store_grows still.
Proof. intros held s s' es -> Hh. by exists es. Qed.

Lemma audit_append_is_signed_witness : exists resp s' e,
  run (append_reconciler_drift keys body) mem_new = (Ok (201%N, resp), s') /\
  ts_holds s' [e] /\ ai_payload e = build_audit_leaf_payload [x7b; x7d]
    (array_of 64 (arr_bytes drift_pk ++ [x7b; x7d])%list).
Proof.
  pose proof (exec_run still ltac:(done) (append_reconciler_drift keys body) mem_new) as Hx.
  assert (length (leaves (snd (run (append_reconciler_drift keys body) mem_new))) = 1%nat) as Hl
    by (vm_compute; reflexivity).
  assert (exists resp, fst (run (append_reconciler_drift keys body) mem_new) = Ok (201%N, resp))
    as [resp Hr] by (eexists; vm_compute; reflexivity).
  destruct (run (append_reconciler_drift keys body) mem_new) as [r s']. simpl in Hl, Hr. subst r.
  destruct (audit_append_is_signed still keys true body mem_new [] 201%N resp s' still_grows mem_holds_new
    ltac:(done) Hx) as (fpr & rec & sig & es' & e & _ & (_ & Hrec & Hsig & _) & Hh & _ & He & Hp & _).
  exists resp, s', e. split; [reflexivity|].
  assert (es' = [e]) as ->.
  { pose proof Hh as (Hlv & _). rewrite Hlv in Hl. pose proof (ledger_leaves_length es') as Hn.
    unfold nlen in Hn. rewrite Hl in Hn.
    destruct es' as [|e' [|]]; [done| |done]. apply list_elem_of_lookup_2 in He.
    by apply list_elem_of_singleton in He as ->. }
  split; [exact Hh|]. rewrite Hp. vm_compute in Hrec. injection Hrec as <-.
  apply (f_equal (fun x => match x with inr b => array_of 64 b | inl _ => array_of 64 [] end)) in Hsig.
  rewrite array_of_id in Hsig. rewrite <-Hsig. vm_compute. reflexivity.
Defined.

End Demo.
