(* ===== verification/LogHttp.v ===== *)
(** * The transparency log over HTTP

    Models [crates/services/transparency-log/src/router.rs], the [health] route of
    [routes/mod.rs] and the wire side of [dto.rs] and of
    [crates/domain/src/transparency/merkle.rs]: what each of the ten routes reads of a
    request and writes of its handler's outcome, and [build_router] -- the
    authentication layer, the body limit and the route table over the handlers of
    [Tlog], [WaveRoutes] and [AuditRoutes], which share one [AppState]. *)

From S2P Require Import Prelude RustStr Float64 Crates Merkle MerkleSpec HashTree Sth Store Json Serde Token Revoke.
From S2P Require Import Async Pool Tlog Auth CircuitBreaker Client TlogClient Routing KernelHttp.
From S2P Require Import WaveContext WaveSession WaveRoutes AuditRoutes.

#[local] Open Scope string_scope.

(** ** What the routes write *)

Definition num (n : N) : Value := Num (PosInt n).

(** [[u8; 32]] and, through [BigArray], [[u8; 64]]. *)
Definition byte_values (l : list byte) : Value := Arr (num ∘ Byte.to_N <$> l).
Definition digest_value (d : digest) : Value := byte_values (arr_bytes d).

Definition merkle_leaf_value (l : MerkleLeaf) : Value :=
  Obj [("hash", digest_value (hash l)); ("leaf_index", num (ml_leaf_index l));
       ("occurred_at_epoch_seconds", num (occurred_at_epoch_seconds l))].

Definition inclusion_proof_value (p : InclusionProof) : Value :=
  Obj [("leaf_hash", digest_value (ip_leaf_hash p)); ("leaf_index", num (ip_leaf_index p));
       ("path", Arr (digest_value <$> path p)); ("tree_size", num (ip_tree_size p))].

Definition consistency_proof_value (p : ConsistencyProof) : Value :=
  Obj [("from_size", num (from_size p)); ("proof", Arr (digest_value <$> proof p));
       ("to_size", num (to_size p))].

Definition tree_head_value (h : SignedTreeHead) : Value :=
  Obj [("root_hash", digest_value (root_hash h)); ("signature", byte_values (arr_bytes (signature h)));
       ("timestamp_epoch_seconds", num (timestamp_epoch_seconds h)); ("tree_size", num (tree_size h))].

Definition verify_response_value (r : VerifyResponse) : Value :=
  Obj [("current_root_hash", Str (current_root_hash r)); ("current_tree_size", num (current_tree_size r));
       ("entry", merkle_leaf_value (entry r)); ("inclusion_proof", inclusion_proof_value (inclusion_proof r))].

Definition sth_response_value (r : SignedTreeHeadResponse) : Value :=
  Obj [("ok", Bool (sr_ok r)); ("signing_key_fingerprint_sha256", Str (signing_key_fingerprint_sha256 r));
       ("sth", tree_head_value (sth r))].

Definition consistency_response_value (r : ConsistencyResponse) : Value :=
  Obj [("consistency_proof", consistency_proof_value (cr_consistency_proof r)); ("ok", Bool (cr_ok r))].

(** A member that is skipped when absent. *)
Definition member_if {A} (k : string) (f : A -> Value) (o : option A) : list (string * Value) :=
  match o with Some a => [(k, f a)] | None => [] end.

Definition chain_entry_value (e : WaveSessionChainEntry) : Value :=
  Obj (member_if "ed25519_signature_hex" Str (ce_ed25519_signature_hex e) ++
       [("key_fingerprint_hex", Str (ce_key_fingerprint_hex e));
        ("kernel_hmac_hex", Str (ce_kernel_hmac_hex e)); ("leaf_index", num (ce_leaf_index e));
        ("record", session_to_value (ce_record e)); ("signature_type", Str (as_wire (ce_signature_type e)))]).

Definition verify_session_value (r : VerifyWaveSessionResponse) : Value :=
  Obj ([("all_required_stages_present", Bool (vw_all_required_stages_present r));
        ("chain", Arr (chain_entry_value <$> vw_chain r));
        ("kernel_key_fingerprint_sha256", Str (vw_kernel_key_fingerprint_sha256 r)); ("ok", Bool (vw_ok r))] ++
       member_if "transparency_log_ed25519_key_fingerprint_sha256" Str
         (vw_transparency_log_ed25519_key_fingerprint_sha256 r) ++
       [("wave_id", Str (vw_wave_id r))]).

Definition append_session_value (r : AppendWaveSessionResponse) : Value :=
  Obj [("idempotent_replay", Bool (as_idempotent_replay r)); ("leaf_hash_hex", Str (as_leaf_hash_hex r));
       ("leaf_index", num (as_leaf_index r)); ("ok", Bool (as_ok r))].

Definition audit_response_value (r : AppendMcpAuditResponse) : Value :=
  Obj [("idempotent_replay", Bool (amr_idempotent_replay r)); ("leaf_hash_hex", Str (amr_leaf_hash_hex r));
       ("leaf_index", num (amr_leaf_index r)); ("ok", Bool (amr_ok r))].

Definition transparency_key_value (r : TransparencyKeyResponse) : Value :=
  Obj ([("algorithm", Str (tk_algorithm r));
        ("generated_at_epoch_seconds", num (tk_generated_at_epoch_seconds r));
        ("key_fingerprint_sha256_hex", Str (tk_key_fingerprint_sha256_hex r))] ++
       member_if "per_skill_fingerprints" (fun m => Obj (prod_map id Str <$> m))
         (tk_per_skill_fingerprints r) ++
       [("public_key_hex", Str (tk_public_key_hex r))]).

Record LogHealthResponse := { lh_ok : bool; lh_tree_size : N }.

Definition log_health_value (r : LogHealthResponse) : Value :=
  Obj [("ok", Bool (lh_ok r)); ("tree_size", num (lh_tree_size r))].

(** ** What the routes read *)

Definition signature_type_names : list (string * SignatureType) :=
  [("hmac", SigHmac); ("ed25519", SigEd25519)].

Definition de_append_session_request (v : Value) : option AppendWaveSessionRequest :=
  fs ← de_fields_strict ["ed25519_public_key_hex"; "ed25519_signature_hex"; "kernel_hmac_hex";
                         "kernel_key_fingerprint_sha256"; "record"; "signature_type"]
         (with_defaults 6 [Null] v);
  match fs with
  | [pk; sg; mac; fpr; record; ty] =>
    pk ← de_option as_str pk; sg ← de_option as_str sg; mac ← de_req as_str mac; fpr ← de_req as_str fpr;
    record ← de_req de_session record; ty ← de_option (de_unit_variant signature_type_names) ty;
    Some {| aw_ed25519_public_key_hex := pk; aw_ed25519_signature_hex := sg; aw_kernel_hmac_hex := mac;
            aw_kernel_key_fingerprint_sha256 := fpr; aw_record := record; aw_signature_type := ty |}
  | _ => None
  end.

(** [AppendMcpAuditRequest] and [AppendReconcilerDriftRequest] alike. *)
Definition de_audit_request (v : Value) : option AppendMcpAuditRequest :=
  fs ← de_fields_strict ["canonical_bytes_hex"; "ed25519_public_key_hex"; "ed25519_signature_hex";
                         "idempotency_key_hex"; "occurred_at_epoch_seconds"] v;
  match fs with
  | [rec; pk; sg; key; at_] =>
    rec ← de_req as_str rec; pk ← de_req as_str pk; sg ← de_req as_str sg; key ← de_req as_str key;
    at_ ← de_req de_u64 at_;
    Some {| am_canonical_bytes_hex := rec; am_ed25519_public_key_hex := pk; am_ed25519_signature_hex := sg;
            am_idempotency_key_hex := key; am_occurred_at_epoch_seconds := at_ |}
  | _ => None
  end.

(** [Query<ConsistencyParams>]: each member given once, as a number; others are ignored. *)
Definition consistency_params (q : list (string * string)) : option (N * N) :=
  first ← query_one "first" q ≫= parse_u64; second ← query_one "second" q ≫= parse_u64;
  Some (first, second).

(** ** The table *)

Inductive LogRoute :=
| RHealth | RAppend | RVerify | RSth | RConsistency | RWaveSession | RWaveVerify | RMcpAudit | RDrift | RKey.

#[export] Instance log_route_eq_dec : EqDecision LogRoute.
Proof. solve_decision. Defined.

Definition log_routes : list (Row LogRoute) :=
  [Build_Row "/health" GET RHealth;
   Build_Row "/v1/append" POST RAppend;
   Build_Row "/v1/verify/{entry_id}" GET RVerify;
   Build_Row "/v1/sth" GET RSth;
   Build_Row "/v1/consistency" GET RConsistency;
   Build_Row "/v1/wave/session" POST RWaveSession;
   Build_Row "/v1/wave/{wave_id}/verify" GET RWaveVerify;
   Build_Row "/v1/audit/mcp" POST RMcpAudit;
   Build_Row "/v1/audit/drift" POST RDrift;
   Build_Row "/v1/keys/transparency" GET RKey].

Definition MAX_BODY_BYTES : N := 1024 * 1024.

(** ** State *)

(** The fixed part of [AppState]. *)
Record LogApp `{Ed25519} := {
  la_config : Config;
  la_wave : WaveConfig;
  la_audit_keys : AuditKeys;
  la_api_key : string
}.

(** The part that changes: what the wave surface shares with the ledger routes, and
    the cached tree. *)
Record LWorld (St C D : Type) := { lw_wave : WWorld St C D; lw_tree : HashTree }.
Arguments lw_wave {St C D}.
Arguments lw_tree {St C D}.
Arguments Build_LWorld {St C D}.

Section State.
Context {St C D : Type}.

Definition set_store (s : St) (w : WWorld St C D) : WWorld St C D :=
  Build_WWorld s (wave_session_index w) (unreadable_wave_index w) (wave_session_payloads w)
    (wave_session_leaf_hashes w) (wave_session_detail_store w).

Definition ledger_of (w : LWorld St C D) : World St := Build_World (w_store (lw_wave w)) (lw_tree w).
Definition set_ledger (v : World St) (w : LWorld St C D) : LWorld St C D :=
  Build_LWorld (set_store (store v) (lw_wave w)) (consistency_tree v).

Definition set_wave (v : WWorld St C D) (w : LWorld St C D) : LWorld St C D := Build_LWorld v (lw_tree w).

Definition store_of (w : LWorld St C D) : St := w_store (lw_wave w).
Definition put_store (s : St) (w : LWorld St C D) : LWorld St C D :=
  Build_LWorld (set_store s (lw_wave w)) (lw_tree w).

Lemma ledger_of_set v w : ledger_of (set_ledger v w) = v.
Proof. by destruct v. Qed.

Lemma store_of_put s w : store_of (put_store s w) = s.
Proof. done. Qed.

Lemma lw_wave_set v w : lw_wave (set_wave v w) = v.
Proof. done. Qed.

End State.

Section LogHttp.
Context `{Sha256} `{Ed25519} `{Hex} `{B64Url} `{SerdeJson} `{HmacSha256} `{Axum} `{AxumRouting} `{!AxumQuery}.
Context {St C D : Type} `{TransparencyStore St} `{LruCache WaveSessionLeafSide C} `{SqliteTable D}.

Abbreviation WorldT := (LWorld St C D).

(** [GET /health]. *)
Definition health : prog (World St) ServiceError LogHealthResponse :=
  await_q false (on_store ts_current_size) (fun tree_size =>
  Done (Ok {| lh_ok := true; lh_tree_size := tree_size |})).

(** [Result<_, ServiceError>] as an answer. *)
Definition log_reply {A} (f : A -> Response) (r : res ServiceError A) : res Empty_set Response :=
  match r with
  | Ok a => Ok (f a)
  | Err e => let (status, b) := into_response e in Ok (json_response status (error_response_value b))
  | Panic => Panic
  end.

Definition reply_json {A} (f : A -> Value) : res ServiceError A -> res Empty_set Response :=
  log_reply (fun a => json_response 200 (f a)).
Definition reply_status {A} (f : A -> Value) : res ServiceError (N * A) -> res Empty_set Response :=
  log_reply (fun sa => json_response (fst sa) (f (snd sa))).

Definition rejected (e : N * string) : prog WorldT Empty_set Response :=
  Done (Ok (text_response (fst e) (snd e))).

Definition with_body {A} (de : Value -> option A) (req : HttpRequest) (k : A -> prog WorldT Empty_set Response)
    : prog WorldT Empty_set Response :=
  match json_body de req with inr a => k a | inl e => rejected e end.

(** [Path<String>]. *)
Definition with_param (params : list (option string)) (k : string -> prog WorldT Empty_set Response)
    : prog WorldT Empty_set Response :=
  match params with
  | [Some s] => k s
  | _ => rejected (path_rejection params)
  end.

Definition log_handler (app : LogApp) (now : f64) (req : HttpRequest) (rt : LogRoute)
    (params : list (option string)) : prog WorldT Empty_set Response :=
  let ledger {A} := @prog_zoom (World St) WorldT ServiceError ledger_of set_ledger A in
  let wave {A} := @prog_zoom (WWorld St C D) WorldT ServiceError lw_wave set_wave A in
  let audit {A} := @prog_zoom St WorldT ServiceError store_of put_store A in
  match rt with
  | RHealth => prog_then (reply_json log_health_value) (ledger health)
  | RAppend =>
    with_body de_append_request req (fun body =>
    prog_then (reply_status append_response_value) (ledger (append (la_config app) body)))
  | RVerify =>
    with_param params (fun entry_id =>
    prog_then (reply_json verify_response_value) (ledger (verify entry_id)))
  | RSth => prog_then (reply_json sth_response_value) (ledger (sth_route (la_config app) now))
  | RConsistency =>
    match consistency_params (query req) with
    | Some (first, second) =>
      prog_then (reply_json consistency_response_value) (ledger (consistency first second))
    | None => rejected (query_rejection (query req))
    end
  | RWaveSession =>
    with_body de_append_session_request req (fun body =>
    prog_then (reply_status append_session_value)
      (wave (append_session (la_wave app) now (request_header req "x-api-key") body)))
  | RWaveVerify =>
    with_param params (fun wave_id =>
    prog_then (reply_json verify_session_value) (wave (verify_session (la_wave app) wave_id)))
  | RMcpAudit =>
    with_body de_audit_request req (fun body =>
    prog_then (reply_status audit_response_value) (audit (append_mcp_audit (la_audit_keys app) body)))
  | RDrift =>
    with_body de_audit_request req (fun body =>
    prog_then (reply_status audit_response_value)
      (audit (append_reconciler_drift (la_audit_keys app) body)))
  | RKey => Done (reply_json transparency_key_value (transparency_key (la_wave app)))
  end.

(** [build_router]: [now] is what the clock says when the handler reads it. *)
Definition serve_log (app : LogApp) (now : f64) (inc : Incoming) : prog WorldT Empty_set Response :=
  match tlog_auth_layer (la_api_key app) (in_path inc) (request_header (in_http inc) "x-api-key") with
  | Some (status, b) => Done (Ok (json_response status (error_response_value b)))
  | None =>
    limited MAX_BODY_BYTES (in_http inc)
      (served log_routes (log_handler app now (in_http inc)) inc)
  end.

End LogHttp.
