(* ===== verification/LogService.v ===== *)
(** * A running transparency log

    The service of [LogHttp] with any number of requests in flight ([Pool]).  The
    theorems of [Tlog], [WaveTheorems] and [AuditRoutes] each assume what the other
    requests may do; here every request the router can serve is shown to do no more,
    so what was proved of a route holds of the service that runs it
    ([in_flight_ok], [service_is_their_environment]).  From this: what the routes of a
    running log answer, who can change the ledger, and that every request is answered. *)


From stdpp Require Import relations.
From stdpp Require pretty.
From S2P Require Import Prelude RustStr Float64 Crates Merkle MerkleSpec MerkleConsistency HashTree Sth Store Json Serde Token Revoke.
From S2P Require Import Async Pool Tlog Auth CircuitBreaker Client TlogClient Routing KernelHttp.
From S2P Require Import WaveContext WaveSession WaveRoutes WaveTheorems AuditRoutes LogHttp.

#[local] Open Scope string_scope.

(** ** What the steps of a handler touch *)

Section Steps.
Context `{Sha256} `{Ed25519} `{Hex} `{B64Url} `{SerdeJson} `{HmacSha256} `{Axum} `{AxumRouting} `{!AxumQuery}.
Context {St C D : Type} `{TransparencyStore St} `{LruCache WaveSessionLeafSide C} `{SqliteTable D}.

Abbreviation WorldT := (LWorld St C D).

(** The store changes by an append, if at all. *)
Definition store_step (s s' : St) : Prop := s' = s \/ exists inp, s' = snd (ts_append s inp).

(** Nothing changes in the ledger part. *)
Definition reads (v v' : World St) : Prop := v' = v.

Ltac steps :=
  repeat first
    [ done
    | progress intros
    | apply each_step_await_q
    | case_match
    | split ].

Lemma health_reads : each_step reads health.
Proof. unfold health. steps. Qed.

Lemma verify_reads id : each_step reads (verify id).
Proof. unfold verify. steps. Qed.

Lemma sth_reads cfg now : each_step reads (sth_route cfg now).
Proof. unfold sth_route. steps. Qed.

Lemma extend_stores_nothing k idx first second :
  each_step (fun v v' => store v' = store v) (extend_then_prove k idx first second).
Proof.
  revert idx. induction k as [|k IH]; intros idx; cbn [extend_then_prove]; apply each_step_await_q; try done.
  intros [leaf|]; [|done]. apply each_step_await_q; [|done]. intros v. by destruct (ht_push_leaf _ _).
Qed.

Lemma consistency_stores_nothing first second :
  each_step (fun v v' => store v' = store v) (consistency first second).
Proof.
  unfold consistency. case_match; [done|]. case_match; [done|]. apply each_step_await_q; [done|].
  intros n. case_match; [done|]. split; [done|]. intros len. apply extend_stores_nothing.
Qed.

Lemma append_steps cfg body :
  each_step (fun v v' => consistency_tree v' = consistency_tree v /\ store_step (store v) (store v')) (append cfg body).
Proof.
  unfold append. destruct (append_input cfg body) as [inp|e|]; [|done..]. apply each_step_await_q; [|done].
  intros v. destruct (ts_append (store v) inp) as [r s] eqn:E. split; [done|]. right. exists inp. by rewrite E.
Qed.

Lemma append_audit_steps fpr body : each_step store_step (append_audit fpr body).
Proof.
  unfold append_audit. destruct (audit_input fpr body) as [inp|e|]; [|done..]. apply each_step_await_q; [|done].
  intros s. destruct (ts_append s inp) as [r s'] eqn:E. right. exists inp. by rewrite E.
Qed.

Definition wave_step (v v' : WWorld St C D) : Prop := store_step (w_store v) (w_store v').
Definition wave_reads (v v' : WWorld St C D) : Prop := w_store v' = w_store v.

Lemma append_session_steps cfg now key body : each_step wave_step (append_session cfg now key body).
Proof.
  unfold append_session. destruct (session_input cfg key body) as [[inp side]|e|]; [|done..].
  apply each_step_await_q.
  - intros v. unfold wave_step, store_append. destruct (ts_append (w_store v) inp) as [r s] eqn:E.
    right. exists inp. by rewrite E.
  - intros o. unfold record_wave_session_payload. simpl. split; [by left|]. intros _. split.
    { intros v. left. apply cache_if_absent_store. }
    intros _. split; [by left|]. intros _. split; [by left|]. done.
Qed.

Lemma lookup_reads {A} i (k : option WaveSessionLeafSide -> prog (WWorld St C D) ServiceError A) :
  (forall side, each_step wave_reads (k side)) -> each_step wave_reads (lookup_wave_session_payload i k).
Proof.
  intros Hk. unfold lookup_wave_session_payload. split.
  { intros v. by destruct (lru_get i (wave_session_payloads v)). }
  intros [side|]; [done|]. split; [done|]. intros [key|]; [|done]. split; [done|].
  intros [side|]; [|done]. by split.
Qed.

Lemma fetch_reads leaves acc k :
  (forall es, each_step wave_reads (k es)) -> each_step wave_reads (fetch_entries leaves acc k).
Proof.
  intros Hk. revert acc. induction leaves as [|i leaves IH]; intros acc; cbn [fetch_entries]; [done|].
  apply lookup_reads. intros [side|]; [|done]. apply IH.
Qed.

Lemma verify_session_reads cfg wave_id : each_step wave_reads (verify_session cfg wave_id).
Proof.
  unfold verify_session. split; [done|]. intros [|i leaves]; [|by apply fetch_reads].
  split; [done|]. by intros [].
Qed.

(** *** The service *)

(** The request carries the log's key and is a [POST] to one of the four append routes. *)
Definition keyed (app : LogApp) (inc : Incoming) : Prop :=
  la_api_key app <> "" /\ request_header (in_http inc) "x-api-key" = Some (la_api_key app).

Definition append_paths : list string :=
  ["/v1/append"; "/v1/wave/session"; "/v1/audit/mcp"; "/v1/audit/drift"].

Definition appends (inc : Incoming) : Prop := in_method inc = POST /\ in_path inc ∈ append_paths.

Lemma admitted_keyed app inc :
  tlog_auth_layer (la_api_key app) (in_path inc) (request_header (in_http inc) "x-api-key") = None ->
  tlog_is_public_path (in_path inc) = true \/ keyed app inc.
Proof.
  unfold tlog_auth_layer, keyed. destruct (tlog_is_public_path _); [by left|].
  destruct (is_empty (la_api_key app)) eqn:Ek; [done|]. apply is_empty_false in Ek.
  destruct (request_header _ _) as [key|]; simpl; [|done]. destruct (is_empty key); [done|].
  destruct (constant_time_eq _ _) eqn:Hc; [|done]. apply constant_time_eq_str in Hc as ->. by right.
Qed.

Lemma each_step_rejected P e : each_step P (rejected (St := St) (C := C) (D := D) e).
Proof. done. Qed.

Lemma each_step_reply {V A} (get : WorldT -> V) put (P : WorldT -> WorldT -> Prop) (Q : V -> V -> Prop)
    (f : A -> Response) (p : prog V ServiceError A) :
  (forall w v, Q (get w) v -> P w (put v w)) -> each_step Q p ->
  each_step P (prog_then (log_reply f) (prog_zoom get put p)).
Proof. intros HPQ Hp. apply each_step_then. by eapply each_step_zoom. Qed.

(** What a step of a request may do: nothing, an append, or, in the consistency route,
    an extension of the tree. *)
Definition appending (w w' : WorldT) : Prop :=
  lw_tree w' = lw_tree w /\ store_step (store_of w) (store_of w').
Definition reading_only (w w' : WorldT) : Prop := store_of w' = store_of w.
Definition idle (w w' : WorldT) : Prop := w' = w.

Definition append_routes : list LogRoute := [RAppend; RWaveSession; RMcpAudit; RDrift].

Lemma log_handler_appends app now req rt params :
  rt <> RConsistency -> each_step appending (log_handler app now req rt params).
Proof.
  intros Hrt. destruct rt; cbn [log_handler]; try done; unfold with_body, with_param;
    repeat (case_match; try done);
    (eapply each_step_reply; [|first [apply health_reads | apply append_steps | apply verify_reads
      | apply sth_reads | apply append_session_steps | apply verify_session_reads | apply append_audit_steps]]).
  all: try by intros w v ->; split; [done|left].
  all: try by intros w v Hv; split; [done|]; (exact Hv || left).
  by intros w v [? ?].
Qed.

Lemma log_handler_reads app now req rt params :
  rt ∉ append_routes -> each_step reading_only (log_handler app now req rt params).
Proof.
  intros Hrt. destruct rt; cbn [log_handler]; try done; try (by destruct Hrt; set_solver); unfold with_body, with_param;
    repeat (case_match; try done);
    (eapply each_step_reply; [|first [apply health_reads | apply verify_reads | apply sth_reads
      | apply consistency_stores_nothing | apply verify_session_reads]]).
  all: try by intros w v ->.
  all: try by intros w v Hv.
Qed.

(** What a request that is not let in does: nothing. *)
Definition done_with (p : prog WorldT Empty_set Response) : Prop := match p with Done _ => True | _ => False end.

Lemma dispatched_steps (P : WorldT -> WorldT -> Prop) app now inc :
  (forall rt params, dispatch log_routes (in_method inc) (in_path inc) = Routed rt params ->
     tlog_is_public_path (in_path inc) = true \/ keyed app inc ->
     each_step P (log_handler app now (in_http inc) rt params)) ->
  each_step P (serve_log app now inc).
Proof.
  intros HP. unfold serve_log. destruct (tlog_auth_layer _ _ _) as [[st b]|] eqn:Hl; [done|].
  apply admitted_keyed in Hl. unfold limited. destruct (body_limit _ _); [done|].
  unfold served. destruct (dispatch _ _ _) as [| |rt params]; [done..|]. by apply each_step_then, HP.
Qed.

End Steps.

(** ** The table *)

Lemma log_routes_unambiguous : unambiguous (pattern <$> log_routes) = true.
Proof. vm_compute. reflexivity. Qed.

Section Table.
Context `{AxumRoutingLaws}.

(** A path of the table without captures. *)
Lemma log_route_fixed i path m rt :
  log_routes !! i = Some (Build_Row path m rt) -> path_captures path path = Some [] ->
  forall m', dispatch log_routes m' path = if answers_method m m' then Routed rt [] else WrongMethod.
Proof. intros Hi Hc m'. by rewrite (dispatch_row _ m' path _ _ [] log_routes_unambiguous Hi Hc). Qed.

Lemma log_route_append : dispatch log_routes POST "/v1/append" = Routed RAppend [].
Proof. by rewrite (log_route_fixed 1 _ POST RAppend). Qed.
Lemma log_route_consistency : dispatch log_routes GET "/v1/consistency" = Routed RConsistency [].
Proof. by rewrite (log_route_fixed 4 _ GET RConsistency). Qed.

(** The entry ids the log gives out are plain segments. *)
Definition is_digit (a : ascii) : bool := bool_decide (is_Some (digit_value a)).

Lemma digits_of_parsed acc s x : parse_digits acc s = Some x -> string_forall is_digit s = true.
Proof.
  revert acc. induction s as [|a s IH]; intros acc; simpl; [done|].
  destruct (digit_value a) as [d|] eqn:E; [|done]. unfold is_digit. rewrite E. simpl.
  repeat case_match; try done; eauto.
Qed.

Lemma u64_to_string_digits n : (n <= u64_max)%N ->
  string_forall is_digit (u64_to_string n) = true /\ u64_to_string n <> "".
Proof.
  intros Hn. pose proof (parse_u64_to_string n Hn) as Hp. split.
  - unfold u64_to_string, pretty.pretty, pretty.pretty_N. case_decide; [by subst|].
    destruct (pretty_N_digits n "" Hn) as (s & Hs & Hd). rewrite Hs, string_app_nil.
    by eapply digits_of_parsed.
  - intros E. by rewrite E in Hp.
Qed.

Lemma digits_literal s : string_forall is_digit s = true ->
  utf8 s = true /\ string_forall (fun a => negb (Ascii.eqb a "%"%char)) s = true.
Proof.
  intros Hs. split.
  - apply plain_utf8. eapply string_forall_plain; [|exact Hs]. intros a [d Hd]%bool_decide_eq_true.
    by apply digit_plain in Hd as [? _].
  - revert Hs. induction s as [|a s IH]; simpl; [done|]. rewrite !andb_true_iff. intros [Ha Hs].
    split; [|by apply IH]. destruct (Ascii.eqb_spec a "%"%char) as [->|]; [done|done].
Qed.

Lemma log_route_verify n : (n <= u64_max)%N ->
  dispatch log_routes GET ("/v1/verify/" +:+ u64_to_string n) = Routed RVerify [Some (u64_to_string n)].
Proof.
  intros Hn. destruct (u64_to_string_digits n Hn) as [Hd Hne]. destruct (digits_literal _ Hd) as [Hu Hp].
  rewrite (dispatch_row log_routes GET _ 2 (Build_Row "/v1/verify/{entry_id}" GET RVerify) [u64_to_string n]
    log_routes_unambiguous).
  - simpl. by rewrite percent_decode_literal.
  - done.
  - unfold path_captures. change (split_on "/"%char ("/v1/verify/" +:+ u64_to_string n)) with
      ("" :: "v1" :: "verify" :: split_on "/"%char (u64_to_string n)).
    rewrite (split_on_absent "/"%char is_digit) by done. simpl.
    by destruct (u64_to_string n).
Qed.

(** An append route answers [POST] only, on its own path. *)
Lemma append_route_path m path rt params :
  dispatch log_routes m path = Routed rt params -> rt ∈ append_routes -> m = POST /\ path ∈ append_paths.
Proof.
  intros (row & caps & Hrow & <- & Hm & Hc & _)%dispatch_inv Hrt.
  assert (m = POST /\ pattern row ∈ append_paths /\ forallb is_fixed (segments (pattern row)) = true)
    as (-> & Hp & Hf).
  { unfold log_routes in Hrow. rewrite !elem_of_cons, elem_of_nil in Hrow.
    unfold append_routes in Hrt. unfold answers_method in Hm.
    repeat destruct Hrow as [->|Hrow]; simpl in *; try done;
      try (exfalso; set_solver); destruct (bool_decide_reflect (m = POST)) as [->|]; simpl in *;
      try (apply bool_decide_eq_true in Hm as [? _]; done); (split; [done|split; [set_solver|reflexivity]]). }
  split; [done|]. by apply path_captures_fixed in Hc as [-> _].
Qed.

End Table.

(** ** The requests of a running log *)

Section LogService.
Context `{Sha256} `{Ed25519} `{Hex} `{B64Url} `{SerdeJson} `{HmacSha256} `{Axum} `{AxumRoutingLaws} `{!AxumQuery}.
Context {St C D : Type} `{TransparencyStore St} `{!StoreLaws St} `{LruCache WaveSessionLeafSide C} `{SqliteTable D}.

Abbreviation WorldT := (LWorld St C D).

(** Requests that arrived, each with what the clock will say to it. *)
Definition in_flight (app : LogApp) (reqs : list (f64 * Incoming)) : list (prog WorldT Empty_set Response) :=
  (fun nr => serve_log app (fst nr) (snd nr)) <$> reqs.

(** What a request counts on from the others, with or without the lock of the tree: the
    very assumption of [Tlog]'s theorems. *)
Definition others (held : bool) (w w' : WorldT) : Prop := Tlog.env held (ledger_of w) (ledger_of w').

(** The ledger is below [2^63] entries. *)
Definition room (w : WorldT) : Prop := forall es, ts_holds (store_of w) es -> (nlen es < max_leaves)%N.

#[export] Instance others_preorder held : PreOrder (others held).
Proof.
  split; [intros w; apply rtc_refl|]. intros w1 w2 w3 Ha Hb. unfold others in *. by etrans.
Qed.

Lemma appending_others w w' : appending w w' -> room w -> forall held, others held w w'.
Proof.
  intros [Ht [Hs|[inp Hs]]] Hroom held; unfold others, ledger_of, store_of in *.
  - rewrite Hs, Ht. apply rtc_refl.
  - rewrite Hs, Ht. apply rtc_once. by apply (env_append held (Build_World (w_store (lw_wave w)) (lw_tree w))).
Qed.

(** *** The catch-up loop extends the tree as the others allow *)

Definition fits (v : World St) : Prop := forall es, ts_holds (store v) es -> (nlen es < max_leaves)%N.

Lemma extend_keeps k idx first second v es :
  serves v es -> ht_len (consistency_tree v) = idx -> (idx + N.of_nat k <= nlen es)%N ->
  keeps fits Tlog.env (extend_then_prove k idx first second) v.
Proof.
  revert idx v es. induction k as [|k IH]; intros idx v es Hs Hidx Hle; cbn [extend_then_prove];
    intros v1 Hv1 Hfits; (split; [apply rtc_refl|]; split; [done|]).
  - simpl. by destruct (map_err _ _).
  - destruct (env_serves _ _ _ _ Hv1 Hs) as (es1 & Hs1 & Hp1 & Ht1). specialize (Ht1 eq_refl).
    apply prefix_length in Hp1 as Hl1. assert (is_Some (ledger_leaves es1 !! N.to_nat idx)) as [leaf Hleaf].
    { apply lookup_lt_is_Some. unfold ledger_leaves. rewrite length_imap. unfold nlen in *. lia. }
    apply (serves_leaf _ _ _ _ Hs1) in Hleaf as Hget. simpl. rewrite Hget. simpl.
    intros v2 Hv2 _. destruct (env_serves _ _ _ _ Hv2 Hs1) as (es2 & Hs2 & Hp2 & Ht2). specialize (Ht2 eq_refl).
    apply prefix_length in Hp2 as Hl2.
    assert (ts_get_leaf (store v2) (ht_len (consistency_tree v2)) = Ok (Some leaf)) as Hget2.
    { rewrite Ht2, Ht1, Hidx. apply (serves_leaf _ _ _ _ Hs2). by eapply ledger_leaf_mono. }
    destruct (ht_push_leaf (consistency_tree v2) leaf) as [t|e|] eqn:Hpush; simpl.
    + destruct (serves_push v2 es2 leaf t Hs2 Hget2 Hpush) as [Hs3 Hlen3].
      split; [apply rtc_once; by eapply env_extend|]. split; [done|].
      eapply (IH _ _ es2); [done| |unfold nlen in *; lia]. simpl. by rewrite Hlen3, Ht2, Ht1, Hidx.
    + split; [apply rtc_refl|done].
    + split; [apply rtc_refl|done].
Qed.

Lemma consistency_keeps first second v es : serves v es -> keeps fits Tlog.env (consistency first second) v.
Proof.
  intros Hs. unfold consistency. case_match; [done|]. case_match; [done|].
  intros v1 Hv1 Hfits. split; [apply rtc_refl|]. split; [intros; apply rtc_refl|].
  destruct (env_serves _ _ _ _ Hv1 Hs) as (es1 & Hs1 & Hp1 & _). apply prefix_length in Hp1 as Hl1. simpl.
  rewrite (ts_current_size_law _ es1) by (apply Hs1 || apply max_leaves_u64, Hs1). simpl.
  destruct (N.ltb_spec (nlen es1) second) as [|Hin]; [done|].
  intros v2 Hv2 Hfits2. split; [apply rtc_refl|]. split; [intros; apply rtc_refl|].
  destruct (env_serves _ _ _ _ Hv2 Hs1) as (es2 & Hs2 & Hp2 & _). apply prefix_length in Hp2 as Hl2.
  simpl. destruct (N.le_gt_cases (ht_len (consistency_tree v2)) second) as [Hle|Hgt].
  - eapply (extend_keeps _ _ _ _ _ es2); [done|done|lia].
  - replace (N.to_nat (second - ht_len (consistency_tree v2))) with 0%nat by lia.
    eapply (extend_keeps _ _ _ _ _ es2); [done|done|]. destruct Hs2 as (_ & _ & k & Hk & Hc).
    rewrite (caches_len _ _ Hc), nlen_ntake; [lia|]. by rewrite nlen_fmap, ledger_leaves_length.
Qed.

(** *** Every request keeps to it *)

Lemma serve_log_keeps app now inc (w : WorldT) es :
  serves (ledger_of w) es -> keeps room others (serve_log app now inc) w.
Proof.
  intros Hs. unfold serve_log. destruct (tlog_auth_layer _ _ _) as [[st b]|]; [done|].
  unfold limited. destruct (body_limit _ _); [done|]. unfold served.
  destruct (dispatch _ _ _) as [| |rt params]; [done..|]. apply keeps_then.
  destruct (decide (rt = RConsistency)) as [->|Hrt].
  - cbn [log_handler]. destruct (consistency_params _) as [[first second]|]; [|done].
    apply keeps_then. apply (keeps_zoom _ _ _ fits _ Tlog.env).
    + apply ledger_of_set.
    + done.
    + done.
    + intros held w1 v Hv. unfold others. by rewrite ledger_of_set.
    + by eapply consistency_keeps.
  - apply each_step_keeps. eapply each_step_impl; [|by apply log_handler_appends].
    intros w1 w2 Ha Hr held. by apply appending_others.
Qed.

Lemma serve_log_not_holding app now inc : holding (serve_log (St := St) (C := C) (D := D) app now inc) = false.
Proof.
  unfold serve_log. destruct (tlog_auth_layer _ _ _) as [[st b]|]; [done|].
  unfold limited. destruct (body_limit _ _); [done|]. unfold served.
  destruct (dispatch _ _ _) as [| |rt params]; [done..|]. rewrite holding_then.
  destruct rt; cbn [log_handler]; unfold with_body, with_param; repeat (case_match; try done);
    rewrite ?holding_then, ?holding_zoom; try done.
  - unfold append. by destruct (append_input _ _).
  - unfold verify. by destruct (parse_u64 _).
  - unfold consistency. by repeat case_match.
  - unfold append_session. by destruct (session_input _ _ _) as [[]| |].
  - unfold append_mcp_audit, append_audit. by destruct (audit_input _ _).
  - unfold append_reconciler_drift, append_audit. by destruct (audit_input _ _).
Qed.

(** Requests in flight when more arrive. *)
Lemma in_flight_ok app ps reqs (w : WorldT) es :
  pool_ok room others ps w -> serves (ledger_of w) es -> pool_ok room others (ps ++ in_flight app reqs) w.
Proof.
  intros Hps Hs. apply pool_ok_app; [done|]. intros q ((now & inc) & -> & _)%list_elem_of_fmap.
  split; [apply serve_log_not_holding|by eapply serve_log_keeps].
Qed.

Lemma fresh_in_flight_ok app reqs (w : WorldT) es :
  serves (ledger_of w) es -> pool_ok room others (in_flight app reqs) w.
Proof. intros Hs. by apply (in_flight_ok app [] reqs w es (pool_ok_nil _ _ w)). Qed.

(** *** From the pool to a handler *)

(** The layers let the request in. *)
Definition admitted (app : LogApp) (inc : Incoming) : Prop :=
  tlog_auth_layer (la_api_key app) (in_path inc) (request_header (in_http inc) "x-api-key") = None /\
  body_limit MAX_BODY_BYTES (in_http inc) = None.

(** The answer for an error of a handler. *)
Definition refusal (e : ServiceError) : Response :=
  let (st, b) := into_response e in json_response st (error_response_value b).

Lemma serve_log_admitted app now inc rt params :
  admitted app inc -> dispatch log_routes (in_method inc) (in_path inc) = Routed rt params ->
  serve_log (St := St) (C := C) (D := D) app now inc =
  prog_then (without_body (in_method inc)) (log_handler app now (in_http inc) rt params).
Proof. intros [Hl Hb] Hd. unfold serve_log, limited, served. by rewrite Hl, Hb, Hd. Qed.

(** An answered request was its handler's execution among the others. *)
Lemma answered app ps (w : WorldT) ps' w' i now inc r rt params :
  pool_ok room others ps w -> rtc (turn room) (ps, w) (ps', w') ->
  ps !! i = Some (serve_log app now inc) -> ps' !! i = Some (Done r) ->
  admitted app inc -> dispatch log_routes (in_method inc) (in_path inc) = Routed rt params ->
  exists w0 r0, exec others (log_handler app now (in_http inc) rt params) w r0 w0 /\
    r = without_body (in_method inc) r0 /\ others false w w0 /\ others false w0 w'.
Proof.
  intros Hok Hrun Hi Hi' Had Hd. rewrite (serve_log_admitted _ _ _ rt params) in Hi by done.
  destruct (served_alone_among_others room others _ _ _ _ _ _ _ Hok Hrun Hi Hi') as (w0 & Hx & Hw & Hw0).
  apply exec_then_inv in Hx as (r0 & Hx & ->). exists w0, r0. split; [|done].
  eapply exec_mono; [|exact Hx]. by intros held ? ? [? _].
Qed.

Lemma ledger_reply {A} (f : A -> Response) (p : prog (World St) ServiceError A) w r w0 :
  exec others (prog_then (log_reply f) (prog_zoom ledger_of set_ledger p)) w r w0 ->
  exists r0, exec Tlog.env p (ledger_of w) r0 (ledger_of w0) /\ r = log_reply f r0.
Proof.
  intros (r0 & Hx & ->)%exec_then_inv. apply exec_zoom_inv in Hx; [|apply ledger_of_set].
  exists r0. split; [|done]. eapply exec_mono; [|exact Hx]. by intros held ? ? (w1 & w2 & <- & <- & He).
Qed.

Lemma in_flight_lookup app reqs i now inc :
  reqs !! i = Some (now, inc) -> in_flight app reqs !! i = Some (serve_log app now inc).
Proof. intros Hi. unfold in_flight. by rewrite list_lookup_fmap, Hi. Qed.

(** A later ledger starts with the same leaves. *)
Lemma ledger_leaves_ntake es es' n :
  es `prefix_of` es' -> (n <= nlen es)%N -> ntake n (ledger_leaves es') = ntake n (ledger_leaves es).
Proof. intros Hp Hn. apply ntake_prefix; [by apply ledger_leaves_prefix|by rewrite ledger_leaves_length]. Qed.

(** C9.  The consistency answers of a running log are true: with any number of requests in
    flight, in any interleaving of their steps, an admitted
    [GET /v1/consistency?first&second] that has its answer was refused for its bounds --
    as a bad range, or as a tree larger than the ledger it arrived at -- or got a proof
    for exactly these two sizes that verifies against the roots of the ledger's first
    [first] and first [second] leaves, as the ledger stands now.  It never panics and
    never reports a gap.  The store is one that keeps [StoreLaws], as the memory store
    does and Postgres, whose indices are no positions, does not. *)
Theorem served_consistency_is_true app reqs (w : WorldT) es ps' w' i now inc r first second :
  serves (ledger_of w) es -> rtc (turn room) (in_flight app reqs, w) (ps', w') ->
  reqs !! i = Some (now, inc) -> ps' !! i = Some (Done r) ->
  in_method inc = GET -> in_path inc = "/v1/consistency" -> admitted app inc ->
  consistency_params (query (in_http inc)) = Some (first, second) ->
  exists es', serves (ledger_of w') es' /\ es `prefix_of` es' /\
    ((first = 0 \/ second < first)%N /\ r = Ok (refusal (Tlog.Verification InvalidConsistencyRange)) \/
     (0 < first /\ first <= second /\ nlen es < second)%N /\
       r = Ok (refusal (Tlog.Verification LeafIndexOutOfBounds)) \/
     exists p root1 root2,
       (0 < first /\ first <= second /\ second <= nlen es')%N /\
       r = Ok (json_response 200
             (consistency_response_value {| cr_consistency_proof := p; cr_ok := true |})) /\
       from_size p = first /\ to_size p = second /\
       compute_root (ntake first (ledger_leaves es')) = Ok root1 /\
       compute_root (ntake second (ledger_leaves es')) = Ok root2 /\
       verify_consistency_proof p root1 root2 = Ok tt).
Proof.
  intros Hs Hrun Hi Hi' Hm Hp Had Hq.
  destruct (answered app _ w _ _ _ now inc r RConsistency [] (fresh_in_flight_ok app reqs w es Hs) Hrun
    (in_flight_lookup app reqs i now inc Hi) Hi' Had) as (w0 & r0 & Hx & -> & Hw & Hw0).
  { rewrite Hm, Hp. apply log_route_consistency. }
  rewrite Hm. cbn [log_handler without_body] in Hx |- *. rewrite Hq in Hx.
  apply ledger_reply in Hx as (r1 & Hx & ->).
  apply (consistency_route_correct first second _ es) in Hx as (es1 & Hs1 & Hp1 & Hr); [|done].
  destruct (env_serves _ _ _ _ Hw0 Hs1) as (es' & Hs' & Hp' & _).
  exists es'. split; [done|]. split; [by etrans|].
  destruct Hr as [[Hc ->]|[(? & ? & ? & ->)|(p & root1 & root2 & Hc1 & Hc2 & Hc3 & -> & Hf & Ht & Hr1 & Hr2 & Hv)]].
  - by left.
  - right. by left.
  - right. right. exists p, root1, root2. apply prefix_length in Hp' as Hl.
    rewrite !(ledger_leaves_ntake es1 es') by (done || lia). by split_and!; try lia.
Qed.

(** *** An entry appended, and later read *)

Lemma append_body_ok `{!HexCorrect} `{!B64UrlCorrect} key fpr occurred_at payload :
  utf8 fpr = true -> (occurred_at <= u64_max)%N -> json_ok (append_body key fpr occurred_at payload).
Proof.
  intros Hf Ho. split; [obj_ok|simpl; lia].
  all: try apply plain_utf8; try apply hex_plain; try apply b64url_plain; done.
Qed.

(** Two readings of one store are the same ledger to the service. *)
Lemma serves_holds (v : World St) es es2 : serves v es -> ts_holds (store v) es2 -> serves v es2.
Proof.
  intros (Hh & Hmax & k & Hk & Hc) Hh2.
  assert (ledger_leaves es2 = ledger_leaves es) as Hl.
  { apply list_eq. intros i. pose proof (ts_get_leaf_law _ es (N.of_nat i) Hh) as E1.
    pose proof (ts_get_leaf_law _ es2 (N.of_nat i) Hh2) as E2. rewrite Nat2N.id in *. congruence. }
  assert (nlen es2 = nlen es) as Hn by by rewrite <-(ledger_leaves_length es2), Hl, ledger_leaves_length.
  split; [done|]. rewrite Hn, Hl. split; [done|]. by exists k.
Qed.

(** [append] among the others: a conflict with a recorded entry, or an entry of the
    ledger that it names. *)
Lemma append_exec cfg body inp (v : World St) es r v' :
  serves v es -> append_input cfg body = Ok inp -> exec Tlog.env (append cfg body) v r v' ->
  (exists es1 prior, es `prefix_of` es1 /\ prior ∈ es1 /\
     ai_idempotency_key prior = ai_idempotency_key inp /\ ai_payload prior <> ai_payload inp /\
     r = Err IdempotencyPayloadMismatch) \/
  exists st ar es2 e, r = Ok (st, ar) /\ ts_holds (store v') es2 /\ es `prefix_of` es2 /\
    es2 !! N.to_nat (ar_leaf_index ar) = Some e /\ ai_payload e = ai_payload inp /\
    entry_id ar = u64_to_string (ar_leaf_index ar) /\
    leaf_hash_hex ar = hex_encode (arr_bytes (leaf_hash (ai_payload inp))) /\
    st = (if idempotent_replay ar then 200 else 201)%N.
Proof.
  intros Hs Hin Hx. unfold append in Hx. rewrite Hin in Hx.
  apply exec_await_q_inv in Hx as (v1 & He & Hx).
  destruct (env_serves _ _ _ _ He Hs) as (es1 & Hs1 & Hp1 & _). destruct Hs1 as (Hh & Hmax & _).
  destruct (ts_append_law (store v1) es1 inp Hh) as [Hr Hst]; [by apply max_leaves_u64|].
  destruct (ts_append (store v1) inp) as [ro s]. simpl in *. subst ro.
  destruct (ledger_append es1 inp) as [[o|e|] es2] eqn:Hla; simpl in *.
  - right. apply exec_done_inv in Hx as [-> ->].
    destruct (ledger_append_entry _ _ _ _ Hla) as (Hlh & Hp & _ & e & He' & _ & Hep).
    eexists _, _, es2, e. split; [done|]. simpl. rewrite Hlh. split_and!; try done. by etrans.
  - left. destruct Hx as [-> _]. unfold ledger_append in Hla.
    destruct (list_find _ es1) as [[j prior]|] eqn:Hf; [|done]. case_decide as Hd; [done|].
    injection Hla as <- <-. apply list_find_Some in Hf as (Hj & Hk & _).
    exists es1, prior. split_and!; try done. by eapply list_elem_of_lookup_2.
  - exfalso. unfold ledger_append in Hla. destruct (list_find _ es1) as [[j prior]|]; [by case_decide|done].
Qed.

(** A verify request for a recorded entry. *)
Lemma served_entry app ps (w : WorldT) es e n ps' w' j now inc r :
  serves (ledger_of w) es -> es !! N.to_nat n = Some e -> pool_ok room others ps w ->
  rtc (turn room) (ps, w) (ps', w') -> ps !! j = Some (serve_log app now inc) -> ps' !! j = Some (Done r) ->
  in_method inc = GET -> in_path inc = "/v1/verify/" +:+ u64_to_string n -> admitted app inc ->
  exists es', serves (ledger_of w') es' /\ es `prefix_of` es' /\
    (r = Ok (refusal (Backend "")) /\ (nlen es < nlen es')%N \/
     exists vr m root, r = Ok (json_response 200 (verify_response_value vr)) /\
       hash (entry vr) = leaf_hash (ai_payload e) /\ ip_leaf_hash (inclusion_proof vr) = hash (entry vr) /\
       ip_leaf_index (inclusion_proof vr) = n /\ (m <= nlen es')%N /\
       compute_root (ntake m (ledger_leaves es')) = Ok root /\
       current_root_hash vr = hex_encode (arr_bytes root) /\
       verify_inclusion_proof (inclusion_proof vr) root = Ok tt).
Proof.
  intros Hs He Hok Hrun Hj Hj' Hm Hp Had.
  assert (n <= u64_max)%N as Hn.
  { apply lookup_lt_Some in He. destruct Hs as (_ & Hmax & _). apply max_leaves_u64 in Hmax.
    unfold nlen in Hmax. lia. }
  destruct (answered app _ w _ _ _ now inc r RVerify [Some (u64_to_string n)] Hok Hrun Hj Hj' Had)
    as (w0 & r0 & Hx & -> & Hw & Hw0).
  { rewrite Hm, Hp. by apply log_route_verify. }
  rewrite Hm. cbn [log_handler without_body with_param] in Hx |- *.
  apply ledger_reply in Hx as (r1 & Hx & ->).
  apply (verify_route_correct _ _ es) in Hx as (es1 & Hs1 & Hp1 & Hr); [|done].
  destruct (env_serves _ _ _ _ Hw0 Hs1) as (es' & Hs' & Hp' & _). apply prefix_length in Hp' as Hl.
  exists es'. split; [done|]. split; [by etrans|]. rewrite parse_u64_to_string in Hr by done.
  destruct r1 as [vr|[]|]; try done.
  - right. destruct Hr as (Hl1 & Hpi & Hph & m & root & _ & _ & Hm1 & Hroot & Hcr & Hv).
    exists vr, m, root. split; [done|].
    pose proof (prefix_lookup_Some _ _ _ _ He Hp1) as He1.
    rewrite ledger_leaves_lookup, He1 in Hl1. injection Hl1 as Hl1.
    split; [by rewrite <-Hl1|]. split_and!; try done; [lia|]. by rewrite (ledger_leaves_ntake es1).
  - exfalso. apply lookup_lt_Some in He. unfold nlen in Hr. lia.
  - left. split; [done|]. lia.
Qed.

(** C12.  Append, then verify, in a running log: whatever other requests are in flight, a
    well-formed submission under the key and the pinned fingerprint is refused as a
    conflict with a recorded entry, or is in the ledger when it is answered; from then
    on every request to verify the entry id of the answer, again among any others,
    yields the leaf hash of the submitted payload with a proof that verifies against
    the root it reports -- or a server error, if yet another entry was appended
    since.  For stores that keep [StoreLaws]: on Postgres the identifier of the answer
    is no position. *)
Theorem appended_entry_is_served `{!HexCorrect} `{!B64UrlCorrect} `{!SerdeJsonCorrect}
    app reqs (w : WorldT) es ps1 w1 i now inc r key fpr occurred_at payload :
  serves (ledger_of w) es -> rtc (turn room) (in_flight app reqs, w) (ps1, w1) ->
  reqs !! i = Some (now, inc) -> ps1 !! i = Some (Done r) ->
  in_method inc = POST -> in_path inc = "/v1/append" -> admitted app inc ->
  json (in_http inc) = Some (append_body key fpr occurred_at payload) -> payload <> [] ->
  to_ascii_lowercase (trim fpr) = to_ascii_lowercase (kernel_key_fingerprint_hex (la_config app)) ->
  utf8 fpr = true -> (occurred_at <= u64_max)%N ->
  (exists es1 prior, es `prefix_of` es1 /\ prior ∈ es1 /\ ai_idempotency_key prior = key /\
     ai_payload prior <> payload /\ r = Ok (refusal IdempotencyPayloadMismatch)) \/
  exists ar, r = Ok (json_response (if idempotent_replay ar then 200 else 201) (append_response_value ar)) /\
    leaf_hash_hex ar = hex_encode (arr_bytes (leaf_hash payload)) /\
    exists es1, serves (ledger_of w1) es1 /\ es `prefix_of` es1 /\
    forall reqs2 ps2 w2 j now2 inc2 r2,
      rtc (turn room) ((ps1 ++ in_flight app reqs2)%list, w1) (ps2, w2) ->
      reqs2 !! j = Some (now2, inc2) -> ps2 !! (length ps1 + j)%nat = Some (Done r2) ->
      in_method inc2 = GET -> in_path inc2 = "/v1/verify/" +:+ entry_id ar -> admitted app inc2 ->
      exists es2, serves (ledger_of w2) es2 /\ es1 `prefix_of` es2 /\
        (r2 = Ok (refusal (Backend "")) /\ (nlen es1 < nlen es2)%N \/
         exists vr m root, r2 = Ok (json_response 200 (verify_response_value vr)) /\
           hash (entry vr) = leaf_hash payload /\ ip_leaf_hash (inclusion_proof vr) = hash (entry vr) /\
           (m <= nlen es2)%N /\ compute_root (ntake m (ledger_leaves es2)) = Ok root /\
           current_root_hash vr = hex_encode (arr_bytes root) /\
           verify_inclusion_proof (inclusion_proof vr) root = Ok tt).
Proof.
  intros Hs Hrun Hi Hi' Hm Hp Had Hj Hne Hfpr Hu Ho.
  pose proof (fresh_in_flight_ok app reqs w es Hs) as Hok.
  destruct (answered app _ w _ _ _ now inc r RAppend [] Hok Hrun (in_flight_lookup app reqs i now inc Hi) Hi' Had)
    as (w0 & r0 & Hx & -> & Hw & Hw0).
  { rewrite Hm, Hp. apply log_route_append. }
  rewrite Hm. cbn [log_handler without_body] in Hx |- *. unfold with_body in Hx.
  set (body := {| idempotency_key_hex := hex_encode (arr_bytes key); kernel_key_fingerprint_sha256 := fpr;
                  ar_occurred_at_epoch_seconds := occurred_at; token_b64 := b64url_encode payload |}).
  rewrite (json_body_sent _ _ _ body Hj) in Hx; [|by apply append_body_ok|done].
  apply ledger_reply in Hx as (r1 & Hx & ->).
  destruct (append_exec _ body _ _ _ _ _ Hs (append_input_encoded _ body key payload Hfpr eq_refl eq_refl Hne) Hx)
    as [(es1 & prior & Hpre & Hin & Hk & Hd & ->)|(st & ar & es0 & e & -> & Hh & Hpre & He & Hpay & Hid & Hlh & ->)].
  { left. by exists es1, prior. }
  right. exists ar. split; [done|]. split; [done|].
  destruct (pool_ok_run room others _ _ _ _ Hrun Hok) as [Hok1 _].
  destruct (env_serves _ _ _ _ Hw Hs) as (esw & Hsw & _ & _).
  pose proof (serves_holds _ _ _ Hsw Hh) as Hs0.
  destruct (env_serves _ _ _ _ Hw0 Hs0) as (es1 & Hs1 & Hp1 & _).
  exists es1. split; [done|]. split; [by etrans|].
  intros reqs2 ps2 w2 j now2 inc2 r2 Hrun2 Hj2 Hr2 Hm2 Hpath2 Had2. rewrite Hid in Hpath2.
  destruct (served_entry app _ _ es1 e _ _ _ (length ps1 + j) now2 inc2 r2 Hs1
    (prefix_lookup_Some _ _ _ _ He Hp1) (in_flight_ok app ps1 reqs2 w1 es1 Hok1 Hs1) Hrun2)
    as (es2 & Hs2 & Hpre2 & Hout); [|done..|].
  { rewrite lookup_app_r by lia. replace (length ps1 + j - length ps1)%nat with j by lia.
    by apply in_flight_lookup. }
  exists es2. split; [done|]. split; [done|].
  destruct Hout as [?|(vr & m & root & -> & Hh2 & Hl2 & _ & Hm3 & Hroot & Hcr & Hv)]; [by left|].
  right. exists vr, m, root. rewrite Hpay in Hh2. by split_and!.
Qed.

(** The service of the clients' theorems is this router at [POST /v1/append]. *)
Theorem append_service_is_routed `{!SerdeJsonCorrect} app now inc (w : WorldT) v body :
  in_path inc = "/v1/append" -> in_method inc = POST -> body_limit MAX_BODY_BYTES (in_http inc) = None ->
  Client.json (in_http inc) = Some v -> json_ok v -> de_append_request v = Some body ->
  run (serve_log app now inc) w =
  let (answer, v') := append_service (la_config app) (la_api_key app) (in_http inc) (ledger_of w) in
  (match answer with inr resp => Ok resp | inl _ => Panic end, set_ledger v' w).
Proof.
  intros Hp Hm Hb Hj Hv Hd. unfold serve_log, append_service. rewrite Hp, Hj. cbn [mbind option_bind]. rewrite Hd.
  destruct (tlog_auth_layer _ _ _) as [[st b]|]; [by destruct w as [[] ?]|].
  unfold limited, served. rewrite Hb, Hm, Hp, log_route_append, run_then. cbn [without_body log_handler].
  unfold with_body. rewrite (json_body_sent _ _ _ body Hj Hv Hd), run_then.
  pose proof (run_zoom ledger_of set_ledger ledger_of_set (append (la_config app) body) w ltac:(done)) as Hz.
  replace (set_ledger (ledger_of w) w) with w in Hz by by destruct w as [[] ?].
  rewrite Hz. destruct (run (append (la_config app) body) (ledger_of w)) as [[[st ar]|e|] v']; simpl; [done| |done].
  by destruct (into_response e).
Qed.

(** *** Who can change what *)

Lemma append_paths_guarded path : path ∈ append_paths -> tlog_is_public_path path = false.
Proof.
  unfold append_paths. rewrite !elem_of_cons, elem_of_nil. intros Hp.
  by repeat destruct Hp as [->|Hp].
Qed.

Lemma public_route m path rt params :
  tlog_is_public_path path = true -> dispatch log_routes m path = Routed rt params -> rt = RHealth \/ rt = RKey.
Proof.
  unfold tlog_is_public_path. intros [Hp|Hp]%orb_true_iff Hd; apply String.eqb_eq in Hp as ->.
  - rewrite (log_route_fixed 0 _ GET RHealth) in Hd by done. destruct (answers_method _ _); simplify_eq. by left.
  - rewrite (log_route_fixed 9 _ GET RKey) in Hd by done. destruct (answers_method _ _); simplify_eq. by right.
Qed.

Lemma set_ledger_same (w : WorldT) : set_ledger (ledger_of w) w = w.
Proof. by destruct w as [[] ?]. Qed.

(** C11.  Only the key changes the log: among any requests in flight, if none is a keyed
    [POST] to one of the four append routes, the store is what it was; if none carries
    the key, nothing of the state has changed; and a request without the key reaches a
    handler on the two public paths only -- everywhere else, on paths that do not exist
    too, it is answered by the layer. *)
Theorem only_the_key_changes_the_log app reqs (w : WorldT) ps' w' :
  rtc (turn room) (in_flight app reqs, w) (ps', w') ->
  ((forall now inc, (now, inc) ∈ reqs -> ~ (keyed app inc /\ appends inc)) -> store_of w' = store_of w) /\
  ((forall now inc, (now, inc) ∈ reqs -> ~ keyed app inc) -> w' = w) /\
  forall now inc, ~ keyed app inc -> tlog_is_public_path (in_path inc) = false ->
    exists status b, serve_log (St := St) (C := C) (D := D) app now inc =
        Done (Ok (json_response status (error_response_value b))) /\
      (la_api_key app = "" /\ status = 503%N /\ b = simple "auth_misconfigured" \/
       status = 401%N /\ b = simple "unauthorized").
Proof.
  intros Hrun. split_and!.
  - intros Hno. assert (rtc reading_only w w') as Hr.
    { eapply pool_steps; [|exact Hrun]. apply Forall_fmap, Forall_forall. intros [now inc] Hin. simpl.
      apply dispatched_steps. intros rt params Hd Hk.
      destruct (decide (rt ∈ append_routes)) as [Ha|Ha]; [|by apply log_handler_reads].
      destruct (append_route_path _ _ _ _ Hd Ha) as [Hm Hp]. exfalso. apply (Hno now inc Hin).
      rewrite append_paths_guarded in Hk by done. by destruct Hk as [|Hk]. }
    clear Hrun. induction Hr as [|x y z Hxy _ IH]; [done|]. unfold reading_only in Hxy. congruence.
  - intros Hno. assert (rtc idle w w') as Hr.
    { eapply pool_steps; [|exact Hrun]. apply Forall_fmap, Forall_forall. intros [now inc] Hin. simpl.
      apply dispatched_steps. intros rt params Hd [Hpub|Hk]; [|by destruct (Hno now inc Hin)].
      destruct (public_route _ _ _ _ Hpub Hd) as [->| ->]; [|done]. cbn [log_handler].
      eapply each_step_reply; [|apply health_reads]. intros v u ->. apply set_ledger_same. }
    clear Hrun. induction Hr as [|x y z Hxy _ IH]; [done|]. unfold idle in Hxy. congruence.
  - intros now inc Hk Hpub. unfold serve_log.
    destruct (tlog_auth_layer _ _ _) as [[status b]|] eqn:Hl.
    2: { apply admitted_keyed in Hl as [Hl|Hl]; [by rewrite Hpub in Hl|by destruct Hk]. }
    exists status, b. split; [done|]. unfold tlog_auth_layer in Hl. rewrite Hpub in Hl.
    destruct (is_empty (la_api_key app)) eqn:Ek.
    { left. injection Hl as <- <-. split; [|done]. by destruct (la_api_key app). }
    right. destruct (is_empty (default "" _)); [by injection Hl as <- <-|].
    destruct (negb _); [by injection Hl as <- <-|done].
Qed.

(** *** The environment of the routes *)

Lemma env_holds held (v v' : World St) es :
  Tlog.env held v v' -> ts_holds (store v) es ->
  exists es', ts_holds (store v') es' /\ es `prefix_of` es' /\
    ((nlen es < u64_max)%N -> (nlen es' < u64_max)%N).
Proof.
  intros Henv. revert es. induction Henv as [v|v v1 v2 Hstep _ IH]; intros es Hh; [by exists es|].
  destruct Hstep as [v inp Hroom|v leaf t _ _ _].
  - specialize (Hroom _ Hh) as Hlt. pose proof (ledger_append_length es inp) as Hlen.
    destruct (IH (snd (ledger_append es inp))) as (es' & Hh' & Hp & Hm).
    { by apply ts_append_law; [|apply max_leaves_u64; lia]. }
    exists es'. split; [done|]. split; [etrans; [apply ledger_append_prefix|done]|].
    intros Hlt64. apply Hm. unfold max_leaves, u64_max in *. lia.
  - by apply IH.
Qed.

(** The service discharges what the theorems of its routes assume of the other
    requests: those of [Tlog], of [WaveTheorems] and of [AuditRoutes]. *)
Theorem service_is_their_environment :
  (forall held v v', zoom_env (ledger_of (St := St) (C := C) (D := D)) others held v v' -> Tlog.env held v v') /\
  ledger_grows (zoom_env (lw_wave (St := St) (C := C) (D := D)) others) /\
  store_grows (zoom_env (store_of (St := St) (C := C) (D := D)) others).
Proof.
  split_and!.
  - by intros held v v' (w & w' & <- & <- & He).
  - intros held v v' es (w & w' & <- & <- & He) Hh. by apply (env_holds held (ledger_of w) (ledger_of w')).
  - intros held v v' es (w & w' & <- & <- & He) Hh. by apply (env_holds held (ledger_of w) (ledger_of w')).
Qed.

(** *** No handler panics *)

Lemma bind_not_panic {E A B} (r : res E A) (f : A -> res E B) :
  r <> Panic -> (forall a, f a <> Panic) -> res_bind r f <> Panic.
Proof. intros Hr Hf. destruct r; [apply Hf|discriminate|done]. Qed.

Ltac no_panic :=
  repeat first
    [ discriminate
    | apply bind_not_panic
    | progress intros
    | case_match ].

Lemma hex_to_32_not_panic x : hex_to_32 x <> Panic.
Proof. unfold hex_to_32. no_panic. Qed.

Lemma session_input_not_panic cfg key body : session_input cfg key body <> Panic.
Proof.
  unfold session_input, check_signature, verify_kernel_hmac, verify_ed25519_signature, hex_bytes, ok_or.
  case_match; [discriminate|]. apply bind_not_panic; [apply hex_to_32_not_panic|]. no_panic.
Qed.

Lemma audit_input_not_panic fpr body : audit_input fpr body <> Panic.
Proof.
  unfold audit_input, hex_bytes, ok_or. repeat first
    [ discriminate | apply hex_to_32_not_panic | apply bind_not_panic | progress intros | case_match ].
Qed.

Lemma append_input_not_panic cfg body : append_input cfg body <> Panic.
Proof.
  unfold append_input, b64url_decode. repeat first
    [ discriminate | apply hex_to_32_not_panic | apply bind_not_panic | progress intros | case_match ].
Qed.

Lemma ledger_append_not_panic es inp : fst (ledger_append es inp) <> Panic.
Proof. unfold ledger_append. by repeat case_match. Qed.

(** A handler whose every way ends in [Ok] or [Err]. *)
Fixpoint ends_well {W E A} (p : prog W E A) : Prop :=
  match p with Done r => r <> Panic | Await _ _ k => forall b, ends_well (k b) end.

Lemma exec_ends_well {W E A} R (p : prog W E A) w r w' : exec R p w r w' -> ends_well p -> r <> Panic.
Proof. induction 1 as [|held B op k w w1 r w2 _ _ IH]; simpl; auto. Qed.

Lemma append_session_ends cfg now key body R (v : WWorld St C D) es r v' :
  ledger_grows R -> ts_holds (w_store v) es -> (nlen es < u64_max)%N ->
  exec R (append_session cfg now key body) v r v' -> r <> Panic.
Proof.
  intros Hg Hh Hmax Hx. pose proof (session_input_not_panic cfg key body) as Hin. unfold append_session in Hx.
  destruct (session_input cfg key body) as [[inp side]|e|]; [|by apply exec_done_inv in Hx as [-> _]|done].
  apply exec_await_q_inv in Hx as (v1 & He & Hx). destruct (Hg _ _ _ _ He Hh) as (es1 & Hh1 & _ & Hm1).
  destruct (ts_append_law (w_store v1) es1 inp Hh1) as [Hf _]; [specialize (Hm1 Hmax); lia|].
  pose proof (ledger_append_not_panic es1 inp) as Hnp. rewrite <-Hf in Hnp.
  unfold store_append in Hx. destruct (ts_append (w_store v1) inp) as [[o|e|] s]; simpl in *; try done.
  - by apply exec_ends_well in Hx.
  - by destruct Hx as [-> _].
Qed.

Lemma append_audit_ends fpr body R (s : St) es r s' :
  store_grows R -> ts_holds s es -> (nlen es < u64_max)%N ->
  exec R (append_audit fpr body) s r s' -> r <> Panic.
Proof.
  intros Hg Hh Hmax Hx. pose proof (audit_input_not_panic fpr body) as Hin. unfold append_audit in Hx.
  destruct (audit_input fpr body) as [inp|e|]; [|by apply exec_done_inv in Hx as [-> _]|done].
  apply exec_await_q_inv in Hx as (s1 & He & Hx). destruct (Hg _ _ _ _ He Hh) as (es1 & Hh1 & _ & Hm1).
  destruct (ts_append_law s1 es1 inp Hh1) as [Hf _]; [specialize (Hm1 Hmax); lia|].
  pose proof (ledger_append_not_panic es1 inp) as Hnp. rewrite <-Hf in Hnp.
  destruct (ts_append s1 inp) as [[o|e|] s2]; simpl in *; try done.
  - by apply exec_ends_well in Hx.
  - by destruct Hx as [-> _].
Qed.

Lemma append_ends cfg body (v : World St) es r v' :
  serves v es -> exec Tlog.env (append cfg body) v r v' -> r <> Panic.
Proof.
  intros Hs Hx. pose proof (append_input_not_panic cfg body) as Hin.
  destruct (append_input cfg body) as [inp|e|] eqn:E; [| |done].
  - by destruct (append_exec _ _ _ _ _ _ _ Hs E Hx) as [(? & ? & _ & _ & _ & _ & ->)|(? & ? & ? & ? & -> & _)].
  - unfold append in Hx. rewrite E in Hx. by apply exec_done_inv in Hx as [-> _].
Qed.

Lemma sth_ends cfg now (v : World St) es r v' :
  serves v es -> exec Tlog.env (sth_route cfg now) v r v' -> r <> Panic.
Proof.
  intros Hs Hx. unfold sth_route in Hx.
  apply (await_size _ _ es) in Hx as (v1 & es1 & Hs1 & Hp1 & Hx); [|done].
  apply (await_serves _ _ _ _ es1) in Hx as (v2 & es2 & Hs2 & Hp2 & Hx); [|done]. destruct Hs2 as (Hh & Hm & _).
  rewrite (ts_current_root_law _ es2) in Hx by done. unfold ledger_root in Hx.
  destruct es2 as [|e es2]; [by apply exec_done_inv in Hx as [-> _]|].
  rewrite compute_root_spec in Hx; [|by rewrite ledger_leaves_nil|by rewrite ledger_leaves_length].
  by apply exec_done_inv in Hx as [-> _].
Qed.

Lemma health_ends (v : World St) es r v' : serves v es -> exec Tlog.env health v r v' -> r <> Panic.
Proof.
  intros Hs Hx. unfold health in Hx. apply (await_size _ _ es) in Hx as (v1 & es1 & _ & _ & Hx); [|done].
  by apply exec_done_inv in Hx as [-> _].
Qed.

Lemma fetch_ends leaves acc k :
  (forall es, ends_well (k es)) -> ends_well (fetch_entries (St := St) (C := C) (D := D) leaves acc k).
Proof.
  intros Hk. revert acc. induction leaves as [|i leaves IH]; intros acc; cbn [fetch_entries]; [done|].
  unfold lookup_wave_session_payload. intros [side|]; [apply IH|]. intros [key|]; [|discriminate].
  intros [side|]; [|discriminate]. intros _. apply IH.
Qed.

Lemma verify_session_ends cfg wave_id : ends_well (verify_session (St := St) (C := C) (D := D) cfg wave_id).
Proof.
  intros [|i leaves]; [by intros []|]. apply fetch_ends. by intros.
Qed.

Lemma log_reply_ok {A} (f : A -> Response) r : r <> Panic -> exists resp, log_reply f r = Ok resp.
Proof. destruct r as [a|e|]; [by eexists|intros _; simpl; destruct (into_response e); by eexists|done]. Qed.

(** Each request that is answered is answered with a response. *)
Lemma log_handler_answers app now req rt params (w : WorldT) es r w' :
  serves (ledger_of w) es -> exec others (log_handler app now req rt params) w r w' ->
  exists resp, r = Ok resp.
Proof.
  intros Hs Hx.
  assert (forall e, exec others (rejected e) w r w' -> exists resp, r = Ok resp) as Hrej.
  { intros e [-> _]%exec_done_inv. by eexists. }
  assert (ts_holds (store_of w) es /\ (nlen es < u64_max)%N) as [Hh Hmax].
  { destruct Hs as (? & Hmax & _). split; [done|]. unfold max_leaves, u64_max in *. lia. }
  destruct service_is_their_environment as (_ & Hwave & Haudit).
  destruct rt; cbn [log_handler] in Hx; unfold with_body, with_param in Hx;
    repeat (case_match; try (by eapply Hrej)).
  all: try (apply ledger_reply in Hx as (r0 & Hx & ->); apply log_reply_ok).
  all: try (apply exec_then_inv in Hx as (r0 & Hx & ->); apply log_reply_ok;
    apply exec_zoom_inv in Hx; [|by intros]).
  - by eapply health_ends.
  - by eapply append_ends.
  - by destruct (verify_route_correct _ _ es _ _ Hs Hx) as (? & _ & _ & Hr); intros ->; destruct (parse_u64 _).
  - by eapply sth_ends.
  - by destruct (consistency_route_correct _ _ _ es _ _ Hs Hx)
      as (? & _ & _ & [[_ ->]|[(_ & _ & _ & ->)|(? & ? & ? & _ & _ & _ & -> & _)]]).
  - by eapply append_session_ends.
  - eapply exec_ends_well; [exact Hx|apply verify_session_ends].
  - by eapply append_audit_ends.
  - by eapply append_audit_ends.
  - apply exec_done_inv in Hx as [-> _]. apply log_reply_ok. unfold transparency_key, ok_or. no_panic.
Qed.

(** C10.  Every request is answered: no run of the requests in flight goes on for ever, and as
    long as the ledger stays below [2^63] entries, wherever a run stops because nothing
    can move, every request has got its response -- none of them waits for the lock of
    the tree for ever, and no handler panics.  For stores that keep [StoreLaws]. *)
Theorem every_request_is_answered app reqs (w : WorldT) es :
  serves (ledger_of w) es ->
  (forall ps' w', rtc (turn room) (in_flight app reqs, w) (ps', w') -> room w') ->
  Acc (flip (turn room)) (in_flight app reqs, w) /\
  forall ps' w', rtc (turn room) (in_flight app reqs, w) (ps', w') ->
    (forall x, ~ turn room (ps', w') x) ->
    forall i, (i < length reqs)%nat -> exists resp, ps' !! i = Some (Done (Ok resp)).
Proof.
  intros Hs Hroom. split; [apply turn_terminates|]. intros ps' w' Hrun Hstop i Hi.
  pose proof (fresh_in_flight_ok app reqs w es Hs) as Hok.
  destruct (pool_ok_run room others _ _ _ _ Hrun Hok) as [[Hex _] _].
  apply lookup_lt_is_Some in Hi as [[now inc] Hi].
  assert (length ps' = length (in_flight app reqs)) as Hlen by by eapply pool_length.
  destruct (lookup_lt_is_Some_2 ps' i) as [p Hp].
  { rewrite Hlen. apply lookup_lt_is_Some. exists (serve_log app now inc). by apply in_flight_lookup. }
  assert (finished p) as Hf.
  { destruct p as [r|held B op k]; [done|]. exfalso.
    destruct (pool_progress room ps' w' Hex (Hroom _ _ Hrun)) as [x Hx]; [|by apply (Hstop x)].
    apply Exists_exists. eexists. split; [by eapply list_elem_of_lookup_2|]. by intros []. }
  destruct p as [r|]; [|done]. rewrite Hp.
  destruct (served_alone_among_others room others _ _ _ _ _ _ _ Hok Hrun (in_flight_lookup app reqs i now inc Hi) Hp)
    as (w0 & Hx & _ & _).
  apply (exec_mono _ others) in Hx; [|by intros held ? ? [? _]].
  cut (exists resp, r = Ok resp); [intros [resp ->]; by exists resp|].
  unfold serve_log in Hx. destruct (tlog_auth_layer _ _ _) as [[st b]|];
    [apply exec_done_inv in Hx as [-> _]; by eexists|].
  unfold limited in Hx. destruct (body_limit _ _); [apply exec_done_inv in Hx as [-> _]; by eexists|].
  unfold served in Hx. destruct (dispatch _ _ _) as [| |rt params];
    [apply exec_done_inv in Hx as [-> _]; by eexists..|].
  apply exec_then_inv in Hx as (r0 & Hx & ->).
  destruct (log_handler_answers _ _ _ _ _ _ _ _ _ Hs Hx) as [resp ->]. destruct (in_method inc); by eexists.
Qed.

End LogService.

(** ** Witnesses: two tasks on the memory store *)

Module Demo.
Import Tlog.Demo.
#[local] Existing Instance demo_hash.
#[local] Existing Instance demo_ed25519.
#[local] Existing Instance demo_hex.
#[local] Existing Instance demo_b64.
#[local] Existing Instance DemoJson.demo_serde.
#[local] Existing Instance TlogClient.Demo.axum.
#[local] Existing Instance WaveTheorems.Demo.keyed.
#[local] Existing Instance WaveTheorems.Demo.map_cache.
#[local] Existing Instance WaveTheorems.Demo.map_table.
#[local] Existing Instance DemoRouting.demo_routing.
#[local] Existing Instance DemoRouting.demo_routing_laws.
#[local] Instance query_errors : AxumQuery := fun _ => (400%N, "missing field").

Abbreviation DemoWorld := (LWorld Inner (gmap N WaveSessionLeafSide) (gmap string DetailRow)).

Definition app : LogApp := {|
  la_config := cfg; la_wave := WaveTheorems.Demo.cfg;
  la_audit_keys := {| mcp_audit_ed25519_key_fingerprint_hex := None;
                      reconciler_drift_ed25519_key_fingerprint_hex := None |};
  la_api_key := "k" |}.

(** Three entries, and a tree that has seen none. *)
Definition start : DemoWorld := Build_LWorld (WaveTheorems.Demo.fresh (store (world inps))) ht_new.

Definition incoming (m : Method) (path : string) (key : list (string * string))
    (q : list (string * string)) (body : option Value) : Incoming :=
  {| in_method := m; in_path := path;
     in_http := {| url := ""; headers := key; query := q; json := body |} |}.

Definition key_header : list (string * string) := [("x-api-key", "k")].

Definition ask_consistency : f64 * Incoming :=
  (f64_of_Z 5, incoming GET "/v1/consistency" key_header [("first", "2"); ("second", "3")] None).
Definition ask_append : f64 * Incoming :=
  (f64_of_Z 5, incoming POST "/v1/append" key_header []
     (Some (append_body (array_of 32 [x09]) " bB " 7 [x61; x62]))).
Definition ask_verify : f64 * Incoming :=
  (f64_of_Z 6, incoming GET "/v1/verify/3" key_header [] None).
Definition ask_without_key : f64 * Incoming :=
  (f64_of_Z 6, incoming POST "/v1/append" [] [] (Some (append_body (array_of 32 [x09]) " bB " 7 [x61; x62]))).
Definition ask_health : f64 * Incoming := (f64_of_Z 6, incoming GET "/health" [] [] None).

Definition has_room (w : DemoWorld) : bool := (nlen (leaves (store_of w)) <? max_leaves)%N.

Lemma has_room_ok w : has_room w = true -> room w.
Proof.
  intros Hr%N.ltb_lt es (Hl & _). by rewrite Hl, ledger_leaves_length in Hr.
Qed.

Lemma start_serves : serves (ledger_of start) inps.
Proof. exact world_serves. Qed.

(** The consistency request and an append, interleaved. *)
Lemma served_consistency_is_true_witness : exists ps' w' resp,
  rtc (turn room) (in_flight app [ask_consistency; ask_append], start) (ps', w') /\
  ps' !! 0%nat = Some (Done (Ok resp)) /\ nlen (leaves (store_of w')) = 4%N /\
  exists es', serves (ledger_of w') es' /\ inps `prefix_of` es'.
Proof.
  destruct (played room has_room has_room_ok [0; 1; 0; 0; 0; 0; 0; 0; 0; 0]%nat
    (in_flight app [ask_consistency; ask_append]) start 0
    (fun _ w => (nlen (leaves (store_of w)) =? 4)%N)) as (ps' & w' & resp & Hrun & Hr & Hn).
  { vm_compute. reflexivity. }
  destruct (served_consistency_is_true app [ask_consistency; ask_append] start inps ps' w' 0
    (fst ask_consistency) (snd ask_consistency) (Ok resp) 2 3 start_serves Hrun eq_refl Hr eq_refl eq_refl
    ltac:(split; reflexivity) ltac:(vm_compute; reflexivity)) as (es' & Hs' & Hp' & _).
  exists ps', w', resp. split; [exact Hrun|]. split; [exact Hr|]. split; [by apply N.eqb_eq in Hn|].
  exists es'. split; [exact Hs'|exact Hp'].
Defined.

(** An append, then a request for the entry it named. *)
Lemma appended_entry_is_served_witness : exists ps1 w1 r,
  rtc (turn room) (in_flight app [ask_append], start) (ps1, w1) /\ ps1 !! 0%nat = Some (Done r) /\
  ((exists prior, r = Ok (refusal IdempotencyPayloadMismatch) /\ ai_payload prior <> [x61; x62]) \/
   exists ar, leaf_hash_hex ar = hex_encode (arr_bytes (leaf_hash [x61; x62])) /\
     r = Ok (json_response (if idempotent_replay ar then 200 else 201) (append_response_value ar))).
Proof.
  destruct (played room has_room has_room_ok [0]%nat (in_flight app [ask_append]) start 0 (fun _ _ => true))
    as (ps1 & w1 & resp & Hrun & Hr & _).
  { vm_compute. reflexivity. }
  exists ps1, w1, (Ok resp). split; [exact Hrun|]. split; [exact Hr|].
  destruct (appended_entry_is_served app [ask_append] start inps ps1 w1 0 (fst ask_append) (snd ask_append)
    (Ok resp) (array_of 32 [x09]) " bB " 7 [x61; x62] start_serves Hrun eq_refl Hr eq_refl eq_refl
    ltac:(split; reflexivity) eq_refl ltac:(discriminate) ltac:(vm_compute; reflexivity)
    ltac:(reflexivity) ltac:(vm_compute; discriminate))
    as [(es1 & prior & _ & _ & _ & Hd & ->)|(ar & -> & Hl & _)].
  - left. by exists prior.
  - right. by exists ar.
Defined.

(** Requests without the key, one of them a well-formed append. *)
Lemma only_the_key_changes_the_log_witness : exists ps' w' resp,
  rtc (turn room) (in_flight app [ask_without_key; ask_health], start) (ps', w') /\
  ps' !! 1%nat = Some (Done (Ok resp)) /\ w' = start /\
  exists b, serve_log app (f64_of_Z 6) (snd ask_without_key) = Done (Ok (json_response 401 b)) :> prog DemoWorld _ _.
Proof.
  destruct (played room has_room has_room_ok [1]%nat (in_flight app [ask_without_key; ask_health]) start 1 (fun _ _ => true))
    as (ps' & w' & resp & Hrun & Hr & _).
  { vm_compute. reflexivity. }
  destruct (only_the_key_changes_the_log app [ask_without_key; ask_health] start ps' w' Hrun)
    as (_ & Hsame & Hrefused).
  exists ps', w', resp. split; [exact Hrun|]. split; [exact Hr|]. split.
  - apply Hsame. intros now inc Hin [_ Hk]. apply elem_of_cons in Hin as [[= -> ->]|Hin]; [discriminate|].
    apply list_elem_of_singleton in Hin as [= -> ->]. discriminate.
  - destruct (Hrefused (f64_of_Z 6) (snd ask_without_key)) as (st & b & E & [(? & _)|(-> & _)]).
    + intros [_ Hk]. discriminate.
    + reflexivity.
    + discriminate.
    + by exists (error_response_value b).
Defined.

(** Requests that only read leave the ledger room. *)
Lemma every_request_is_answered_witness :
  Acc (flip (turn room)) (in_flight app [ask_consistency; ask_health], start).
Proof.
  destruct (every_request_is_answered app [ask_consistency; ask_health] start inps start_serves) as [Hacc _];
    [|exact Hacc].
  intros ps' w' Hrun. apply has_room_ok.
  assert (rtc reading_only start w') as Hread.
  { eapply pool_steps; [|exact Hrun]. apply Forall_fmap, Forall_forall. intros [now inc] Hin. simpl.
    apply dispatched_steps. intros rt params Hd _. apply log_handler_reads. intros Ha.
    apply (append_route_path _ _ _ _ Hd) in Ha as [Hm _].
    apply elem_of_cons in Hin as [[= -> ->]|Hin]; [discriminate|].
    apply list_elem_of_singleton in Hin as [= -> ->]. discriminate. }
  assert (store_of w' = store_of start) as Hst.
  { clear Hrun. induction Hread as [|x y z Hxy _ IH]; [done|]. unfold reading_only in Hxy. congruence. }
  unfold has_room. rewrite Hst. vm_compute. reflexivity.
Defined.

End Demo.
