(* ===== verification/Reconciler.v ===== *)
(** * The image-drift reconciler

    Models [crates/services/safety-kernel-reconciler/src/]: the signed release
    manifest and its checks, one tick of the reconciler, its polling loop, the three
    HTTP and registry clients, the audit file, and the configuration [main] reads.

    A tick calls its collaborators one after the other; what each of them answers
    and what the clock shows are the [Answers] of the tick, so a run is a list of
    them, one per interval.  What a tick leaves behind is the audit file and the
    requests sent to the transparency log. *)

From S2P Require Import Prelude RustStr Float64 Crates Merkle Json Serde Token CircuitBreaker Client Revoke.
From S2P Require Import MerkleSpec MerkleProofs HashTree Store Async Sth Tlog Auth TlogClient Allowlist.

#[local] Open Scope string_scope.

Definition DEFAULT_MANIFEST_STALENESS_SECONDS : N := (7 * 24 * 60 * 60)%N.
Definition DEFAULT_INTERVAL_SECONDS : N := 900.

(** ** Crates *)

(** [oci_distribution]: image references, and the digest the registry reports. *)
Class Oci := {
  Reference : Type;
  parse_reference : string -> string + Reference
}.

(** ** Data *)

Record ReleaseManifest := {
  image : string;
  digest : string;
  version : string;
  issued_at : N;
  signature : string
}.

Record DriftAuditEvent := {
  running_digest : string;
  expected_digest : string;
  detected_at_epoch_seconds : N;
  image_repository : string;
  manifest_version : string
}.

Inductive TickOutcome := Match | Drift (running expected : string).

Inductive ReconcileError :=
| Registry (e : string)
| ManifestFetch (e : string)
| ManifestParse (e : string)
| BadSignature
| ExpiredManifest (issued_at now max_age : N)
| ImageMismatch (manifest_image configured : string).

(** The answer to a [GET]: status, its text, and the body or the error of reading it. *)
Record GetResponse := { gr_status : N; gr_status_display : string; gr_body : string + list byte }.

(** How writing and flushing a line to the audit file ends. *)
Inductive FileWrite := LineWritten | LineFailed (written : nat).

(** ** Pure parts *)

(** [u64::MAX as f64] rounds to [2^64]. *)
Definition now_epoch_seconds_u64 (now : f64) : N :=
  if negb (f64_is_finite now) || f64_le now (f64_of_Z 0) then 0%N
  else if f64_ge now (f64_of_Z (Z.of_N u64_max)) then u64_max
  else f64_as_u64 now.

Definition strip_tag (image : string) : string :=
  match split_once ":"%char image with Some (repo, _) => repo | None => image end.

Definition de_manifest (v : Value) : option ReleaseManifest :=
  match de_fields ["image"; "digest"; "version"; "issued_at"; "signature"] v with
  | Some [i; d; v; t; s] =>
    i ← de_req as_str i; d ← de_req as_str d; v ← de_req as_str v;
    t ← de_req de_u64 t; s ← de_req as_str s;
    Some {| image := i; digest := d; version := v; issued_at := t; signature := s |}
  | _ => None
  end.

Definition manifest_members (m : ReleaseManifest) : list (string * Value) :=
  [("digest", Str (digest m)); ("image", Str (image m)); ("issued_at", Num (PosInt (issued_at m)));
   ("version", Str (version m))].

(** The event in the order of its fields. *)
Definition event_members (e : DriftAuditEvent) : list (string * Value) :=
  [("running_digest", Str (running_digest e)); ("expected_digest", Str (expected_digest e));
   ("detected_at_epoch_seconds", Num (PosInt (detected_at_epoch_seconds e)));
   ("image_repository", Str (image_repository e)); ("manifest_version", Str (manifest_version e))].

Section Reconciler.
Context `{Ed25519} `{SerdeJson} `{Hex} `{B64Std} `{Oci}.

Record ReconcilerConfig := {
  rc_image_repository : string;
  rc_interval_seconds : N;
  rc_manifest_url : string;
  rc_release_verifying_key : VerifyingKey;
  rc_manifest_staleness_seconds : N;
  rc_transparency_log_url : string
}.

(** What the collaborators of one tick answer. *)
Record Answers := {
  an_digest : Reference -> string + string;
  an_get : string -> string + GetResponse;
  an_parse_error : string;
  an_now_check : f64;
  an_now_detect : f64;
  an_write : FileWrite;
  an_post : HttpRequest -> string + Response
}.

(** What a tick can change. *)
Record Trail := { audit_file : string; posted : list HttpRequest }.

(** *** The manifest *)

Definition canonical_signed_bytes (m : ReleaseManifest) : list byte :=
  as_bytes (serde_to_string (jobj (manifest_members m))).

Definition verify_manifest (cfg : ReconcilerConfig) (m : ReleaseManifest) : res ReconcileError unit :=
  match b64std_decode (signature m) with
  | inl _ => Err BadSignature
  | inr sig_bytes =>
    if negb (length sig_bytes =? 64)%nat then Err BadSignature
    else if ed_verify (rc_release_verifying_key cfg) (canonical_signed_bytes m) (array_of 64 sig_bytes)
    then Ok tt else Err BadSignature
  end.

Definition check_freshness (cfg : ReconcilerConfig) (clock : f64) (m : ReleaseManifest)
    : res ReconcileError unit :=
  let now := now_epoch_seconds_u64 clock in
  if (issued_at m <=? now)%N && (rc_manifest_staleness_seconds cfg <? now - issued_at m)%N
  then Err (ExpiredManifest (issued_at m) now (rc_manifest_staleness_seconds cfg)) else Ok tt.

Definition check_image (cfg : ReconcilerConfig) (m : ReleaseManifest) : res ReconcileError unit :=
  let manifest_image := strip_tag (image m) in
  let configured := strip_tag (rc_image_repository cfg) in
  if String.eqb manifest_image configured then Ok tt else Err (ImageMismatch manifest_image configured).

(** *** The collaborators *)

Definition fetch_running_digest (a : Answers) (image_ref : string) : res string string :=
  match parse_reference image_ref with
  | inl e => Err ("invalid image reference " +:+ image_ref +:+ ": " +:+ e)
  | inr reference =>
    match an_digest a reference with
    | inl e => Err ("oci fetch_manifest_digest failed: " +:+ e)
    | inr digest => Ok digest
    end
  end.

Definition fetch_manifest (a : Answers) (url : string) : res string (list byte) :=
  match an_get a url with
  | inl e => Err ("manifest GET failed: " +:+ e)
  | inr resp =>
    if negb (is_success (gr_status resp)) then Err ("manifest GET returned " +:+ gr_status_display resp)
    else match gr_body resp with
         | inl e => Err ("manifest body read failed: " +:+ e)
         | inr b => Ok b
         end
  end.

(** One JSON line, as much of it as is written. *)
Definition audit_line (e : DriftAuditEvent) : string :=
  serde_to_string (Obj (event_members e)) +:+ String "010"%char "".

Fixpoint first_bytes (n : nat) (s : string) : string :=
  match n, s with S n, String a s => String a (first_bytes n s) | _, _ => "" end.

Definition audit_append (a : Answers) (e : DriftAuditEvent) (t : Trail) : Trail :=
  let line := audit_line e in
  {| audit_file := audit_file t +:+ match an_write a with
                                    | LineWritten => line
                                    | LineFailed n => first_bytes n line
                                    end;
     posted := posted t |}.

Definition drift_request (endpoint : string) (e : DriftAuditEvent) : HttpRequest :=
  {| url := endpoint; headers := []; query := []; json := Some (Obj (event_members e)) |}.

(** [post_drift_event]: the text of the error, if any, is only logged. *)
Definition post_drift_event (cfg : ReconcilerConfig) (a : Answers) (e : DriftAuditEvent) (t : Trail)
    : res string unit * Trail :=
  let req := drift_request (rc_transparency_log_url cfg) e in
  (match an_post a req with
   | inl err => Err ("transparency-log POST failed: " +:+ err)
   | inr resp =>
     if is_success (Client.status resp) then Ok tt
     else Err ("transparency-log returned non-success: " +:+ status_display resp)
   end,
   {| audit_file := audit_file t; posted := (posted t ++ [req])%list |}).

(** *** A tick *)

Definition parse_manifest (a : Answers) (bytes : list byte) : res ReconcileError ReleaseManifest :=
  match serde_from_slice bytes with
  | inl e => Err (ManifestParse e)
  | inr v => ok_or (ManifestParse (an_parse_error a)) (de_manifest v)
  end.

(** The manifest a tick decides by, and the digest it found running. *)
Definition gather (cfg : ReconcilerConfig) (a : Answers) : res ReconcileError (string * ReleaseManifest) :=
  let? running := map_err Registry (fetch_running_digest a (rc_image_repository cfg)) in
  let? manifest_bytes := map_err ManifestFetch (fetch_manifest a (rc_manifest_url cfg)) in
  let? manifest := parse_manifest a manifest_bytes in
  let? _ := verify_manifest cfg manifest in
  let? _ := check_freshness cfg (an_now_check a) manifest in
  let? _ := check_image cfg manifest in
  Ok (running, manifest).

Definition tick_once (cfg : ReconcilerConfig) (a : Answers) (t : Trail)
    : res ReconcileError TickOutcome * Trail :=
  match gather cfg a with
  | Err e => (Err e, t)
  | Panic => (Panic, t)
  | Ok (running, manifest) =>
    if String.eqb running (digest manifest) then (Ok Match, t) else
    let event := {| running_digest := running; expected_digest := digest manifest;
                    detected_at_epoch_seconds := now_epoch_seconds_u64 (an_now_detect a);
                    image_repository := image manifest; manifest_version := version manifest |} in
    let t := audit_append a event t in
    let (_, t) := post_drift_event cfg a event t in
    (Ok (Drift running (digest manifest)), t)
  end.

(** The loop over the ticks of a run; no outcome ends it. *)
Fixpoint run_forever (cfg : ReconcilerConfig) (ticks : list Answers) (t : Trail)
    : list (res ReconcileError TickOutcome) * Trail :=
  match ticks with
  | [] => ([], t)
  | a :: ticks =>
    let (r, t) := tick_once cfg a t in
    let (rs, t) := run_forever cfg ticks t in
    (r :: rs, t)
  end.

(** The seconds between two ticks. *)
Definition tick_period (cfg : ReconcilerConfig) : N := N.max (rc_interval_seconds cfg) 1.

(** *** The configuration [main] reads *)

Inductive ConfigError :=
| MissingVar (key : string)
| NotU64 (key : string)
| KeyNotBase64
| KeyNot32Bytes
| InvalidKey (e : string).

Definition read_env_or_err (env : string -> option string) (key : string) : res ConfigError string :=
  ok_or (MissingVar key) (env key).

Definition read_env_or_default (env : string -> option string) (key : string) (default_value : N)
    : res ConfigError N :=
  match env key with
  | Some v => ok_or (NotU64 key) (parse_u64 v)
  | None => Ok default_value
  end.

Definition load_verifying_key (env : string -> option string) : res ConfigError VerifyingKey :=
  let? b64 := read_env_or_err env "QORCH_RECONCILER_RELEASE_KEY_B64" in
  match b64std_decode (trim b64) with
  | inl _ => Err KeyNotBase64
  | inr bytes =>
    if negb (length bytes =? 32)%nat then Err KeyNot32Bytes else
    match verifying_key_from_bytes (array_of 32 bytes) with
    | inl e => Err (InvalidKey e)
    | inr key => Ok key
    end
  end.

Definition reconciler_config (env : string -> option string) : res ConfigError ReconcilerConfig :=
  let? image := read_env_or_err env "QORCH_RECONCILER_IMAGE" in
  let? interval := read_env_or_default env "QORCH_RECONCILER_INTERVAL_SECONDS" DEFAULT_INTERVAL_SECONDS in
  let? url := read_env_or_err env "QORCH_RECONCILER_MANIFEST_URL" in
  let? key := load_verifying_key env in
  let? staleness := read_env_or_default env "QORCH_RECONCILER_MANIFEST_MAX_AGE_SECONDS"
                      DEFAULT_MANIFEST_STALENESS_SECONDS in
  let? log_url := read_env_or_err env "QORCH_RECONCILER_TRANSPARENCY_LOG_URL" in
  Ok {| rc_image_repository := image; rc_interval_seconds := interval; rc_manifest_url := url;
        rc_release_verifying_key := key; rc_manifest_staleness_seconds := staleness;
        rc_transparency_log_url := log_url |}.

(** ** Lemmas *)

Definition manifest_ok (m : ReleaseManifest) : Prop :=
  utf8 (image m) = true /\ utf8 (digest m) = true /\ utf8 (version m) = true /\ u64_ok (issued_at m).

(** What the signature covers. *)
Definition same_release (m1 m2 : ReleaseManifest) : Prop :=
  image m1 = image m2 /\ digest m1 = digest m2 /\ version m1 = version m2 /\ issued_at m1 = issued_at m2.

Lemma manifest_json_ok m : manifest_ok m -> json_ok (jobj (manifest_members m)).
Proof.
  intros (? & ? & ? & ?). change (jobj (manifest_members m)) with (Obj (manifest_members m)).
  split; [obj_ok|simpl; lia].
Qed.

Lemma canonical_signed_inj `{!SerdeJsonCorrect} m1 m2 :
  manifest_ok m1 -> manifest_ok m2 -> canonical_signed_bytes m1 = canonical_signed_bytes m2 ->
  same_release m1 m2.
Proof.
  intros H1' H2' E%fingerprinted_inj; [|by apply manifest_json_ok..].
  unfold same_release. by injection E.
Qed.

Lemma check_freshness_ok cfg clock m :
  check_freshness cfg clock m = Ok tt <->
  (now_epoch_seconds_u64 clock <= issued_at m + rc_manifest_staleness_seconds cfg)%N.
Proof.
  unfold check_freshness. destruct (N.leb_spec (issued_at m) (now_epoch_seconds_u64 clock)),
    (N.ltb_spec (rc_manifest_staleness_seconds cfg) (now_epoch_seconds_u64 clock - issued_at m));
    simpl; split; intros; try done; lia.
Qed.

Lemma check_image_ok cfg m :
  check_image cfg m = Ok tt <-> strip_tag (image m) = strip_tag (rc_image_repository cfg).
Proof. unfold check_image. destruct (String.eqb_spec (strip_tag (image m)) (strip_tag (rc_image_repository cfg))); by split. Qed.

Lemma verify_manifest_ok cfg m :
  verify_manifest cfg m = Ok tt <->
  exists sig, b64std_decode (signature m) = inr (arr_bytes sig) /\
    ed_verify (rc_release_verifying_key cfg) (canonical_signed_bytes m) sig = true.
Proof.
  unfold verify_manifest. split.
  - destruct (b64std_decode _) as [|b]; [done|]. destruct (Nat.eqb_spec (length b) 64); [|done].
    simpl. destruct (ed_verify _ _ _) eqn:E; [|done]. intros _. exists (array_of 64 b).
    by rewrite array_of_bytes.
  - intros (sig & -> & Hv). by rewrite array_length, array_of_id, Hv.
Qed.

(** What the decision rests on. *)
Definition grounded (cfg : ReconcilerConfig) (a : Answers) (running : string) (m : ReleaseManifest) : Prop :=
  fetch_running_digest a (rc_image_repository cfg) = Ok running /\
  (exists bytes, fetch_manifest a (rc_manifest_url cfg) = Ok bytes /\ parse_manifest a bytes = Ok m) /\
  (exists sig, b64std_decode (signature m) = inr (arr_bytes sig) /\
     ed_verify (rc_release_verifying_key cfg) (canonical_signed_bytes m) sig = true) /\
  (now_epoch_seconds_u64 (an_now_check a) <= issued_at m + rc_manifest_staleness_seconds cfg)%N /\
  strip_tag (image m) = strip_tag (rc_image_repository cfg).

Lemma gather_ok cfg a running m : gather cfg a = Ok (running, m) <-> grounded cfg a running m.
Proof.
  unfold gather, grounded. rewrite res_bind_Ok. setoid_rewrite map_err_Ok. split.
  - intros (r & Hr & Hg). step Hg as (b & Hb%map_err_Ok & Hg).
    step Hg as (m' & Hm & Hg). step Hg as ([] & Hv%verify_manifest_ok & Hg).
    step Hg as ([] & Hf%check_freshness_ok & Hg).
    step Hg as ([] & Hi%check_image_ok & [= -> ->]). eauto 10.
  - intros (Hr & (b & Hb & Hm) & Hv%verify_manifest_ok & Hf%check_freshness_ok & Hi%check_image_ok).
    exists running. split; [done|]. by rewrite Hb; simpl; rewrite Hm; simpl; rewrite Hv; simpl; rewrite Hf; simpl; rewrite Hi.
Qed.

Lemma gather_total cfg a : gather cfg a <> Panic.
Proof.
  assert (fetch_running_digest a (rc_image_repository cfg) <> Panic)
    by (unfold fetch_running_digest; by repeat case_match).
  assert (fetch_manifest a (rc_manifest_url cfg) <> Panic) by (unfold fetch_manifest; by repeat case_match).
  assert (forall b, parse_manifest a b <> Panic)
    by (intros b; unfold parse_manifest; destruct (serde_from_slice b); [done|by destruct (de_manifest _)]).
  assert (forall m, verify_manifest cfg m <> Panic) by (intros m; unfold verify_manifest; by repeat case_match).
  assert (forall m, check_freshness cfg (an_now_check a) m <> Panic)
    by (intros m; unfold check_freshness; by case_match).
  assert (forall m, check_image cfg m <> Panic) by (intros m; unfold check_image; by case_match).
  unfold gather. repeat (match goal with
  | |- res_bind (map_err _ ?r) _ <> Panic => destruct r eqn:?; simpl
  | |- res_bind ?r _ <> Panic => destruct r eqn:?; simpl
  end; try done); naive_solver.
Qed.

(** The event of a tick that finds a drift. *)
Definition drift_event (cfg : ReconcilerConfig) (a : Answers) : option DriftAuditEvent :=
  match gather cfg a with
  | Ok (running, m) =>
    if String.eqb running (digest m) then None else
    Some {| running_digest := running; expected_digest := digest m;
            detected_at_epoch_seconds := now_epoch_seconds_u64 (an_now_detect a);
            image_repository := image m; manifest_version := version m |}
  | _ => None
  end.

(** What raising an alert leaves behind. *)
Definition alerted (cfg : ReconcilerConfig) (a : Answers) (e : option DriftAuditEvent) (t : Trail) : Trail :=
  match e with
  | None => t
  | Some e => {| audit_file := audit_file (audit_append a e t);
                 posted := (posted t ++ [drift_request (rc_transparency_log_url cfg) e])%list |}
  end.

Lemma tick_trail cfg a t : snd (tick_once cfg a t) = alerted cfg a (drift_event cfg a) t.
Proof.
  unfold tick_once, drift_event, alerted. destruct (gather cfg a) as [[r m]| |]; [|done..].
  by destruct (String.eqb r (digest m)).
Qed.

(** The outcome of a tick does not depend on what earlier ones left behind. *)
Lemma tick_result cfg a t1 t2 : fst (tick_once cfg a t1) = fst (tick_once cfg a t2).
Proof.
  unfold tick_once. destruct (gather cfg a) as [[r m]| |]; [|done..].
  by destruct (String.eqb r (digest m)).
Qed.

Lemma concat_cons s l : String.concat "" (s :: l) = s +:+ String.concat "" l.
Proof. destruct l; simpl; [by rewrite string_app_nil|done]. Qed.

(** [m] is itself a forgery: its signature is valid under the release key and covers what
    none of the manifests the key has signed says. *)
Definition release_forgery (cfg : ReconcilerConfig) (signed : list ReleaseManifest) (m : ReleaseManifest) : Prop :=
  verify_manifest cfg m = Ok tt /\ canonical_signed_bytes m ∉ canonical_signed_bytes <$> signed.

Lemma verified_was_signed `{!SerdeJsonCorrect} cfg signed m :
  Forall manifest_ok signed -> manifest_ok m -> verify_manifest cfg m = Ok tt ->
  Exists (same_release m) signed \/ release_forgery cfg signed m.
Proof.
  intros Hs Hok Hv.
  destruct (decide (canonical_signed_bytes m ∈ canonical_signed_bytes <$> signed))
    as [(m0 & E & Hm0)%list_elem_of_fmap|Hno]; [left|by right].
  rewrite Forall_forall in Hs. apply Exists_exists. exists m0. split; [done|].
  by apply canonical_signed_inj; [|apply Hs|].
Qed.

(** C26.  A drift decision rests on the signed manifest and nothing else: a tick
    reports a match or a drift only when the registry named a running digest and a
    manifest was fetched that verifies under the pinned key, is not older than the
    staleness limit and is for the watched image up to tags.  The digest, image, version
    and date compared are then those of one of the manifests the holder of the release
    key has signed ([signed]) -- unless the fetched manifest is itself a forgery, a
    valid signature under that key of what its holder never signed.  The tick reports a
    match exactly when the two digests are equal, and then does nothing; on a drift it
    tries one audit line and one request, about those digests.  Any failure before that
    decides nothing and leaves no trace, and no answer of a collaborator makes it
    panic. *)
Theorem drift_is_decided_by_the_signed_manifest `{!SerdeJsonCorrect} cfg a t (signed : list ReleaseManifest) :
  Forall manifest_ok signed ->
  match tick_once cfg a t with
  | (Ok out, t') => exists running m,
      grounded cfg a running m /\
      (manifest_ok m -> Exists (same_release m) signed \/ release_forgery cfg signed m) /\
      ((out = Match /\ running = digest m /\ t' = t) \/
       (out = Drift running (digest m) /\ running <> digest m /\
        exists e, running_digest e = running /\ expected_digest e = digest m /\
          image_repository e = image m /\ manifest_version e = version m /\ t' = alerted cfg a (Some e) t))
  | (Err _, t') => t' = t /\ forall running m, ~ grounded cfg a running m
  | (Panic, _) => False
  end.
Proof.
  intros Hsig. pose proof (tick_trail cfg a t) as Htr. pose proof (gather_total cfg a) as Htot.
  unfold tick_once, drift_event in *.
  destruct (gather cfg a) as [[running m]|err|] eqn:Hg; [| |done].
  - apply gather_ok in Hg.
    assert (manifest_ok m -> Exists (same_release m) signed \/ release_forgery cfg signed m) as Hiss.
    { intros Hok. apply verified_was_signed; [done..|]. by apply verify_manifest_ok, Hg. }
    destruct (String.eqb_spec running (digest m)) as [->|Hne]; simpl in *.
    + exists (digest m), m. split_and!; [done..|by left].
    + exists running, m. split_and!; [done..|]. right. split_and!; [done..|]. eexists.
      split_and!; [..|exact Htr]; done.
  - split; [done|]. intros r m' Hgr%gather_ok. congruence.
Qed.

(** ** In front of the transparency log *)

Context `{Sha256} `{B64Url} `{Axum} {St : Type} `{TransparencyStore St}.

(** The log's authentication layer answers a drift request: it carries no key. *)
Lemma drift_request_refused lcfg key endpoint e (w : World St) :
  exists status body, append_service lcfg key (drift_request endpoint e) w =
    (inr (json_response status body), w) /\ is_success status = false.
Proof.
  unfold append_service, tlog_auth_layer. simpl. destruct (is_empty key); simpl; eauto.
Qed.

(** Drift alerts stay on the reconciler's own disk: over any run, every tick is
    made whatever the ticks before it met, and the audit file grows by exactly one
    line for each drift found, in order; each drift is also posted once -- but the
    request carries no API key, so the log it is meant for refuses it whatever its
    state and configuration, with an error status and its ledger untouched. *)
Theorem drift_alerts_stay_local cfg ticks t :
  Forall (fun a => an_write a = LineWritten) ticks ->
  let (rs, t') := run_forever cfg ticks t in
  let drifts := omap (drift_event cfg) ticks in
  rs = (fun a => fst (tick_once cfg a t)) <$> ticks /\
  audit_file t' = audit_file t +:+ String.concat "" (audit_line <$> drifts) /\
  posted t' = (posted t ++ (drift_request (rc_transparency_log_url cfg) <$> drifts))%list /\
  forall req, req ∈ drift_request (rc_transparency_log_url cfg) <$> drifts ->
    forall lcfg key (w : World St), exists status body,
      append_service lcfg key req w = (inr (json_response status body), w) /\ is_success status = false.
Proof.
  intros Hw.
  assert (forall req, req ∈ drift_request (rc_transparency_log_url cfg) <$> omap (drift_event cfg) ticks ->
    forall lcfg key (w : World St), exists status body,
      append_service lcfg key req w = (inr (json_response status body), w) /\ is_success status = false) as Hr.
  { intros req (e & -> & _)%list_elem_of_fmap lcfg key w. apply drift_request_refused. }
  destruct (run_forever cfg ticks t) as [rs t'] eqn:Hrun. cbv zeta.
  enough (rs = (fun a => fst (tick_once cfg a t)) <$> ticks /\
    audit_file t' = audit_file t +:+ String.concat "" (audit_line <$> omap (drift_event cfg) ticks) /\
    posted t' = (posted t ++ (drift_request (rc_transparency_log_url cfg) <$> omap (drift_event cfg) ticks))%list)
    as (? & ? & ?) by done.
  clear Hr. revert t rs t' Hrun. induction Hw as [|a ticks Ha Hw IH]; intros t rs t' Hrun; simpl in Hrun.
  - injection Hrun as <- <-. simpl. by rewrite string_app_nil, app_nil_r.
  - pose proof (tick_trail cfg a t) as Ht. destruct (tick_once cfg a t) as [r t1] eqn:Et. simpl in Ht.
    destruct (run_forever cfg ticks t1) as [rs1 t2] eqn:Er. injection Hrun as <- <-.
    destruct (IH t1 rs1 t2 Er) as (-> & Hf & Hp). split_and!.
    + rewrite fmap_cons, Et. simpl. f_equal. apply list_fmap_ext. intros i x _. apply tick_result.
    + rewrite Hf, Ht. cbn [omap list_omap]. destruct (drift_event cfg a) as [e|]; [|done]. cbn [alerted audit_file].
      unfold audit_append. rewrite Ha. cbn [audit_file]. by rewrite fmap_cons, concat_cons, string_app_assoc.
    + rewrite Hp, Ht. cbn [omap list_omap]. destruct (drift_event cfg a) as [e|]; [|done]. cbn [alerted posted].
      by rewrite fmap_cons, <-app_assoc.
Qed.

End Reconciler.

(** ** Witnesses *)

Module Demo.
#[local] Existing Instance DemoJson.demo_serde.
#[local] Existing Instance demo_hex.
#[local] Existing Instance demo_b64.
#[local] Existing Instance Tlog.Demo.demo_hash.
#[local] Existing Instance TlogClient.Demo.axum.
#[local] Instance std : B64Std := demo_hex_decode.
#[local] Instance oci : Oci := {| Reference := string; parse_reference := inr |}.

Definition released (s : string) : ReleaseManifest := {|
  image := "aryalabs/safety-kernel:v2"; digest := "sha256:aa"; version := "v2"; issued_at := 1000;
  signature := s |}.

#[local] Existing Instance demo_ed25519.

Definition release_key : @SigningKey demo_ed25519 := [x05].

Definition cfg : ReconcilerConfig := {|
  rc_image_repository := "aryalabs/safety-kernel:latest"; rc_interval_seconds := 900;
  rc_manifest_url := "https://releases/manifest"; rc_release_verifying_key := verifying_key release_key;
  rc_manifest_staleness_seconds := 100; rc_transparency_log_url := "https://log/v1/append" |}.

(** The manifest under its signature. *)
Definition signed : ReleaseManifest :=
  released (hex_encode (arr_bytes (sign release_key (canonical_signed_bytes (released ""))))).

Definition answers (running : string) (now : Z) : Answers := {|
  an_digest := fun _ => inr running;
  an_get := fun _ => inr {| gr_status := 200; gr_status_display := "200 OK";
    gr_body := inr (as_bytes (serde_to_string (jobj (("signature", Str (signature signed)) ::
                                                     manifest_members signed)))) |};
  an_parse_error := ""; an_now_check := f64_of_Z now; an_now_detect := f64_of_Z (now + 1);
  an_write := LineWritten; an_post := fun _ => inl "refused" |}.

Definition nothing : Trail := {| audit_file := ""; posted := [] |}.

(** The release key signed one manifest, and that is the one that decides. *)
Lemma drift_is_decided_by_the_signed_manifest_witness :
  fst (tick_once cfg (answers "sha256:bb" 1050) nothing) = Ok (Drift "sha256:bb" "sha256:aa") /\
  (exists m, grounded cfg (answers "sha256:bb" 1050) "sha256:bb" m /\ same_release m (released "")) /\
  length (posted (snd (tick_once cfg (answers "sha256:bb" 1050) nothing))) = 1%nat /\
  fst (tick_once cfg (answers "sha256:aa" 1050) nothing) = Ok Match /\
  fst (tick_once cfg (answers "sha256:aa" 1200) nothing) = Err (ExpiredManifest 1000 1200 100).
Proof.
  assert (Forall manifest_ok [released ""]) as Hok by (apply Forall_singleton; by vm_compute).
  pose proof (drift_is_decided_by_the_signed_manifest cfg (answers "sha256:bb" 1050) nothing
    [released ""] Hok) as Hd.
  assert (fst (tick_once cfg (answers "sha256:bb" 1050) nothing) = Ok (Drift "sha256:bb" "sha256:aa")) as Hr
    by (vm_compute; reflexivity).
  destruct (tick_once cfg (answers "sha256:bb" 1050) nothing) as [r t']. simpl in Hr. subst r.
  destruct Hd as (running & m & Hg & Hm & [[Hc _]|(Hdr & _ & e & _ & _ & _ & _ & ->)]); [discriminate Hc|].
  split; [reflexivity|]. split; [|split; [reflexivity|split; vm_compute; reflexivity]].
  injection Hdr as Hdr _. rewrite <-Hdr in Hg. exists m. split; [exact Hg|].
  apply gather_ok in Hg.
  assert (gather cfg (answers "sha256:bb" 1050) = Ok ("sha256:bb", signed)) as Hgs by (vm_compute; reflexivity).
  rewrite Hgs in Hg. injection Hg as <-.
  destruct Hm as [Hs|[_ Hf]]; [by vm_compute|by apply Exists_cons in Hs as [Hs|Hs%Exists_nil]|].
  exfalso. apply Hf, list_elem_of_singleton. vm_compute. reflexivity.
Defined.

(** A port in the image name ends the comparison, and a digest reference is not
    stripped as a whole. *)
Example strip_tag_cuts_at_the_port :
  strip_tag "registry:5000/kernel:v1" = strip_tag "registry:5000/other:v9" /\
  strip_tag "kernel@sha256:aa" = "kernel@sha256".
Proof. by split. Qed.

Lemma drift_alerts_stay_local_witness :
  fst (run_forever cfg [answers "sha256:bb" 1200; answers "sha256:bb" 1050] nothing) =
    [Err (ExpiredManifest 1000 1200 100); Ok (Drift "sha256:bb" "sha256:aa")] /\
  posted (snd (run_forever cfg [answers "sha256:bb" 1200; answers "sha256:bb" 1050] nothing)) =
    drift_request "https://log/v1/append" <$>
      omap (drift_event cfg) [answers "sha256:bb" 1200; answers "sha256:bb" 1050].
Proof.
  pose proof (drift_alerts_stay_local (St := Inner) cfg [answers "sha256:bb" 1200; answers "sha256:bb" 1050]
    nothing ltac:(by repeat constructor)) as Hl.
  destruct (run_forever cfg [answers "sha256:bb" 1200; answers "sha256:bb" 1050] nothing) as [rs t'].
  destruct Hl as (-> & _ & Hp & _). split; [vm_compute; reflexivity|exact Hp].
Defined.

End Demo.
