(* ===== verification/AuthorizeHttp.v ===== *)
(** * Authorisation over HTTP

    The kernel's authorize and meta routes as their clients meet them
    ([crates/services/safety-kernel/src/dto.rs], [routes/meta.rs]), and the
    dispatcher's client ([crates/application/src/safety_kernel.rs],
    [crates/adapters/safety_kernel_client/src/reqwest_client.rs]).  The theorems
    compose the SDK ([Client]) and the dispatcher's client with the handler of
    [KernelAuthorize]. *)

From S2P Require Import Prelude RustStr Float64 Crates Merkle Json Serde Token CircuitBreaker Client Revoke.
From S2P Require Import Async Auth TlogClient Allowlist PolicyIpc KernelHttp KernelAuthorize WaveRoutes.

#[local] Open Scope string_scope.

(** ** The wire types *)

Definition de_authorize_request (v : Value) : option AuthorizeRequest :=
  fs ← de_fields_strict ["action"; "run_id"; "subject"; "params_fingerprint"; "params"; "ttl_s"; "metadata"]
         (with_defaults 7 [Null; Null; Null] v);
  match fs with
  | [action; run_id; subject; fpr; params; ttl; metadata] =>
    action ← de_req as_str action; run_id ← de_req as_str run_id; subject ← de_req as_str subject;
    fpr ← de_req as_str fpr; params ← de_option de_btreemap params; ttl ← de_option as_i64 ttl;
    metadata ← de_option de_btreemap metadata;
    Some {| rq_action := action; rq_run_id := run_id; rq_subject := subject; rq_params_fingerprint := fpr;
            rq_params := params; rq_ttl_s := ttl; rq_metadata := metadata |}
  | _ => None
  end.

Definition authorize_response_members (r : AuthorizeResponse) : list (string * Value) :=
  [("ok", Bool (ar_ok r)); ("token", Str (ar_token r)); ("token_sha256", Str (ar_token_sha256 r));
   ("claims", btree_to_value (ar_claims r))].

Definition decision_response_members (r : SignedDecisionResponse) : list (string * Value) :=
  [("ok", Bool (sd_ok r)); ("item_id", Str (sd_item_id r)); ("decision", Str (sd_decision r));
   ("token", Str (sd_token r)); ("token_sha256", Str (sd_token_sha256 r));
   ("claims", btree_to_value (sd_claims r))].

Definition health_members (r : HealthResponse) : list (string * Value) :=
  [("ok", Bool (h_ok r)); ("version", Str (h_version r)); ("uptime_s", json_f64 (h_uptime_s r))].

Definition public_key_members (r : PublicKeyResponse) : list (string * Value) :=
  [("ok", Bool (pk_ok r)); ("algorithm", Str (pk_algorithm r)); ("public_key_b64", Str (pk_public_key_b64 r));
   ("public_key_fingerprint", Str (pk_public_key_fingerprint r))].

(** ** The meta handlers *)

Definition health_handler (build_version : string) (started now : f64) : HealthResponse :=
  {| h_ok := true; h_version := build_version; h_uptime_s := f64_max (f64_sub now started) (f64_of_Z 0) |}.

Definition public_key_handler (public_key_b64 public_key_fingerprint : string) : PublicKeyResponse :=
  {| pk_ok := true; pk_algorithm := "Ed25519"; pk_public_key_b64 := public_key_b64;
     pk_public_key_fingerprint := public_key_fingerprint |}.

(** ** The dispatcher's client *)

Inductive SafetyKernelError :=
| PolicyRejected (status_code : N) (detail : string)
| SKUnreachable (detail : string)
| SKMalformedResponse (detail : string).

Record AuthorizeClaimsRequest := {
  cr_action : string;
  cr_run_id : string;
  cr_subject : string;
  cr_params_fingerprint : string;
  cr_params : option ClaimsMap;
  cr_ttl_s : option Z
}.

Record AuthorizeOutcome := {
  oc_ok : bool;
  oc_token : string;
  oc_token_sha256 : string;
  oc_claims : ClaimsMap
}.

Definition DEFAULT_TIMEOUT_MS : N := 5000.
Definition DEFAULT_BASE_URL : string := "http://localhost:9000".

Record ReqwestSafetyKernelConfig := { sk_base_url : string; sk_api_key : string; sk_timeout_ms : N }.

Definition sk_config_default : ReqwestSafetyKernelConfig :=
  {| sk_base_url := DEFAULT_BASE_URL; sk_api_key := ""; sk_timeout_ms := DEFAULT_TIMEOUT_MS |}.

Definition sk_config_from_env (env : Env) : option ReqwestSafetyKernelConfig :=
  key ← env "QORCH_KERNEL_API_KEY_WORKER";
  if is_empty key then None else
  Some {| sk_base_url := default DEFAULT_BASE_URL (env "QORCH_SAFETY_KERNEL_URL"); sk_api_key := key;
          sk_timeout_ms := default DEFAULT_TIMEOUT_MS (env "QORCH_SAFETY_KERNEL_TIMEOUT_MS" ≫= parse_u64) |}.

(** Absent members are skipped. *)
Definition claims_request_members (r : AuthorizeClaimsRequest) : list (string * Value) :=
  [("action", Str (cr_action r)); ("run_id", Str (cr_run_id r)); ("subject", Str (cr_subject r));
   ("params_fingerprint", Str (cr_params_fingerprint r))] ++
  match cr_params r with Some m => [("params", btree_to_value m)] | None => [] end ++
  match cr_ttl_s r with Some t => [("ttl_s", i64_value t)] | None => [] end.

Definition de_outcome (v : Value) : option AuthorizeOutcome :=
  fs ← de_fields ["ok"; "token"; "token_sha256"; "claims"] v;
  match fs with
  | [ok; token; sha; claims] =>
    ok ← de_req as_bool ok; token ← de_req as_str token; sha ← de_req as_str sha;
    claims ← de_req de_btreemap claims;
    Some {| oc_ok := ok; oc_token := token; oc_token_sha256 := sha; oc_claims := claims |}
  | _ => None
  end.

(** [ErrorResponseBody]: detail and reason. *)
Definition de_error_body (v : Value) : option (option string * option string) :=
  fs ← de_fields ["detail"; "reason"] (with_defaults 2 [Null; Null] v);
  match fs with
  | [detail; reason] => detail ← de_opt_str detail; reason ← de_opt_str reason; Some (detail, reason)
  | _ => None
  end.

Definition is_client_error (s : N) : bool := ((400 <=? s) && (s <? 500))%N.

Section Dispatch.
Context `{Reqwest}.

Definition dispatch_request (cfg : ReqwestSafetyKernelConfig) (claims : AuthorizeClaimsRequest) : HttpRequest :=
  {| url := trim_end_matches "/"%char (sk_base_url cfg) +:+ "/kernel/v1/authorize";
     headers := [("x-api-key", sk_api_key cfg)]; query := []; json := Some (Obj (claims_request_members claims)) |}.

Definition rejection_detail (resp : Response) : string :=
  let (detail, reason) := match read_json de_error_body resp with inr b => b | inl _ => (None, None) end in
  match reason, detail with
  | Some s, _ | None, Some s => s
  | None, None => "HTTP " +:+ u64_to_string (status resp)
  end.

Definition dispatch_authorize (cfg : ReqwestSafetyKernelConfig) (send : Send) (claims : AuthorizeClaimsRequest)
    : SafetyKernelError + AuthorizeOutcome :=
  match send (dispatch_request cfg claims) with
  | inl e => inl (SKUnreachable (truncate e 300))
  | inr resp =>
    if is_success (status resp) then
      match read_json de_outcome resp with
      | inl e => inl (SKMalformedResponse (truncate e 300))
      | inr o => inr o
      end
    else if is_client_error (status resp)
    then inl (PolicyRejected (status resp) (truncate (rejection_detail resp) 300))
    else inl (SKUnreachable ("unexpected status " +:+ u64_to_string (status resp)))
  end.

End Dispatch.

Section AuthorizeHttp.
Context `{Sha256} `{Ed25519} `{Hex} `{B64Url} `{SerdeJson} `{Reqwest} `{Axum}.
Context {P T : Type} `{PolicyEngine P} `{TlogClient T}.

(** ** The route *)

Definition aresponse (r : AResponse) : Response :=
  match r with
  | ADeny status b => json_response status (kernel_error_value b)
  | AJson status v => json_response status v
  | ASigned r => json_response 200 (Obj (authorize_response_members r))
  | ADecision r => json_response 200 (Obj (decision_response_members r))
  end.

Definition authorize_service (auth : AuthSettings) (acfg : AuthorizeConfig) (s : Reading) (req : HttpRequest)
    : prog (AWorld P T) Empty_set Response :=
  protected_route auth "/kernel/v1/authorize"
    (fun role req => match json_body de_authorize_request req with inr b => inr (role, b) | inl e => inl e end)
    (fun rb => prog_map aresponse (authorize acfg (fst rb) (snd rb) s)) req.

(** ** The answers read *)

Context `{!Ed25519Correct} `{!HexCorrect} `{!B64UrlCorrect} `{!SerdeJsonCorrect} `{!PolicyEngineTotal P}.

Definition body_ok (b : AuthorizeRequest) : Prop :=
  utf8 (rq_action b) = true /\ utf8 (rq_run_id b) = true /\ utf8 (rq_params_fingerprint b) = true.

Definition issued_ok (r : AuthorizeResponse) : Prop :=
  utf8 (ar_token r) = true /\ utf8 (ar_token_sha256 r) = true /\ value_ok (Obj (ar_claims r)) /\
  (depth (Obj (ar_claims r)) <= 126)%nat.

Lemma issued_claims_ok acfg caller body s :
  eligible caller body -> body_ok body -> all_plain (s_nonce s) = true ->
  value_ok (Obj (to_btreemap (issued_claims acfg caller body s))) /\
  (depth (Obj (to_btreemap (issued_claims acfg caller body s))) <= 126)%nat.
Proof.
  intros [Hc _] (Ha & Hr & Hf) Hn. split.
  - apply authorize_claims_ok; try done; [by destruct Hc as [->|[-> _]]|by apply plain_utf8].
  - rewrite authorize_map. simpl. rewrite !depth_json_f64. simpl. lia.
Qed.

Lemma issued_response_ok acfg caller body s :
  eligible caller body -> body_ok body -> all_plain (s_nonce s) = true ->
  issued_ok (issued_response acfg caller body s).
Proof.
  intros He Hb Hn. destruct (issued_claims_ok acfg _ _ _ He Hb Hn).
  split_and!; [by apply plain_utf8, token_plain|apply plain_utf8, hex_plain|done..].
Qed.

Lemma issued_members_ok r : issued_ok r -> members_ok (authorize_response_members r).
Proof.
  intros (Ht & Hs & Hc & Hd). unfold authorize_response_members. rewrite (proj1 (claims_roundtrip _ Hc)).
  members. simpl in Hd |- *. lia.
Qed.

Lemma read_issued_token status r :
  issued_ok r ->
  read_json de_authorize_response (json_response status (Obj (authorize_response_members r))) =
  inr {| claims_hint := None; rs_token := ar_token r |}.
Proof. intros Hr. apply read_json_response; [by apply issued_members_ok|by destruct r]. Qed.

Lemma read_outcome status r :
  issued_ok r ->
  read_json de_outcome (json_response status (Obj (authorize_response_members r))) =
  inr {| oc_ok := ar_ok r; oc_token := ar_token r; oc_token_sha256 := ar_token_sha256 r;
         oc_claims := ar_claims r |}.
Proof.
  intros Hr. apply read_json_response; [by apply issued_members_ok|].
  destruct Hr as (_ & _ & Hc & _). destruct (claims_roundtrip _ Hc) as [Hb E].
  unfold authorize_response_members. rewrite Hb. destruct r as [ok tok sha claims]. cbn [ar_claims] in E.
  transitivity (c ← de_btreemap (Obj claims);
    Some {| oc_ok := ok; oc_token := tok; oc_token_sha256 := sha; oc_claims := c |});
    [reflexivity|by rewrite E].
Qed.

(** ** The SDK in front of the kernel *)

(** The request as the kernel reads it. *)
Definition kernel_body (r : Client.AuthorizeRequest) : AuthorizeRequest :=
  {| rq_action := Client.rq_action r; rq_run_id := Client.rq_run_id r; rq_subject := Client.rq_subject r;
     rq_params_fingerprint := Client.rq_params_fingerprint r; rq_params := None; rq_ttl_s := None;
     rq_metadata := None |}.

Lemma de_authorize_body r : de_authorize_request (authorize_body r) = Some (kernel_body r).
Proof. by destruct r. Qed.

Lemma authorize_body_ok r :
  body_ok (kernel_body r) -> utf8 (Client.rq_subject r) = true -> json_ok (authorize_body r).
Proof. intros (Ha & Hr & Hf) Hs. cbn in Ha, Hr, Hf. split; [unfold authorize_body; obj_ok|simpl; lia]. Qed.

(** C29.  An allow is the kernel's own decision: when the SDK's call is let through and
    reaches the kernel under some role, whatever else the kernel does meanwhile, the
    handler is asked exactly the SDK's question.  If it signs, the request was
    eligible, and the SDK answers with the very token and claims issued, as long as
    they are valid at the SDK's clock under the pinned key -- otherwise with a
    verification error; if it refuses, the SDK answers with a denial that carries
    the kernel's envelope.  There is no other case. *)
Theorem sdk_allow_is_the_kernels_decision env auth acfg cfg send now r c s hs role (w : AWorld P T) answer w' :
  let body := kernel_body r in
  let req := authorize_request cfg hs r in
  body_ok body -> utf8 (Client.rq_subject r) = true -> all_plain (s_nonce s) = true ->
  fst (before_call (breaker_config cfg) (t_gate now) (breaker c)) = Ok tt ->
  build_headers cfg (rq_traceparent r) = Ok hs ->
  auth_layer auth "/kernel/v1/authorize" (Some (api_key cfg)) = CallerRole role ->
  pinned_verifying_key (verifier cfg) = verifying_key (a_signing_key acfg) ->
  exec env (authorize_service auth acfg s req) w answer w' -> send req = delivered answer ->
  exists a, exec env (authorize acfg role body s) w (Ok a) w' /\
    let valid i := claims_valid (ar_claims i) (t_verify now) (leeway_seconds (verifier cfg)) None in
    match a, fst (Client.authorize cfg send now r c) with
    | ASigned i, Ok (Allow token claims) =>
        eligible role body /\ i = issued_response acfg role body s /\
        token = ar_token i /\ vc_claims claims = ar_claims i /\ valid i
    | ASigned i, Err (Verification _) => eligible role body /\ ~ valid i
    | ADeny status b, Ok (Deny reason) => status = 403%N /\ reason = serde_to_string (kernel_error_value b)
    | _, _ => False
    end.
Proof.
  cbv zeta. intros Hb Hsub Hn Hg Hh Hauth Hpin Hx Hsend. unfold authorize_service in Hx.
  rewrite (protected_route_admitted _ _ _ _ _ (api_key cfg) role (role, kernel_body r)) in Hx;
    [|by eapply sdk_header|done|].
  2: { by rewrite (json_body_sent _ _ (authorize_body r) (kernel_body r))
         by (done || apply de_authorize_body || by apply authorize_body_ok). }
  apply exec_map_inv in Hx as (r0 & Hx & ->). cbn [fst snd] in Hx.
  pose proof (authorize_answers _ _ _ _ _ _ _ _ Hx) as (a & -> & Ha). exists a. split; [done|].
  cbn [delivered res_map res_bind] in Hsend. rewrite (authorize_answered _ _ _ _ _ _ _ Hg Hh Hsend).
  destruct a as [status b|status v|i|d]; cbn [aresponse json_response Client.status Client.text].
  - destruct Ha as [-> _]. done.
  - destruct Ha as (_ & _ & t & Ht & _). done.
  - destruct Ha as (He & -> & _). cbn -[json_response read_json].
    pose proof (issued_response_ok acfg _ _ s He Hb Hn) as Hi. rewrite read_issued_token by done.
    cbn [rs_token ar_token issued_response ar_claims]. unfold pinned_verify, issued_token. rewrite Hpin.
    destruct (issued_claims_ok acfg _ _ s He Hb Hn). rewrite verify_signed by (done || lia).
    destruct (check_claims _ _ _ _) as [[]|e|] eqn:Hc; simpl.
    + by apply check_claims_iff in Hc.
    + split; [done|]. intros Hv%check_claims_iff. discriminate (eq_trans (eq_sym Hc) Hv).
    + by apply check_claims_total in Hc.
  - done.
Qed.

(** ** The dispatcher in front of the kernel *)

Definition dispatched_body (r : AuthorizeClaimsRequest) : AuthorizeRequest :=
  {| rq_action := cr_action r; rq_run_id := cr_run_id r; rq_subject := cr_subject r;
     rq_params_fingerprint := cr_params_fingerprint r; rq_params := cr_params r; rq_ttl_s := cr_ttl_s r;
     rq_metadata := None |}.

Definition dispatch_ok (r : AuthorizeClaimsRequest) : Prop :=
  body_ok (dispatched_body r) /\ utf8 (cr_subject r) = true /\
  (forall m, cr_params r = Some m -> value_ok (Obj m) /\ (depth (Obj m) <= 126)%nat) /\
  (forall t, cr_ttl_s r = Some t -> (- 2 ^ 63 <= t < 2 ^ 63)%Z).

Lemma i64_value_read t : (- 2 ^ 63 <= t < 2 ^ 63)%Z ->
  value_ok (i64_value t) /\ as_i64 (i64_value t) = Some t.
Proof.
  intros Ht. unfold i64_value. destruct (Z.ltb_spec t 0).
  - simpl. split; [lia|done].
  - simpl. split; [unfold u64_ok, u64_max; lia|].
    destruct (N.leb_spec (Z.to_N t) 9223372036854775807); [|lia]. by rewrite Z2N.id.
Qed.

(** The optional members, read from what was written of them. *)
Lemma de_claims_request r :
  de_authorize_request (jobj (claims_request_members r)) =
  (params ← de_option de_btreemap (btree_to_value <$> cr_params r);
   ttl ← de_option as_i64 (i64_value <$> cr_ttl_s r);
   Some {| rq_action := cr_action r; rq_run_id := cr_run_id r; rq_subject := cr_subject r;
           rq_params_fingerprint := cr_params_fingerprint r; rq_params := params; rq_ttl_s := ttl;
           rq_metadata := None |}).
Proof. destruct r as [action run_id subject fpr [m|] [t|]]; reflexivity. Qed.

Lemma de_params (o : option ClaimsMap) :
  (forall m, o = Some m -> value_ok (Obj m)) -> de_option de_btreemap (btree_to_value <$> o) = Some o.
Proof.
  destruct o as [m|]; [|done]. intros Hp. destruct (claims_roundtrip _ (Hp _ eq_refl)) as [Hb E].
  cbn -[de_btreemap]. by rewrite Hb, E.
Qed.

Lemma de_ttl (o : option Z) :
  (forall t, o = Some t -> (- 2 ^ 63 <= t < 2 ^ 63)%Z) -> de_option as_i64 (i64_value <$> o) = Some o.
Proof.
  destruct o as [t|]; [|done]. intros Ht. destruct (i64_value_read _ (Ht _ eq_refl)) as [_ E].
  cbn -[as_i64 i64_value]. unfold i64_value in *. by rewrite E.
Qed.

Lemma claims_request_ok r :
  dispatch_ok r ->
  members_ok (claims_request_members r) /\
  de_authorize_request (jobj (claims_request_members r)) = Some (dispatched_body r).
Proof.
  intros ((Ha & Hr & Hf) & Hs & Hp & Ht). cbn in Ha, Hr, Hf. split.
  - unfold claims_request_members. destruct (cr_params r) as [m|].
    + destruct (Hp _ eq_refl) as [Hm Hd]. rewrite (proj1 (claims_roundtrip _ Hm)).
      destruct (cr_ttl_s r) as [t|]; [destruct (i64_value_read _ (Ht _ eq_refl))|];
        members; simpl in Hd |- *; lia.
    + destruct (cr_ttl_s r) as [t|]; [destruct (i64_value_read _ (Ht _ eq_refl))|]; members; simpl; lia.
  - rewrite de_claims_request, de_params, de_ttl by (done || intros m Hm; by apply (Hp m Hm)). done.
Qed.

(** The dispatcher is told the decision, and degrades only without one: over a network
    that delivers, what the kernel signs is the outcome, whole, and every refusal of
    the handler is a policy rejection with its status, never an unreachable kernel. *)
Theorem dispatch_reports_the_decision env auth acfg cfg send r s role (w : AWorld P T) answer w' :
  let body := dispatched_body r in
  let req := dispatch_request cfg r in
  dispatch_ok r -> all_plain (s_nonce s) = true ->
  auth_layer auth "/kernel/v1/authorize" (Some (sk_api_key cfg)) = CallerRole role ->
  exec env (authorize_service auth acfg s req) w answer w' -> send req = delivered answer ->
  exists a, exec env (authorize acfg role body s) w (Ok a) w' /\
    match a, dispatch_authorize cfg send r with
    | ASigned i, inr o =>
        eligible role body /\ i = issued_response acfg role body s /\
        o = {| oc_ok := true; oc_token := ar_token i; oc_token_sha256 := ar_token_sha256 i;
               oc_claims := ar_claims i |}
    | ADeny status _, inl (PolicyRejected code _) => status = 403%N /\ code = 403%N
    | AJson status _, inl (PolicyRejected code _) => status = 422%N /\ code = 422%N
    | _, _ => False
    end.
Proof.
  cbv zeta. intros Hok Hn Hauth Hx Hsend. destruct (claims_request_ok _ Hok) as [Hm Hd].
  unfold authorize_service in Hx.
  rewrite (protected_route_admitted _ _ _ _ _ (sk_api_key cfg) role (role, dispatched_body r)) in Hx;
    [|done|done|by rewrite (json_struct_sent _ _ (claims_request_members r) (dispatched_body r))].
  apply exec_map_inv in Hx as (r0 & Hx & ->). cbn [fst snd] in Hx.
  pose proof (authorize_answers _ _ _ _ _ _ _ _ Hx) as (a & -> & Ha). exists a. split; [done|].
  cbn [delivered res_map res_bind] in Hsend. unfold dispatch_authorize. rewrite Hsend.
  destruct a as [status b|status v|i|d]; cbn [aresponse json_response Client.status].
  - by destruct Ha as [-> _].
  - by destruct Ha as [-> _].
  - destruct Ha as (He & -> & _). cbn -[json_response read_json].
    by rewrite read_outcome by by apply issued_response_ok; [|apply Hok|].
  - done.
Qed.

(** ** The meta routes read by the SDK *)

Lemma health_reported version started now :
  utf8 version = true -> f64_is_finite (f64_max (f64_sub now started) (f64_of_Z 0)) = true ->
  read_json de_health_response (json_response 200 (Obj (health_members (health_handler version started now)))) =
  inr (health_handler version started now).
Proof.
  intros Hv Hf. apply read_json_response.
  - members. simpl. rewrite depth_json_f64. lia.
  - unfold health_members, health_handler. cbn [h_ok h_version h_uptime_s].
    transitivity (u ← as_f64 (json_f64 (f64_max (f64_sub now started) (f64_of_Z 0)));
      Some {| h_ok := true; h_uptime_s := u; h_version := version |}); [reflexivity|].
    by rewrite json_f64_finite.
Qed.

Lemma public_key_reported key fpr :
  utf8 key = true -> utf8 fpr = true ->
  read_json de_public_key_response (json_response 200 (Obj (public_key_members (public_key_handler key fpr)))) =
  inr (public_key_handler key fpr).
Proof. intros Hk Hf. apply read_json_response; [members; simpl; lia|done]. Qed.

End AuthorizeHttp.

(** ** Witnesses *)

Module Demo.
Import KernelAuthorize.Demo.
#[local] Existing Instance demo_ed25519.
#[local] Existing Instance demo_hex.
#[local] Existing Instance demo_b64.
#[local] Existing Instance DemoJson.demo_serde.
#[local] Existing Instance sha.
#[local] Existing Instance one_subject.
#[local] Existing Instance one_subject_total.
#[local] Existing Instance accepting_log.
#[local] Existing Instance Client.Demo.reqwest.
#[local] Existing Instance TlogClient.Demo.axum.

Definition auth : AuthSettings := {|
  auth_mode := "api_key"; env := "dev"; api_key_worker := Some "w"; api_key_api := Some "k";
  api_key_operator := Some "o"; api_key_reaper := None |}.

(** An SDK pinned to the kernel's key, under the API's key. *)
Definition sdk : ClientConfig := {|
  base_url := "https://kernel/"; api_key := "k"; breaker_config := CircuitConfig_default;
  verifier := {| pinned_verifying_key := verifying_key (a_signing_key cfg); fingerprint := "";
                 leeway_seconds := f64_of_Z 5 |} |}.

Definition question : Client.AuthorizeRequest := {|
  Client.rq_action := "POST:/api/v1/runs"; Client.rq_params_fingerprint := "ab12";
  Client.rq_run_id := "run-1"; Client.rq_subject := "someone"; Client.rq_traceparent := None |}.

Definition sent : HttpRequest := authorize_request sdk [("x-api-key", "k")] question.
Definition answer := fst (run (authorize_service auth cfg reading sent) world).
Definition idle : bool -> AWorld string unit -> AWorld string unit -> Prop := fun _ _ _ => True.

Lemma sdk_allow_is_the_kernels_decision_witness : exists i claims,
  fst (Client.authorize sdk (fun _ => delivered answer) (Client.Demo.at_time 1010) question Client.client_new) =
    Ok (Allow (ar_token i) claims) /\
  i = issued_response cfg "api" (kernel_body question) reading /\ vc_claims claims = ar_claims i.
Proof.
  destruct (sdk_allow_is_the_kernels_decision idle auth cfg sdk (fun _ => delivered answer)
    (Client.Demo.at_time 1010) question Client.client_new reading [("x-api-key", "k")] "api" world answer _
    ltac:(by split_and!) ltac:(reflexivity) ltac:(reflexivity) ltac:(reflexivity) ltac:(reflexivity)
    ltac:(reflexivity) ltac:(reflexivity)
    (exec_run idle (fun _ _ => I) (authorize_service auth cfg reading sent) world) ltac:(reflexivity))
    as (a & _ & Ha).
  assert (exists token claims,
    fst (Client.authorize sdk (fun _ => delivered answer) (Client.Demo.at_time 1010) question Client.client_new) =
    Ok (Allow token claims)) as (token & claims & Hr) by (do 2 eexists; vm_compute; reflexivity).
  cbv zeta in Ha. rewrite Hr in Ha. destruct a as [st b|st v|i|d]; [destruct Ha..| |destruct Ha].
  destruct Ha as (_ & Hi & -> & Hc & _). exists i, claims. split; [exact Hr|]. split; [exact Hi|exact Hc].
Defined.

Example dispatched : exists o,
  dispatch_authorize {| sk_base_url := "https://kernel"; sk_api_key := "k"; sk_timeout_ms := 1 |}
    (fun req => delivered (fst (run (authorize_service auth cfg reading req) world)))
    {| cr_action := "POST:/api/v1/runs"; cr_run_id := "run-1"; cr_subject := "qorch-ddi-dispatch";
       cr_params_fingerprint := "ab12"; cr_params := None; cr_ttl_s := Some 60%Z |} = inr o /\
  oc_ok o = true.
Proof. eexists. split; vm_compute; reflexivity. Qed.

End Demo.
