(* ===== verification/KernelService.v ===== *)
(** * The kernel as a service

    Models the router of [crates/services/safety-kernel/src/main.rs] with the tables it
    merges ([routes/policy/mod.rs], [routes/revoke.rs]), the request types of [dto.rs]
    and of [crates/domain/src/safety/policy/types.rs] as the routes read them, and the
    state the handlers of [KernelAuthorize], [PolicyRoutes] and [KernelRevoke] share.
    The theorems: what each role can reach ([a_role_does_its_own_only]); the services of
    [AuthorizeHttp] and [RevokeHttp] are this router at their paths; and what a kernel
    with any requests in flight keeps ([running_kernel_keeps_its_queue]). *)

From stdpp Require Import relations.
From S2P Require Import Prelude RustStr Float64 Crates Merkle Json Serde Token CircuitBreaker Client Revoke.
From S2P Require Import Async Pool Auth TlogClient Routing Allowlist PolicyIpc KernelHttp KernelAuthorize.
From S2P Require Import Policy PolicyRoutes KernelRevoke RevokeHttp AuthorizeHttp.

#[local] Open Scope string_scope.

(** ** What the routes read *)

Definition de_approve_request (v : Value) : option ApproveRequest :=
  fs ← de_fields_strict ["approver"; "proposal_fingerprint"; "metadata"] (with_defaults 3 [Null] v);
  match fs with
  | [approver; fpr; metadata] =>
    approver ← de_req as_str approver; fpr ← de_req as_str fpr; metadata ← de_option de_btreemap metadata;
    Some {| av_approver := approver; av_proposal_fingerprint := fpr; av_metadata := metadata |}
  | _ => None
  end.

Definition de_reject_request (v : Value) : option RejectRequest :=
  fs ← de_fields_strict ["approver"; "proposal_fingerprint"; "reason"; "metadata"]
         (with_defaults 4 [Null; Null] v);
  match fs with
  | [approver; fpr; reason; metadata] =>
    approver ← de_req as_str approver; fpr ← de_req as_str fpr; reason ← de_option as_str reason;
    metadata ← de_option de_btreemap metadata;
    Some {| rj_approver := approver; rj_proposal_fingerprint := fpr; rj_reason := reason;
            rj_metadata := metadata |}
  | _ => None
  end.

Definition module_event_names : list (string * ModuleEventKind) :=
  (fun k => (module_event_wire k, k)) <$> [Import; Exec; Compile].
Definition audit_event_names : list (string * AuditEventKind) :=
  (fun k => (audit_event_wire k, k)) <$>
    [HookInstallViolation; SubprocessPropagationFailed; RegistryConsistencyWarning].

Definition de_module_authorize_request (v : Value) : option ModuleAuthorizeRequest :=
  fs ← de_fields_strict ["event_kind"; "module_path"; "caller_subject"; "caller_run_id"; "event_fingerprint";
                         "expected_required_patterns"; "metadata"] (with_defaults 7 [Null; Null] v);
  match fs with
  | [event; path; subject; run_id; fpr; patterns; metadata] =>
    event ← de_req (de_unit_variant module_event_names) event; path ← de_req as_str path;
    subject ← de_req as_str subject; run_id ← de_req as_str run_id; fpr ← de_req as_str fpr;
    patterns ← de_option (de_vec as_str) patterns; metadata ← de_option de_btreemap metadata;
    Some {| mq_event_kind := event; mq_module_path := path; mq_caller_subject := subject;
            mq_caller_run_id := run_id; mq_event_fingerprint := fpr;
            mq_expected_required_patterns := patterns; mq_metadata := metadata |}
  | _ => None
  end.

Definition de_module_register_request (v : Value) : option ModuleRegisterRequest :=
  fs ← de_fields_strict ["module_path"; "required_patterns_regex_set"; "caller_subject"] v;
  match fs with
  | [path; patterns; subject] =>
    path ← de_req as_str path; patterns ← de_req (de_vec as_str) patterns; subject ← de_req as_str subject;
    Some {| gq_module_path := path; gq_required_patterns_regex_set := patterns; gq_caller_subject := subject |}
  | _ => None
  end.

Definition de_module_event_request (v : Value) : option ModuleAuditEventRequest :=
  fs ← de_fields_strict ["event_kind"; "subject"; "metadata"] (with_defaults 3 [Null] v);
  match fs with
  | [event; subject; metadata] =>
    event ← de_req (de_unit_variant audit_event_names) event; subject ← de_req as_str subject;
    metadata ← de_option de_btreemap metadata;
    Some {| eq_event_kind := event; eq_subject := subject; eq_metadata := metadata |}
  | _ => None
  end.

(** ** The table *)

Inductive KernelRoute :=
| KHealth | KPublicKey | KAuthorize | KApprove | KReject
| KPolicyRegister | KPolicyAuthorize | KPolicyAuditEvent | KPolicyStatus
| KRevoke (rt : Route).

Definition policy_router : list (Row KernelRoute) :=
  [Build_Row "/policy/module/register" POST KPolicyRegister;
   Build_Row "/policy/module/authorize" POST KPolicyAuthorize;
   Build_Row "/policy/audit-event" POST KPolicyAuditEvent;
   Build_Row "/policy/module/{module_path}/status" GET KPolicyStatus].

Definition revoke_router : list (Row KernelRoute) :=
  [Build_Row (route_path Compute) POST (KRevoke Compute);
   Build_Row (route_path PendingRoute) GET (KRevoke PendingRoute);
   Build_Row (route_path AckRoute) POST (KRevoke AckRoute);
   Build_Row (route_path RestoreRoute) POST (KRevoke RestoreRoute)].

Definition kernel_routes : list (Row KernelRoute) :=
  [Build_Row "/health" GET KHealth;
   Build_Row "/kernel/v1/health" GET KHealth;
   Build_Row "/kernel/v1/public_key" GET KPublicKey;
   Build_Row "/kernel/v1/authorize" POST KAuthorize;
   Build_Row "/kernel/v1/approvals/{item_id}/approve" POST KApprove;
   Build_Row "/kernel/v1/approvals/{item_id}/reject" POST KReject] ++
  policy_router ++ revoke_router.

Definition MAX_BODY_BYTES : N := 1024 * 1024.

(** ** State *)

(** The part of [AppState] and of the module-level stores that changes. *)
Record KernelWorld (P T : Type) := {
  kw_policy : P;
  kw_transparency : option T;
  kw_audits : list AuditAppendRequest;
  kw_pending : PendingStore;
  kw_generations : InMemoryGrantGenerationStore
}.
Arguments kw_policy {P T}.
Arguments kw_transparency {P T}.
Arguments kw_audits {P T}.
Arguments kw_pending {P T}.
Arguments kw_generations {P T}.
Arguments Build_KernelWorld {P T}.

(** The fixed part. *)
Record KernelApp `{Ed25519} := {
  ka_auth : AuthSettings;
  ka_authorize : AuthorizeConfig;
  ka_policy : PolicyConfig;
  ka_revoke : KernelConfig;
  ka_started_at : f64;
  ka_public_key_b64 : string
}.

(** What one request reads from the clock and the sources of randomness. *)
Record KernelReading := { kr_reading : Reading; kr_stamp : Stamp }.

Section KernelService.
Context `{Sha256} `{Ed25519} `{Hex} `{B64Url} `{SerdeJson} `{Reqwest} `{Axum} `{AxumRouting} `{!AxumQuery}.
Context `{RegexCrate}.
Context {P T : Type} `{PolicyEngine P} `{TlogClient T}.

Abbreviation WorldT := (KernelWorld P T).

Definition authorize_part (w : WorldT) : AWorld P T :=
  Build_AWorld (kw_policy w) (kw_transparency w) (kw_audits w).
Definition set_authorize_part (v : AWorld P T) (w : WorldT) : WorldT :=
  Build_KernelWorld (policy v) (transparency_client v) (KernelAuthorize.audits v)
    (kw_pending w) (kw_generations w).

(** The audit records of the revoke handlers go to the policy engine as well. *)
Definition engine_audits (before after : list AuditAppendRequest) (p : P) : P :=
  foldl (fun p a => snd (pe_audit_append a p)) p (drop (length before) after).

Definition revoke_part (w : WorldT) : KWorld T :=
  Build_KWorld (kw_pending w) (kw_generations w) (kw_transparency w) (kw_audits w).
Definition set_revoke_part (v : KWorld T) (w : WorldT) : WorldT :=
  Build_KernelWorld (engine_audits (kw_audits w) (KernelRevoke.audits v) (kw_policy w))
    (transparency v) (KernelRevoke.audits v) (PENDING v) (GENERATIONS v).

Lemma authorize_part_set v w : authorize_part (set_authorize_part v w) = v.
Proof. by destruct v. Qed.

Lemma revoke_part_set v w : revoke_part (set_revoke_part v w) = v.
Proof. by destruct v. Qed.

(** ** The router *)

Definition presponse (r : PResponse) : Response :=
  match r with
  | PDeny st b => json_response st (kernel_error_value b)
  | PJson st v => json_response st v
  end.

Abbreviation handler := (prog WorldT Empty_set Response).

Definition answer (r : Response) : handler := Done (Ok r).

(** [Extension<CallerRole>]. *)
Definition with_role (role : option string) (k : string -> handler) : handler :=
  match role with
  | Some caller => k caller
  | None =>
    answer (text_response 500 "Missing request extension: Extension of type `CallerRole` was not found")
  end.

Definition with_param (params : list (option string)) (k : string -> handler) : handler :=
  match params with
  | [Some s] => k s
  | _ => let (st, msg) := path_rejection params in answer (text_response st msg)
  end.

Definition with_extract {A} (e : N * string + A) (k : A -> handler) : handler :=
  match e with inr a => k a | inl (st, msg) => answer (text_response st msg) end.

Definition on_authorize {A} (f : A -> Response) (p : prog (AWorld P T) Empty_set A) : handler :=
  prog_zoom authorize_part set_authorize_part (prog_map f p).
Definition on_revoke {A} (f : A -> Response) (p : prog (KWorld T) Empty_set A) : handler :=
  prog_zoom revoke_part set_revoke_part (prog_map f p).

Definition kernel_handler (app : KernelApp) (rd : KernelReading) (role : option string) (req : HttpRequest)
    (rt : KernelRoute) (params : list (option string)) : handler :=
  let s := kr_reading rd in
  match rt with
  | KHealth =>
    answer (json_response 200 (Obj (health_members
      (health_handler (build_version (ka_policy app)) (ka_started_at app) (s_now s)))))
  | KPublicKey =>
    answer (json_response 200 (Obj (public_key_members
      (public_key_handler (ka_public_key_b64 app) (PolicyRoutes.public_key_fingerprint (ka_policy app))))))
  | KAuthorize =>
    with_role role (fun caller => with_extract (json_body de_authorize_request req) (fun body =>
    on_authorize aresponse (KernelAuthorize.authorize (ka_authorize app) caller body s)))
  | KApprove =>
    with_role role (fun caller => with_param params (fun item_id =>
    with_extract (json_body de_approve_request req) (fun body =>
    on_authorize aresponse (approve (ka_authorize app) caller item_id body s))))
  | KReject =>
    with_role role (fun caller => with_param params (fun item_id =>
    with_extract (json_body de_reject_request req) (fun body =>
    on_authorize aresponse (reject (ka_authorize app) caller item_id body s))))
  | KPolicyRegister =>
    with_role role (fun caller => with_extract (json_body de_module_register_request req) (fun body =>
    on_authorize presponse (register (ka_policy app) caller body s)))
  | KPolicyAuthorize =>
    with_role role (fun caller => with_extract (json_body de_module_authorize_request req) (fun body =>
    on_authorize presponse (module_authorize (ka_policy app) caller body s)))
  | KPolicyAuditEvent =>
    with_role role (fun caller => with_extract (json_body de_module_event_request req) (fun body =>
    on_authorize presponse (audit_event caller body s)))
  | KPolicyStatus =>
    with_role role (fun caller => with_param params (fun module_path =>
    on_authorize presponse (PolicyRoutes.status caller module_path)))
  | KRevoke rt =>
    with_role role (fun caller => with_extract (RevokeHttp.extract rt (kr_stamp rd) caller req) (fun rq =>
    on_revoke kresponse (serve (ka_revoke app) rq)))
  end.

(** [Router::new()...layer(..)]. *)
Definition serve_kernel (app : KernelApp) (rd : KernelReading) (inc : Incoming) : handler :=
  let req := in_http inc in
  let routed role :=
    limited MAX_BODY_BYTES req (served kernel_routes (kernel_handler app rd role req) inc) in
  match auth_layer (ka_auth app) (in_path inc) (request_header req "x-api-key") with
  | PublicPath => routed None
  | Denied st b => answer (json_response st (kernel_error_value b))
  | CallerRole role => routed (Some role)
  end.

End KernelService.

(** ** Which role reaches which route *)

Definition role_reaches (rt : KernelRoute) (role : string) : bool :=
  match rt with
  | KHealth | KPublicKey => true
  | KAuthorize => String.eqb role "worker" || String.eqb role "api"
  | KPolicyRegister | KPolicyAuthorize | KPolicyAuditEvent => String.eqb role "worker"
  | KPolicyStatus => String.eqb role "worker" || String.eqb role "operator"
  | KApprove | KReject | KRevoke Compute | KRevoke RestoreRoute => String.eqb role "operator"
  | KRevoke PendingRoute | KRevoke AckRoute => String.eqb role "reaper" || String.eqb role "operator"
  end.

Lemma kernel_routes_unambiguous : unambiguous (pattern <$> kernel_routes) = true.
Proof. vm_compute. reflexivity. Qed.

(** The caller presents the key of [role]. *)
Definition holds_key (s : AuthSettings) (inc : Incoming) (role : string) : Prop :=
  exists key, request_header (in_http inc) "x-api-key" = Some key /\ key <> "" /\ role_key s role = Some key.

Section KernelTable.
Context `{AxumRoutingLaws}.

Lemma kernel_route_fixed i path m rt :
  kernel_routes !! i = Some (Build_Row path m rt) -> path_captures path path = Some [] ->
  forall m', dispatch kernel_routes m' path = if answers_method m m' then Routed rt [] else WrongMethod.
Proof. intros Hi Hc m'. by rewrite (dispatch_row _ m' path _ _ [] kernel_routes_unambiguous Hi Hc). Qed.

(** The routes whose handlers take no role are the public paths, and the other way round. *)
Lemma kernel_public_route m path rt params :
  dispatch kernel_routes m path = Routed rt params ->
  kernel_is_public_path path = true <-> rt = KHealth \/ rt = KPublicKey.
Proof.
  intros Hd. split.
  - unfold kernel_is_public_path. intros [[Hp|Hp]%orb_true_iff|Hp]%orb_true_iff; apply String.eqb_eq in Hp as ->.
    + rewrite (kernel_route_fixed 0 _ GET KHealth) in Hd by done. destruct (answers_method _ _); simplify_eq. by left.
    + rewrite (kernel_route_fixed 1 _ GET KHealth) in Hd by done. destruct (answers_method _ _); simplify_eq. by left.
    + rewrite (kernel_route_fixed 2 _ GET KPublicKey) in Hd by done. destruct (answers_method _ _); simplify_eq. by right.
  - apply dispatch_inv in Hd as (row & caps & Hrow & <- & _ & Hc & _). intros Hrt.
    assert (kernel_is_public_path (pattern row) = true /\ forallb is_fixed (Routing.segments (pattern row)) = true) as [Hp Hf].
    { unfold kernel_routes, policy_router, revoke_router in Hrow. simpl in Hrow.
      rewrite !elem_of_cons, elem_of_nil in Hrow.
      repeat destruct Hrow as [->|Hrow]; simpl in *; try done; by destruct Hrt. }
    by apply path_captures_fixed in Hc as [-> _].
Qed.

Lemma kernel_route_revoke rt :
  dispatch kernel_routes (match rt with PendingRoute => GET | _ => POST end) (route_path rt) =
    Routed (KRevoke rt) [].
Proof.
  destruct rt; simpl.
  - by rewrite (kernel_route_fixed 10 _ POST (KRevoke Compute)).
  - by rewrite (kernel_route_fixed 11 _ GET (KRevoke PendingRoute)).
  - by rewrite (kernel_route_fixed 12 _ POST (KRevoke AckRoute)).
  - by rewrite (kernel_route_fixed 13 _ POST (KRevoke RestoreRoute)).
Qed.

Lemma kernel_route_authorize : dispatch kernel_routes POST "/kernel/v1/authorize" = Routed KAuthorize [].
Proof. by rewrite (kernel_route_fixed 3 _ POST KAuthorize). Qed.

End KernelTable.

Section Roles.
Context `{Sha256} `{Ed25519} `{Hex} `{B64Url} `{SerdeJson} `{Reqwest} `{Axum} `{AxumRoutingLaws} `{!AxumQuery}.
Context `{RegexCrate}.
Context {P T : Type} `{PolicyEngine P} `{TlogClient T}.

Abbreviation WorldT := (KernelWorld P T).

Lemma admitted_role s inc role :
  auth_layer s (in_path inc) (request_header (in_http inc) "x-api-key") = CallerRole role ->
  kernel_is_public_path (in_path inc) = false /\ holds_key s inc role.
Proof.
  intros Ha. pose proof (roles_are_earned s (in_path inc) (request_header (in_http inc) "x-api-key")) as Hr.
  rewrite Ha in Hr. destruct Hr as (Hp & _ & key & Hk & Hne & Hrk & _). split; [done|]. by exists key.
Qed.

(** An answer that refuses: an error of the layer or of a role check, a rejection of the
    framework, or the body limit. *)
Definition refused (inc : Incoming) (resp : Response) : Prop :=
  (exists st b, resp = json_response st (kernel_error_value b) /\ st ∈ [401; 403; 503]%N) \/
  (exists st msg, resp = text_response st msg) \/ body_limit MAX_BODY_BYTES (in_http inc) = Some resp.

(** A handler called under a role that does not reach its route refuses before its
    first step. *)
Lemma kernel_handler_refuses app rd role (inc : Incoming) rt params :
  role_reaches rt role = false ->
  exists resp, kernel_handler (P := P) (T := T) app rd (Some role) (in_http inc) rt params = Done (Ok resp) /\
    refused inc resp.
Proof.
  assert (forall st msg, refused inc (text_response st msg)) as Htext by (right; left; eauto).
  assert (forall b, refused inc (json_response 403 (kernel_error_value b))) as H403
    by (left; eexists _, _; split; [done|set_solver]).
  assert (forall A (e : N * string + A) (k : A -> prog WorldT Empty_set Response),
    (forall a, exists resp, k a = Done (Ok resp) /\ refused inc resp) ->
    exists resp, with_extract e k = Done (Ok resp) /\ refused inc resp) as Hextract.
  { intros A [[st msg]|a] k Hk; [by eexists|]. apply Hk. }
  assert (forall (k : string -> prog WorldT Empty_set Response),
    (forall a, exists resp, k a = Done (Ok resp) /\ refused inc resp) ->
    exists resp, with_param params k = Done (Ok resp) /\ refused inc resp) as Hparam.
  { intros k Hk. unfold with_param. destruct (path_rejection params) as [st msg].
    repeat (case_match; try (by eexists)). apply Hk. }
  assert (forall A (e : N * string + A) (q : A -> KernelRevoke.Request) (k : KernelRevoke.Request -> prog WorldT Empty_set Response),
    (forall a, exists resp, k (q a) = Done (Ok resp) /\ refused inc resp) ->
    exists resp, with_extract (match e with inr a => inr (q a) | inl e => inl e end) k = Done (Ok resp) /\
      refused inc resp) as Hread.
  { intros A [[st msg]|a] q k Hk; [by eexists|]. apply Hk. }
  intros Hr. destruct rt as [| | | | | | | | |[]]; cbn [kernel_handler with_role] in *; simpl in Hr; try done;
    rewrite ?orb_false_iff in Hr.
  1-7: repeat (first [apply Hextract | apply Hparam]; intros ?).
  - unfold KernelAuthorize.authorize, refused_at_once. destruct Hr as [-> ->]. eexists. split; [reflexivity|apply H403].
  - unfold approve, sign_decision. rewrite Hr. eexists. split; [reflexivity|apply H403].
  - unfold reject, sign_decision. rewrite Hr. eexists. split; [reflexivity|apply H403].
  - unfold register, register_refused. rewrite Hr. eexists. split; [reflexivity|apply H403].
  - unfold module_authorize, module_refused. rewrite Hr. eexists. split; [reflexivity|apply H403].
  - unfold audit_event. rewrite Hr. eexists. split; [reflexivity|apply H403].
  - unfold PolicyRoutes.status. destruct Hr as [-> ->]. eexists. split; [reflexivity|apply H403].
  - apply Hread. intros b. simpl. unfold mint_revoke. rewrite Hr. eexists. split; [reflexivity|apply H403].
  - unfold RevokeHttp.extract. destruct (query_instance _) as [name|].
    + simpl. unfold pending_revoke, reaper_or_operator. destruct Hr as [-> ->].
      eexists. split; [reflexivity|apply H403].
    + simpl. destruct (query_rejection _). by eexists.
  - apply Hread. intros b. simpl. unfold ack_revoke, reaper_or_operator. destruct Hr as [-> ->].
    eexists. split; [reflexivity|apply H403].
  - apply Hread. intros b. simpl. unfold restore_revoke. rewrite Hr. eexists. split; [reflexivity|apply H403].
Qed.

(** C14.  Each role does its own only: for a request to a route that no role whose key it
    carries may use, the kernel takes no step at all and answers with a refusal, whatever
    the method, the body and the reading of clock and nonce.  Of the fourteen routes only
    the health checks and the public key need no role. *)
Theorem a_role_does_its_own_only app rd inc rt params :
  dispatch kernel_routes (in_method inc) (in_path inc) = Routed rt params -> rt <> KHealth -> rt <> KPublicKey ->
  (forall role, holds_key (ka_auth app) inc role -> role_reaches rt role = false) ->
  exists resp, serve_kernel (P := P) (T := T) app rd inc = Done (Ok resp) /\ refused inc resp.
Proof.
  intros Hd Hh Hpk Hroles. unfold serve_kernel.
  pose proof (roles_are_earned (ka_auth app) (in_path inc) (request_header (in_http inc) "x-api-key")) as Hr.
  destruct (auth_layer _ _ _) as [|st b|role] eqn:Ha.
  - by apply (kernel_public_route _ _ _ _ Hd) in Hr as [->| ->].
  - eexists. split; [done|]. left. exists st, b. split; [done|].
    destruct Hr as (_ & [[-> _]|(-> & _)]); set_solver.
  - apply admitted_role in Ha as [_ Hk]. unfold limited.
    destruct (body_limit _ _) as [resp|] eqn:Hb; [exists resp; split; [done|by right; right]|].
    unfold served. rewrite Hd.
    destruct (kernel_handler_refuses app rd role inc rt params) as (resp & -> & Hresp); [by apply Hroles|].
    destruct (in_method inc); try (by exists resp). simpl. eexists. split; [done|]. right. left. eauto.
Qed.

End Roles.

(** ** The requests of a running kernel *)

Section KernelPool.
Context `{Sha256} `{Ed25519} `{Hex} `{B64Url} `{SerdeJson} `{Reqwest} `{Axum} `{AxumRoutingLaws} `{!AxumQuery}.
Context `{RegexCrate}.
Context {P T : Type} `{PolicyEngine P} `{TlogClient T} `{!TlogLaws T}.

Abbreviation WorldT := (KernelWorld P T).

Definition in_flight (app : KernelApp) (reqs : list (KernelReading * Incoming))
    : list (prog WorldT Empty_set Response) :=
  (fun ri => serve_kernel app (fst ri) (snd ri)) <$> reqs.

(** What a request counts on from the others. *)
Definition others (app : KernelApp) (held : bool) (w w' : WorldT) : Prop :=
  rtc (kstep (ka_revoke app)) (revoke_part w) (revoke_part w').

(** The log is in good order when it is called. *)
Definition log_in_order (w : WorldT) : Prop := log_ok (revoke_part w).

#[export] Instance others_preorder app held : PreOrder (others app held).
Proof.
  split; [intros w; apply rtc_refl|]. intros w1 w2 w3 Ha Hb. unfold others in *. by etrans.
Qed.

(** What the handlers of authorisations, approvals and policy do to the log and to the
    audit records. *)
Inductive authorize_step (v v' : AWorld P T) : Prop :=
| as_engine : transparency_client v' = transparency_client v ->
    KernelAuthorize.audits v' = KernelAuthorize.audits v -> authorize_step v v'
| as_audit a : transparency_client v' = transparency_client v ->
    KernelAuthorize.audits v' = (KernelAuthorize.audits v ++ [a])%list -> authorize_step v v'
| as_tlog t i : transparency_client v = Some t -> transparency_client v' = Some (snd (tlog_append i t)) ->
    KernelAuthorize.audits v' = KernelAuthorize.audits v -> authorize_step v v'.

Lemma authorize_step_others app w v :
  authorize_step (authorize_part w) v -> log_in_order w -> forall held, others app held w (set_authorize_part v w).
Proof.
  unfold others, log_in_order, log_ok. intros Hst Hok held.
  destruct Hst as [Ht Ha|a Ht Ha|t i Ht Ht' Ha]; unfold revoke_part, set_authorize_part; simpl in *; rewrite Ha.
  - rewrite Ht. apply rtc_refl.
  - rewrite Ht. apply rtc_once, (k_audit _ (revoke_part w)).
  - rewrite Ht'. rewrite Ht in Hok |- *.
    apply rtc_once, (k_tlog _ (Build_KWorld (kw_pending w) (kw_generations w) (Some t) (kw_audits w))); done.
Qed.

Lemma audit_steps a : forall v : AWorld P T, authorize_step v (snd (KernelAuthorize.audit a v)).
Proof. intros v. unfold KernelAuthorize.audit. destruct (pe_audit_append a (policy v)). by apply as_audit with a. Qed.

Lemma engine_steps {A} (op : P -> res IpcError A * P) : forall v : AWorld P T, authorize_step v (snd (engine op v)).
Proof. intros v. unfold engine. destruct (op (policy v)). by apply as_engine. Qed.

Lemma ask_steps rq : forall v : AWorld P T, authorize_step v (snd (ask_policy rq v)).
Proof. intros v. unfold ask_policy. destruct (pe_authorize rq (policy v)). by apply as_engine. Qed.

Lemma tlog_steps token t : forall v : AWorld P T, authorize_step v (snd (KernelAuthorize.tlog_step token t v)).
Proof.
  intros v. unfold KernelAuthorize.tlog_step. destruct (transparency_client v) as [l|] eqn:E; [|by apply as_engine].
  match goal with |- context [tlog_append ?i l] =>
    destruct (tlog_append i l) as [r l'] eqn:El; apply as_tlog with l i; [done|by rewrite El|done] end.
Qed.

Ltac kernel_steps :=
  repeat first
    [ done
    | apply audit_steps
    | apply engine_steps
    | apply ask_steps
    | apply tlog_steps
    | progress intros
    | case_match
    | split ].

Lemma authorize_steps cfg caller body s : each_step authorize_step (KernelAuthorize.authorize cfg caller body s).
Proof. unfold KernelAuthorize.authorize, synth_audit_and_deny. kernel_steps. Qed.

Lemma decision_steps cfg caller item d a reason fp md s :
  each_step authorize_step (sign_decision cfg caller item d a reason fp md s).
Proof. unfold sign_decision. kernel_steps. Qed.

Lemma register_steps cfg caller body s : each_step authorize_step (register cfg caller body s).
Proof. unfold register. kernel_steps. Qed.

Lemma module_steps cfg caller body s : each_step authorize_step (module_authorize cfg caller body s).
Proof. unfold module_authorize. kernel_steps. Qed.

Lemma status_steps caller path : each_step authorize_step (PolicyRoutes.status caller path).
Proof. unfold PolicyRoutes.status. kernel_steps. Qed.

Lemma event_steps caller body s : each_step authorize_step (audit_event caller body s).
Proof. unfold audit_event. kernel_steps. Qed.

(** *** The revoke handlers keep to the steps of [KernelRevoke] *)

Definition steps (cfg : KernelConfig) (held : bool) : KWorld T -> KWorld T -> Prop := rtc (kstep cfg).

Abbreviation keeping cfg := (keeps log_ok (steps cfg)).

Lemma keep_step {A B} cfg held (op : KWorld T -> B * KWorld T) (k : B -> prog (KWorld T) Empty_set A) w :
  (forall w1, rtc (kstep cfg) w w1 -> log_ok w1 ->
     rtc (kstep cfg) w1 (snd (op w1)) /\ keeping cfg (k (fst (op w1))) (snd (op w1))) ->
  keeping cfg (Await held op k) w.
Proof. intros Hk w1 Hs Hok. destruct (Hk w1 Hs Hok). by split_and!. Qed.

Lemma audit_append_keeps cfg name payload a b k w :
  (forall w1, rtc (kstep cfg) w w1 -> keeping cfg k w1) -> keeping cfg (audit_append name payload a b k) w.
Proof.
  intros Hk. apply keep_step. intros w1 Hs Hok. simpl.
  assert (rtc (kstep cfg) w1 (with_audit {| aa_unit_id := "safety_kernel"; aa_action_name := name;
    aa_payload := payload; aa_success := true; aa_error := None; aa_started_at := a; aa_ended_at := b |} w1)) as Ha
    by apply rtc_once, k_audit.
  split; [done|]. apply Hk. by etrans.
Qed.

Lemma mint_keeps cfg caller body s w : kernel_inv cfg w -> keeping cfg (mint_revoke cfg caller body s) w.
Proof.
  intros Hinv. unfold mint_revoke. destruct (String.eqb_spec caller "operator") as [->|]; [|done]. cbn [negb].
  case_bool_decide as Ht; [|done]. cbn [negb].
  apply (keep_step cfg false). intros w1 Hs1 _. split; [done|]. cbn [fst snd reading].
  set (g := current _ _). set (c := revoke_claims cfg body s g).
  destruct (ksteps_kernel_inv _ _ _ Hs1 Hinv) as [Hinv1 _].
  apply (keep_step cfg false). intros w2 Hs2 Hok2. destruct (ksteps_kernel_inv _ _ _ Hs2 Hinv1) as [Hinv2 Hg2].
  pose proof (tlog_step cfg (sign_kernel_token c (k_signing_key cfg)) (now s) w2 Hok2) as Htl.
  destruct (tlog_append_failclosed _ _ w2) as [[reason|[]] w3]; cbn [fst snd];
    destruct Htl as (Hs3 & Hp3 & Hg3 & Hrec); (split; [done|]).
  { unfold refuse_unrecorded. by apply audit_append_keeps. }
  destruct (ksteps_kernel_inv _ _ _ Hs3 Hinv2) as [Hinv3 _].
  apply (keep_step cfg false). intros w4 Hs4 _. cbn [fst snd].
  destruct (ksteps_kernel_inv _ _ _ Hs4 Hinv3) as [_ Hg4].
  pose proof (ksteps_recorded _ _ _ _ Hs4 Hrec) as Hrec4.
  assert (g <= current (mr_target body) (GENERATIONS w4))%N as Hgen.
  { etrans; [apply Hg2|]. rewrite <-Hg3. apply Hg4. }
  split; [|by apply audit_append_keeps].
  apply rtc_once, k_enqueue. split; [done|]. left. exists c. by split_and!.
Qed.

Lemma pull_keeps cfg caller name s w : keeping cfg (pending_revoke caller name s) w.
Proof.
  unfold pending_revoke. destruct (reaper_or_operator caller); [|done]. cbn [negb].
  apply (keep_step cfg false). intros w1 _ _.
  destruct (drain_live_tokens name (now s) (PENDING w1)) as [pending store] eqn:E. cbn [fst snd]. split.
  - replace store with (snd (drain_live_tokens name (now s) (PENDING w1))) by by rewrite E.
    apply rtc_once, k_drain.
  - destruct pending; [done|]. apply (keep_step cfg false). by intros.
Qed.

Lemma ack_keeps cfg caller body s w : keeping cfg (ack_revoke caller body s) w.
Proof.
  unfold ack_revoke. destruct (reaper_or_operator caller); [|done]. cbn [negb].
  apply (keep_step cfg false). intros w1 _ _.
  destruct (clear_pending (ra_run_id body) (PENDING w1)) as [cleared store] eqn:E. cbn [fst snd]. split.
  - replace store with (snd (clear_pending (ra_run_id body) (PENDING w1))) by by rewrite E.
    apply rtc_once, k_clear.
  - by apply audit_append_keeps.
Qed.

Lemma restore_keeps cfg caller body s w : kernel_inv cfg w -> keeping cfg (restore_revoke cfg caller body s) w.
Proof.
  intros Hinv. unfold restore_revoke. destruct (String.eqb_spec caller "operator") as [->|]; [|done]. cbn [negb].
  set (c := restore_claims cfg body s).
  apply (keep_step cfg false). intros w2 Hs2 Hok2. destruct (ksteps_kernel_inv _ _ _ Hs2 Hinv) as [Hinv2 Hg2].
  pose proof (tlog_step cfg (sign_kernel_token c (k_signing_key cfg)) (now s) w2 Hok2) as Htl.
  destruct (tlog_append_failclosed _ _ w2) as [[reason|[]] w3]; cbn [fst snd];
    destruct Htl as (Hs3 & Hp3 & Hg3 & Hrec); (split; [done|]).
  { unfold refuse_unrecorded. by apply audit_append_keeps. }
  destruct (ksteps_kernel_inv _ _ _ Hs3 Hinv2) as [Hinv3 _].
  apply (keep_step cfg false). intros w4 Hs4 _. cbn [fst snd increment in_memory_generations].
  destruct (ksteps_kernel_inv _ _ _ Hs4 Hinv3) as [Hinv4 Hg4].
  pose proof (k_increment cfg w4 (rr_target body)) as Hs5. split; [by apply rtc_once|].
  destruct (ksteps_kernel_inv _ _ _ (rtc_once _ _ Hs5) Hinv4) as [Hinv5 _].
  apply (keep_step cfg false). intros w6 Hs6 _. cbn [fst snd].
  destruct (ksteps_kernel_inv _ _ _ Hs6 Hinv5) as [_ Hg6]. split; [|by apply audit_append_keeps].
  apply rtc_once, k_enqueue. split.
  - apply (ksteps_recorded cfg w4); [by eapply rtc_l|]. by apply (ksteps_recorded cfg w3).
  - right. exists c. split; [by split_and!|]. etrans; [|apply Hg6].
    change (1 <= current (rr_target body) (snd (increment (rr_target body) (GENERATIONS w4))))%N.
    rewrite current_after, decide_True by done. unfold saturating_add64, u64_max. lia.
Qed.

Lemma serve_keeps cfg rq w : kernel_inv cfg w -> keeping cfg (serve cfg rq) w.
Proof.
  intros Hinv. destruct rq; simpl;
    [by apply mint_keeps|apply pull_keeps|apply ack_keeps|by apply restore_keeps].
Qed.

(** *** The service *)

Lemma keeps_map {A B} fits (R : bool -> KWorld T -> KWorld T -> Prop) (f : A -> B) (p : prog (KWorld T) Empty_set A) w :
  keeps fits R p w -> keeps fits R (prog_map f p) w.
Proof.
  revert w. induction p as [|held C op k IH]; intros w; simpl; [done|]. intros Hk w1 H1' Hf.
  destruct (Hk w1 H1' Hf) as (? & ? & ?). auto.
Qed.

Lemma each_step_map {W E A B} (Q : W -> W -> Prop) (f : A -> B) (p : prog W E A) :
  each_step Q p -> each_step Q (prog_map f p).
Proof. induction p as [|held C op k IH]; simpl; [done|]. intros [Hop Hk]. auto. Qed.

Lemma on_authorize_keeps {A} app (f : A -> Response) (p : prog (AWorld P T) Empty_set A) (w : WorldT) :
  each_step authorize_step p -> keeps log_in_order (others app) (on_authorize f p) w.
Proof.
  intros Hp. apply each_step_keeps. unfold on_authorize.
  eapply each_step_zoom; [|by apply each_step_map, Hp].
  intros w1 v Hst Hok held. by apply authorize_step_others.
Qed.

Lemma on_revoke_keeps app rq (w : WorldT) :
  kernel_inv (ka_revoke app) (revoke_part w) ->
  keeps log_in_order (others app) (on_revoke (P := P) kresponse (serve (ka_revoke app) rq)) w.
Proof.
  intros Hinv. unfold on_revoke. apply (keeps_zoom _ _ _ log_ok _ (steps (ka_revoke app))).
  - apply revoke_part_set.
  - done.
  - done.
  - intros held w1 v Hv. unfold others. by rewrite revoke_part_set.
  - by apply keeps_map, serve_keeps.
Qed.

Lemma serve_kernel_keeps app rd inc (w : WorldT) :
  kernel_inv (ka_revoke app) (revoke_part w) -> keeps log_in_order (others app) (serve_kernel app rd inc) w.
Proof.
  intros Hinv. unfold serve_kernel.
  assert (forall role, keeps log_in_order (others app)
    (limited MAX_BODY_BYTES (in_http inc) (served kernel_routes (kernel_handler app rd role (in_http inc)) inc)) w)
    as Hrouted; [|destruct (auth_layer _ _ _); [apply Hrouted|done|apply Hrouted]].
  intros role. unfold limited. destruct (body_limit _ _); [done|]. unfold served.
  destruct (dispatch _ _ _) as [| |rt params]; [done..|]. apply keeps_then.
  destruct rt; cbn [kernel_handler]; unfold with_role, with_param, with_extract; try done;
    repeat (case_match; try done).
  - apply on_authorize_keeps, authorize_steps.
  - apply on_authorize_keeps. unfold approve. apply decision_steps.
  - apply on_authorize_keeps. unfold reject. apply decision_steps.
  - apply on_authorize_keeps, register_steps.
  - apply on_authorize_keeps, module_steps.
  - apply on_authorize_keeps, event_steps.
  - apply on_authorize_keeps, status_steps.
  - by apply on_revoke_keeps.
Qed.


Lemma on_authorize_not_holding {A} (f : A -> Response) (p : prog (AWorld P T) Empty_set A) :
  holding p = false -> holding (on_authorize f p) = false.
Proof. by destruct p. Qed.

Lemma serve_kernel_not_holding app rd inc : holding (serve_kernel (P := P) (T := T) app rd inc) = false.
Proof.
  unfold serve_kernel.
  assert (forall role, holding (limited (W := WorldT) MAX_BODY_BYTES (in_http inc)
    (served kernel_routes (kernel_handler app rd role (in_http inc)) inc)) = false)
    as Hrouted; [|destruct (auth_layer _ _ _); [apply Hrouted|done|apply Hrouted]].
  intros role. unfold limited. destruct (body_limit _ _); [done|]. unfold served.
  destruct (dispatch _ _ _) as [| |rt params]; [done..|]. rewrite holding_then.
  destruct rt; cbn [kernel_handler]; unfold with_role, with_param, with_extract; try done;
    repeat (case_match; try done); try apply on_authorize_not_holding.
  - unfold KernelAuthorize.authorize. by destruct (refused_at_once _ _).
  - unfold approve, sign_decision. by destruct (negb _).
  - unfold reject, sign_decision. by destruct (negb _).
  - unfold register. by destruct (register_refused _ _).
  - unfold module_authorize. by destruct (module_refused _ _).
  - unfold audit_event. repeat case_match; done.
  - unfold PolicyRoutes.status. repeat case_match; done.
  - unfold on_revoke. destruct_or?; unfold serve, mint_revoke, pending_revoke, ack_revoke, restore_revoke;
      repeat case_match; done.
Qed.

Lemma kernel_in_flight_ok app reqs (w : WorldT) :
  kernel_inv (ka_revoke app) (revoke_part w) -> pool_ok log_in_order (others app) (in_flight app reqs) w.
Proof.
  intros Hinv. apply (pool_ok_app _ _ [] (in_flight app reqs) w (pool_ok_nil _ _ w)).
  intros q ((rd & inc) & -> & _)%list_elem_of_fmap.
  split; [apply serve_kernel_not_holding|by apply serve_kernel_keeps].
Qed.

(** The queue and the grant generations. *)
Definition same_queue (w w' : WorldT) : Prop :=
  kw_pending w' = kw_pending w /\ kw_generations w' = kw_generations w.

Lemma each_step_true {W E A} (p : prog W E A) : each_step (fun _ _ => True) p.
Proof. induction p as [|held B op k IH]; simpl; auto. Qed.

Lemma serve_kernel_same_queue app rd inc :
  ~ holds_key (ka_auth app) inc "operator" -> ~ holds_key (ka_auth app) inc "reaper" ->
  each_step same_queue (serve_kernel (P := P) (T := T) app rd inc).
Proof.
  intros Hop Hre. unfold serve_kernel.
  assert (forall role, (forall r, role = Some r -> holds_key (ka_auth app) inc r) ->
    each_step same_queue (limited (W := WorldT) MAX_BODY_BYTES (in_http inc)
      (served kernel_routes (kernel_handler app rd role (in_http inc)) inc))) as Hrouted.
  { intros role Hrole. unfold limited. destruct (body_limit _ _); [done|]. unfold served.
    destruct (dispatch _ _ _) as [| |rt params]; [done..|]. apply each_step_then.
    assert (forall A (f : A -> Response) (p : prog (AWorld P T) Empty_set A), each_step same_queue (on_authorize f p))
      as Hauth.
    { intros A f p. unfold on_authorize. eapply each_step_zoom; [|apply each_step_true]. by intros w v _. }
    destruct rt as [| | | | | | | | |rt]; cbn [kernel_handler]; try done; destruct role as [r|]; try done;
      unfold with_role, with_param, with_extract; repeat (case_match; try done); try apply Hauth.
    destruct (kernel_handler_refuses (P := P) (T := T) app rd r inc (KRevoke rt) params) as (resp & Hresp & _).
    - specialize (Hrole r eq_refl). destruct rt; simpl; apply not_true_iff_false.
      + intros ->%String.eqb_eq. done.
      + by intros [->%String.eqb_eq| ->%String.eqb_eq]%orb_true_iff.
      + by intros [->%String.eqb_eq| ->%String.eqb_eq]%orb_true_iff.
      + by intros ->%String.eqb_eq.
    - cbn [kernel_handler with_role] in Hresp. unfold with_extract in Hresp.
      destruct (RevokeHttp.extract _ _ _ _); simplify_eq. by rewrite Hresp. }
  destruct (auth_layer _ _ _) as [|st b|role] eqn:Ha; [by apply Hrouted|done|].
  apply Hrouted. intros r [= ->]. by apply admitted_role in Ha as [_ Ha].
Qed.

(** C13.  What a running kernel keeps: whatever requests are in flight, from whomever, on
    whichever routes and in whatever interleaving, every queued entry stays a decision
    the kernel signed, in the log, bound to its target and no newer than its grant
    ([kernel_inv]), and no generation falls; every revoke request that is answered is an
    execution of its handler among the others, as [KernelRevoke]'s theorems assume it;
    and unless some request carries the key of the operator or of the reaper, queue and
    generations are what they were. *)
Theorem running_kernel_keeps_its_queue app reqs (w : WorldT) ps' w' :
  kernel_inv (ka_revoke app) (revoke_part w) ->
  rtc (turn log_in_order) (in_flight app reqs, w) (ps', w') ->
  kernel_inv (ka_revoke app) (revoke_part w') /\ grants_grow (revoke_part w) (revoke_part w') /\
  (forall i rd inc rt params role rq r,
     reqs !! i = Some (rd, inc) -> ps' !! i = Some (Done r) ->
     dispatch kernel_routes (in_method inc) (in_path inc) = Routed (KRevoke rt) params ->
     auth_layer (ka_auth app) (in_path inc) (request_header (in_http inc) "x-api-key") = CallerRole role ->
     body_limit MAX_BODY_BYTES (in_http inc) = None ->
     RevokeHttp.extract rt (kr_stamp rd) role (in_http inc) = inr rq ->
     exists r0 w0, exec (KernelRevoke.others (ka_revoke app)) (serve (ka_revoke app) rq) (revoke_part w) r0 w0 /\
       r = without_body (in_method inc) (res_map kresponse r0) /\
       rtc (kstep (ka_revoke app)) w0 (revoke_part w')) /\
  ((forall rd inc, (rd, inc) ∈ reqs ->
      ~ holds_key (ka_auth app) inc "operator" /\ ~ holds_key (ka_auth app) inc "reaper") -> same_queue w w').
Proof.
  intros Hinv Hrun. pose proof (kernel_in_flight_ok app reqs w Hinv) as Hok.
  destruct (pool_ok_run log_in_order (others app) _ _ _ _ Hrun Hok) as [_ Hw].
  destruct (ksteps_kernel_inv _ _ _ Hw Hinv) as [Hinv' Hg]. split; [done|]. split; [done|]. split.
  - intros i rd inc rt params role rq r Hi Hi' Hd Ha Hb He.
    assert (in_flight app reqs !! i = Some (serve_kernel app rd inc)) as Hi1
      by (unfold in_flight; by rewrite list_lookup_fmap, Hi).
    destruct (served_alone_among_others log_in_order (others app) _ _ _ _ _ _ _ Hok Hrun Hi1 Hi')
      as (w0 & Hx & _ & Hw0).
    unfold serve_kernel in Hx. rewrite Ha in Hx. unfold limited, served in Hx. rewrite Hb, Hd in Hx.
    cbn [kernel_handler with_role] in Hx. unfold with_extract in Hx. rewrite He in Hx.
    apply exec_then_inv in Hx as (r1 & Hx & ->). unfold on_revoke in Hx.
    apply exec_zoom_inv in Hx; [|apply revoke_part_set]. apply exec_map_inv in Hx as (r0 & Hx & ->).
    exists r0, (revoke_part w0). split; [|done]. eapply exec_mono; [|exact Hx].
    intros held v v' (w1 & w2 & <- & <- & [HR Hl]). by split.
  - intros Hno. assert (rtc same_queue w w') as Hr.
    { eapply pool_steps; [|exact Hrun]. apply Forall_fmap, Forall_forall. intros [rd inc] Hin. simpl.
      destruct (Hno rd inc Hin). by apply serve_kernel_same_queue. }
    clear - Hr. induction Hr as [|x y z [? ?] _ [? ?]]; [done|]. split; congruence.
Qed.

(** *** The services of the clients' theorems are this router *)

(** A [POST] or a [GET] to the path of a revoke route is [RevokeHttp.revoke_service]. *)
Theorem revoke_service_is_routed app rd inc rt env (w : WorldT) r w' :
  in_path inc = route_path rt -> in_method inc = match rt with PendingRoute => GET | _ => POST end ->
  body_limit MAX_BODY_BYTES (in_http inc) = None ->
  exec env (serve_kernel app rd inc) w r w' ->
  exec (zoom_env revoke_part env) (revoke_service (ka_auth app) (ka_revoke app) rt (kr_stamp rd) (in_http inc))
    (revoke_part w) r (revoke_part w').
Proof.
  intros Hp Hm Hb Hx. unfold serve_kernel in Hx. unfold revoke_service, protected_route. rewrite Hp in *.
  assert (kernel_is_public_path (route_path rt) = false) as Hpub by by destruct rt.
  destruct (auth_layer _ _ _) as [|st b|role] eqn:Ha.
  - unfold auth_layer in Ha. rewrite Hpub in Ha. by repeat case_match.
  - apply exec_done_inv in Hx as [-> ->]. constructor.
  - unfold limited, served in Hx. rewrite Hb, Hm, Hp, kernel_route_revoke in Hx.
    apply exec_then_inv in Hx as (r1 & Hx & ->).
    assert (without_body (match rt with PendingRoute => GET | _ => POST end) r1 = r1) as -> by by destruct rt, r1.
    cbn [kernel_handler with_role] in Hx. unfold with_extract in Hx.
    destruct (RevokeHttp.extract _ _ _ _) as [[st msg]|rq].
    + apply exec_done_inv in Hx as [-> ->]. constructor.
    + unfold on_revoke in Hx. by apply exec_zoom_inv in Hx; [|apply revoke_part_set].
Qed.

(** A [POST] to the path of authorisation is [AuthorizeHttp.authorize_service]. *)
Theorem authorize_service_is_routed app rd inc env (w : WorldT) r w' :
  in_path inc = "/kernel/v1/authorize" -> in_method inc = POST ->
  body_limit MAX_BODY_BYTES (in_http inc) = None ->
  exec env (serve_kernel app rd inc) w r w' ->
  exec (zoom_env authorize_part env)
    (authorize_service (ka_auth app) (ka_authorize app) (kr_reading rd) (in_http inc))
    (authorize_part w) r (authorize_part w').
Proof.
  intros Hp Hm Hb Hx. unfold serve_kernel in Hx. unfold authorize_service, protected_route. rewrite Hp in *.
  destruct (auth_layer _ _ _) as [|st b|role] eqn:Ha.
  - unfold auth_layer in Ha. simpl in Ha. by repeat case_match.
  - apply exec_done_inv in Hx as [-> ->]. constructor.
  - unfold limited, served in Hx. rewrite Hb, Hm, Hp, kernel_route_authorize in Hx.
    apply exec_then_inv in Hx as (r1 & Hx & ->). cbn [kernel_handler with_role without_body] in Hx |- *.
    unfold with_extract in Hx. destruct (json_body _ _) as [[st msg]|body].
    + apply exec_done_inv in Hx as [-> ->]. constructor.
    + unfold on_authorize in Hx. by apply exec_zoom_inv in Hx; [|apply authorize_part_set].
Qed.

End KernelPool.

(** ** Non-vacuity: kills of the operator and of a worker *)

Module Demo.
Import KernelRevoke.Demo RevokeHttp.Demo.
#[local] Existing Instance KernelRevoke.Demo.sha.
#[local] Existing Instance demo_ed25519.
#[local] Existing Instance demo_hex.
#[local] Existing Instance demo_b64.
#[local] Existing Instance DemoJson.demo_serde.
#[local] Existing Instance demo_log.
#[local] Existing Instance demo_log_laws.
#[local] Existing Instance Client.Demo.reqwest.
#[local] Existing Instance TlogClient.Demo.axum.
#[local] Existing Instance query_errors.
#[local] Existing Instance DemoRouting.demo_routing.
#[local] Existing Instance DemoRouting.demo_routing_laws.
#[local] Existing Instance PolicyRoutes.Demo.lenient.
#[local] Existing Instance KernelAuthorize.Demo.one_subject.

Definition app : KernelApp := {|
  ka_auth := auth; ka_authorize := KernelAuthorize.Demo.cfg; ka_policy := PolicyRoutes.Demo.cfg;
  ka_revoke := KernelRevoke.Demo.cfg; ka_started_at := f64_of_Z 900; ka_public_key_b64 := "cGs=" |}.

(** An engine that allows the subject ["api"], and an empty queue. *)
Definition start : KernelWorld string DemoLog := Build_KernelWorld "api" (Some ∅) [] ∅ ∅.

Definition reading (id : string) : KernelReading :=
  {| kr_reading := KernelAuthorize.Demo.reading; kr_stamp := at_time 1000 id |}.

Definition incoming (id : string) (m : Method) (path key : string) (body : option Value)
    : KernelReading * Incoming :=
  (reading id, {| in_method := m; in_path := path;
     in_http := {| url := ""; headers := [("x-api-key", key)]; query := []; json := body |} |}).

(** A kill of the zone [z] under the key [key], as the SDK sends it. *)
Definition kills (id z key : string) : KernelReading * Incoming :=
  incoming id POST "/kernel/v1/revoke/compute" key (json (RevokeClients.call_request Client.Demo.cfg [] (sdk_call (SMint (kill_body z))))).
Definition ask_health : KernelReading * Incoming := incoming "h" GET "/health" "" None.

Definition queued (w : KernelWorld string DemoLog) : nat :=
  match kw_pending w !! "agent-vm" with Some es => length es | None => 0 end.

Lemma in_order (w : KernelWorld string DemoLog) : true = true -> log_in_order w.
Proof. intros _. unfold log_in_order, log_ok. by destruct (transparency _). Qed.

Definition two_kills : list (KernelReading * Incoming) := [kills "k" "a" "k"; kills "l" "b" "k"; ask_health].

(** Two kills and a health check in flight, step by step in turn: both are queued. *)
Lemma running_kernel_keeps_its_queue_witness : exists ps' w' resp,
  rtc (turn log_in_order) (in_flight app two_kills, start) (ps', w') /\
  ps' !! 1%nat = Some (Done (Ok resp)) /\ queued w' = 2%nat /\ kernel_inv KernelRevoke.Demo.cfg (revoke_part w').
Proof.
  destruct (played log_in_order (fun _ => true) in_order [0; 1; 1; 0; 0; 1; 1; 0]%nat
    (in_flight app two_kills) start 1 (fun _ w => Nat.eqb (queued w) 2)) as (ps' & w' & resp & Hrun & Hr & Hq).
  { vm_compute. reflexivity. }
  destruct (running_kernel_keeps_its_queue app two_kills start ps' w' fresh_inv Hrun) as (Hinv & _).
  exists ps', w', resp. split; [exact Hrun|]. split; [exact Hr|]. split; [by apply Nat.eqb_eq|exact Hinv].
Defined.

(** A worker that asks for a kill is refused. *)
Lemma a_role_does_its_own_only_witness : exists resp,
  serve_kernel (P := string) (T := DemoLog) app (reading "k") (snd (kills "k" "a" "w")) = Done (Ok resp) /\
  refused (snd (kills "k" "a" "w")) resp.
Proof.
  apply (a_role_does_its_own_only app (reading "k") (snd (kills "k" "a" "w")) (KRevoke Compute) []).
  - reflexivity.
  - discriminate.
  - discriminate.
  - intros role (key & Hk & _ & Hr). injection Hk as <-. simpl.
    destruct (String.eqb_spec role "operator") as [->|]; [discriminate Hr|reflexivity].
Defined.

End Demo.
