(* ===== verification/Constraints.v ===== *)
(** * Core constraints

    Models the constraint types of [crates/domain/src/safety/claims.rs]: the rules a
    tenant sets, the hard ones, the ones in force at a time, and their wire form.
    Times are compared as text; the last section says when that is right. *)

From S2P Require Import Prelude RustStr Float64 Crates Merkle Json Serde Token Revoke KernelHttp.

#[local] Open Scope string_scope.

Inductive ConstraintKind := ComplianceRule | BrandRule | PrivacyRule | ScopeRule | Custom (name : string).

Record CoreConstraint := {
  cc_id : string;
  cc_tenant_id : string;
  cc_kind : ConstraintKind;
  cc_rule_text : string;
  cc_priority : N;
  valid_from : string;
  valid_to : option string;
  provenance : string;
  cc_version : N
}.

Record CoreConstraintSet := { tenant_id : string; constraints : list CoreConstraint }.

(** Byte order on strings. *)
Definition str_ltb (a b : string) : bool := match String.compare a b with Lt => true | _ => false end.
Definition str_leb (a b : string) : bool := match String.compare a b with Gt => false | _ => true end.

Definition hard_constraints (s : CoreConstraintSet) : list CoreConstraint :=
  filter (fun c => cc_priority c = 0%N) (constraints s).

Definition active (ts : string) (c : CoreConstraint) : bool :=
  str_leb (valid_from c) ts && match valid_to c with None => true | Some v => str_ltb ts v end.

Definition active_at (s : CoreConstraintSet) (ts : string) : list CoreConstraint :=
  filter (fun c => active ts c = true) (constraints s).

(** ** The wire form *)

Definition kind_to_value (k : ConstraintKind) : Value :=
  match k with
  | ComplianceRule => Str "compliance_rule" | BrandRule => Str "brand_rule"
  | PrivacyRule => Str "privacy_rule" | ScopeRule => Str "scope_rule"
  | Custom name => Obj [("custom", Str name)]
  end.

Definition unit_kinds : list (string * ConstraintKind) :=
  [("compliance_rule", ComplianceRule); ("brand_rule", BrandRule);
   ("privacy_rule", PrivacyRule); ("scope_rule", ScopeRule)].

Definition de_kind (v : Value) : option ConstraintKind :=
  match v with
  | Obj [("custom", Str name)] => Some (Custom name)
  | v => de_unit_variant unit_kinds v
  end.

Definition de_uint (max : N) (v : Value) : option N :=
  n ← de_u64 v; if (n <=? max)%N then Some n else None.

Definition constraint_members (c : CoreConstraint) : list (string * Value) :=
  [("id", Str (cc_id c)); ("tenant_id", Str (cc_tenant_id c)); ("kind", kind_to_value (cc_kind c));
   ("rule_text", Str (cc_rule_text c)); ("priority", Num (PosInt (cc_priority c)));
   ("valid_from", Str (valid_from c)); ("valid_to", opt_str (valid_to c));
   ("provenance", Str (provenance c)); ("version", Num (PosInt (cc_version c)))].

Definition de_constraint (v : Value) : option CoreConstraint :=
  fs ← de_fields ["id"; "tenant_id"; "kind"; "rule_text"; "priority"; "valid_from"; "valid_to";
                  "provenance"; "version"] v;
  match fs with
  | [id; tenant; kind; text; priority; from; to; prov; version] =>
    id ← de_req as_str id; tenant ← de_req as_str tenant; kind ← de_req de_kind kind;
    text ← de_req as_str text; priority ← de_req (de_uint 255) priority; from ← de_req as_str from;
    to ← de_opt_str to; prov ← de_req as_str prov; version ← de_req (de_uint u32_max) version;
    Some {| cc_id := id; cc_tenant_id := tenant; cc_kind := kind; cc_rule_text := text;
            cc_priority := priority; valid_from := from; valid_to := to; provenance := prov;
            cc_version := version |}
  | _ => None
  end.

(** A nested struct is read from the map its text parses to. *)
Definition constraint_value (c : CoreConstraint) : Value := jobj (constraint_members c).

Definition set_members (s : CoreConstraintSet) : list (string * Value) :=
  [("tenant_id", Str (tenant_id s)); ("constraints", Arr (constraint_value <$> constraints s))].

Definition de_set (v : Value) : option CoreConstraintSet :=
  fs ← de_fields ["tenant_id"; "constraints"] v;
  match fs with
  | [tenant; cs] =>
    tenant ← de_req as_str tenant; cs ← de_req (de_vec de_constraint) cs;
    Some {| tenant_id := tenant; constraints := cs |}
  | _ => None
  end.

Definition widths_ok (c : CoreConstraint) : Prop := (cc_priority c <= 255)%N /\ (cc_version c <= u32_max)%N.

Lemma de_constraint_value c : widths_ok c -> de_constraint (constraint_value c) = Some c.
Proof.
  intros [Hp Hv]. apply N.leb_le in Hp, Hv. destruct c as [id te k tx p f t pr v].
  transitivity (k' ← de_kind (kind_to_value k); p' ← de_uint 255 (Num (PosInt p));
    t' ← de_opt_str (Some (opt_str t)); v' ← de_uint u32_max (Num (PosInt v));
    Some {| cc_id := id; cc_tenant_id := te; cc_kind := k'; cc_rule_text := tx; cc_priority := p';
            valid_from := f; valid_to := t'; provenance := pr; cc_version := v' |}).
  - by destruct k.
  - unfold de_uint. cbn [de_u64 mbind option_bind]. cbn in Hp, Hv. rewrite Hp. cbn [mbind option_bind].
    rewrite de_opt_str_to_value, Hv. by destruct k.
Qed.

(** The set reads back as it was written, in its order. *)
Lemma de_set_members s : Forall widths_ok (constraints s) -> de_set (jobj (set_members s)) = Some s.
Proof.
  intros Hw. assert (de_vec de_constraint (Arr (constraint_value <$> constraints s)) = Some (constraints s)) as E.
  { apply de_vec_fmap. eapply Forall_impl; [exact Hw|apply de_constraint_value]. }
  destruct s as [tenant cs]. cbn [constraints] in E.
  transitivity (cs' ← de_vec de_constraint (Arr (constraint_value <$> cs));
    Some {| tenant_id := tenant; constraints := cs' |}); [reflexivity|by rewrite E].
Qed.

(** ** Times as text *)

(** [w] decimal digits. *)
Fixpoint digits (w : nat) (n : N) : string :=
  match w with
  | O => ""
  | S w => String (ascii_of_N (48 + n / 10 ^ N.of_nat w mod 10)) (digits w n)
  end.

Lemma compare_cons a b s t :
  String.compare (String a s) (String b t) =
  match N.compare (N_of_ascii a) (N_of_ascii b) with Eq => String.compare s t | c => c end.
Proof. reflexivity. Qed.

(** Texts of equal length compare part by part. *)
Lemma compare_app s s' t t' :
  String.length s = String.length t ->
  String.compare (s +:+ s') (t +:+ t') =
  match String.compare s t with Eq => String.compare s' t' | c => c end.
Proof.
  revert t. induction s as [|a s IH]; intros [|b t] Hl; try done. injection Hl as Hl.
  change (String a s +:+ s') with (String a (s +:+ s')). change (String b t +:+ t') with (String b (t +:+ t')).
  rewrite (compare_cons a b (s +:+ s')), (compare_cons a b s t), IH by done. by destruct (N.compare _ _).
Qed.

Lemma digits_length w n : String.length (digits w n) = w.
Proof. induction w as [|w IH]; [done|]. simpl. by rewrite IH. Qed.

Lemma digit_code n : (n < 10)%N -> N_of_ascii (ascii_of_N (48 + n)) = (48 + n)%N.
Proof. intros Hn. apply N_ascii_embedding. lia. Qed.

Lemma digits_mod w k n : (w <= k)%nat -> digits w (n mod 10 ^ N.of_nat k) = digits w n.
Proof.
  induction w as [|w IH]; intros Hk; [done|]. cbn [digits]. rewrite IH by lia. do 2 f_equal.
  replace (N.of_nat k) with (N.of_nat w + (1 + (N.of_nat k - N.of_nat w - 1)))%N by lia.
  rewrite !N.pow_add_r. rewrite N.Div0.mod_mul_r, N.mul_comm, N.div_add by lia.
  rewrite (N.div_small (n mod _)) by (apply N.mod_lt; lia).
  rewrite N.add_0_l, N.pow_1_r, N.Div0.mod_mul_r, N.mul_comm, N.Div0.mod_add. by rewrite N.Div0.mod_mod.
Qed.

(** Fixed-width numerals order as their numbers do. *)
Lemma digits_compare w n m :
  (n < 10 ^ N.of_nat w)%N -> (m < 10 ^ N.of_nat w)%N -> String.compare (digits w n) (digits w m) = N.compare n m.
Proof.
  revert n m. induction w as [|w IH]; intros n m Hn Hm.
  { simpl in Hn, Hm. replace n with 0%N by lia. by replace m with 0%N by lia. }
  rewrite Nat2N.inj_succ, N.pow_succ_r' in Hn, Hm. set (p := (10 ^ N.of_nat w)%N) in *.
  assert (p <> 0)%N as Hp by (by apply N.pow_nonzero).
  assert (n / p < 10 /\ m / p < 10)%N as [Hn' Hm'] by (split; apply N.Div0.div_lt_upper_bound; lia).
  cbn [digits]. fold p. rewrite compare_cons, !N.mod_small, !digit_code by done.
  rewrite <- (digits_mod w w n), <- (digits_mod w w m), IH by (try apply N.mod_lt; done). fold p.
  pose proof (N.div_mod n p Hp) as En. pose proof (N.div_mod m p Hp) as Em.
  pose proof (N.mod_lt n p Hp) as Ln. pose proof (N.mod_lt m p Hp) as Lm.
  clear - En Em Ln Lm. clearbody p. revert En Em Ln Lm.
  generalize (n / p)%N (m / p)%N (n mod p)%N (m mod p)%N. intros qn qm rn rm -> -> Ln Lm.
  destruct (N.compare_spec (48 + qn) (48 + qm)) as [E|E|E].
  - replace qm with qn by lia. destruct (N.compare_spec rn rm); symmetry;
      [apply N.compare_eq_iff|apply N.compare_lt_iff|apply N.compare_gt_iff]; lia.
  - symmetry. apply N.compare_lt_iff. nia.
  - symmetry. apply N.compare_gt_iff. nia.
Qed.

(** The fields of a time, most significant first, each with its width and what follows it. *)
Definition layout := list (nat * string).

(** RFC 3339 in UTC, to the second and with [k] digits of fraction. *)
Definition seconds_utc : layout := [(4%nat, "-"); (2%nat, "-"); (2%nat, "T"); (2%nat, ":"); (2%nat, ":"); (2%nat, "Z")].
Definition fraction_utc (k : nat) : layout :=
  [(4%nat, "-"); (2%nat, "-"); (2%nat, "T"); (2%nat, ":"); (2%nat, ":"); (2%nat, "."); (k, "Z")].

Fixpoint stamp (l : layout) (fields : list N) : string :=
  match l, fields with
  | (w, sep) :: l, n :: fields => digits w n +:+ (sep +:+ stamp l fields)
  | _, _ => ""
  end.

(** The order of time: field by field. *)
Fixpoint time_compare (a b : list N) : comparison :=
  match a, b with
  | x :: a, y :: b => match N.compare x y with Eq => time_compare a b | c => c end
  | _, _ => Eq
  end.

Definition fits (l : layout) (fields : list N) : Prop :=
  Forall2 (fun f n => (n < 10 ^ N.of_nat (fst f))%N) l fields.

Lemma compare_same s : String.compare s s = Eq.
Proof. induction s as [|a s IH]; [done|]. by rewrite compare_cons, N.compare_refl. Qed.

(** Texts of one layout order as the times they spell. *)
Lemma stamp_compare l a b : fits l a -> fits l b -> String.compare (stamp l a) (stamp l b) = time_compare a b.
Proof.
  intros Ha. revert b. induction Ha as [|[w sep] n l a Hn Ha IH]; intros b Hb; inv Hb as [|? m ? b' Hm Hb']; [done|].
  cbn [stamp time_compare]. rewrite compare_app by (by rewrite !digits_length).
  rewrite digits_compare by done. destruct (N.compare n m); [|done..].
  rewrite compare_app, compare_same by done. by apply IH.
Qed.

(** A rule whose times are written like the question's is in force from its first
    instant up to, and not including, its last. *)
Lemma active_is_the_window l ts c from ats :
  fits l from -> fits l ats -> valid_from c = stamp l from -> ts = stamp l ats ->
  match valid_to c with None => True | Some v => exists upto, fits l upto /\ v = stamp l upto end ->
  active ts c = true <->
  time_compare from ats <> Gt /\ (forall upto, fits l upto -> valid_to c = Some (stamp l upto) -> time_compare ats upto = Lt).
Proof.
  intros Hf Hats Ef -> Hto. unfold active, str_leb, str_ltb. rewrite Ef, stamp_compare by done.
  rewrite andb_true_iff. apply Morphisms_Prop.and_iff_morphism. { destruct (time_compare from ats); naive_solver. }
  destruct (valid_to c) as [v|]; [|naive_solver]. destruct Hto as (u & Hu & ->).
  rewrite stamp_compare by done. split.
  - intros H upto Hupto [= E]. pose proof (stamp_compare l ats upto Hats Hupto) as C.
    rewrite <- E, stamp_compare in C by done. rewrite <- C. by destruct (time_compare ats u).
  - intros H. by rewrite (H u Hu eq_refl).
Qed.

(** With differing precision the text order is not the order of time. *)
Example mixed_precision_misorders :
  str_ltb (stamp seconds_utc [2026; 1; 1; 0; 0; 0]%N) (stamp (fraction_utc 3) [2026; 1; 1; 0; 0; 0; 5]%N) = false.
Proof. reflexivity. Qed.

(** What is in force keeps its order, and a hard rule in force is found by either filter first. *)
Lemma hard_and_active s ts c :
  c ∈ active_at s ts /\ c ∈ hard_constraints s <-> c ∈ constraints s /\ active ts c = true /\ cc_priority c = 0%N.
Proof. unfold active_at, hard_constraints. rewrite !list_elem_of_filter. naive_solver. Qed.
