(* ===== verification/Settings.v ===== *)
(** * Configuration read from the environment

    Models [crates/services/safety-kernel/src/settings.rs] with the backend names of
    [key_backend.rs], [crates/services/transparency-log/src/settings.rs] and
    [crates/services/safety-kernel-reaper/src/config.rs].  An environment is a
    partial function; a variable that is not UTF-8 counts as unset, as
    [std::env::var] makes it. *)

From S2P Require Import Prelude RustStr Float64 Crates Merkle Store Json Serde Token Revoke WaveSession WaveRoutes.
From S2P Require Import NonceStore Executor.

#[local] Open Scope string_scope.

(** [env::var(k).ok().filter(|v| !v.trim().is_empty())]: kept as it is, blanks included. *)
Definition non_blank (env : Env) (k : string) : option string :=
  v ← env k; if is_empty (trim v) then None else Some v.

Definition required (env : Env) (k : string) : res string string :=
  ok_or ("missing " +:+ k) (env k).

(** [matches!(s, "prod" | "production")]. *)
Definition is_prod_name (s : string) : bool := String.eqb s "prod" || String.eqb s "production".

(** ** The kernel *)

Inductive KeyBackendKind := KEnv | Gcp | Aws | Azure | Pkcs11 | Tpm.

Definition key_backend_parse (s : string) : res string KeyBackendKind :=
  let name := to_ascii_lowercase (trim s) in
  let among := fun l => bool_decide (name ∈ l) in
  if among [""; "env"] then Ok KEnv
  else if among ["gcp"; "gcp_secret_manager"; "gcp-secret-manager"] then Ok Gcp
  else if among ["aws"; "aws_secrets_manager"; "aws-secrets-manager"] then Ok Aws
  else if among ["azure"; "azure_key_vault"; "azure-key-vault"] then Ok Azure
  else if among ["pkcs11"; "pkcs#11"; "hsm"] then Ok Pkcs11
  else if among ["tpm"; "tpm2"] then Ok Tpm
  else Err ("unknown KERNEL_KEY_BACKEND '" +:+ name +:+ "' (expected one of: env|gcp|aws|azure|pkcs11|tpm)").

Definition key_backend_name (k : KeyBackendKind) : string :=
  match k with
  | KEnv => "env" | Gcp => "gcp" | Aws => "aws" | Azure => "azure" | Pkcs11 => "pkcs11" | Tpm => "tpm"
  end.

Record KernelSettings := {
  ks_env : string;
  ks_db_backend : string;
  ks_db_path : string;
  ks_pg_dsn : option string;
  ks_auth_mode : string;
  ks_api_key_worker : option string;
  ks_api_key_api : option string;
  ks_api_key_operator : option string;
  ks_api_key_reaper : option string;
  ks_signing_key_b64 : string;
  ks_key_backend : KeyBackendKind;
  ks_key_gcp_project : option string;
  ks_key_gcp_secret : option string;
  ks_key_gcp_secret_version : string;
  ks_audit_pepper_b64 : string;
  ks_default_token_ttl_s : Z;
  ks_max_token_ttl_s : Z;
  ks_approval_token_ttl_s : Z;
  ks_revoke_token_ttl_s : Z;
  ks_build_version : string;
  ks_listen_addr : string;
  ks_policy_sock_path : string;
  ks_tls_cert_path : option string;
  ks_tls_key_path : option string;
  ks_tls_client_ca_path : option string;
  ks_tls_sni : string;
  ks_tls_enable : bool;
  ks_transparency_enabled : bool;
  ks_transparency_log_url : option string;
  ks_transparency_log_api_key : option string;
  ks_transparency_log_timeout_seconds : f64;
  ks_transparency_log_client_cert_path : option string;
  ks_transparency_log_client_key_path : option string
}.

(** [.ok().and_then(parse).unwrap_or(default).max(floor)]. *)
Definition ttl (env : Env) (k : string) (default floor : Z) : Z :=
  Z.max (from_option id default (env k ≫= parse_i64)) floor.

Definition first_set (env : Env) (ks : list string) : option string := head (omap env ks).

Definition is_set {A} (o : option A) : bool := match o with Some _ => true | None => false end.

(** The seed the [env] backend reads; the managed one is fetched at boot. *)
Definition kernel_signing_key (env : Env) (backend : KeyBackendKind) (is_prod : bool)
    (project secret : option string) : res string string :=
  match backend with
  | KEnv =>
    if is_prod then Err "fail-closed: KERNEL_KEY_BACKEND=env is forbidden when QORCH_ENV=prod. Set KERNEL_KEY_BACKEND to a managed backend (gcp|aws|azure|pkcs11|tpm) so the Ed25519 seed is not held in the process environment. See docs/deployment/key-management.md." else
    let? v := required env "QORCH_KERNEL_SIGNING_KEY_B64" in
    if is_empty (trim v) then Err "missing QORCH_KERNEL_SIGNING_KEY_B64" else Ok (trim v)
  | Gcp =>
    if negb (is_set project) then Err "KERNEL_KEY_BACKEND=gcp requires KERNEL_KEY_GCP_PROJECT" else
    if negb (is_set secret) then Err "KERNEL_KEY_BACKEND=gcp requires KERNEL_KEY_GCP_SECRET" else Ok ""
  | other =>
    Err ("KERNEL_KEY_BACKEND=" +:+ key_backend_name other +:+
         " is not implemented in this build; see docs/deployment/key-management.md for the tracking issue")
  end.

(** The flag, when set at all, is on exactly for four words. *)
Definition transparency_flag (env : Env) (is_prod : bool) : bool :=
  match env "QORCH_KERNEL_TRANSPARENCY_ENABLED" with
  | Some v => bool_decide (to_ascii_lowercase (trim v) ∈ ["1"; "true"; "yes"; "on"])
  | None => is_prod
  end.

(** [.ok().and_then(parse).filter(finite and positive).unwrap_or(2.0)]. *)
Definition transparency_timeout (env : Env) : f64 :=
  default (f64_of_Z 2)
    (v ← env "QORCH_KERNEL_TRANSPARENCY_TIMEOUT_S" ≫= parse_f64;
     if f64_is_finite v && f64_gt v (f64_of_Z 0) then Some v else None).

Definition kernel_settings (env : Env) : res string KernelSettings :=
  let env_lower := to_ascii_lowercase (trim (default "dev" (env "QORCH_ENV"))) in
  let is_prod := is_prod_name env_lower in
  let? key_backend := key_backend_parse (default "" (env "KERNEL_KEY_BACKEND")) in
  let project := non_blank env "KERNEL_KEY_GCP_PROJECT" in
  let secret := non_blank env "KERNEL_KEY_GCP_SECRET" in
  let? signing_key := kernel_signing_key env key_backend is_prod project secret in
  let? pepper := required env "QORCH_KERNEL_AUDIT_PEPPER_B64" in
  if is_empty (trim pepper) then Err "missing QORCH_KERNEL_AUDIT_PEPPER_B64" else
  let worker := non_blank env "QORCH_KERNEL_API_KEY_WORKER" in
  let api := non_blank env "QORCH_KERNEL_API_KEY_API" in
  let operator := non_blank env "QORCH_KERNEL_API_KEY_OPERATOR" in
  if negb (is_set worker) then Err "missing QORCH_KERNEL_API_KEY_WORKER" else
  if negb (is_set api) then Err "missing QORCH_KERNEL_API_KEY_API" else
  if is_prod && negb (is_set operator)
  then Err "missing QORCH_KERNEL_API_KEY_OPERATOR (required in prod)" else
  let tls_cert := non_blank env "QORCH_KERNEL_TLS_CERT" in
  let tls_key := non_blank env "QORCH_KERNEL_TLS_KEY" in
  let enabled := transparency_flag env is_prod in
  let log_url := non_blank env "QORCH_KERNEL_TRANSPARENCY_LOG_URL" in
  let log_key := non_blank env "QORCH_KERNEL_TRANSPARENCY_API_KEY" in
  if enabled && is_prod && (negb (is_set log_url) || negb (is_set log_key))
  then Err "fail-closed: QORCH_ENV=prod + transparency_enabled requires QORCH_KERNEL_TRANSPARENCY_LOG_URL and QORCH_KERNEL_TRANSPARENCY_API_KEY to be set ()" else
  let client_cert := non_blank env "QORCH_KERNEL_TRANSPARENCY_CLIENT_CERT" in
  let client_key := non_blank env "QORCH_KERNEL_TRANSPARENCY_CLIENT_KEY" in
  if enabled && is_prod && (negb (is_set client_cert) || negb (is_set client_key))
  then Err "fail-closed: QORCH_ENV=prod + transparency_enabled requires QORCH_KERNEL_TRANSPARENCY_CLIENT_CERT and QORCH_KERNEL_TRANSPARENCY_CLIENT_KEY to be set so the kernel presents a client cert on the mTLS handshake ( / )" else
  Ok {|
    ks_env := env_lower;
    ks_db_backend := to_ascii_lowercase
      (default "postgres" (first_set env ["QORCH_KERNEL_DB_BACKEND"; "QORCH_DB_BACKEND"]));
    ks_db_path := default ".qorch/kernel_audit.sqlite3" (env "QORCH_KERNEL_DB_PATH");
    ks_pg_dsn := first_set env ["QORCH_KERNEL_PG_DSN"; "QORCH_PG_DSN_CONTAINER"; "QORCH_PG_DSN_HOST";
                                "QORCH_PG_DSN"; "DATABASE_URL"];
    ks_auth_mode := to_ascii_lowercase (default "api_key" (env "QORCH_KERNEL_AUTH_MODE"));
    ks_api_key_worker := worker; ks_api_key_api := api; ks_api_key_operator := operator;
    ks_api_key_reaper := non_blank env "QORCH_KERNEL_API_KEY_REAPER";
    ks_signing_key_b64 := signing_key; ks_key_backend := key_backend;
    ks_key_gcp_project := project; ks_key_gcp_secret := secret;
    ks_key_gcp_secret_version := default "latest" (non_blank env "KERNEL_KEY_GCP_SECRET_VERSION");
    ks_audit_pepper_b64 := trim pepper;
    ks_default_token_ttl_s := ttl env "QORCH_KERNEL_TOKEN_TTL_S" 60 1;
    ks_max_token_ttl_s := ttl env "QORCH_KERNEL_MAX_TOKEN_TTL_S" 300 1;
    ks_approval_token_ttl_s := ttl env "QORCH_KERNEL_APPROVAL_TOKEN_TTL_S" (365 * 24 * 60 * 60) 60;
    ks_revoke_token_ttl_s := ttl env "QORCH_KERNEL_REVOKE_TOKEN_TTL_S" 120 30;
    ks_build_version := default "0.0.0-dev" (env "QORCH_KERNEL_BUILD_VERSION");
    ks_listen_addr := default "0.0.0.0:9000" (env "QORCH_KERNEL_LISTEN_ADDR");
    ks_policy_sock_path := default "/var/run/qorch/safety_policy.sock" (env "QORCH_KERNEL_POLICY_SOCK");
    ks_tls_cert_path := tls_cert; ks_tls_key_path := tls_key;
    ks_tls_client_ca_path := non_blank env "QORCH_KERNEL_CLIENT_CA_PEM";
    ks_tls_sni := default "safety-kernel-rust.internal" (env "QORCH_KERNEL_SNI");
    ks_tls_enable := is_set tls_cert && is_set tls_key;
    ks_transparency_enabled := enabled;
    ks_transparency_log_url := log_url; ks_transparency_log_api_key := log_key;
    ks_transparency_log_timeout_seconds := transparency_timeout env;
    ks_transparency_log_client_cert_path := client_cert;
    ks_transparency_log_client_key_path := client_key |}.

Definition kernel_is_prod (s : KernelSettings) : bool := is_prod_name (ks_env s).

(** *** What a configuration that was accepted guarantees *)

Definition kernel_env_name (env : Env) : string := to_ascii_lowercase (trim (default "dev" (env "QORCH_ENV"))).

Lemma non_blank_some env k v : non_blank env k = Some v <-> env k = Some v /\ is_empty (trim v) = false.
Proof.
  unfold non_blank. destruct (env k) as [w|]; simpl; [|naive_solver].
  destruct (is_empty (trim w)) eqn:E; split; [done|intros [[= ->] ?]; congruence|by intros [= ->]|by intros [[= ->] ?]].
Qed.

Lemma is_set_some {A} (o : option A) : is_set o = true <-> exists a, o = Some a.
Proof. destruct o; naive_solver. Qed.

(** The accepted settings, field by field where a check stands behind the field. *)
Lemma kernel_settings_ok env s :
  kernel_settings env = Ok s ->
  ks_env s = kernel_env_name env /\
  key_backend_parse (default "" (env "KERNEL_KEY_BACKEND")) = Ok (ks_key_backend s) /\
  kernel_signing_key env (ks_key_backend s) (kernel_is_prod s) (ks_key_gcp_project s) (ks_key_gcp_secret s) =
    Ok (ks_signing_key_b64 s) /\
  is_empty (ks_audit_pepper_b64 s) = false /\
  is_set (ks_api_key_worker s) = true /\ is_set (ks_api_key_api s) = true /\
  ks_api_key_operator s = non_blank env "QORCH_KERNEL_API_KEY_OPERATOR" /\
  (kernel_is_prod s = true -> is_set (ks_api_key_operator s) = true) /\
  ks_transparency_enabled s = transparency_flag env (kernel_is_prod s) /\
  ks_transparency_log_api_key s = non_blank env "QORCH_KERNEL_TRANSPARENCY_API_KEY" /\
  (ks_transparency_enabled s = true -> kernel_is_prod s = true ->
     is_set (ks_transparency_log_url s) = true /\ is_set (ks_transparency_log_api_key s) = true /\
     is_set (ks_transparency_log_client_cert_path s) = true /\
     is_set (ks_transparency_log_client_key_path s) = true) /\
  ks_tls_enable s = is_set (ks_tls_cert_path s) && is_set (ks_tls_key_path s) /\
  ks_default_token_ttl_s s = ttl env "QORCH_KERNEL_TOKEN_TTL_S" 60 1 /\
  ks_max_token_ttl_s s = ttl env "QORCH_KERNEL_MAX_TOKEN_TTL_S" 300 1 /\
  ks_approval_token_ttl_s s = ttl env "QORCH_KERNEL_APPROVAL_TOKEN_TTL_S" (365 * 24 * 60 * 60) 60 /\
  ks_revoke_token_ttl_s s = ttl env "QORCH_KERNEL_REVOKE_TOKEN_TTL_S" 120 30 /\
  ks_transparency_log_timeout_seconds s = transparency_timeout env.
Proof.
  unfold kernel_settings. intros (kb & Hkb & Hs)%res_bind_Ok.
  step Hs as (sk & Hsk & Hs). step Hs as (pepper & _ & Hs).
  destruct (is_empty (trim pepper)) eqn:Hpe; [done|].
  destruct (is_set (non_blank env "QORCH_KERNEL_API_KEY_WORKER")) eqn:Hw; [|done]. simpl in Hs.
  destruct (is_set (non_blank env "QORCH_KERNEL_API_KEY_API")) eqn:Ha; [|done]. simpl in Hs.
  match type of Hs with (if ?b && _ then _ else _) = _ => destruct (b && _) eqn:Hop; [done|] end.
  match type of Hs with (if ?b then _ else _) = _ => destruct b eqn:Hu; [done|] end.
  match type of Hs with (if ?b then _ else _) = _ => destruct b eqn:Hc; [done|] end.
  injection Hs as <-. unfold kernel_is_prod. cbn. fold (kernel_env_name env) in *.
  split_and!; try done.
  - intros Hp. rewrite Hp in Hop. by apply negb_false_iff in Hop.
  - intros He Hp. rewrite Hp in Hu, Hc, He. rewrite He in Hu, Hc. simpl in Hu, Hc.
    apply orb_false_iff in Hu as [Hu1 Hu2], Hc as [Hc1 Hc2].
    by split_and!; apply negb_false_iff.
Qed.

Lemma parse_i64_range s z : parse_i64 s = Some z -> (- 2 ^ 63 <= z < 2 ^ 63)%Z.
Proof.
  unfold parse_i64. destruct s as [|a s]; [done|]. destruct (Ascii.eqb a "-"%char).
  - destruct (is_empty s); [done|]. destruct (parse_digits 0 s) as [n|]; [|done]. simpl.
    destruct (N.leb_spec n 9223372036854775808); [|done]. intros [= <-]. lia.
  - destruct (parse_u64 _) as [n|]; [|done]. cbn [mbind option_bind].
    destruct (N.leb_spec n 9223372036854775807); [|done]. intros [= <-]. lia.
Qed.

Lemma ttl_range env k d floor :
  (floor <= d < 2 ^ 63)%Z -> (floor <= ttl env k d floor < 2 ^ 63)%Z.
Proof.
  intros Hd. unfold ttl. destruct (env k ≫= parse_i64) as [z|] eqn:E; simpl; [|lia].
  destruct (env k) as [v|]; [|done]. apply parse_i64_range in E. lia.
Qed.

Lemma transparency_timeout_ok env :
  f64_is_finite (transparency_timeout env) = true /\ f64_gt (transparency_timeout env) (f64_of_Z 0) = true.
Proof.
  unfold transparency_timeout. destruct (env _ ≫= parse_f64) as [v|]; [|done].
  cbn [mbind option_bind]. by destruct (f64_is_finite v) eqn:E1, (f64_gt v (f64_of_Z 0)) eqn:E2.
Qed.

(** C33.  The kernel's numbers are in range whatever the environment says: once the
    settings are accepted, a token lives at least 1, 1, 60 and 30 seconds by default,
    at most, for an approval and for a revocation, never more than an [i64] holds, and
    the timeout of the transparency log is a positive finite number -- unparsable,
    negative, infinite and overflowing values fall back to a default. *)
Theorem kernel_settings_bounds env s :
  kernel_settings env = Ok s ->
  (1 <= ks_default_token_ttl_s s < 2 ^ 63)%Z /\ (1 <= ks_max_token_ttl_s s < 2 ^ 63)%Z /\
  (60 <= ks_approval_token_ttl_s s < 2 ^ 63)%Z /\ (30 <= ks_revoke_token_ttl_s s < 2 ^ 63)%Z /\
  f64_is_finite (ks_transparency_log_timeout_seconds s) = true /\
  f64_gt (ks_transparency_log_timeout_seconds s) (f64_of_Z 0) = true.
Proof.
  intros (_ & _ & _ & _ & _ & _ & _ & _ & _ & _ & _ & _ & -> & -> & -> & -> & ->)%kernel_settings_ok.
  destruct (transparency_timeout_ok env). by split_and!; try (apply ttl_range; lia).
Qed.

(** ** The transparency log *)

Record LogSettings := {
  ls_env : string;
  ls_listen_addr : string;
  ls_db_url : option string;
  ls_signing_key_b64 : string;
  ls_kernel_verifying_key_b64 : string;
  ls_api_key : string;
  ls_tls_cert_path : option string;
  ls_tls_key_path : option string;
  ls_tls_client_ca_path : option string;
  ls_tls_enable : bool;
  ls_transparency_log_ed25519_private_hex : option string;
  ls_wave_session_detail_sqlite_path : option string;
  ls_mcp_audit_ed25519_public_hex : option string;
  ls_reconciler_drift_ed25519_public_hex : option string;
  ls_kernel_hmac_key_b64 : option string;
  ls_per_skill_keys : option PerSkillKeys
}.

(** The name of the environment is not trimmed here. *)
Definition log_settings (env : Env) : res string LogSettings :=
  let env_lower := to_ascii_lowercase (default "dev" (env "QORCH_ENV")) in
  let is_prod := is_prod_name env_lower in
  let get := trimmed_non_empty env in
  let db_url := get "QORCH_TRANSPARENCY_DB_URL" in
  let? signing_key := ok_or "missing QORCH_TRANSPARENCY_SIGNING_KEY_B64"
                        (get "QORCH_TRANSPARENCY_SIGNING_KEY_B64") in
  let? kernel_key := ok_or "missing QORCH_TRANSPARENCY_KERNEL_VERIFYING_KEY_B64"
                       (get "QORCH_TRANSPARENCY_KERNEL_VERIFYING_KEY_B64") in
  let api_key := default "" (get "QORCH_TRANSPARENCY_API_KEY") in
  if is_prod && is_empty api_key then Err "missing QORCH_TRANSPARENCY_API_KEY (required in prod)" else
  let tls_cert := get "QORCH_TRANSPARENCY_TLS_CERT_PATH" in
  let tls_key := get "QORCH_TRANSPARENCY_TLS_KEY_PATH" in
  let tls_enable := is_set tls_cert && is_set tls_key in
  if is_prod && negb tls_enable
  then Err "fail-closed: QORCH_ENV=prod requires QORCH_TRANSPARENCY_TLS_CERT_PATH and QORCH_TRANSPARENCY_TLS_KEY_PATH to be set" else
  if is_prod && negb (is_set db_url)
  then Err "fail-closed: QORCH_ENV=prod requires QORCH_TRANSPARENCY_DB_URL to be set" else
  let private := get "QORCH_TRANSPARENCY_LOG_ED25519_PRIVATE" in
  if is_prod && negb (is_set private)
  then Err "fail-closed: QORCH_ENV=prod requires QORCH_TRANSPARENCY_LOG_ED25519_PRIVATE to be set (internal-ref)" else
  let mcp := get "QORCH_TRANSPARENCY_MCP_AUDIT_ED25519_PUBLIC" in
  if is_prod && negb (is_set mcp)
  then Err "fail-closed: QORCH_ENV=prod requires QORCH_TRANSPARENCY_MCP_AUDIT_ED25519_PUBLIC to be set (internal-ref)" else
  Ok {|
    ls_env := env_lower;
    ls_listen_addr := default "0.0.0.0:8100" (env "QORCH_TRANSPARENCY_LISTEN_ADDR");
    ls_db_url := db_url; ls_signing_key_b64 := signing_key; ls_kernel_verifying_key_b64 := kernel_key;
    ls_api_key := api_key; ls_tls_cert_path := tls_cert; ls_tls_key_path := tls_key;
    ls_tls_client_ca_path := get "QORCH_TRANSPARENCY_TLS_CLIENT_CA_PATH"; ls_tls_enable := tls_enable;
    ls_transparency_log_ed25519_private_hex := private;
    ls_wave_session_detail_sqlite_path := get "QORCH_TRANSPARENCY_WAVE_DETAIL_SQLITE_PATH";
    ls_mcp_audit_ed25519_public_hex := mcp;
    ls_reconciler_drift_ed25519_public_hex := get "QORCH_TRANSPARENCY_RECONCILER_DRIFT_ED25519_PUBLIC";
    ls_kernel_hmac_key_b64 := get "QORCH_TRANSPARENCY_KERNEL_HMAC_KEY_B64";
    ls_per_skill_keys := from_env_source env |}.

(** ** The reaper *)

Section ReaperConfig.
Context `{Hex}.

Record ReaperConfig := {
  rp_kernel_url : string;
  rp_reaper_api_key : string;
  rp_pinned_pubkey : array 32;
  rp_target : InstanceTarget;
  rp_poll_interval_s : f64;
  rp_liveness_deadline_s : f64;
  rp_armed : bool;
  rp_scratch : option InstanceTarget;
  rp_protected_instances : list ProtectedCoord;
  rp_tlog_url : option string;
  rp_tlog_api_key : option string;
  rp_kernel_ca_path : option string
}.

Inductive ReaperConfigError :=
| Missing (what : string)
| PinnedKey (why : string)
| ProtectedEntry (why : string)
| ArmedWithoutScratch.

(** [fs::read_to_string], with the error's text. *)
Definition FileSystem := string -> string + string.

Definition load_pinned_key (env : Env) (fs : FileSystem) : res ReaperConfigError (array 32) :=
  let? hex_str :=
    match non_blank env "REAPER_PINNED_KEY_HEX" with
    | Some h => Ok h
    | None =>
      match non_blank env "REAPER_PINNED_KEY_PATH" with
      | Some path =>
        match fs path with
        | inl e => Err (PinnedKey ("read " +:+ path +:+ ": " +:+ e))
        | inr content => Ok content
        end
      | None => Err (Missing "REAPER_PINNED_KEY_HEX or REAPER_PINNED_KEY_PATH")
      end
    end in
  match hex_decode (trim hex_str) with
  | inl e => Err (PinnedKey ("hex decode: " +:+ e))
  | inr bytes =>
    if negb (length bytes =? 32)%nat
    then Err (PinnedKey ("expected 32 bytes, got " +:+ u64_to_string (nlen bytes)))
    else Ok (array_of 32 bytes)
  end.

(** One entry between commas; the debug text of a refused entry is [debug]. *)
Definition protected_entry (debug : string -> string) (entry : string)
    : res ReaperConfigError (option ProtectedCoord) :=
  let entry := trim entry in
  if is_empty entry then Ok None else
  let (project, instance) :=
    match splitn2 "/"%char entry with
    | (p, Some i) => (trim p, trim i)
    | (p, None) => (trim p, "")
    end in
  if is_empty project || is_empty instance
  then Err (ProtectedEntry (debug entry +:+ " (expected project/instance)"))
  else Ok (Some {| pc_project := project; pc_instance := instance |}).

Fixpoint protected_entries (debug : string -> string) (entries : list string)
    : res ReaperConfigError (list ProtectedCoord) :=
  match entries with
  | [] => Ok []
  | e :: entries =>
    let? here := protected_entry debug e in
    let? rest := protected_entries debug entries in
    Ok (match here with Some c => c :: rest | None => rest end)
  end.

Definition parse_protected_instances (debug : string -> string) (env : Env)
    : res ReaperConfigError (list ProtectedCoord) :=
  match non_blank env "REAPER_PROTECTED_INSTANCES" with
  | None => Ok []
  | Some raw => protected_entries debug (split_on ","%char raw)
  end.

Definition reaper_f64 (env : Env) (k : string) (default_value : f64) : f64 :=
  default default_value (non_blank env k ≫= parse_f64).

Definition need (env : Env) (k what : string) : res ReaperConfigError string :=
  ok_or (Missing what) (non_blank env k).

Definition reaper_config (debug : string -> string) (env : Env) (fs : FileSystem)
    : res ReaperConfigError ReaperConfig :=
  let? kernel_url := need env "REAPER_KERNEL_URL" "REAPER_KERNEL_URL" in
  let key_env := default "QORCH_KERNEL_API_KEY_REAPER" (non_blank env "REAPER_API_KEY_ENV") in
  let? api_key := need env key_env (key_env +:+ " (reaper API key)") in
  let? pinned := load_pinned_key env fs in
  let? project := need env "REAPER_TARGET_PROJECT" "REAPER_TARGET_PROJECT" in
  let? zone := need env "REAPER_TARGET_ZONE" "REAPER_TARGET_ZONE" in
  let? instance := need env "REAPER_TARGET_INSTANCE" "REAPER_TARGET_INSTANCE" in
  let armed := match non_blank env "REAPER_ARMED" with
               | Some v => String.eqb (to_ascii_lowercase v) "true"
               | None => false
               end in
  let scratch :=
    p ← non_blank env "REAPER_SCRATCH_PROJECT";
    z ← non_blank env "REAPER_SCRATCH_ZONE";
    i ← non_blank env "REAPER_SCRATCH_INSTANCE";
    Some {| Revoke.project := p; Revoke.zone := z; Revoke.instance := i |} in
  if armed && negb (is_set scratch) then Err ArmedWithoutScratch else
  let? protected_instances := parse_protected_instances debug env in
  let tlog_url := non_blank env "REAPER_TLOG_URL" in
  let tlog_api_key :=
    _ ← tlog_url;
    non_blank env (default "QORCH_TRANSPARENCY_API_KEY" (non_blank env "REAPER_TLOG_API_KEY_ENV")) in
  Ok {| rp_kernel_url := kernel_url; rp_reaper_api_key := api_key; rp_pinned_pubkey := pinned;
        rp_target := {| Revoke.project := project; Revoke.zone := zone; Revoke.instance := instance |};
        rp_poll_interval_s := reaper_f64 env "REAPER_POLL_INTERVAL_S" (f64_of_Z 15);
        rp_liveness_deadline_s := reaper_f64 env "REAPER_LIVENESS_DEADLINE_S" (f64_of_Z 300);
        rp_armed := armed; rp_scratch := scratch; rp_protected_instances := protected_instances;
        rp_tlog_url := tlog_url; rp_tlog_api_key := tlog_api_key;
        rp_kernel_ca_path := non_blank env "REAPER_KERNEL_CA_PATH" |}.

(** An accepted reaper configuration is armed only with a complete scratch target,
    and no part of its targets or of a protected entry is blank. *)
Definition target_named (t : InstanceTarget) : Prop :=
  Forall (fun s => is_empty (trim s) = false) [Revoke.project t; Revoke.zone t; Revoke.instance t].

Lemma need_ok env k what v : need env k what = Ok v -> is_empty (trim v) = false.
Proof. unfold need. destruct (non_blank env k) as [w|] eqn:E; [|done]. intros [= <-]. by apply non_blank_some in E as []. Qed.

Lemma protected_entries_ok debug entries l :
  protected_entries debug entries = Ok l ->
  Forall (fun c => pc_project c <> "" /\ pc_instance c <> "") l.
Proof.
  revert l. induction entries as [|e entries IH]; intros l; simpl; [by intros [= <-]|].
  intros (here & Hh & Hr)%res_bind_Ok. step Hr as (rest & Hrest%IH & [= <-]).
  destruct here as [c|]; [|done]. apply Forall_cons. split; [|done].
  unfold protected_entry in Hh. destruct (is_empty (trim e)); [done|].
  destruct (splitn2 _ _) as [p [i|]].
  - destruct (is_empty (trim p)) eqn:E1; [done|]. destruct (is_empty (trim i)) eqn:E2; [done|].
    injection Hh as <-. simpl. split; by intros E; rewrite E in *.
  - by rewrite orb_true_r in Hh.
Qed.

Lemma reaper_config_ok debug env fs c :
  reaper_config debug env fs = Ok c ->
  target_named (rp_target c) /\ (rp_armed c = true -> exists t, rp_scratch c = Some t /\ target_named t) /\
  Forall (fun p => pc_project p <> "" /\ pc_instance p <> "") (rp_protected_instances c).
Proof.
  unfold reaper_config. intros (url & _ & Hr)%res_bind_Ok. step Hr as (key & _ & Hr).
  step Hr as (pk & _ & Hr). step Hr as (p & Hp%need_ok & Hr).
  step Hr as (z & Hz%need_ok & Hr). step Hr as (i & Hi%need_ok & Hr).
  match type of Hr with (if ?b then _ else _) = _ => destruct b eqn:Harm; [done|] end.
  step Hr as (l & Hl & [= <-]). cbn.
  split; [by repeat constructor|]. split.
  - intros Ha. rewrite Ha in Harm. apply negb_false_iff, is_set_some in Harm as [t Ht].
    exists t. split; [done|].
    destruct (non_blank env "REAPER_SCRATCH_PROJECT") as [sp|] eqn:E1; [|done]. cbn in Ht.
    destruct (non_blank env "REAPER_SCRATCH_ZONE") as [sz|] eqn:E2; [|done]. cbn in Ht.
    destruct (non_blank env "REAPER_SCRATCH_INSTANCE") as [si|] eqn:E3; [|done]. injection Ht as <-.
    apply non_blank_some in E1 as [_ ?], E2 as [_ ?], E3 as [_ ?]. by repeat constructor.
  - unfold parse_protected_instances in Hl. destruct (non_blank env "REAPER_PROTECTED_INSTANCES"); [|by injection Hl as <-].
    by apply protected_entries_ok in Hl.
Qed.

End ReaperConfig.

(** ** Witnesses *)

Module Demo.

Definition env_of (l : list (string * string)) : Env :=
  fun k => snd <$> List.find (fun kv => String.eqb (fst kv) k) l.

Definition dev_env : Env := env_of
  [("QORCH_KERNEL_SIGNING_KEY_B64", " seed "); ("QORCH_KERNEL_AUDIT_PEPPER_B64", "pepper");
   ("QORCH_KERNEL_API_KEY_WORKER", "w"); ("QORCH_KERNEL_API_KEY_API", "a");
   ("QORCH_KERNEL_TOKEN_TTL_S", "-5"); ("QORCH_KERNEL_REVOKE_TOKEN_TTL_S", "99999999999999999999");
   ("QORCH_KERNEL_TRANSPARENCY_TIMEOUT_S", "inf")].

Lemma kernel_settings_bounds_witness : exists s,
  kernel_settings dev_env = Ok s /\ ks_default_token_ttl_s s = 1%Z /\ ks_revoke_token_ttl_s s = 120%Z /\
  f64_gt (ks_transparency_log_timeout_seconds s) (f64_of_Z 0) = true.
Proof.
  destruct (kernel_settings dev_env) as [s|e|] eqn:E; [|vm_compute in E; discriminate E..].
  exists s. split; [reflexivity|].
  assert (ks_default_token_ttl_s s = 1%Z /\ ks_revoke_token_ttl_s s = 120%Z) as [-> ->].
  { vm_compute in E. injection E as <-. by split. }
  split; [reflexivity|]. split; [reflexivity|].
  apply (kernel_settings_bounds dev_env s E).
Defined.

(** The kernel reads a padded environment name as production, and refuses what
    production forbids; the log reads it as something else, and starts without a key,
    a certificate or a database. *)
Definition padded_prod : Env := env_of
  [("QORCH_ENV", " prod"); ("QORCH_TRANSPARENCY_SIGNING_KEY_B64", "k");
   ("QORCH_TRANSPARENCY_KERNEL_VERIFYING_KEY_B64", "v")].

Example log_does_not_trim_the_environment : exists s,
  log_settings padded_prod = Ok s /\ ls_api_key s = "" /\ ls_tls_enable s = false /\ ls_db_url s = None /\
  is_prod_name (kernel_env_name padded_prod) = true.
Proof. eexists. split; [vm_compute; reflexivity|by split_and!]. Qed.

(** Any other word than the four switches the transparency log off, in production
    too. *)
Example misspelt_flag_disables_transparency :
  transparency_flag (env_of [("QORCH_KERNEL_TRANSPARENCY_ENABLED", "enabled")]) true = false /\
  transparency_flag (env_of [("QORCH_KERNEL_TRANSPARENCY_ENABLED", "")]) true = false.
Proof. by split. Qed.

End Demo.
