(* ===== verification/Boot.v ===== *)
(** * Booting the kernel and the transparency log

    Models what the two [main]s do between reading their settings and listening:
    [crates/services/safety-kernel/src/main.rs] with [key_backend.rs] and
    [build_optional_client] of [transparency_client.rs], and
    [crates/services/transparency-log/src/main.rs] with the builder functions of
    [state.rs].  What the secret store, the file system and the TLS library answer
    at boot are [KernelBootAnswers] and [LogBootAnswers].  An error that ends the
    process carries its text, less the outer contexts [anyhow] prints around it; the
    reconstruction the log runs between its boot and its listener is
    [WaveRoutes.reconstruct_wave_sessions_from_ledger], which never stops it; the two
    together are in [LogRestart]. *)

From S2P Require Import Prelude RustStr Float64 Crates Merkle MerkleSpec HashTree Store Json Serde Token Revoke.
From S2P Require Import Async Sth Tlog PgStore Auth CircuitBreaker Client TlogClient.
From S2P Require Import WaveContext WaveSession WaveRoutes SideTable AuditRoutes Settings.

#[local] Open Scope string_scope.

(** [SigningKey::from_bytes], [SigningKey::to_bytes] and [VerifyingKey::to_bytes]. *)
Class Ed25519Keys `{Ed25519} := {
  signing_key_from_bytes : array 32 -> SigningKey;
  signing_key_to_bytes : SigningKey -> array 32;
  verifying_key_to_bytes : VerifyingKey -> array 32
}.

(** The answer to a request whose body is read as text. *)
Record TextResponse := { tr_status : N; tr_status_display : string; tr_body : string + string }.

(** [String::from_utf8]. *)
Definition string_from_utf8 (b : list byte) : option string :=
  let s := String.string_of_list_byte b in if utf8 s then Some s else None.

Section Boot.
Context `{Sha256} `{Ed25519} `{!Ed25519Keys} `{Hex} `{B64Url} `{B64Std} `{SerdeJson} `{Axum}.

(** Both [main]s' [b64url_decode]. *)
Definition boot_b64url (s : string) : res string (list byte) :=
  match b64url_engine_decode (trim_end_matches "="%char (trim s)) with
  | inl _ => Err "base64url decode failed"
  | inr b => Ok b
  end.

Definition bytes32 (wrong_length : string -> string) (b : list byte) : res string (array 32) :=
  if negb (length b =? 32)%nat then Err (wrong_length (u64_to_string (nlen b))) else Ok (array_of 32 b).

Definition must_be_32 (what got : string) : string := what +:+ " must be 32 bytes, got " +:+ got.

Definition fingerprint_of (pk : list byte) : string := hex_encode (arr_bytes (sha256 pk)).

(** [safety-kernel-keygen], for the key it generated: what it prints on the standard
    output, and the two lines on the standard error. *)
Definition keygen (signing : SigningKey) : string * (string * string) :=
  let seed_b64 := b64url_encode (arr_bytes (signing_key_to_bytes signing)) in
  let pk_raw := arr_bytes (verifying_key_to_bytes (verifying_key signing)) in
  let pk_b64 := b64url_encode pk_raw in
  let fp := hex_encode (arr_bytes (sha256 pk_raw)) in
  (seed_b64 +:+ String "010"%char "",
   ("public_key_b64url:   " +:+ pk_b64, "public_key_fp_sha256: " +:+ fp)).

(** ** The signing key *)

Record KernelBootAnswers := {
  ka_metadata : string + TextResponse;
  ka_secret : string -> string -> string + TextResponse;   (* URL and bearer token *)
  ka_identity : string -> string -> string + unit;          (* client certificate and key files *)
  ka_listen_addr_ok : bool;
  ka_tls : string -> string -> option string -> string + unit (* certificate, key, client CA *)
}.

Definition text_of (what : string) (r : string + TextResponse) : res string (N * string * string) :=
  match r with
  | inl e => Err (what +:+ " request failed: " +:+ e)
  | inr r =>
    match tr_body r with
    | inl e => Err ("reading " +:+ what +:+ ": " +:+ e)
    | inr body => Ok (tr_status r, tr_status_display r, body)
    end
  end.

Definition gcp_metadata_access_token (a : KernelBootAnswers) : res string string :=
  let? r := text_of "metadata token" (ka_metadata a) in
  let '(status, display, body) := r in
  if negb (is_success status) then Err ("GCP metadata server returned " +:+ display +:+ ": " +:+ body) else
  match serde_from_slice (as_bytes body) with
  | inl e => Err ("parsing metadata token JSON: " +:+ e)
  | inr v => ok_or "metadata token response missing access_token" (vget "access_token" v ≫= as_str)
  end.

Definition secret_url (project secret version : string) : string :=
  "https://secretmanager.googleapis.com/v1/projects/" +:+ project +:+ "/secrets/" +:+ secret +:+
  "/versions/" +:+ version +:+ ":access".

Definition fetch_gcp_secret (a : KernelBootAnswers) (project secret version : string) : res string string :=
  let? token := gcp_metadata_access_token a in
  let? r := text_of "GCP Secret Manager :access" (ka_secret a (secret_url project secret version) token) in
  let '(status, display, body) := r in
  if negb (is_success status)
  then Err ("GCP Secret Manager returned " +:+ display +:+ " for secret '" +:+ secret +:+ "' (version '" +:+
            version +:+ "') in project '" +:+ project +:+ "': " +:+ body) else
  match serde_from_slice (as_bytes body) with
  | inl e => Err ("parsing GCP Secret Manager JSON: " +:+ e)
  | inr v =>
    let? data := ok_or "GCP Secret Manager response missing payload.data"
                   (p ← vget "payload" v; d ← vget "data" p; as_str d) in
    match b64std_decode data with
    | inl e => Err ("base64-decoding GCP Secret Manager payload.data: " +:+ e)
    | inr raw =>
      let? s := ok_or "GCP secret payload is not valid UTF-8 (expected a base64url seed string)"
                  (string_from_utf8 raw) in
      if is_empty (trim s)
      then Err ("GCP secret '" +:+ secret +:+ "' (version '" +:+ version +:+ "') is empty") else Ok (trim s)
    end
  end.

Definition resolve_signing_key_b64 (a : KernelBootAnswers) (s : KernelSettings) : res string string :=
  match ks_key_backend s with
  | KEnv => Ok (ks_signing_key_b64 s)
  | Gcp =>
    let? project := ok_or "KERNEL_KEY_BACKEND=gcp requires KERNEL_KEY_GCP_PROJECT" (ks_key_gcp_project s) in
    let? secret := ok_or "KERNEL_KEY_BACKEND=gcp requires KERNEL_KEY_GCP_SECRET" (ks_key_gcp_secret s) in
    fetch_gcp_secret a project secret (ks_key_gcp_secret_version s)
  | other =>
    Err ("KERNEL_KEY_BACKEND=" +:+ key_backend_name other +:+ " is not implemented in this build; see docs/deployment/key-management.md for the tracking issue. Refusing to fall back to the env var (fail-closed).")
  end.

(** ** The kernel *)

(** The client, and whether it presents a certificate. *)
Definition build_optional_client (a : KernelBootAnswers) (enabled : bool) (url api_key : option string)
    (kernel_key_fingerprint_hex : string) (cert key : option string)
    : res string (option (ReqwestTransparencyClient * bool)) :=
  if negb enabled then Ok None else
  match url with
  | None => Ok None
  | Some url =>
    let api_key := default "" api_key in
    if is_empty api_key then Ok None else
    let client := {| tc_base_url := url; tc_api_key := api_key;
                     tc_kernel_key_fingerprint_hex := kernel_key_fingerprint_hex |} in
    match cert, key with
    | Some cert, Some key =>
      match ka_identity a cert key with
      | inl e => Err e
      | inr _ => Ok (Some (client, true))
      end
    | _, _ => Ok (Some (client, false))
    end
  end.

Inductive Ingress := Rustls (mtls : bool) | Plaintext.

Record BootedKernel := {
  bk_settings : KernelSettings;
  bk_signing_key : SigningKey;
  bk_public_key_b64 : string;
  bk_public_key_fingerprint : string;
  bk_audit_pepper : list byte;
  bk_transparency_client : option (ReqwestTransparencyClient * bool);
  bk_ingress : Ingress
}.

(** [Duration::from_secs_f64] panics above [u64::MAX] seconds. *)
Definition duration_fits (x : f64) : bool := f64_lt x (f64_of_Z (2 ^ 64)).

Definition listen (a_tls : string -> string -> option string -> string + unit) (tls_enable : bool)
    (cert key ca : option string) : res string Ingress :=
  if tls_enable then
    let? cert := ok_or "tls_enable=true but tls_cert_path is None" cert in
    let? key := ok_or "tls_enable=true but tls_key_path is None" key in
    match a_tls cert key ca with
    | inl e => Err ("build rustls server config: " +:+ e)
    | inr _ => Ok (Rustls (is_set ca))
    end
  else Ok Plaintext.

Definition kernel_boot (env : Env) (a : KernelBootAnswers) : res string BootedKernel :=
  let? s := kernel_settings env in
  let? signing_key_b64 := resolve_signing_key_b64 a s in
  let? seed := boot_b64url signing_key_b64 in
  let? seed := bytes32 (must_be_32 "signing key seed") seed in
  let signing_key := signing_key_from_bytes seed in
  let public_key_raw := verifying_key_to_bytes (verifying_key signing_key) in
  let fingerprint := fingerprint_of (arr_bytes public_key_raw) in
  let? audit_pepper := boot_b64url (ks_audit_pepper_b64 s) in
  let? client :=
    if ks_transparency_enabled s then
      if negb (duration_fits (ks_transparency_log_timeout_seconds s)) then Panic else
      let? c := build_optional_client a true (ks_transparency_log_url s) (ks_transparency_log_api_key s)
                  fingerprint (ks_transparency_log_client_cert_path s)
                  (ks_transparency_log_client_key_path s) in
      if kernel_is_prod s && negb (is_set c)
      then Err "fail-closed: transparency_enabled=true in prod but no transparency-log client could be built (URL/key missing)"
      else Ok c
    else Ok None in
  if kernel_is_prod s && negb (ks_tls_enable s)
  then Err "fail-closed: QORCH_ENV=prod requires QORCH_KERNEL_TLS_CERT and QORCH_KERNEL_TLS_KEY to be set ( Addendum 2a §2)" else
  if negb (ka_listen_addr_ok a) then Err ("parse listen addr " +:+ ks_listen_addr s) else
  let? ingress := listen (ka_tls a) (ks_tls_enable s) (ks_tls_cert_path s) (ks_tls_key_path s)
                    (ks_tls_client_ca_path s) in
  Ok {| bk_settings := s; bk_signing_key := signing_key;
        bk_public_key_b64 := b64url_encode (arr_bytes public_key_raw);
        bk_public_key_fingerprint := fingerprint; bk_audit_pepper := audit_pepper;
        bk_transparency_client := client; bk_ingress := ingress |}.

(** ** The transparency log *)

(** The database of the ledger and that of the detail table. *)
Context {P D : Type} `{SqliteTable D} `{SqliteSchema D}.

Record LogBootAnswers := {
  la_postgres : string -> string + P; (* connecting to the database URL and migrating *)
  la_now : N;
  la_listen_addr_ok : bool;
  la_tls : string -> string -> option string -> string + unit
}.

Record BootedLog := {
  bl_settings : LogSettings;
  bl_store : Inner + P;
  bl_detail : D;
  bl_config : Config;
  bl_wave : WaveConfig;
  bl_audit_keys : AuditKeys;
  bl_ed25519_signing_key : option SigningKey;
  bl_ingress : Ingress
}.

(** An optional setting that is decoded when it is there. *)
Definition optional {A B} (f : A -> res string B) (o : option A) : res string (option B) :=
  match o with
  | None => Ok None
  | Some a => let? b := f a in Ok (Some b)
  end.

Definition hex32 (what s : string) : res string (array 32) :=
  match hex_decode (trim s) with
  | inl e => Err ("hex-decode " +:+ what +:+ ": " +:+ e)
  | inr b => bytes32 (fun got => what +:+ " must be 32 bytes hex (64 chars); got " +:+ got +:+ " bytes") b
  end.

(** The ledger: the database if one is named, and otherwise memory. *)
Definition open_store (a : LogBootAnswers) (db_url : option string) : res string (Inner + P) :=
  match db_url with
  | Some dsn => match la_postgres a dsn with inl e => Err e | inr db => Ok (inr db) end
  | None => Ok (inl mem_new)
  end.

(** The detail table: its file if one is named, and otherwise memory. *)
Definition open_side_table (path : option string) : res string D :=
  map_err (fun _ => "opening wave_session_detail sqlite")
    (match path with Some path => side_open path | None => side_in_memory end).

Definition log_boot (env : Env) (a : LogBootAnswers) : res string BootedLog :=
  let? s := log_settings env in
  let? seed := boot_b64url (ls_signing_key_b64 s) in
  let? seed := bytes32 (must_be_32 "signing key seed") seed in
  let signing_key := signing_key_from_bytes seed in
  let? kernel_pk := boot_b64url (ls_kernel_verifying_key_b64 s) in
  let? kernel_pk := bytes32 (must_be_32 "kernel verifying key") kernel_pk in
  let kernel_key_fingerprint := fingerprint_of (arr_bytes kernel_pk) in
  let? store := open_store a (ls_db_url s) in
  let? side_table := open_side_table (ls_wave_session_detail_sqlite_path s) in
  let? hmac_key := optional (fun k => let? b := boot_b64url k in bytes32 (must_be_32 "kernel HMAC key") b)
                     (ls_kernel_hmac_key_b64 s) in
  let? tl_seed := optional (hex32 "QORCH_TRANSPARENCY_LOG_ED25519_PRIVATE")
                    (ls_transparency_log_ed25519_private_hex s) in
  let? mcp_pk := optional (hex32 "QORCH_TRANSPARENCY_MCP_AUDIT_ED25519_PUBLIC")
                   (ls_mcp_audit_ed25519_public_hex s) in
  let? drift_pk := optional (hex32 "QORCH_TRANSPARENCY_RECONCILER_DRIFT_ED25519_PUBLIC")
                     (ls_reconciler_drift_ed25519_public_hex s) in
  if negb (la_listen_addr_ok a) then Err ("parse listen addr " +:+ ls_listen_addr s) else
  let? ingress := listen (la_tls a) (ls_tls_enable s) (ls_tls_cert_path s) (ls_tls_key_path s)
                    (ls_tls_client_ca_path s) in
  let tl_key := signing_key_from_bytes <$> tl_seed in
  let tl_pk := (fun k => arr_bytes (verifying_key_to_bytes (verifying_key k))) <$> tl_key in
  Ok {| bl_settings := s; bl_store := store; bl_detail := side_table;
        bl_config := {| signing_key := signing_key;
                        signing_key_fingerprint_hex :=
                          fingerprint_of (arr_bytes (verifying_key_to_bytes (verifying_key signing_key)));
                        kernel_key_fingerprint_hex := kernel_key_fingerprint |};
        bl_wave := {| wc_kernel_key_fingerprint_hex := kernel_key_fingerprint;
                      wc_kernel_hmac_key := from_option arr_bytes [] hmac_key;
                      wc_ed25519_public_key_hex := hex_encode <$> tl_pk;
                      wc_ed25519_key_fingerprint_hex := fingerprint_of <$> tl_pk;
                      wc_ed25519_generated_at_epoch_s := if is_set tl_key then la_now a else 0;
                      wc_per_skill_keys := ls_per_skill_keys s |};
        bl_audit_keys := {| mcp_audit_ed25519_key_fingerprint_hex :=
                              (fun pk => fingerprint_of (arr_bytes pk)) <$> mcp_pk;
                            reconciler_drift_ed25519_key_fingerprint_hex :=
                              (fun pk => fingerprint_of (arr_bytes pk)) <$> drift_pk |};
        bl_ed25519_signing_key := tl_key; bl_ingress := ingress |}.

(** ** What a process that listens guarantees *)

Lemma listen_ok a_tls enable cert key ca i :
  listen a_tls enable cert key ca = Ok i -> enable = true -> exists mtls, i = Rustls mtls.
Proof.
  unfold listen. intros Hl ->. step Hl as (c & _ & Hl).
  step Hl as (k & _ & Hl). destruct (a_tls c k ca); [done|]. injection Hl as <-. eauto.
Qed.

Lemma build_optional_client_some a url api fpr cert key c mtls :
  build_optional_client a true url api fpr cert key = Ok (Some (c, mtls)) ->
  tc_kernel_key_fingerprint_hex c = fpr /\ url = Some (tc_base_url c) /\ api = Some (tc_api_key c) /\
  tc_api_key c <> "" /\ mtls = is_set cert && is_set key.
Proof.
  unfold build_optional_client. simpl. destruct url as [url|]; [|done].
  destruct (is_empty (default "" api)) eqn:Ek; [done|].
  destruct api as [api|]; [|done]. simpl in Ek. apply is_empty_false in Ek.
  destruct cert as [cert|], key as [key|]; simpl; try (destruct (ka_identity a cert key); [done|]);
    intros [= <- <-]; by split_and!.
Qed.

(** The kernel that listens, field by field where a check stands behind the field. *)
Lemma kernel_boot_ok env a k :
  kernel_boot env a = Ok k ->
  kernel_settings env = Ok (bk_settings k) /\
  (exists text seed, resolve_signing_key_b64 a (bk_settings k) = Ok text /\ boot_b64url text = Ok seed /\
     length seed = 32%nat /\ bk_signing_key k = signing_key_from_bytes (array_of 32 seed)) /\
  bk_public_key_fingerprint k =
    fingerprint_of (arr_bytes (verifying_key_to_bytes (verifying_key (bk_signing_key k)))) /\
  match bk_transparency_client k with
  | Some (c, mtls) =>
    ks_transparency_enabled (bk_settings k) = true /\
    build_optional_client a true (ks_transparency_log_url (bk_settings k))
      (ks_transparency_log_api_key (bk_settings k)) (bk_public_key_fingerprint k)
      (ks_transparency_log_client_cert_path (bk_settings k))
      (ks_transparency_log_client_key_path (bk_settings k)) = Ok (Some (c, mtls))
  | None => kernel_is_prod (bk_settings k) = true -> ks_transparency_enabled (bk_settings k) = false
  end /\
  (kernel_is_prod (bk_settings k) = true -> exists mtls, bk_ingress k = Rustls mtls).
Proof.
  unfold kernel_boot. intros (s & Hs & Hk)%res_bind_Ok. step Hk as (text & Htext & Hk).
  step Hk as (seed & Hseed & Hk). step Hk as (seed' & Hseed' & Hk).
  unfold bytes32 in Hseed'. destruct (Nat.eqb_spec (length seed) 32) as [Hlen|]; [|done].
  injection Hseed' as <-. step Hk as (pepper & _ & Hk).
  step Hk as (client & Hc & Hk).
  destruct (kernel_is_prod s && negb (ks_tls_enable s)) eqn:Htls; [done|].
  destruct (ka_listen_addr_ok a); [|done]. simpl in Hk.
  step Hk as (ingress & Hi & [= <-]). cbn.
  split; [done|]. split; [by exists text, seed|]. split; [done|]. split.
  - destruct (ks_transparency_enabled s); [|injection Hc as <-; done].
    destruct (negb (duration_fits _)); [done|]. step Hc as (c & Hb & Hc).
    destruct (kernel_is_prod s && negb (is_set c)) eqn:Hset; [done|]. injection Hc as <-.
    destruct c as [[c mtls]|]; [done|]. intros Hp. by rewrite Hp in Hset.
  - intros Hp. rewrite Hp in Htls. apply negb_false_iff in Htls. by eapply listen_ok.
Qed.

(** What the listener was built from. *)
Lemma kernel_boot_listens env a k :
  kernel_boot env a = Ok k ->
  listen (ka_tls a) (ks_tls_enable (bk_settings k)) (ks_tls_cert_path (bk_settings k))
    (ks_tls_key_path (bk_settings k)) (ks_tls_client_ca_path (bk_settings k)) = Ok (bk_ingress k).
Proof.
  unfold kernel_boot. intros (s & _ & Hk)%res_bind_Ok. do 5 (step Hk as (? & _ & Hk)).
  destruct (kernel_is_prod s && negb (ks_tls_enable s)); [done|].
  destruct (ka_listen_addr_ok a); [|done]. simpl in Hk. by step Hk as (ingress & Hi & [= <-]).
Qed.

(** What [keygen] prints is the seed a kernel reads back, newline and all, and the
    fingerprint it prints is the one that kernel publishes. *)
Lemma keygen_seed_boots `{!B64UrlCorrect} env a (k : BootedKernel) (signing : SigningKey) :
  signing_key_from_bytes (signing_key_to_bytes signing) = signing ->
  kernel_boot env a = Ok k -> resolve_signing_key_b64 a (bk_settings k) = Ok (fst (keygen signing)) ->
  bk_signing_key k = signing /\
  snd (snd (keygen signing)) = "public_key_fp_sha256: " +:+ bk_public_key_fingerprint k.
Proof.
  intros Hlaw Hboot Hr. apply kernel_boot_ok in Hboot as (_ & (text & seed & Htext & Hseed & _ & Hkey) & Hfp & _).
  rewrite Hr in Htext. injection Htext as <-. cbn [fst keygen] in Hseed. unfold boot_b64url in Hseed.
  rewrite trim_line, b64url_no_pad, b64url_roundtrip in Hseed by apply b64url_plain. injection Hseed as <-.
  rewrite array_of_id, Hlaw in Hkey. split; [done|]. by rewrite Hfp, Hkey.
Qed.

(** C31.  A kernel that listens in production is fully armed: when the trimmed and
    lower-cased environment name says production and boot ends in a listener at all,
    the signing seed came from the secret manager and never from the environment, an
    operator key that is not blank is configured, the listener terminates TLS, and
    decisions go to a transparency log with an API key, the kernel's own key
    fingerprint and a client certificate -- unless the flag was set to a word other
    than the four that switch it on. *)
Theorem production_kernel_is_armed env a k :
  kernel_boot env a = Ok k -> is_prod_name (kernel_env_name env) = true ->
  ks_key_backend (bk_settings k) = Gcp /\
  (exists project secret text seed,
     fetch_gcp_secret a project secret (ks_key_gcp_secret_version (bk_settings k)) = Ok text /\
     boot_b64url text = Ok seed /\ bk_signing_key k = signing_key_from_bytes (array_of 32 seed)) /\
  (exists key, env "QORCH_KERNEL_API_KEY_OPERATOR" = Some key /\ is_empty (trim key) = false /\
     ks_api_key_operator (bk_settings k) = Some key) /\
  (exists mtls, bk_ingress k = Rustls mtls) /\
  match bk_transparency_client k with
  | Some (c, mtls) => mtls = true /\ tc_api_key c <> "" /\
      tc_kernel_key_fingerprint_hex c = bk_public_key_fingerprint k
  | None => exists v, env "QORCH_KERNEL_TRANSPARENCY_ENABLED" = Some v /\
      to_ascii_lowercase (trim v) ∉ ["1"; "true"; "yes"; "on"]
  end.
Proof.
  intros (Hs & (text & seed & Ht & Hseed & _ & Hkey) & _ & Hc & Htls)%kernel_boot_ok Hprod.
  pose proof (kernel_settings_ok _ _ Hs) as
    (Henv & _ & Hsk & _ & _ & _ & Hop & Hopset & Hflag & _ & Hlog & _).
  assert (kernel_is_prod (bk_settings k) = true) as Hp by (unfold kernel_is_prod; by rewrite Henv).
  rewrite Hp in Hsk. specialize (Htls Hp). specialize (Hopset Hp).
  assert (ks_key_backend (bk_settings k) = Gcp) as Hb.
  { destruct (ks_key_backend (bk_settings k)); done. }
  split; [done|]. split; [|split; [|split; [done|]]].
  - unfold resolve_signing_key_b64 in Ht. rewrite Hb in Ht.
    step Ht as (p & _ & Ht). step Ht as (sec & _ & Ht). by exists p, sec, text, seed.
  - apply is_set_some in Hopset as [key Hk]. exists key. rewrite Hop in Hk.
    apply non_blank_some in Hk as Hk'. destruct Hk'. by rewrite Hop.
  - destruct (bk_transparency_client k) as [[c mtls]|].
    + destruct Hc as [He Hc%build_optional_client_some].
      destruct (Hlog He Hp) as (_ & _ & Hcert & Hck). rewrite Hcert, Hck in Hc. naive_solver.
    + specialize (Hc Hp). rewrite Hflag, Hp in Hc. unfold transparency_flag in Hc.
      destruct (env "QORCH_KERNEL_TRANSPARENCY_ENABLED") as [v|]; [|done]. exists v. split; [done|].
      by apply bool_decide_eq_false in Hc.
Qed.

Lemma log_settings_prod env s :
  log_settings env = Ok s -> is_prod_name (ls_env s) = true ->
  ls_api_key s <> "" /\ ls_tls_enable s = true /\ is_set (ls_db_url s) = true /\
  is_set (ls_transparency_log_ed25519_private_hex s) = true /\ is_set (ls_mcp_audit_ed25519_public_hex s) = true.
Proof.
  unfold log_settings. intros (sk & _ & Hs)%res_bind_Ok. step Hs as (kk & _ & Hs).
  repeat match type of Hs with (if ?b then _ else _) = _ => destruct b eqn:?; [done|] end.
  injection Hs as <-. cbn. intros Hp. rewrite Hp in *. simpl in *.
  repeat match goal with H : negb _ = false |- _ => apply negb_false_iff in H end.
  split_and!; try done. by apply is_empty_false.
Qed.

(** The log that listens. *)
Lemma log_boot_ok env a l :
  log_boot env a = Ok l ->
  log_settings env = Ok (bl_settings l) /\
  (exists kernel_pk, boot_b64url (ls_kernel_verifying_key_b64 (bl_settings l)) = Ok kernel_pk /\
     length kernel_pk = 32%nat /\ kernel_key_fingerprint_hex (bl_config l) = fingerprint_of kernel_pk) /\
  (is_set (ls_transparency_log_ed25519_private_hex (bl_settings l)) = true ->
     is_set (wc_ed25519_key_fingerprint_hex (bl_wave l)) = true) /\
  (is_set (ls_mcp_audit_ed25519_public_hex (bl_settings l)) = true ->
     is_set (mcp_audit_ed25519_key_fingerprint_hex (bl_audit_keys l)) = true) /\
  (ls_tls_enable (bl_settings l) = true -> exists mtls, bl_ingress l = Rustls mtls).
Proof.
  unfold log_boot. intros (s & Hs & Hl)%res_bind_Ok. step Hl as (seed & _ & Hl).
  step Hl as (seed' & _ & Hl). step Hl as (pk & Hpk & Hl).
  step Hl as (pk' & Hpk' & Hl).
  unfold bytes32 in Hpk'. destruct (Nat.eqb_spec (length pk) 32) as [Hlen|]; [|done]. injection Hpk' as <-.
  step Hl as (store & _ & Hl). step Hl as (side_table & _ & Hl).
  step Hl as (hk & _ & Hl). step Hl as (tl & Htl & Hl).
  step Hl as (mcp & Hmcp & Hl). step Hl as (drift & _ & Hl).
  destruct (la_listen_addr_ok a); [|done]. simpl in Hl.
  step Hl as (ingress & Hi & [= <-]).
  cbn [bl_settings bl_config bl_wave bl_audit_keys bl_ingress kernel_key_fingerprint_hex
       wc_ed25519_key_fingerprint_hex mcp_audit_ed25519_key_fingerprint_hex].
  split; [done|]. split. { exists pk. by rewrite resize_all_alt. }
  split_and!.
  - unfold optional in Htl. destruct (ls_transparency_log_ed25519_private_hex s); [|done]. intros _.
    step Htl as (x & _ & [= <-]). done.
  - unfold optional in Hmcp. destruct (ls_mcp_audit_ed25519_public_hex s); [|done]. intros _.
    step Hmcp as (x & _ & [= <-]). done.
  - intros He. by eapply listen_ok.
Qed.

(** What it opened, and the fingerprint it serves sessions under. *)
Lemma log_boot_opens env a l : log_boot env a = Ok l ->
  open_store a (ls_db_url (bl_settings l)) = Ok (bl_store l) /\
  open_side_table (ls_wave_session_detail_sqlite_path (bl_settings l)) = Ok (bl_detail l) /\
  exists pk, wc_kernel_key_fingerprint_hex (bl_wave l) = fingerprint_of pk.
Proof.
  unfold log_boot. intros (s & _ & Hl)%res_bind_Ok. step Hl as (seed & _ & Hl).
  step Hl as (seed' & _ & Hl). step Hl as (pk & _ & Hl). step Hl as (pk' & _ & Hl).
  step Hl as (store & Hst & Hl). step Hl as (side_table & Hsi & Hl).
  step Hl as (hk & _ & Hl). step Hl as (tl & _ & Hl).
  step Hl as (mcp & _ & Hl). step Hl as (drift & _ & Hl).
  destruct (la_listen_addr_ok a); [|done]. simpl in Hl.
  step Hl as (ingress & _ & [= <-]). cbn. eauto.
Qed.

(** A log that listens under the name of production is closed: it demands an API
    key that is not empty, keeps its ledger in the database, terminates TLS and has
    its own signing key and the pinned audit key installed.  The name is lower-cased
    but not trimmed. *)
Theorem production_log_is_closed env a l :
  log_boot env a = Ok l ->
  is_prod_name (to_ascii_lowercase (default "dev" (env "QORCH_ENV"))) = true ->
  ls_api_key (bl_settings l) <> "" /\ is_set (ls_db_url (bl_settings l)) = true /\
  (exists mtls, bl_ingress l = Rustls mtls) /\
  is_set (wc_ed25519_key_fingerprint_hex (bl_wave l)) = true /\
  is_set (mcp_audit_ed25519_key_fingerprint_hex (bl_audit_keys l)) = true.
Proof.
  intros (Hs & _ & Hed & Hmcp & Htls)%log_boot_ok Hp.
  assert (ls_env (bl_settings l) = to_ascii_lowercase (default "dev" (env "QORCH_ENV"))) as He.
  { unfold log_settings in Hs. step Hs as (? & _ & Hs). step Hs as (? & _ & Hs).
    repeat match type of Hs with (if ?b then _ else _) = _ => destruct b; [done|] end. by injection Hs as <-. }
  rewrite <-He in Hp. destruct (log_settings_prod _ _ Hs Hp) as (Hk & Ht & Hdb & Hprv & Hm). auto 10.
Qed.

(** ** The two services together *)

Context {St : Type} `{TransparencyStore St} `{!StoreLaws St} `{!HexCorrect} `{!B64UrlCorrect} `{!SerdeJsonCorrect}.

(** C32.  A kernel and a log booted for each other work together: when the log's
    environment names the public key of the booted kernel and the two were given the
    same API key, every decision the kernel's client appends over a network that
    delivers is in the ledger under its key -- or the ledger already holds another
    payload under it; no other answer is possible. *)
Theorem booted_services_agree envk ak k c mtls envl al l (w : World St) es i pk :
  kernel_boot envk ak = Ok k -> bk_transparency_client k = Some (c, mtls) ->
  log_boot envl al = Ok l ->
  pk = verifying_key_to_bytes (verifying_key (bk_signing_key k)) ->
  boot_b64url (ls_kernel_verifying_key_b64 (bl_settings l)) = Ok (arr_bytes pk) ->
  tc_api_key c = ls_api_key (bl_settings l) ->
  serves w es -> (nlen es < max_leaves)%N -> ti_payload i <> [] ->
  match log_client c (bl_config l) (ls_api_key (bl_settings l)) i w with
  | (Some (inr o), w') =>
      exists es' e, serves w' es' /\ es `prefix_of` es' /\
        es' !! N.to_nat (to_leaf_index o) = Some e /\
        ai_idempotency_key e = ti_idempotency_key i /\ ai_payload e = ti_payload i
  | (Some (inl TConflict), w') =>
      serves w' es /\ exists e, e ∈ es /\ ai_idempotency_key e = ti_idempotency_key i /\
        ai_payload e <> ti_payload i
  | _ => False
  end.
Proof.
  intros (_ & _ & Hf & Hc & _)%kernel_boot_ok Hsome (_ & (pk' & Hpk' & _ & Hfl) & _)%log_boot_ok ->
    Hpk Hkey Hserv Hlt Hne.
  rewrite Hsome in Hc. destruct Hc as [_ (Hfc & _ & _ & Hk & _)%build_optional_client_some].
  rewrite Hpk in Hpk'. injection Hpk' as <-.
  pose proof (log_client_append c (bl_config l) (ls_api_key (bl_settings l))
    (verifying_key_to_bytes (verifying_key (bk_signing_key k))) w es i Hserv Hlt ltac:(congruence) Hkey
    ltac:(by rewrite Hfc, Hf) Hfl Hne) as Ha.
  destruct (log_client _ _ _ _ _) as [[[[]|o]|] w']; try done.
  destruct Ha as (es' & e & ? & ? & _ & ? & ? & ?). by exists es', e.
Qed.

End Boot.

(** ** Witnesses *)

Module Demo.
Import Tlog.Demo.
#[local] Existing Instance demo_hash.
#[local] Existing Instance demo_ed25519.
#[local] Existing Instance demo_hex.
#[local] Existing Instance demo_b64.
#[local] Existing Instance DemoJson.demo_serde.
#[local] Existing Instance TlogClient.Demo.axum.
#[local] Instance std : B64Std := demo_hex_decode.
#[local] Instance keys : Ed25519Keys := {|
  signing_key_from_bytes := arr_bytes : array 32 -> @SigningKey demo_ed25519;
  signing_key_to_bytes := array_of 32 : @SigningKey demo_ed25519 -> array 32;
  verifying_key_to_bytes := fun vk : @VerifyingKey demo_ed25519 => array_of 32 vk |}.

Definition seed_b64 : string := hex_encode (arr_bytes (array_of 32 [x05])).

Example keygen_key_round_trips :
  let signing := signing_key_from_bytes (array_of 32 [x05]) in
  signing_key_from_bytes (signing_key_to_bytes signing) = signing.
Proof. by vm_compute. Qed.

Definition json_answer (v : Value) : string + TextResponse :=
  inr {| tr_status := 200; tr_status_display := "200 OK"; tr_body := inr (serde_to_string v) |}.

Definition kernel_answers : KernelBootAnswers := {|
  ka_metadata := json_answer (jobj [("access_token", Str "t")]);
  ka_secret := fun url token =>
    if String.eqb token "t"
    then json_answer (jobj [("payload", jobj [("data", Str (hex_encode (as_bytes seed_b64)))])])
    else inl "unauthorised";
  ka_identity := fun _ _ => inr tt; ka_listen_addr_ok := true; ka_tls := fun _ _ _ => inr tt |}.

Definition kernel_env : Env := Settings.Demo.env_of
  [("QORCH_ENV", " Prod "); ("KERNEL_KEY_BACKEND", "gcp"); ("KERNEL_KEY_GCP_PROJECT", "p");
   ("KERNEL_KEY_GCP_SECRET", "s"); ("QORCH_KERNEL_AUDIT_PEPPER_B64", "00");
   ("QORCH_KERNEL_API_KEY_WORKER", "w"); ("QORCH_KERNEL_API_KEY_API", "a");
   ("QORCH_KERNEL_API_KEY_OPERATOR", "o"); ("QORCH_KERNEL_TLS_CERT", "cert");
   ("QORCH_KERNEL_TLS_KEY", "key"); ("QORCH_KERNEL_TRANSPARENCY_LOG_URL", "https://log");
   ("QORCH_KERNEL_TRANSPARENCY_API_KEY", "k"); ("QORCH_KERNEL_TRANSPARENCY_CLIENT_CERT", "cc");
   ("QORCH_KERNEL_TRANSPARENCY_CLIENT_KEY", "ck")].

(** An empty database, and files without the table. *)
#[local] Existing Instance SideTable.Demo.demo_table.
#[local] Existing Instance SideTable.Demo.demo_schema.

Definition log_answers : LogBootAnswers (P := PgStore.Demo.PgTable) := {|
  la_postgres := fun _ => inr PgStore.Demo.migrated; la_now := 7; la_listen_addr_ok := true;
  la_tls := fun _ _ _ => inr tt |}.

Definition log_env (more : list (string * string)) : Env := Settings.Demo.env_of
  (more ++ [("QORCH_TRANSPARENCY_SIGNING_KEY_B64", seed_b64); ("QORCH_TRANSPARENCY_API_KEY", "k");
            ("QORCH_TRANSPARENCY_KERNEL_VERIFYING_KEY_B64", seed_b64)]).

Definition prod_log_env : Env := log_env
  [("QORCH_ENV", "PROD"); ("QORCH_TRANSPARENCY_TLS_CERT_PATH", "cert");
   ("QORCH_TRANSPARENCY_TLS_KEY_PATH", "key"); ("QORCH_TRANSPARENCY_DB_URL", "postgres://db");
   ("QORCH_TRANSPARENCY_LOG_ED25519_PRIVATE", seed_b64);
   ("QORCH_TRANSPARENCY_MCP_AUDIT_ED25519_PUBLIC", seed_b64)].

Lemma production_kernel_is_armed_witness : exists k,
  kernel_boot kernel_env kernel_answers = Ok k /\ ks_key_backend (bk_settings k) = Gcp /\
  exists mtls, bk_ingress k = Rustls mtls.
Proof.
  destruct (kernel_boot kernel_env kernel_answers) as [k|e|] eqn:E; [|vm_compute in E; discriminate E..].
  exists k. split; [reflexivity|].
  destruct (production_kernel_is_armed kernel_env kernel_answers k E ltac:(vm_compute; reflexivity))
    as (Hb & _ & _ & Hi & _).
  exact (conj Hb Hi).
Defined.

Lemma production_log_is_closed_witness : exists l,
  log_boot prod_log_env log_answers = Ok l /\ ls_api_key (bl_settings l) <> "" /\
  exists mtls, bl_ingress l = Rustls mtls.
Proof.
  destruct (log_boot prod_log_env log_answers) as [l|e|] eqn:E; [|vm_compute in E; discriminate E..].
  exists l. split; [reflexivity|].
  destruct (production_log_is_closed prod_log_env log_answers l E ltac:(vm_compute; reflexivity))
    as (Hk & _ & Hi & _).
  exact (conj Hk Hi).
Defined.

Lemma booted_services_agree_witness : exists k c mtls l,
  kernel_boot kernel_env kernel_answers = Ok k /\ bk_transparency_client k = Some (c, mtls) /\
  log_boot (log_env []) log_answers = Ok l /\
  exists es' e, es' !! 3%nat = Some e /\ ai_payload e = ti_payload TlogClient.Demo.decision /\
    inps `prefix_of` es'.
Proof.
  destruct (kernel_boot kernel_env kernel_answers) as [k|e|] eqn:Ek; [|vm_compute in Ek; discriminate Ek..].
  destruct (log_boot (log_env []) log_answers) as [l|e|] eqn:El; [|vm_compute in El; discriminate El..].
  pose proof Ek as Ek'. vm_compute in Ek'. injection Ek' as Ek'. pose proof El as El'.
  vm_compute in El'. injection El' as El'.
  destruct (bk_transparency_client k) as [[c mtls]|] eqn:Ec; [|by rewrite <-Ek' in Ec].
  exists k, c, mtls, l. split; [reflexivity|]. split; [exact Ec|]. split; [reflexivity|].
  pose proof Ec as Ec'. rewrite <-Ek' in Ec'. cbn in Ec'. injection Ec' as Ec' _.
  pose proof (booted_services_agree kernel_env kernel_answers k c mtls (log_env []) log_answers l
    (world inps) inps TlogClient.Demo.decision (verifying_key_to_bytes (verifying_key (bk_signing_key k)))
    Ek Ec El eq_refl ltac:(rewrite <-Ek', <-El'; vm_compute; reflexivity)
    ltac:(rewrite <-Ec', <-El'; reflexivity) world_serves ltac:(by vm_compute) ltac:(discriminate)) as Ha.
  assert (fst (log_client c (bl_config l) (ls_api_key (bl_settings l)) TlogClient.Demo.decision (world inps)) =
    Some (inr {| to_leaf_index := 3; to_idempotent_replay := false |})) as Hr
    by (rewrite <-Ec', <-El'; vm_compute; reflexivity).
  destruct (log_client _ _ _ _ _) as [r w']. simpl in Hr. subst r.
  destruct Ha as (es' & e & _ & Hp & He & _ & Hpay). exists es', e.
  split; [exact He|]. split; [exact Hpay|exact Hp].
Defined.

End Demo.
