(* ===== verification/LogRestart.v ===== *)
(** * Restarting the transparency log

    The part of [main] of [crates/services/transparency-log/src/main.rs] around the
    reconstruction: the state a booted log starts from ([AppState::new] over what
    [Boot.log_boot] opened) and the indices it rebuilds before it listens, an error of
    which it only logs.  With [WaveReboot] this says what the sessions recorded before a
    restart are after it ([restarted_log_serves_its_sessions]). *)

From S2P Require Import Prelude RustStr Float64 Crates Merkle MerkleSpec HashTree Store Json Serde Token Revoke.
From S2P Require Import Async Sth Tlog PgStore Auth CircuitBreaker Client TlogClient.
From S2P Require Import WaveContext WaveSession WaveRoutes WaveTheorems SideTable WaveReboot AuditRoutes Settings Boot.

#[local] Open Scope string_scope.

(** [Arc<dyn TransparencyStore>]: one store or the other. *)
Definition dyn_store {A B} `{TransparencyStore A} `{TransparencyStore B} : TransparencyStore (A + B) := {|
  ts_append s inp := match s with
                     | inl a => let (r, a) := ts_append a inp in (r, inl a)
                     | inr b => let (r, b) := ts_append b inp in (r, inr b)
                     end;
  ts_get_leaf s i := match s with inl a => ts_get_leaf a i | inr b => ts_get_leaf b i end;
  ts_current_size s := match s with inl a => ts_current_size a | inr b => ts_current_size b end;
  ts_current_root s := match s with inl a => ts_current_root a | inr b => ts_current_root b end;
  ts_build_inclusion_proof s i :=
    match s with inl a => ts_build_inclusion_proof a i | inr b => ts_build_inclusion_proof b i end;
  ts_load_all_payloads s :=
    match s with inl a => ts_load_all_payloads a | inr b => ts_load_all_payloads b end
|}.

#[local] Existing Instance dyn_store.

Section LogRestart.
Context `{Sha256} `{Ed25519} `{!Ed25519Keys} `{Hex} `{B64Url} `{B64Std} `{SerdeJson} `{Axum} `{HmacSha256}.
Context {P C D : Type} `{Postgres P} `{LruLaws WaveSessionLeafSide C} `{SqliteTable D} `{SqliteSchema D}.

Abbreviation WorldT := (WWorld (Inner + P) C D).

(** [AppState::new] and [with_wave_session_detail_store]; [c] is the empty cache. *)
Definition log_state (l : BootedLog (P := P) (D := D)) (c : C) : WorldT :=
  Build_WWorld (bl_store l) ∅ ∅ c ∅ (Some (bl_detail l)).

(** The state in which the log begins to listen, whatever the reconstruction answered. *)
Definition log_start (l : BootedLog (P := P) (D := D)) (now : f64) (c : C) : WorldT :=
  snd (run (reconstruct_wave_sessions_from_ledger (bl_wave l) now) (log_state l c)).

Context `{!SqliteLaws D} `{!SerdeJsonCorrect} `{!HexCorrect} `{!SqliteReliable}.

(** C25.  A restart loses no session: whatever the environment it boots under, a log that
    boots over a ledger it can read and a detail file that can be opened, missing or
    left by an earlier process, answers for every wave with a session in the ledger --
    each session as its row in the file, if it has one, and as its leaf otherwise. *)
Theorem restarted_log_serves_its_sessions env a l now (c : C) lps conn s0 :
  log_boot env a = Ok l -> lru_view c = ∅ ->
  ts_load_all_payloads (bl_store l) = Ok lps -> well_listed lps ->
  sql_open (default ":memory:" (ls_wave_session_detail_sqlite_path (bl_settings l))) = inr conn ->
  shelved conn s0 -> shelf_ok s0 ->
  (forall x r mac, x ∈ lps -> leaf_kind (lp_payload x) = SessionLeaf r mac -> session_ok r) ->
  (forall x y, x ∈ lps -> y ∈ lps -> leaf_hash (lp_payload x) = leaf_hash (lp_payload y) ->
     lp_payload x = lp_payload y) ->
  forall wave_id, sessions_of wave_id lps <> [] ->
    exists resp w', run (verify_session (bl_wave l) wave_id) (log_start l now c) = (Ok resp, w') /\
      vw_chain resp = sort_entries
        (omap (fun lp => chain_entry (lp_leaf_index lp) <$> kept_side (bl_wave l) (default ∅ s0) lp)
           (sessions_of wave_id lps)).
Proof.
  intros (_ & Hside & pk & Hfpr)%log_boot_opens Hc Hload Hlist Hopen Hv Hok Hses Hcol.
  assert (shelved (bl_detail l) (Some (default ∅ s0))) as Hv'.
  { unfold open_side_table, side_in_memory in Hside. apply map_err_Ok in Hside.
    assert (side_open (default ":memory:" (ls_wave_session_detail_sqlite_path (bl_settings l))) = Ok (bl_detail l))
      as Ho by by destruct (ls_wave_session_detail_sqlite_path (bl_settings l)).
    apply side_open_view in Ho as (conn' & Hc' & Hview). rewrite Hopen in Hc'. injection Hc' as <-.
    unfold shelved in *. rewrite Hview, Hv. destruct s0; simpl; [done|]. unfold rows_of. by rewrite fmap_empty. }
  destruct (reboot_serves_the_rows_or_the_leaves (bl_wave l) now (log_state l c) lps (bl_detail l) (default ∅ s0)) as (n & w' & Hr & Hw);
    try done.
  - destruct s0; [done|]. intros ? h p [= <-]. by rewrite lookup_empty.
  - rewrite Hfpr. unfold fingerprint_of. apply plain_utf8, hex_plain.
  - intros wave_id Hne. unfold log_start. rewrite Hr. by apply Hw.
Qed.

End LogRestart.

(** ** Witness *)

Module Demo.
Import SideTable.Demo WaveReboot.Demo.
#[local] Existing Instance demo_ed25519.
#[local] Existing Instance demo_hex.
#[local] Existing Instance demo_b64.
#[local] Existing Instance DemoJson.demo_serde.
#[local] Existing Instance TlogClient.Demo.axum.
#[local] Existing Instance Boot.Demo.std.
#[local] Existing Instance Boot.Demo.keys.
#[local] Existing Instance SideTable.Demo.sha.
#[local] Existing Instance WaveTheorems.Demo.keyed.
#[local] Existing Instance WaveTheorems.Demo.map_cache.
#[local] Existing Instance SideTable.Demo.map_cache_laws.
#[local] Existing Instance SideTable.Demo.demo_table.
#[local] Existing Instance PgStore.Demo.table_pg.

(** The file [detail.db], left with the row of the signed session. *)
Definition files (path : string) : Db :=
  if String.eqb path "detail.db" then Some (rows_of {[leaf_key := (signed, 1%Z)]}) else None.
#[local] Instance file_schema : SqliteSchema Db := schema_over files.
#[local] Instance file_laws : SqliteLaws Db := laws_over files.

#[local] Instance file_reliable : SqliteReliable (D := Db).
Proof. split; [intros k d m Hv|intros k row d m Hv]; change (d = Some m) in Hv; by subst d. Qed.

(** The production database, holding the session's leaf. *)
Definition answers : LogBootAnswers (P := PgStore.Demo.PgTable) := {|
  la_postgres := fun _ => inr ledger; la_now := 7; la_listen_addr_ok := true;
  la_tls := fun _ _ _ => inr tt |}.

Definition restart_env : Env := Boot.Demo.log_env
  [("QORCH_TRANSPARENCY_DB_URL", "postgres://db"); ("QORCH_TRANSPARENCY_WAVE_DETAIL_SQLITE_PATH", "detail.db")].

Lemma restarted_log_serves_its_sessions_witness : exists l resp w',
  log_boot restart_env answers = Ok l /\
  run (verify_session (bl_wave l) "w-1") (log_start l (f64_of_Z 5) ∅) = (Ok resp, w') /\
  (fun e => (ce_leaf_index e, ce_key_fingerprint_hex e, ce_signature_type e)) <$> vw_chain resp =
    [(1%N, "cd", SigEd25519)].
Proof.
  assert (is_ok (log_boot restart_env answers) = true) as Hok by (vm_compute; reflexivity).
  destruct (log_boot restart_env answers) as [l|e|] eqn:E; [|discriminate Hok..]. clear Hok.
  pose proof (log_boot_opens restart_env answers l E) as (Hst & _).
  pose proof (log_boot_ok restart_env answers l E) as (Hset & _).
  assert (ls_db_url (bl_settings l) = Some "postgres://db" /\
          ls_wave_session_detail_sqlite_path (bl_settings l) = Some "detail.db") as [Hurl Hpath].
  { revert Hset. generalize (bl_settings l). intros s Hs. vm_compute in Hs. injection Hs as <-. by split. }
  rewrite Hurl in Hst. injection Hst as Hst.
  destruct (restarted_log_serves_its_sessions restart_env answers l (f64_of_Z 5) (∅ : gmap N WaveSessionLeafSide)
    listed (Some (rows_of {[leaf_key := (signed, 1%Z)]})) (Some {[leaf_key := (signed, 1%Z)]}) E)
    with (wave_id := "w-1") as (resp & w' & Hr & Hc).
  - reflexivity.
  - rewrite <-Hst. exact (proj1 ledger_lists).
  - exact (proj2 ledger_lists).
  - rewrite Hpath. reflexivity.
  - reflexivity.
  - exact signed_ok.
  - intros x r mac ->%list_elem_of_singleton. cbn [lp_payload]. rewrite leaf_is_session. intros [= <- _].
    apply (proj1 (side_of_ok Pass)).
  - by intros x y ->%list_elem_of_singleton ->%list_elem_of_singleton.
  - vm_compute. discriminate.
  - exists l, resp, w'. split; [reflexivity|]. split; [exact Hr|]. rewrite Hc. vm_compute. reflexivity.
Defined.

End Demo.
