(* ===== verification/Tls.v ===== *)
(** * Certificates: what the listeners and the clients make of their PEM files

    Models [build_server_config] of [crates/services/safety-kernel/src/tls.rs] and
    [crates/services/transparency-log/src/tls.rs], which differ in the key formats
    they take, and [make_client_config] of
    [crates/adapters/safety_kernel_client/src/mtls.rs].  Reading PEM, judging a trust
    anchor and accepting a chain with its key are [rustls]'s, the class [Rustls].  An
    [anyhow] error is its chain of contexts, outermost first. *)

From S2P Require Import Prelude RustStr Float64 Crates Merkle Json Serde Token Revoke.
From S2P Require Import Async Sth Tlog Auth CircuitBreaker Client TlogClient.
From S2P Require Import WaveContext WaveSession WaveRoutes AuditRoutes Settings Boot.

#[local] Open Scope string_scope.

Inductive PrivateKeyDer := Pkcs8 (der : list byte) | Pkcs1 (der : list byte) | Sec1 (der : list byte).

(** A PEM reader gives its blocks one by one, each read or broken. *)
Class RustlsLib := {
  Cert : Type;
  Anchor : Type;
  pem_certs : list byte -> list (string + Cert);
  pem_pkcs8 : list byte -> list (string + list byte);
  pem_rsa : list byte -> list (string + list byte);
  pem_ec : list byte -> list (string + list byte);
  pem_private_key : list byte -> string + option PrivateKeyDer;  (* the first key of any form *)
  anchor_of : Cert -> string + Anchor;                           (* [RootCertStore::add] *)
  verifier_build : list Anchor -> string + unit;
  single_cert : list Cert -> PrivateKeyDer -> string + unit;
  client_auth_cert : list Anchor -> list Cert -> PrivateKeyDer -> string + unit;
  webpki_roots : list Anchor
}.

Section Tls.
Context `{RustlsLib}.
Context (fs : string -> string + list byte).   (* opening a file, and what is in it *)

Definition context {A} (c : string) (r : res string A) : res string A :=
  map_err (fun e => c +:+ ": " +:+ e) r.

Definition of_sum {E A} (x : E + A) : res E A := match x with inl e => Err e | inr a => Ok a end.

(** [collect] of the reader into a [Result]. *)
Fixpoint all_blocks {E A} (l : list (E + A)) : res E (list A) :=
  match l with
  | [] => Ok []
  | x :: l => let? a := of_sum x in let? r := all_blocks l in Ok (a :: r)
  end.

(** ** The listeners *)

Record ServerConfig := {
  sc_chain : list Cert;
  sc_key : PrivateKeyDer;
  sc_client_roots : option (list Anchor)       (* what a client certificate must chain to *)
}.

Definition load_cert_chain (path : string) : res string (list Cert) :=
  let? bytes := of_sum (fs path) in
  let? certs := context "parse cert PEM" (all_blocks (pem_certs bytes)) in
  match certs with
  | [] => Err ("no CERTIFICATE PEM blocks in " +:+ path)
  | _ => Ok certs
  end.

(** One block of [load_private_key]: the first key of one form, if there is any. *)
Definition first_key (path what : string) (pem : list byte -> list (string + list byte))
    : res string (option (list byte)) :=
  let? bytes := of_sum (fs path) in
  let? keys := context ("parse " +:+ what +:+ " PEM") (all_blocks (pem bytes)) in
  Ok (head keys).

(** The kernel's. *)
Definition load_private_key (path : string) : res string PrivateKeyDer :=
  let? k := first_key path "PKCS#8 key" pem_pkcs8 in
  match k with Some k => Ok (Pkcs8 k) | None =>
  let? k := first_key path "RSA key" pem_rsa in
  match k with Some k => Ok (Pkcs1 k) | None =>
  Err ("no PKCS#8 or RSA PRIVATE KEY block in " +:+ path)
  end end.

(** The log's. *)
Definition log_load_private_key (path : string) : res string PrivateKeyDer :=
  let? k := first_key path "PKCS#8 key" pem_pkcs8 in
  match k with Some k => Ok (Pkcs8 k) | None =>
  let? k := first_key path "RSA key" pem_rsa in
  match k with Some k => Ok (Pkcs1 k) | None =>
  let? k := first_key path "SEC1 EC key" pem_ec in
  match k with Some k => Ok (Sec1 k) | None =>
  Err ("no PKCS#8, RSA, or SEC1 EC PRIVATE KEY block in " +:+ path)
  end end end.

Definition load_client_ca_roots (path : string) : res string (list Anchor) :=
  let? bytes := of_sum (fs path) in
  let? cas := context "parse client-CA PEM" (all_blocks (pem_certs bytes)) in
  match cas with
  | [] => Err ("no CERTIFICATE PEM blocks in client-CA bundle " +:+ path)
  | _ => context "add client-CA to RootCertStore" (all_blocks (anchor_of <$> cas))
  end.

Definition build_server_config (load_key : string -> res string PrivateKeyDer)
    (cert_path key_path : string) (client_ca_path : option string) : res string ServerConfig :=
  let? cert_chain := context ("load cert chain " +:+ cert_path) (load_cert_chain cert_path) in
  let? key := context ("load private key " +:+ key_path) (load_key key_path) in
  match client_ca_path with
  | Some ca_path =>
    let? roots := context ("load client CA bundle " +:+ ca_path) (load_client_ca_roots ca_path) in
    let? _ := context "build WebPkiClientVerifier" (of_sum (verifier_build roots)) in
    let? _ := context "rustls with_single_cert (mTLS)" (of_sum (single_cert cert_chain key)) in
    Ok {| sc_chain := cert_chain; sc_key := key; sc_client_roots := Some roots |}
  | None =>
    let? _ := context "rustls with_single_cert (TLS-only)" (of_sum (single_cert cert_chain key)) in
    Ok {| sc_chain := cert_chain; sc_key := key; sc_client_roots := None |}
  end.

(** ** The clients *)

Inductive MtlsError :=
| EmptyCertificateChain (path : string)
| EmptyPrivateKey (path : string)
| InvalidPem (path detail : string)
| ReadFile (path source : string)
| RustlsConfig (detail : string).

Record ClientConfig := {
  cc_roots : list Anchor;
  cc_chain : list Cert;
  cc_key : PrivateKeyDer
}.

Definition read_pem (path : string) : res MtlsError (list byte) :=
  map_err (ReadFile path) (of_sum (fs path)).

(** The certificates of a file, with the word its errors carry. *)
Definition parse_certs (what : string) (bytes : list byte) (path : string) : res MtlsError (list Cert) :=
  let? certs := map_err (fun e => InvalidPem path (what +:+ " parse: " +:+ e)) (all_blocks (pem_certs bytes)) in
  match certs with
  | [] => Err (EmptyCertificateChain path)
  | _ => Ok certs
  end.

Definition parse_cert_chain : list byte -> string -> res MtlsError (list Cert) := parse_certs "cert".

Definition parse_private_key (bytes : list byte) (path : string) : res MtlsError PrivateKeyDer :=
  let? key := map_err (fun e => InvalidPem path ("key parse: " +:+ e)) (of_sum (pem_private_key bytes)) in
  ok_or (EmptyPrivateKey path) key.

Definition make_client_config (cert_path key_path : string) (ca_path : option string)
    : res MtlsError ClientConfig :=
  let? cert_bytes := read_pem cert_path in
  let? cert_chain := parse_cert_chain cert_bytes cert_path in
  let? key_bytes := read_pem key_path in
  let? key := parse_private_key key_bytes key_path in
  let? roots :=
    match ca_path with
    | Some ca =>
      let? ca_bytes := read_pem ca in
      let? added := parse_certs "CA" ca_bytes ca in
      map_err (fun e => RustlsConfig ("ca add: " +:+ e)) (all_blocks (anchor_of <$> added))
    | None => Ok webpki_roots
    end in
  let? _ := map_err (fun e => RustlsConfig ("client_auth_cert: " +:+ e))
              (of_sum (client_auth_cert roots cert_chain key)) in
  Ok {| cc_roots := roots; cc_chain := cert_chain; cc_key := key |}.

(** ** What a configuration trusts *)

Lemma all_blocks_Ok {E A} (l : list (E + A)) r : all_blocks l = Ok r <-> l = inr <$> r.
Proof.
  revert r. induction l as [|[e|a] l IH]; intros r; simpl.
  - split; [by intros [= <-]|by destruct r].
  - split; [done|by destruct r].
  - split.
    + intros (t & Ht & [= <-])%res_bind_Ok. by apply IH in Ht as ->.
    + destruct r as [|b r]; [done|]. intros [= -> Hl]. by apply IH in Hl as ->.
Qed.

(** The anchors of a bundle: every certificate of the file, each accepted. *)
Definition trusts_bundle (path : string) (roots : list Anchor) : Prop :=
  exists bytes certs, fs path = inr bytes /\ certs <> [] /\
    pem_certs bytes = inr <$> certs /\ anchor_of <$> certs = inr <$> roots.

Lemma of_sum_Ok {E A} (x : E + A) a : of_sum x = Ok a -> x = inr a.
Proof. by destruct x; intros [= ->]. Qed.

Lemma load_client_ca_roots_ok path roots : load_client_ca_roots path = Ok roots -> trusts_bundle path roots.
Proof.
  unfold load_client_ca_roots. intros (bytes & Hf%of_sum_Ok & Hr)%res_bind_Ok.
  step Hr as (cas & Hc & Hr). apply map_err_Ok, all_blocks_Ok in Hc.
  destruct cas as [|c cas]; [done|]. apply map_err_Ok, all_blocks_Ok in Hr. by exists bytes, (c :: cas).
Qed.

Lemma trusts_bundle_nonempty path roots : trusts_bundle path roots -> roots <> [].
Proof. intros (bytes & [|c certs] & _ & Hne & _ & Ha) ->; done. Qed.

(** A listener that comes up presents every certificate of its file, which has one,
    and asks its clients for a certificate exactly when a bundle is configured, whose
    anchors are the whole bundle and at least one. *)
Lemma server_config_ok load_key cert key ca c :
  build_server_config load_key cert key ca = Ok c ->
  (exists bytes, fs cert = inr bytes /\ pem_certs bytes = inr <$> sc_chain c) /\ sc_chain c <> [] /\
  load_key key = Ok (sc_key c) /\
  match ca, sc_client_roots c with
  | Some p, Some roots => trusts_bundle p roots /\ roots <> []
  | None, None => True
  | _, _ => False
  end.
Proof.
  unfold build_server_config. intros (chain & Hc%map_err_Ok & Hr)%res_bind_Ok.
  step Hr as (k & Hk & Hr). apply map_err_Ok in Hk.
  assert ((exists bytes, fs cert = inr bytes /\ pem_certs bytes = inr <$> chain) /\ chain <> []) as [Hb Hne].
  { unfold load_cert_chain in Hc. step Hc as (bytes & Hf & Hc). step Hc as (certs & Hl & Hc).
    apply of_sum_Ok in Hf. apply map_err_Ok, all_blocks_Ok in Hl.
    destruct certs; [done|]. injection Hc as <-. split; [by exists bytes|done]. }
  destruct ca as [p|].
  - step Hr as (roots & Hroots & Hr). step Hr as (u & _ & Hr). step Hr as (u' & _ & [= <-]). cbn.
    apply map_err_Ok, load_client_ca_roots_ok in Hroots.
    split_and!; [done..|]. by eapply trusts_bundle_nonempty.
  - step Hr as (u & _ & [= <-]). by split_and!.
Qed.

(** A client that comes up presents its file's certificates, and trusts the whole of
    its bundle and nothing else, or the public roots when it has none. *)
Lemma client_config_ok cert key ca c :
  make_client_config cert key ca = Ok c ->
  cc_chain c <> [] /\
  match ca with Some p => trusts_bundle p (cc_roots c) | None => cc_roots c = webpki_roots end.
Proof.
  unfold make_client_config. intros (cb & _ & Hr)%res_bind_Ok. step Hr as (chain & Hch & Hr).
  step Hr as (kb & _ & Hr). step Hr as (k & _ & Hr). step Hr as (roots & Hroots & Hr).
  step Hr as (u & _ & [= <-]). cbn. split.
  - unfold parse_cert_chain, parse_certs in Hch. step Hch as (certs & _ & Hch).
    destruct certs; [done|]. by injection Hch as <-.
  - destruct ca as [p|]; [|by injection Hroots as <-].
    step Hroots as (bytes & Hb & Hroots). step Hroots as (certs & Hc & Hroots).
    apply map_err_Ok, of_sum_Ok in Hb. apply map_err_Ok, all_blocks_Ok in Hroots.
    unfold parse_certs in Hc. step Hc as (certs' & Hl & Hc). apply map_err_Ok, all_blocks_Ok in Hl.
    destruct certs' as [|x l]; [done|]. injection Hc as <-. by exists bytes, (x :: l).
Qed.

(** ** The booted listener *)

(** What [main] learns from building the configuration. *)
Definition tls_answer (load_key : string -> res string PrivateKeyDer)
    (cert key : string) (ca : option string) : string + unit :=
  match build_server_config load_key cert key ca with
  | Ok _ => inr tt
  | Err e => inl e
  | Panic => inl ""
  end.

Lemma of_sum_total {E A} (x : E + A) : of_sum x <> Panic.
Proof. by destruct x. Qed.
#[local] Hint Resolve of_sum_total : total.

Lemma all_blocks_total {E A} (l : list (E + A)) : all_blocks l <> Panic.
Proof. induction l as [|x l IH]; simpl; auto with total. Qed.
#[local] Hint Resolve all_blocks_total : total.

Lemma build_server_config_total load_key cert key ca :
  (forall path, load_key path <> Panic) -> build_server_config load_key cert key ca <> Panic.
Proof.
  intros Hk. unfold build_server_config, load_cert_chain, load_client_ca_roots, context.
  repeat (apply res_bind_total || apply map_err_total || intros || case_match); auto with total.
Qed.

Context `{Sha256} `{Ed25519} `{!Ed25519Keys} `{Hex} `{B64Url} `{B64Std} `{SerdeJson} `{Axum}.

Lemma listen_config load_key enable cert key ca mtls :
  listen (tls_answer load_key) enable cert key ca = Ok (Rustls mtls) ->
  exists cp kp c, cert = Some cp /\ key = Some kp /\ build_server_config load_key cp kp ca = Ok c /\
    mtls = is_set (sc_client_roots c).
Proof.
  unfold listen. destruct enable; [|done]. intros (cp & Hc & Hr)%res_bind_Ok. step Hr as (kp & Hk & Hr).
  destruct cert as [?|]; [injection Hc as ->|done]. destruct key as [?|]; [injection Hk as ->|done].
  unfold tls_answer in Hr. destruct (build_server_config load_key cp kp ca) as [c|e|] eqn:Hb; [|done..].
  injection Hr as <-. exists cp, kp, c. split_and!; [done..|].
  apply server_config_ok in Hb as (_ & _ & _ & Hm). by destruct ca, (sc_client_roots c).
Qed.

(** A kernel that listens over TLS presents the certificates its settings name, and
    asks for a client certificate exactly when they name a client CA, which is then
    the whole and only thing it trusts. *)
Lemma kernel_listener env a k mtls :
  kernel_boot env a = Ok k -> ka_tls a = tls_answer load_private_key -> bk_ingress k = Rustls mtls ->
  exists cert key c, ks_tls_cert_path (bk_settings k) = Some cert /\ ks_tls_key_path (bk_settings k) = Some key /\
    build_server_config load_private_key cert key (ks_tls_client_ca_path (bk_settings k)) = Ok c /\
    sc_chain c <> [] /\
    match ks_tls_client_ca_path (bk_settings k) with
    | Some p => mtls = true /\ exists roots, sc_client_roots c = Some roots /\ trusts_bundle p roots
    | None => mtls = false
    end.
Proof.
  intros Hl%kernel_boot_listens Ha Hi. rewrite Ha, Hi in Hl.
  apply listen_config in Hl as (cp & kp & c & Hc & Hk & Hb & Hm). exists cp, kp, c. split_and!; [done..| |].
  - by apply server_config_ok in Hb as (_ & ? & _).
  - apply server_config_ok in Hb as (_ & _ & _ & Hr).
    destruct (ks_tls_client_ca_path _), (sc_client_roots c); try done. destruct Hr. eauto.
Qed.

End Tls.

(** ** A library that reads one block per byte *)

Module Demo.

Definition blocks (kind : byte) (l : list byte) : list (string + list byte) :=
  inr <$> ((fun b => [b]) <$> filter (fun b => b = kind) l).

#[local] Instance lib : RustlsLib := {
  Cert := list byte; Anchor := list byte;
  pem_certs := blocks x01; pem_pkcs8 := blocks x02; pem_rsa := blocks x03; pem_ec := blocks x04;
  pem_private_key _ := inr None; anchor_of c := inr c; verifier_build _ := inr tt;
  single_cert _ _ := inr tt; client_auth_cert _ _ _ := inr tt; webpki_roots := []
}.

(** A SEC1 key serves the log and not the kernel. *)
Example sec1_key_serves_the_log_only :
  let fs (path : string) : string + list byte := inr [x01; x04] in
  res_map sc_key (build_server_config fs (log_load_private_key fs) "c" "k" None) = Ok (Sec1 [x04]) /\
  build_server_config fs (load_private_key fs) "c" "k" None =
    Err "load private key k: no PKCS#8 or RSA PRIVATE KEY block in k" /\
  res_map sc_client_roots (build_server_config fs (log_load_private_key fs) "c" "k" (Some "ca")) =
    Ok (Some [[x01]]).
Proof. by split_and!. Qed.

End Demo.
