(* ===== verification/ReaperBoot.v ===== *)
(** * Booting the reaper, and what a booted one can touch

    Models [main] of [crates/services/safety-kernel-reaper/src/main.rs] up to its
    poll loop (which is [Reaper.poll_all]), with [fetch_self_identity] of
    [executor.rs] and [with_pinned_ca] of [kernel_client.rs].  The environment, the
    file system, the metadata server and the TLS library answer through
    [ReaperBootAnswers].  A boot error is the text [main] exits with. *)

From S2P Require Import Prelude RustStr Float64 Crates Merkle Json Serde Token CircuitBreaker Client Revoke.
From S2P Require Import Async Sth Tlog Auth TlogClient Executor NonceStore Reaper.
From S2P Require Import RevokeClients WaveContext WaveSession WaveRoutes AuditRoutes Settings Boot.

#[local] Open Scope string_scope.

Record ReaperBootAnswers := {
  ra_metadata : string -> string + TextResponse;              (* GET of a metadata URL *)
  ra_read_text : FileSystem;
  ra_read : string -> string + list byte;                     (* the CA file *)
  ra_ca_client : list byte -> option ReaperClientError;       (* building the pinned TLS client *)
  ra_nonce_file : string -> string + option string;           (* the journal, [None] if there is none *)
  ra_now : f64
}.

Definition METADATA_INSTANCE_NAME_URL : string := "http://metadata.google.internal/computeMetadata/v1/instance/name".
Definition METADATA_PROJECT_ID_URL : string := "http://metadata.google.internal/computeMetadata/v1/project/project-id".

(** The closure of [fetch_self_identity]. *)
Definition fetch (a : ReaperBootAnswers) (url : string) : option string :=
  match ra_metadata a url with
  | inl _ => None
  | inr resp =>
    if negb (is_success (tr_status resp)) then None else
    match tr_body resp with
    | inl _ => None
    | inr body => if is_empty (trim body) then None else Some (trim body)
    end
  end.

Definition fetch_self_identity (a : ReaperBootAnswers) : option ProtectedCoord :=
  instance ← fetch a METADATA_INSTANCE_NAME_URL;
  project ← fetch a METADATA_PROJECT_ID_URL;
  Some {| pc_project := project; pc_instance := instance |}.

(** [Display] of [ConfigError] and of the client's error. *)
Definition config_error_display (e : ReaperConfigError) : string :=
  match e with
  | Missing what => "missing required config: " +:+ what
  | PinnedKey why => "invalid pinned verifying key: " +:+ why
  | ProtectedEntry why => "invalid REAPER_PROTECTED_INSTANCES entry: " +:+ why
  | ArmedWithoutScratch => "REAPER_ARMED=true but no scratch target configured; refusing to arm"
  end.

Section ReaperBoot.
Context `{Sha256} `{Ed25519} `{Hex} `{B64Url} `{SerdeJson}.
(** Rust's debug formatting of a string, and the client error's [Display]. *)
Context (debug : string -> string) (client_error_display : ReaperClientError -> string).

Record BootedReaper := {
  br_config : Settings.ReaperConfig;
  br_verifier : PinnedKeyVerifier;
  br_executor : option GcpComputeExecutor;                    (* [None] is the mock *)
  br_nonces : FileNonceStore;
  br_kernel_client : ReqwestKernelClient;
  br_cert_pinned : bool;
  br_kill_recorder : option ReqwestKillRecorder
}.

Definition token_error_debug (e : KernelTokenError) : string :=
  match e with
  | Format m => "Format(KernelTokenFormatError(" +:+ debug m +:+ "))"
  | Signature m => "Signature(KernelTokenSignatureError(" +:+ debug m +:+ "))"
  | Claims m => "Claims(KernelTokenClaimsError(" +:+ debug m +:+ "))"
  | Expired m => "Expired(KernelTokenExpiredError(" +:+ debug m +:+ "))"
  end.

Definition boot_executor (a : ReaperBootAnswers) (c : Settings.ReaperConfig) : option GcpComputeExecutor :=
  if rp_armed c
  then Some (gcp_new true (rp_scratch c) (fetch_self_identity a) (rp_protected_instances c))
  else None.

Definition open_nonces (env : Env) (a : ReaperBootAnswers) : res string FileNonceStore :=
  match ra_nonce_file a (default "/var/lib/qorch-reaper/seen_nonces.log" (env "REAPER_NONCE_STORE_PATH")) with
  | inl e => Err e
  | inr f => ok_or "stream did not contain valid UTF-8" (open f [])
  end.

(** Whether the kernel's certificate is pinned. *)
Definition pin_kernel (a : ReaperBootAnswers) (c : Settings.ReaperConfig) : res string bool :=
  match rp_kernel_ca_path c with
  | None => Ok false
  | Some ca_path =>
    match ra_read a ca_path with
    | inl e => Err ("read REAPER_KERNEL_CA_PATH " +:+ ca_path +:+ ": " +:+ e)
    | inr ca_pem =>
      match ra_ca_client a ca_pem with
      | Some e => Err ("build cert-pinned kernel client: " +:+ client_error_display e)
      | None => Ok true
      end
    end
  end.

Definition reaper_boot (env : Env) (a : ReaperBootAnswers) : res string BootedReaper :=
  let? cfg := map_err config_error_display (reaper_config debug env (ra_read_text a)) in
  let? verifier := map_err (fun e => "invalid pinned verifying key: " +:+ token_error_debug e)
                     (from_pubkey_bytes (rp_pinned_pubkey cfg)) in
  let executor := boot_executor a cfg in
  let? nonces := open_nonces env a in
  let? pinned := pin_kernel a cfg in
  Ok {| br_config := cfg; br_verifier := verifier; br_executor := executor; br_nonces := nonces;
        br_kernel_client := {| kc_base_url := rp_kernel_url cfg; kc_reaper_api_key := rp_reaper_api_key cfg |};
        br_cert_pinned := pinned;
        br_kill_recorder :=
          match rp_tlog_url cfg, rp_tlog_api_key cfg with
          | Some url, Some key => Some (main_kill_recorder url key verifier)
          | _, _ => None
          end |}.

(** ** The running reaper *)

Definition reaper_settings (b : BootedReaper) : Reaper.ReaperConfig :=
  {| r_verifier := br_verifier b; r_target := rp_target (br_config b);
     Reaper.liveness_deadline_s := rp_liveness_deadline_s (br_config b);
     has_kill_recorder := is_set (br_kill_recorder b); has_kernel_client := true |}.

Section Run.
Context {O : Type} `{GceInstanceOps O}.

(** The executor behind the [dyn]: the mock acts on its lists, the guarded one on
    the cloud. *)
Definition dyn_executor (b : BootedReaper) : ComputeExecutor (MockComputeExecutor * O) :=
  let act (mock : InstanceTarget -> MockComputeExecutor -> (ExecutorError + StopOutcome) * MockComputeExecutor)
          (live : GcpComputeExecutor -> InstanceTarget -> O -> (ExecutorError + StopOutcome) * O)
          (t : InstanceTarget) (x : MockComputeExecutor * O) :=
    match br_executor b with
    | None => let (r, m) := mock t (fst x) in (r, (m, snd x))
    | Some e => let (r, o) := live e t (snd x) in (r, (fst x, o))
    end in
  {| ex_stop := act ex_stop (fun e t o => guarded_op e "stop" t o);
     ex_start := act ex_start (fun e t o => guarded_op e "start" t o) |}.

Abbreviation RWorldB := (RWorld (MockComputeExecutor * O) FileNonceStore).

(** The cloud before the boot, the mock's lists empty, nothing sent. *)
Definition start_world (b : BootedReaper) (o : O) : RWorldB :=
  Build_RWorld ({| stop_calls := []; start_calls := [] |}, o) (br_nonces b) [] [].

(** [main]: the boot, then the loop over what the kernel answers. *)
Definition reaper_run (b : BootedReaper) (a : ReaperBootAnswers)
    (pulls : list (option PendingPull * (nat -> f64))) (o : O) : list Outcome * f64 * RWorldB :=
  @poll_all _ _ _ _ _ _ _ (dyn_executor b) _ (reaper_settings b) pulls (ra_now a) (start_world b o).

(** ** Scope *)

(** What the operator's environment and the metadata server put in reach. *)
Definition in_scope (env : Env) (a : ReaperBootAnswers) (t : InstanceTarget) : Prop :=
  (exists v, env "REAPER_ARMED" = Some v /\ to_ascii_lowercase v = "true") /\
  env "REAPER_SCRATCH_PROJECT" = Some (project t) /\ env "REAPER_SCRATCH_ZONE" = Some (zone t) /\
  env "REAPER_SCRATCH_INSTANCE" = Some (instance t) /\
  fetch_self_identity a <> Some {| pc_project := project t; pc_instance := instance t |} /\
  exists l, parse_protected_instances debug env = Ok l /\
    {| pc_project := project t; pc_instance := instance t |} ∉ l.

(** One operation on the cloud. *)
Definition cloud_op (ok : InstanceTarget -> Prop) (o o' : O) : Prop :=
  exists t op, ok t /\ (op = "stop" \/ op = "start") /\ o' = snd (instance_op t op o).

Lemma reaper_config_scope env fs c :
  reaper_config debug env fs = Ok c -> parse_protected_instances debug env = Ok (rp_protected_instances c) /\
  (rp_armed c = true -> exists v, env "REAPER_ARMED" = Some v /\ to_ascii_lowercase v = "true") /\
  (forall t, rp_scratch c = Some t ->
     env "REAPER_SCRATCH_PROJECT" = Some (project t) /\ env "REAPER_SCRATCH_ZONE" = Some (zone t) /\
     env "REAPER_SCRATCH_INSTANCE" = Some (instance t)).
Proof.
  unfold reaper_config. intros (url & _ & Hr)%res_bind_Ok. step Hr as (key & _ & Hr).
  step Hr as (pk & _ & Hr). step Hr as (p & _ & Hr). step Hr as (z & _ & Hr). step Hr as (i & _ & Hr).
  match type of Hr with (if ?b then _ else _) = _ => destruct b; [done|] end.
  step Hr as (l & -> & [= <-]). cbn. split; [done|]. split.
  - destruct (non_blank env "REAPER_ARMED") as [v|] eqn:E; [|done]. apply non_blank_some in E as [E _].
    intros Hv%String.eqb_eq. by exists v.
  - intros t. destruct (non_blank env "REAPER_SCRATCH_PROJECT") as [sp|] eqn:E1; [|done].
    destruct (non_blank env "REAPER_SCRATCH_ZONE") as [sz|] eqn:E2; [|done].
    destruct (non_blank env "REAPER_SCRATCH_INSTANCE") as [si|] eqn:E3; [|done]. intros [= <-].
    by apply non_blank_some in E1 as [? _], E2 as [? _], E3 as [? _].
Qed.

Lemma reaper_boot_ok env a b : reaper_boot env a = Ok b ->
  reaper_config debug env (ra_read_text a) = Ok (br_config b) /\
  br_executor b = boot_executor a (br_config b) /\
  from_pubkey_bytes (rp_pinned_pubkey (br_config b)) = Ok (br_verifier b) /\
  open_nonces env a = Ok (br_nonces b) /\ (br_cert_pinned b = is_set (rp_kernel_ca_path (br_config b))).
Proof.
  unfold reaper_boot. intros (c & Hc & Hr)%res_bind_Ok. step Hr as (v & Hv & Hr). step Hr as (n & Hn & Hr).
  step Hr as (p & Hp & [= <-]). cbn.
  destruct (reaper_config _ _ _) as [c'|e|]; [|done..]. injection Hc as ->.
  destruct (from_pubkey_bytes _) as [v'|e|]; [|done..]. injection Hv as ->. split_and!; try done.
  unfold pin_kernel in Hp. destruct (rp_kernel_ca_path c) as [path|]; [|by injection Hp as <-].
  destruct (ra_read a path); [done|]. destruct (ra_ca_client a _); [done|]. by injection Hp as <-.
Qed.

(** One call of the executor is at most one operation in scope. *)
Lemma dyn_executor_in_scope env a b (x x' : MockComputeExecutor * O) :
  reaper_boot env a = Ok b -> @acted _ (dyn_executor b) x x' ->
  rtc (cloud_op (in_scope env a)) (snd x) (snd x').
Proof.
  intros Hb (t & Ht). apply reaper_boot_ok in Hb as (Hc & He & _).
  apply reaper_config_scope in Hc as (Hl & Ha & Hs). unfold boot_executor in He.
  assert (forall op, op = "stop" \/ op = "start" ->
    forall e, br_executor b = Some e -> rtc (cloud_op (in_scope env a)) (snd x) (snd (guarded_op e op t (snd x)))) as Hlive.
  { intros op Hop e Hbe. rewrite Hbe in He. destruct (rp_armed _); [|done]. injection He as ->.
    destruct (guard_is_airtight (gcp_new true (rp_scratch (br_config b)) (fetch_self_identity a)
      (rp_protected_instances (br_config b))) op t (snd x)) as [(_ & Hscr & Hden & ->)|(_ & err & -> & _)]; [|done].
    cbn in Hscr. apply rtc_once. exists t, op.
    split_and!; [|done..]. destruct (Hs t Hscr) as (Hp & Hz & Hi). split_and!; [by apply Ha|done..| |].
    - intros Hme. apply Hden. eexists. split; [by left|]. by cbn.
    - eexists. split; [done|]. intros Hin. apply Hden. eexists. split; [by right|]. by cbn. }
  cbn in Ht. destruct (br_executor b) as [e|]; [|by destruct Ht as [->| ->]].
  destruct Ht as [->| ->].
  - pose proof (Hlive "stop" ltac:(auto) e eq_refl) as Hr. by destruct (guarded_op _ _ _ _).
  - pose proof (Hlive "start" ltac:(auto) e eq_refl) as Hr. by destruct (guarded_op _ _ _ _).
Qed.

(** C28.  The privilege is scoped for the life of the process: whatever tokens,
    generations, failures and clock readings a booted reaper meets, the cloud only
    ever goes through stops and starts of an instance the operator armed the reaper
    for and named as scratch, and that is neither the host it found itself on (what
    the metadata server named, where it answered) nor a configured protected one; without all that nothing in the cloud changes. *)
Theorem booted_reaper_stays_in_scope env a b pulls (o : O) :
  reaper_boot env a = Ok b ->
  let '(_, _, w) := reaper_run b a pulls o in rtc (cloud_op (in_scope env a)) o (snd (executor w)).
Proof.
  intros Hb. unfold reaper_run.
  pose proof (@poll_all_acted _ _ _ _ _ _ _ (dyn_executor b) _ (reaper_settings b) pulls (ra_now a)
    (start_world b o)) as Hrun.
  destruct (poll_all _ _ _ _) as [[os l] w]. cbn [snd] in Hrun.
  change o with (snd (executor (start_world b o))). revert Hrun.
  generalize (executor (start_world b o)) (executor w). intros x x' Hrun.
  induction Hrun as [x|x y z Hxy _ IH]; [done|]. etrans; [|exact IH]. by eapply dyn_executor_in_scope.
Qed.

(** A reaper booted disarmed still completes a kill as far as anyone else can see:
    the mock's success is recorded, acknowledged as stopped and its key burned,
    while no instance was touched. *)
Lemma disarmed_reaper_reports_the_kill b token g now_s c (w : RWorldB) :
  br_executor b = None ->
  kill_verified (reaper_settings b) token now_s c -> is_seen (kill_key c) (nonces w) = false ->
  rc_target_generation c = g -> hd Written (coming (nonces w)) = Written ->
  let (out, w') := @handle_kill_candidate _ _ _ _ _ _ _ (dyn_executor b) _ (reaper_settings b) token g now_s w in
  (exists so, out = Executed (rc_run_id c) so) /\ snd (executor w') = snd (executor w) /\
  is_seen (kill_key c) (nonces w') = true /\ acks w' = (acks w ++ [(rc_run_id c, "stopped")])%list.
Proof.
  intros Hn Hc Hseen <- Hw.
  rewrite (@handle_kill_verified _ _ _ _ _ _ _ (dyn_executor b) _ _ _ _ _ _ c Hc), Hseen, N.eqb_refl.
  unfold execute_kill. cbn [ex_stop dyn_executor]. rewrite Hn. cbn. split_and!; [eauto|done| |done].
  unfold file_record. cbn in Hseen. apply bool_decide_eq_false in Hseen. rewrite decide_False by done.
  rewrite Hw. cbn. apply bool_decide_eq_true. set_solver.
Qed.

End Run.
End ReaperBoot.

(** ** Witnesses *)

Module Demo.
Import Tlog.Demo.
#[local] Existing Instance demo_hash.
#[local] Existing Instance demo_ed25519.
#[local] Existing Instance demo_hex.
#[local] Existing Instance demo_b64.
#[local] Existing Instance DemoJson.demo_serde.

(** A cloud that keeps what was asked of it. *)
#[local] Instance ops : GceInstanceOps (list (string * string)) := fun t op o =>
  (inr {| so_instance := instance t; so_op_id := op; so_prev_state := "UNKNOWN" |}, (o ++ [(instance t, op)])%list).

Definition reaper_env (more : list (string * string)) : Env := Settings.Demo.env_of
  (more ++ [("REAPER_KERNEL_URL", "https://kernel"); ("QORCH_KERNEL_API_KEY_REAPER", "r");
            ("REAPER_PINNED_KEY_HEX", Boot.Demo.seed_b64); ("REAPER_TARGET_PROJECT", "p");
            ("REAPER_TARGET_ZONE", "z"); ("REAPER_TARGET_INSTANCE", "box");
            ("REAPER_PROTECTED_INSTANCES", "p/db, p/kernel")]).

Definition armed_env : Env := reaper_env
  [("REAPER_ARMED", "TRUE"); ("REAPER_SCRATCH_PROJECT", "p"); ("REAPER_SCRATCH_ZONE", "z");
   ("REAPER_SCRATCH_INSTANCE", "box")].

Definition reaper_answers (self : string) : ReaperBootAnswers := {|
  ra_metadata url := inr {| tr_status := 200; tr_status_display := "200 OK";
    tr_body := inr (if String.eqb url METADATA_PROJECT_ID_URL then "p" else self) |};
  ra_read_text _ := inl "none"; ra_read _ := inl "none"; ra_ca_client _ := None;
  ra_nonce_file _ := inr None; ra_now := f64_of_Z 0 |}.

Definition dark : list (option PendingPull * (nat -> f64)) :=
  [(None, fun _ => f64_of_Z 100); (None, fun _ => f64_of_Z 400)].

Definition booted (env : Env) (self : string) : res string BootedReaper :=
  reaper_boot (fun s => s) (fun _ => "") env (reaper_answers self).

(** Armed, the box is stopped once the kernel has been dark for five minutes. *)
Lemma booted_reaper_stays_in_scope_witness : exists b os l w,
  booted armed_env "host" = Ok b /\
  reaper_run b (reaper_answers "host") dark [] = (os, l, w) /\ snd (executor w) = [("box", "stop")] /\
  rtc (cloud_op (in_scope (fun s => s) armed_env (reaper_answers "host"))) [] (snd (executor w)).
Proof.
  destruct (booted armed_env "host") as [b|e|] eqn:E; [|vm_compute in E; discriminate E..].
  pose proof (booted_reaper_stays_in_scope (fun s => s) (fun _ => "") armed_env (reaper_answers "host") b
    dark ([] : list (string * string)) E) as Hs.
  destruct (reaper_run b (reaper_answers "host") dark []) as [[os l] w] eqn:Er.
  exists b, os, l, w. split; [reflexivity|]. split; [exact Er|]. split; [|exact Hs].
  assert (snd (executor (snd (reaper_run b (reaper_answers "host") dark ([] : list (string * string))))) =
    [("box", "stop")]) as Hx by (vm_compute in E; injection E as <-; vm_compute; reflexivity).
  rewrite Er in Hx. exact Hx.
Defined.

(** On the box itself the same poll is refused, and disarmed it is the mock's. *)
Example own_host_is_spared : forall b,
  booted armed_env "box" = Ok b ->
  snd (executor (snd (reaper_run b (reaper_answers "box") dark ([] : list (string * string))))) = [].
Proof. intros b E. vm_compute in E. injection E as <-. vm_compute. reflexivity. Qed.

Example disarmed_fails_closed_on_the_mock : forall b,
  booted (reaper_env []) "host" = Ok b ->
  let '(os, _, w) := reaper_run b (reaper_answers "host") dark ([] : list (string * string)) in
  snd (executor w) = [] /\ acks w = [("failclosed_box", "stopped_failclosed")] /\ length os = 1%nat.
Proof. intros b E. vm_compute in E. injection E as <-. vm_compute. by split_and!. Qed.

End Demo.
